(* ===== verification/_CoqProject ===== *)
-Q . S2P
Prelude.v
Floats.v
Endian.v
Targets.v
Sha256.v
CpuVerify.v
Midstate.v
Merkle.v
Registry.v
Normalizer.v
Cache.v
Scheduler.v
FileSys.v
Outbox.v
SubmitRouter.v
Json.v
Ledger.v
Hex.v
Text.v
GbtSubmitter.v
Adapters.v
DeviceSha.v
Device.v
DeviceTypes.v
HitRing.v
LaunchPlan.v
DeviceDiag.v
Net.v
Sockets.v
SocketsWin.v
Tls.v
StratumRunner.v
Config.v
Threads.v
GbtRunner.v
Wellformed.v
Obs.v
MetricsServer.v
DeviceQuery.v
Runner.v
Tools.v
Miner.v
Main.v
System.v
Guarantees.v
Refinement.v
Pipeline.v
Conformance.v
Regtest.v
