(* ===== verification/Prelude.v ===== *)
(** * The multi-pool miner: a verification development

    The program (under src/) mines Bitcoin on a GPU for several pools at once.  This
    library models its own logic as executable definitions and proves what each part
    guarantees.  Paths are relative to the repository.

    ** The program and its parts

    - A pool session ([adapters/stratum_runner.cc] over [net/stratum_client.cc]) or a node
      poller ([adapters/gbt_runner.cc] over [net/rpc_client.cc]) receives jobs.  Each job is
      normalised ([normalize/]) and queued in an adapter ([adapters/stratum_adapter.cc],
      [gbt_adapter.cc]).
    - The main loop ([tools/stratum_registry_runner.cpp]) polls the adapters into the slots
      of a registry ([registry/]), builds the device job table from the active slots, weighs
      the sources ([scheduler/]), launches the kernels ([cuda/]), drains the device's hit
      ring, verifies each hit on the CPU ([submit/cpu_verify.cc]) and routes it
      ([submit/submit_router.cc]) to the pool it came from, or as a block to the node
      ([submit/gbt_submitter.cc]).
    - Submissions are kept in an outbox and work in a ledger ([store/]); the configuration
      ([config/]) and the tuning profile ([cuda/auto_tune.cpp]) are JSON files; counters are
      in [obs/metrics.cc].

    ** Files of the library

    Bytes and hashes:
    - [Prelude]: machine integers as [Z] with their wrap-around, byte orders, the error
      monad [throws] and the state-and-error monad [M], list lemmas, the hint database
      [cxx], the tactics.
    - [Floats]: [float] and [double] on the Standard Library's IEEE 754 operations, the
      bounds that survive rounding, and the conversion to an integer.
    - [Endian]: [normalize/endianness.h], [rolling_caps.h].
    - [Sha256]: the reference, FIPS 180-4, its constants computed from the primes.  The
      program has three implementations, proved against it: [CpuVerify]
      ([submit/cpu_verify.cc]), module [Midstate] ([normalize/midstate.cc]) and [DeviceSha]
      ([cuda/sha256d.cuh]).
    - [Targets] ([normalize/targets.cc]), [Merkle] ([normalize/merkle.cc]), [Hex] and [Text]
      (the hexadecimal formatting and parsing that several sources repeat).

    Jobs:
    - [Registry] ([registry/]): [WorkItem], the slot table, and a step relation for one
      writer and one reader of a slot that copy its bytes one at a time.
    - [Normalizer] ([normalize/normalizer.cc], [coinbase.cc]).
    - [Adapters] ([adapters/stratum_adapter.cc], [gbt_adapter.cc], [pool_router.cc],
      [pool_profiles.cc]): class [Adapter] is [AdapterBase]; the router's theorems are
      proved from [AdapterLaws], which both adapters and their sum satisfy.
    - [Scheduler] ([scheduler/scheduler.h]), [Cache] ([cache/]).

    Device:
    - [Device] ([cuda/engine.cu]): job table, header assembly, the kernels as blocks of
      threads in any order, the hit ring and its drain.
    - [DeviceDiag] (the flush counters, blocks with too many hits, the diagnostic kernels and
      the life of the ring's memory), [DeviceTypes] (every operation of the device keeps its
      records within their widths).
    - [DeviceQuery]: the queries of [engine.cu], the occupancy and the hash rate of [main],
      over the values the CUDA runtime reports, record [DeviceProps].
    - [HitRing] ([cuda/hit_ring.h]), [LaunchPlan] ([cuda/launch_plan.h], [auto_tune.h],
      [auto_tune.cpp]).

    Outside world:
    - [FileSys]: files as byte strings, the environment's refusals as an [Env].
    - [Json]: nlohmann::json is a parameter, class [Json] with [JsonLaws]; [Json.Concrete]
      is one instance, for evaluation.  A dump throws on a string that is not UTF-8
      ([dump_text]); where the strings of a document are constants or have been parsed, the
      definitions take [dump] itself.
    - [Net] ([net/stratum_client.cc], [rpc_client.cc]): class [ISocket] is [net/socket.h],
      [SocketLaws] what its comment promises; [Script] is a scripted peer.
    - [Sockets] ([net/socket_posix.cc]), [SocketsWin] ([socket_win.cc]) and [Tls]
      ([socket_openssl.cc]): the implementations of [ISocket] over classes of system calls
      ([Sys], [Winsock], [Ssl]) whose laws state the documented behaviour.  The two plain
      sockets discharge [SocketLaws]; the two branches of the TLS socket are two instances of
      one class, [Tls.Tcp], that discharge its laws.
    - [StratumRunner] ([adapters/stratum_runner.cc], [submit/stratum_submitter.h]),
      [GbtRunner] ([adapters/gbt_runner.cc]), [GbtSubmitter] ([submit/gbt_submitter.cc]),
      [SubmitRouter], [Outbox], [Ledger], [Config], [Obs] after the files of those names;
      [Threads]: the steps of a session thread and of the main thread's [submitShare], with
      the client they share and the lock, run by any schedule;
      [Wellformed]: whatever a pool or a node sends, the jobs queued are well formed.
    - [MetricsServer] ([obs/metrics.cc], the HTTP loop of both platforms), [Tools] ([obs/log.cc],
      [tools/stratum_probe.cpp], [tools/cuda_bench.cpp]).

    The assembled miner ([tools/stratum_registry_runner.cpp]):
    - [Runner]: the pieces of [main] that compute, in the order of the source, each with
      the lines it comes from.
    - [Miner]: the state of [main] as one record, and start-up, the poll of all sources, a
      mining round, a console command and the metrics dump as functions of it.
    - [Main]: around the loop: the choice of the mode, the command-line mode as a whole, and
      the end of the program, which threads still run when the objects they use are gone.
    - [System]: the phases of the main thread interleaved with messages of the pools, the
      sessions' events and the node's templates, as the step relation [sys_step]; its
      invariant [sys_inv].
    - [Guarantees]: the start-up establishes the invariant, and what follows for every
      reachable state.
    - [Refinement]: the specification of the whole, a book of delivered work and verified
      shares, and the forward simulation of [System] by it.
    - [Pipeline]: notification to device job, the header the device hashes for it, and the
      mining round as a whole.
    - [Conformance]: the repository's unit tests, evaluated on the definitions; [Regtest]: the
      two tests against a running node, for any node.

    ** What the theorems show

    - Hashing: the three SHA-256 implementations equal the reference
      ([sha256_correct], [midstate_finish_correct], [device_sha256d_correct]); the length
      field of the CPU version is wrong from 2^37 bytes on ([sha256_length_defect]).
    - Numbers: compact targets, byte-order conversions, the digest comparison and the Merkle
      root have their mathematical meaning ([compact_correct], [endian_roundtrip],
      [isHashLEQTarget_correct], [merkle_root_correct]); the exponents below three, where
      the expansion is wrong or stores out of bounds, are in [compact_small_exponent].
    - Jobs: normalisation ([normalizeJob_correct]), messages to jobs ([notify_queues_job],
      [template_queues_job]), adapters to slots ([poll_sources_drains]), the registry's
      history and the age of its snapshots ([registry_history], [snapshot_not_stale]; that
      a snapshot can be torn, even inside a field, is [snapshot_may_tear]), selection ([select_spec]) and
      back-pressure ([penalty_dynamics]).
    - Device: a batch launch that CUDA accepts reports each solution once whatever the order
      of its blocks and threads ([batch_launch_reports_solutions]), the ring is a queue until it overruns
      ([drain_is_fifo]), the host ring refines a bounded queue ([ring_refines_queue]), the
      launch plan covers the demand and the controller settles ([launch_plan_covers],
      [tune_settles]).  The floating-point decisions are exact where it matters: the
      occupancy lies in [0..1], compares with one half as the integers do and, with the
      kernel's time, decides when the thread count changes ([occupancy_spec]); after any
      sequence of rounds the hash rate is a number within its gauge ([hashrate_bounded]).
    - Submission: verification and routing ([verifyAndSubmit_correct]), the outbox
      ([outbox_no_duplicates], [outbox_log_roundtrip], [outbox_drop_correct]), coinbase and
      block serialisation ([coinbase_parses_back], [block_text_decodes]).
    - Protocols and files: lines, base64, JSON-RPC ([recvLine_spec], [base64_correct],
      [rpc_call_roundtrip]), the session loop ([session_handles_lines]), the configuration
      and the ledger ([config_roundtrip], [ledger_roundtrip]).
    - Sockets: a connect leaks no descriptor, no TLS context and no connection object
      ([posix_connect_descriptors], which also shows when it reports a success it did not
      have, [win_connect_handles], [tls_connect_resources]); the
      metrics server sends only answers and leaves nothing open ([server_answers]).
    - The specification: the running miner is the book of shares applied, event by event,
      to the work delivered and the hits verified, so shares are verified, unique by their
      key, in order and, once queued, not lost while it runs ([miner_refines_book]).
    - The running miner, for every interleaving of the steps of [System]: the outbox holds
      only verified submissions, none twice ([outbox_only_verified]); jobs, slots, the map
      of work identifiers and the penalties are well formed ([reachable_jobs_wf]); a
      verified hit is queued, unless its key was seen before, and a socket that takes all
      the bytes carries the whole submission to the pool its job came from
      ([hit_reaches_pool]).
    - The pipeline: a notification is, after the next poll, the device's job
      ([notify_reaches_device]); a round completes and hands the oldest hits to the
      submission code ([mine_round_runs]).
    - The threads: under every schedule a submission names the pool's current job, and the
      only memory fault is the main thread's use of a socket that the session thread took
      away meanwhile, which does happen ([submit_race], [Race]); the steps of a submission and
      those of a turn of the session compose to the functions used elsewhere
      ([submit_steps_refine], [receive_turn_alone]).
    - What the assembled program does not achieve: the device target is byte-reversed
      ([device_target_reversed]), the host verifies another header than the device hashed
      ([host_header_against_hashed]), block hits are lost ([block_hits_lost]), accepted
      shares are never reported in any reachable state ([acceptance_never_reported]), so
      that the outbox only grows, the replay at start-up sends nothing ([replay_sends_nothing]), the command-line
      mode neither connects nor mines and a typed field that is not UTF-8 ends the program
      ([command_line_mode_idles]), and with several pools
      threads outlive what they use ([shutdown_hazards]).

    ** Undefined behaviour, fuel and bounds

    An out-of-range store, an out-of-range device access, an uninitialised read, a signed
    product that does not fit and a floating-point value outside its integer type are
    [None], or [inl undefined_behaviour] in [throws], which no [catch] intercepts; the
    theorems that give [Some] or [inr] show that they do not happen.

    Loops that are not structural take fuel, and the theorem about each shows how much is
    enough: the leaves of a Merkle tree ([merkle_loop_spec]), the bytes of an outbox log
    ([load_loop_fuel]), the bytes left to send or to receive ([send_all], [recv_loop],
    [recv_all]), the queue of an adapter ([drain_adapter]), four bytes of a height, twenty
    turns of the controller, the rounds of a TLS handshake ([finite_handshake]; without
    that bound it may never end, [handshake_unbounded]).  The session and polling loops run
    as long as their stop flag is unset; their fuel is the number of times it is read.

    The kernels' launches are refused beyond CUDA's limits on the grid and the block
    ([launchable]; [batch_launch_refused]: nothing runs and the function still returns
    true).  The 32-bit sum of the unrolled kernel's loop is written out: from 2^32 - 8
    nonces per thread on it wraps and the kernel never ends ([unroll_never_ends]), which
    the theorems on launches exclude; below, the nonces per thread are fuel enough
    ([unroll_covers]).

    Locks are taken for a whole operation in the sources, so an operation is one step,
    except in [Registry], where the sources hold no lock that makes a [set] atomic: there
    the copies of the bytes are steps, in any order that the release and the acquire of
    the generation allow.  A step
    of [System] is a whole phase of the main loop or a whole message of a thread.  What the
    sources share without a lock, the client of a session and its socket, has finer steps in
    [Threads]: alone, the main thread's are the submission that [System] takes whole.

    ** Not modelled

    - What the CUDA runtime reports ([DeviceProps]), the time a kernel takes, the clocks, the
      scheduling of the device and [std::hash] are parameters.
    - Other failures of CUDA calls than a launch beyond the limits: an allocation or a copy
      that fails, a kernel that needs more registers than a block of its size has.
    - A descriptor beyond what a descriptor set holds: [SysLaws] assumes that the limit of
      open descriptors is at most [FD_SETSIZE], which the sources do not check.
    - The [#else] branches of [engine.cu] for a compiler other than nvcc: the build requires
      CUDA.  [DeviceDiag] has the one whose result differs.
    - The text printed on the console, which changes no state; the two helpers of
      [socket_openssl.cc] that nothing calls ([fd_send], [fd_recv]); the declarations of
      [engine.h] without a definition.
    - Signals: a send to a connection the peer has reset raises SIGPIPE on POSIX systems and
      ends the process; here it is a failed send.

    ** This file

    Machine integers as [Z] with their wrap-around written out, the byte-order
    idioms the C++ sources repeat, decidable range predicates, generic list
    lemmas and the automation the component files use.  Nothing in this file
    models one particular function of the program. *)

From Stdlib Require Import ZArith Lia Bool String Ascii.
From stdpp Require Import base numbers list option.

Open Scope Z_scope.

(** ** Machine integers

    A [uintN_t] value is a [Z] in [0, 2^N); [uN] is the conversion a C++ cast or
    an unsigned operation performs. *)

Definition u8 (x : Z) : Z := x mod 2 ^ 8.
Definition u16 (x : Z) : Z := x mod 2 ^ 16.
Definition u32 (x : Z) : Z := x mod 2 ^ 32.
Definition u64 (x : Z) : Z := x mod 2 ^ 64.

(** Conversions to a signed type. *)
Definition i32 (x : Z) : Z := (x + 2 ^ 31) mod 2 ^ 32 - 2 ^ 31.
Definition i64 (x : Z) : Z := (x + 2 ^ 63) mod 2 ^ 64 - 2 ^ 63.

Definition in_u (w x : Z) : Prop := 0 <= x < 2 ^ w.
Definition in_ub (w x : Z) : bool := (0 <=? x) && (x <? 2 ^ w).

Abbreviation is_u8 := (in_u 8).
Abbreviation is_u32 := (in_u 32).
Abbreviation is_u64 := (in_u 64).
Abbreviation is_bytes := (Forall is_u8).
Abbreviation is_words := (Forall is_u32).

#[export] Instance in_u_dec w x : Decision (in_u w x).
Proof. unfold in_u. apply _. Defined.

Lemma in_ub_spec w x : in_ub w x = true <-> in_u w x.
Proof. unfold in_ub, in_u. rewrite andb_true_iff, Z.leb_le, Z.ltb_lt. done. Qed.

(** Ranges of concrete lists by computation. *)
Lemma Forall_in_ub w l : forallb (in_ub w) l = true -> Forall (in_u w) l.
Proof.
  intros H. apply Forall_forall. intros x Hx.
  apply in_ub_spec. rewrite forallb_forall in H. by apply H.
Qed.
Ltac in_range := first [apply Forall_in_ub; reflexivity | apply in_ub_spec; reflexivity].

Definition add32 (x y : Z) : Z := u32 (x + y).
Definition sub32 (x y : Z) : Z := u32 (x - y).
Definition shl32 (x n : Z) : Z := u32 (Z.shiftl x n).
Definition not32 (x : Z) : Z := Z.lxor x (2 ^ 32 - 1).

Declare Scope cxx_scope.
Delimit Scope cxx_scope with cxx.
Infix "⊞" := add32 (at level 50, left associativity) : cxx_scope.
Infix ".<<" := shl32 (at level 42, left associativity) : cxx_scope.
Infix ".>>" := Z.shiftr (at level 42, left associativity) : cxx_scope.
Infix ".&" := Z.land (at level 43, left associativity) : cxx_scope.
Infix ".^" := Z.lxor (at level 44, left associativity) : cxx_scope.
Infix ".|" := Z.lor (at level 46, left associativity) : cxx_scope.

(** The length of a container as a number. *)
Abbreviation zlen l := (Z.of_nat (length l)).

Create HintDb cxx discriminated.

Lemma mod_in_u w x : 0 <= w -> in_u w (x mod 2 ^ w).
Proof. intros. apply Z.mod_pos_bound. lia. Qed.

Lemma u8_range x : is_u8 (u8 x).
Proof. by apply mod_in_u. Qed.
Lemma u32_range x : is_u32 (u32 x).
Proof. by apply mod_in_u. Qed.
Lemma u64_range x : is_u64 (u64 x).
Proof. by apply mod_in_u. Qed.
Lemma add32_range x y : is_u32 (add32 x y).
Proof. apply u32_range. Qed.
Lemma shl32_range x y : is_u32 (shl32 x y).
Proof. apply u32_range. Qed.

Lemma u8_small x : is_u8 x -> u8 x = x.
Proof. apply Z.mod_small. Qed.
Lemma i32_small x : - 2 ^ 31 <= x < 2 ^ 31 -> i32 x = x.
Proof. intros. unfold i32. rewrite Z.mod_small; lia. Qed.
Lemma u32_small x : is_u32 x -> u32 x = x.
Proof. apply Z.mod_small. Qed.
Lemma u64_small x : is_u64 x -> u64 x = x.
Proof. apply Z.mod_small. Qed.

(** *** Bitwise operations stay in range *)

Lemma in_u_bits w x :
  0 <= w -> (in_u w x <-> forall i, w <= i -> Z.testbit x i = false) /\ True.
Proof.
  intros Hw. split; [|done]. unfold in_u. split.
  - intros H i Hi. rewrite <- (Z.mod_small x (2 ^ w)) by lia.
    by apply Z.mod_pow2_bits_high.
  - intros H.
    assert (x = x mod 2 ^ w) as ->; [|apply Z.mod_pos_bound; lia].
    apply Z.bits_inj'. intros i Hi.
    destruct (decide (w <= i)).
    + rewrite H by lia. by rewrite Z.mod_pow2_bits_high by lia.
    + by rewrite Z.mod_pow2_bits_low by lia.
Qed.

Lemma bits_in_u w x :
  0 <= w -> (forall i, w <= i -> Z.testbit x i = false) -> in_u w x.
Proof. intros Hw. apply in_u_bits; done. Qed.

Lemma in_u_high w x i : 0 <= w -> in_u w x -> w <= i -> Z.testbit x i = false.
Proof. intros Hw H. by apply (in_u_bits w x). Qed.

Lemma lxor_in_u w x y : 0 <= w -> in_u w x -> in_u w y -> in_u w (Z.lxor x y).
Proof.
  intros Hw Hx Hy. apply bits_in_u; [done|]. intros i Hi.
  by rewrite Z.lxor_spec, (in_u_high w x), (in_u_high w y).
Qed.
Lemma lor_in_u w x y : 0 <= w -> in_u w x -> in_u w y -> in_u w (Z.lor x y).
Proof.
  intros Hw Hx Hy. apply bits_in_u; [done|]. intros i Hi.
  by rewrite Z.lor_spec, (in_u_high w x), (in_u_high w y).
Qed.
Lemma land_in_u_l w x y : 0 <= w -> in_u w x -> in_u w (Z.land x y).
Proof.
  intros Hw Hx. apply bits_in_u; [done|]. intros i Hi.
  by rewrite Z.land_spec, (in_u_high w x).
Qed.
Lemma land_in_u_r w x y : 0 <= w -> in_u w y -> in_u w (Z.land x y).
Proof. intros. rewrite Z.land_comm. by apply land_in_u_l. Qed.
Lemma shiftr_in_u w x n : 0 <= w -> 0 <= n -> in_u w x -> in_u w (Z.shiftr x n).
Proof.
  intros Hw Hn Hx. apply bits_in_u; [done|]. intros i Hi.
  rewrite Z.shiftr_spec by lia. apply (in_u_high w x); [done..|lia].
Qed.
Lemma not32_range x : is_u32 x -> is_u32 (not32 x).
Proof. intros. unfold not32. apply lxor_in_u; [done..|]. unfold in_u. lia. Qed.

#[export] Hint Resolve u8_range u32_range u64_range add32_range shl32_range
  not32_range lxor_in_u lor_in_u land_in_u_l shiftr_in_u : cxx.
#[export] Hint Extern 1 (0 <= _) => lia : cxx.
#[export] Hint Extern 1 (in_u _ (Zpos _)) => (unfold in_u; lia) : cxx.
#[export] Hint Extern 1 (in_u _ Z0) => (unfold in_u; lia) : cxx.

Ltac cxx_range := eauto 20 with cxx.

(** *** Disjoint bit fields add up *)

Lemma lor_shiftl_add a b k :
  0 <= k -> 0 <= b < 2 ^ k -> Z.lor (Z.shiftl a k) b = a * 2 ^ k + b.
Proof.
  intros Hk Hb.
  assert (Z.land (Z.shiftl a k) b = 0) as H0.
  { apply Z.bits_inj'. intros i Hi. rewrite Z.land_spec, Z.bits_0.
    destruct (decide (i < k)).
    - by rewrite Z.shiftl_spec_low by lia.
    - rewrite (in_u_high k b i) by (unfold in_u; lia). by rewrite andb_false_r. }
  rewrite <- Z.lxor_lor by done.
  rewrite <- Z.add_nocarry_lxor by done.
  by rewrite Z.shiftl_mul_pow2 by lia.
Qed.

Lemma land_ones_mod x k : 0 <= k -> Z.land x (2 ^ k - 1) = x mod 2 ^ k.
Proof.
  intros. rewrite <- Z.land_ones by lia. f_equal. rewrite Z.ones_equiv. lia.
Qed.

(** The mask [((2^n - 1) << k)] selects one field. *)
Lemma land_field x n k m :
  0 <= n -> 0 <= k -> m = (2 ^ n - 1) * 2 ^ k ->
  Z.land x m = ((x / 2 ^ k) mod 2 ^ n) * 2 ^ k.
Proof.
  intros Hn Hk ->.
  rewrite <- land_ones_mod, <- Z.shiftr_div_pow2, <- !Z.shiftl_mul_pow2 by lia.
  rewrite Z.shiftl_land. apply Z.bits_inj'. intros i Hi.
  rewrite !Z.land_spec. destruct (decide (i < k)).
  - by rewrite (Z.shiftl_spec_low (2 ^ n - 1)), !andb_false_r by lia.
  - rewrite (Z.shiftl_spec (Z.shiftr x k)), Z.shiftr_spec by lia.
    do 2 f_equal. lia.
Qed.

(** ** Byte order *)

(** The C++ sources write a 32-bit word to four bytes, and read it back, with the
    same two idioms everywhere. *)
Definition be_bytes32 (w : Z) : list Z :=
  [Z.land (Z.shiftr w 24) 255; Z.land (Z.shiftr w 16) 255;
   Z.land (Z.shiftr w 8) 255; Z.land w 255].

Definition be_word32 (b0 b1 b2 b3 : Z) : Z :=
  Z.lor (Z.lor (Z.lor (shl32 b0 24) (shl32 b1 16)) (shl32 b2 8)) b3.

(** The numbers a byte string denotes in the two byte orders. *)
Fixpoint le_val (bs : list Z) : Z :=
  match bs with [] => 0 | b :: bs => b + 2 ^ 8 * le_val bs end.
Definition be_val (bs : list Z) : Z := le_val (rev bs).

Lemma le_val_app a b : le_val (a ++ b) = le_val a + 2 ^ (8 * zlen a) * le_val b.
Proof.
  induction a as [|x a IH]; cbn [app le_val length]; [lia|]. rewrite IH.
  replace (8 * Z.of_nat (S (length a))) with (8 + 8 * zlen a) by lia.
  rewrite Z.pow_add_r by lia. ring.
Qed.

Lemma le_val_range bs : is_bytes bs -> 0 <= le_val bs < 2 ^ (8 * zlen bs).
Proof.
  induction 1 as [|b bs Hb _ IH]; cbn [le_val length]; [lia|].
  replace (8 * Z.of_nat (S (length bs))) with (8 + 8 * zlen bs) by lia.
  rewrite Z.pow_add_r by lia. unfold in_u in Hb. nia.
Qed.

Lemma le_val_inj a b :
  length a = length b -> is_bytes a -> is_bytes b -> le_val a = le_val b -> a = b.
Proof.
  revert b. induction a as [|x a IH]; intros [|y b]; cbn [le_val length]; try done.
  intros Hl Ha Hb He. inversion Ha as [|? ? Hx Ha']; inversion Hb as [|? ? Hy Hb'].
  subst. unfold in_u in Hx, Hy.
  assert (x = y) by lia. subst. f_equal. apply IH; [lia|done..|lia].
Qed.

Lemma be_val_nil : be_val [] = 0.
Proof. done. Qed.

Lemma be_val_app a b : be_val (a ++ b) = be_val a * 2 ^ (8 * zlen b) + be_val b.
Proof. unfold be_val. rewrite rev_app_distr, le_val_app, length_rev. lia. Qed.

Lemma be_val_cons x b : be_val (x :: b) = x * 2 ^ (8 * zlen b) + be_val b.
Proof.
  change (x :: b) with ([x] ++ b). rewrite be_val_app. unfold be_val at 1. cbn. lia.
Qed.

Lemma be_val_range bs : is_bytes bs -> 0 <= be_val bs < 2 ^ (8 * zlen bs).
Proof.
  intros H. unfold be_val. rewrite <- (length_rev bs). apply le_val_range.
  by apply Forall_rev.
Qed.

Lemma be_val_inj a b :
  length a = length b -> is_bytes a -> is_bytes b -> be_val a = be_val b -> a = b.
Proof.
  unfold be_val. intros Hl Ha Hb He.
  rewrite <- (rev_involutive a), <- (rev_involutive b). f_equal.
  apply le_val_inj; rewrite ?length_rev; auto using Forall_rev.
Qed.

Lemma be_val_zeros n : be_val (repeat 0 n) = 0.
Proof.
  induction n as [|n IH]; [done|]. cbn [repeat]. rewrite be_val_cons, IH. lia.
Qed.

Lemma be_bytes32_eq w :
  be_bytes32 w = [(w / 2 ^ 24) mod 2 ^ 8; (w / 2 ^ 16) mod 2 ^ 8;
                  (w / 2 ^ 8) mod 2 ^ 8; w mod 2 ^ 8].
Proof.
  unfold be_bytes32. change 255 with (2 ^ 8 - 1).
  by rewrite !land_ones_mod, !Z.shiftr_div_pow2 by lia.
Qed.

Lemma be_bytes32_length w : length (be_bytes32 w) = 4%nat.
Proof. done. Qed.

Lemma be_bytes32_bytes w : is_bytes (be_bytes32 w).
Proof. rewrite be_bytes32_eq. repeat constructor; by apply mod_in_u. Qed.

Lemma be_val4 a b c d :
  be_val [a; b; c; d] = a * 2 ^ 24 + b * 2 ^ 16 + c * 2 ^ 8 + d.
Proof. unfold be_val. cbn. lia. Qed.

Lemma be_bytes32_val w : is_u32 w -> be_val (be_bytes32 w) = w.
Proof.
  intros Hw. rewrite be_bytes32_eq, be_val4. unfold in_u in Hw.
  Z.to_euclidean_division_equations. lia.
Qed.

Lemma shl32_mul x n : 0 <= n -> shl32 x n = u32 (x * 2 ^ n).
Proof. intros. unfold shl32. by rewrite Z.shiftl_mul_pow2 by lia. Qed.

Lemma be_word32_val a b c d :
  is_u8 a -> is_u8 b -> is_u8 c -> is_u8 d -> be_word32 a b c d = be_val [a; b; c; d].
Proof.
  unfold in_u. intros Ha Hb Hc Hd. rewrite be_val4. unfold be_word32, shl32.
  rewrite !u32_small by (unfold in_u; rewrite Z.shiftl_mul_pow2; lia).
  rewrite <- !Z.lor_assoc.
  rewrite (lor_shiftl_add c d) by lia.
  rewrite (lor_shiftl_add b) by lia.
  rewrite (lor_shiftl_add a) by lia. lia.
Qed.

Lemma be_word32_range a b c d : is_u8 d -> is_u32 (be_word32 a b c d).
Proof.
  intros. unfold be_word32. assert (is_u32 d) by (unfold in_u in *; lia). cxx_range.
Qed.

Lemma be_word32_be_bytes32 w :
  is_u32 w ->
  forall a b c d, be_bytes32 w = [a; b; c; d] -> be_word32 a b c d = w.
Proof.
  intros Hw a b c d E.
  pose proof (be_bytes32_bytes w) as Hb. rewrite E in Hb.
  rewrite be_word32_val, <- E by (by inversion_clear Hb; decompose_Forall).
  by apply be_bytes32_val.
Qed.

(** The [n] little-endian bytes of a value in memory. *)
Fixpoint le_bytes (n : nat) (v : Z) : list Z :=
  match n with O => [] | S n => v mod 2 ^ 8 :: le_bytes n (v / 2 ^ 8) end.

Lemma le_bytes_length n v : length (le_bytes n v) = n.
Proof. revert v. induction n; intros; cbn; [done|]. by f_equal. Qed.

Lemma le_bytes_bytes n v : is_bytes (le_bytes n v).
Proof. revert v. induction n; intros; cbn; constructor; [by apply mod_in_u|done]. Qed.

Lemma le_val_le_bytes n v : le_val (le_bytes n v) = v mod 2 ^ (8 * Z.of_nat n).
Proof.
  revert v. induction n as [|n IH]; intros v; cbn [le_bytes le_val].
  - by rewrite Z.mul_0_r, Z.mod_1_r.
  - rewrite IH. replace (8 * Z.of_nat (S n)) with (8 + 8 * Z.of_nat n) by lia.
    rewrite (Z.pow_add_r 2 8), Z.rem_mul_r by lia. done.
Qed.

Lemma le_val_le_bytes_u n w v :
  w = 8 * Z.of_nat n -> in_u w v -> le_val (le_bytes n v) = v.
Proof. intros -> H. rewrite le_val_le_bytes. by apply Z.mod_small. Qed.

(** ** Arrays

    A C array or [std::array] is a list; [rd a i] reads index [i].  Every array
    access of the model is in bounds under the length invariants stated with the
    definitions; an access the source makes out of bounds is modelled by an
    [option] result, never by the default of [rd]. *)

Definition rd (a : list Z) (i : nat) : Z := nth i a 0.

Lemma rd_cons_S x a i : rd (x :: a) (S i) = rd a i.
Proof. done. Qed.

Lemma map_rd_seq a : map (rd a) (seq 0 (length a)) = a.
Proof.
  induction a as [|x a IH]; [done|]. cbn [length seq map]. f_equal.
  rewrite <- seq_shift, map_map. exact IH.
Qed.

Lemma map_rd_seq_n a n : length a = n -> map (rd a) (seq 0 n) = a.
Proof. intros <-. apply map_rd_seq. Qed.

Lemma rd_app_l a b i : (i < length a)%nat -> rd (a ++ b) i = rd a i.
Proof. apply app_nth1. Qed.
Lemma rd_app_r a b i : (length a <= i)%nat -> rd (a ++ b) i = rd b (i - length a).
Proof. apply app_nth2. Qed.

Lemma rd_Forall (P : Z -> Prop) a i : P 0 -> Forall P a -> P (rd a i).
Proof.
  intros H0 H. unfold rd. destruct (decide (i < length a)%nat).
  - by apply Forall_nth.
  - by rewrite nth_overflow by lia.
Qed.

Lemma rd_word a i : is_words a -> is_u32 (rd a i).
Proof. apply rd_Forall. unfold in_u. lia. Qed.
Lemma rd_byte a i : is_bytes a -> is_u8 (rd a i).
Proof. apply rd_Forall. unfold in_u. lia. Qed.
#[export] Hint Resolve rd_word rd_byte be_word32_range be_bytes32_bytes : cxx.

Lemma Forall_rep {A} (P : A -> Prop) x n : P x -> Forall P (repeat x n).
Proof. intros H. induction n; constructor; done. Qed.

Lemma zeros_bytes n : is_bytes (repeat 0 n).
Proof. apply Forall_rep. by unfold in_u. Qed.
Lemma zeros_words n : is_words (repeat 0 n).
Proof. apply Forall_rep. by unfold in_u. Qed.
#[export] Hint Resolve zeros_bytes zeros_words : cxx.

(** [words_of n bs]: the first [4 n] bytes as big-endian words, the loop
    [w[i] = (b[4i] << 24) | (b[4i+1] << 16) | (b[4i+2] << 8) | b[4i+3]]. *)
Definition word_at (bs : list Z) (o : nat) : Z :=
  be_word32 (rd bs o) (rd bs (o + 1)) (rd bs (o + 2)) (rd bs (o + 3)).
Definition words_of (n : nat) (bs : list Z) : list Z :=
  map (fun i => word_at bs (4 * i)) (seq 0 n).

(** Words written back to bytes, the loop [b[4i] = (w[i] >> 24) & 0xFF; ...]. *)
Definition bytes_of (ws : list Z) : list Z := concat (map be_bytes32 ws).

Lemma words_of_length n bs : length (words_of n bs) = n.
Proof. unfold words_of. by rewrite length_map, length_seq. Qed.

Lemma words_of_words n bs : is_bytes bs -> is_words (words_of n bs).
Proof. intros H. apply Forall_map, Forall_true. intros i. cbn. unfold word_at. cxx_range. Qed.

Lemma bytes_of_length ws : length (bytes_of ws) = (4 * length ws)%nat.
Proof. unfold bytes_of. induction ws; cbn [map concat length]; [done|]. rewrite length_app. cbn. lia. Qed.

Lemma bytes_of_bytes ws : is_bytes (bytes_of ws).
Proof. unfold bytes_of. apply Forall_concat, Forall_map, Forall_true. cxx_range. Qed.

Lemma bytes_of_app a b : bytes_of (a ++ b) = bytes_of a ++ bytes_of b.
Proof. unfold bytes_of. by rewrite map_app, concat_app. Qed.

Lemma words_of_S n a b c d bs :
  words_of (S n) (a :: b :: c :: d :: bs) = be_word32 a b c d :: words_of n bs.
Proof.
  unfold words_of. cbn [seq map]. f_equal. rewrite <- seq_shift, map_map.
  apply map_ext. intros i. unfold word_at.
  by replace (4 * S i)%nat with (S (S (S (S (4 * i))))) by lia.
Qed.

Lemma words_of_bytes_of ws rest n :
  length ws = n -> is_words ws -> words_of n (bytes_of ws ++ rest) = ws.
Proof.
  intros <-. induction 1 as [|w ws Hw _ IH]; [done|].
  change (bytes_of (w :: ws)) with (be_bytes32 w ++ bytes_of ws).
  rewrite <- app_assoc. destruct (be_bytes32 w) as [|a [|b [|c [|d [|]]]]] eqn:E;
    try (by apply (f_equal length) in E).
  cbn [app length]. rewrite words_of_S, IH. f_equal. by apply (be_word32_be_bytes32 w).
Qed.

Lemma bytes_of_words_of n bs :
  length bs = (4 * n)%nat -> is_bytes bs -> bytes_of (words_of n bs) = bs.
Proof.
  revert bs. induction n as [|n IH]; intros bs Hl Hb; [by destruct bs|].
  destruct bs as [|a [|b [|c [|d bs]]]]; cbn in Hl; try lia.
  rewrite words_of_S. inversion_clear Hb as [|? ? Ha Hb'].
  inversion_clear Hb' as [|? ? Hb Hb'']. inversion_clear Hb'' as [|? ? Hc Hc'].
  inversion_clear Hc' as [|? ? Hd Hd'].
  change (bytes_of (?w :: ?ws)) with (be_bytes32 w ++ bytes_of ws).
  rewrite IH by (done || lia).
  change (a :: b :: c :: d :: bs) with ([a; b; c; d] ++ bs). f_equal.
  apply be_val_inj; [done|apply be_bytes32_bytes|by auto 6|].
  rewrite be_bytes32_val by cxx_range. by apply be_word32_val.
Qed.

Lemma take_drop_word n bs i :
  length bs = (4 * n)%nat -> is_bytes bs -> (i < n)%nat ->
  take 4 (drop (4 * i) bs) = be_bytes32 (rd (words_of n bs) i).
Proof.
  intros Hl Hb. rewrite <- (bytes_of_words_of n bs) at 1 by done.
  pose proof (words_of_length n bs) as E. revert E. generalize (words_of n bs). clear.
  intros ws <-. revert i. induction ws as [|w ws IH]; intros [|i]; cbn [length]; try (intros; exfalso; lia).
  - intros _. change (bytes_of (w :: ws)) with (be_bytes32 w ++ bytes_of ws).
    by rewrite Nat.mul_0_r, drop_0, take_app_length'.
  - intros Hi. change (bytes_of (w :: ws)) with (be_bytes32 w ++ bytes_of ws).
    replace (4 * S i)%nat with (length (be_bytes32 w) + 4 * i)%nat by (cbn; lia).
    rewrite <- drop_drop, drop_app_length. apply IH. lia.
Qed.

(** ** Loops *)

Lemma fold_left_cong {A B} (f g : A -> B -> A) l a :
  (forall a b, f a b = g a b) -> fold_left f l a = fold_left g l a.
Proof.
  intros H. revert a. induction l as [|b l IH]; intros a; [done|].
  cbn. by rewrite H, IH.
Qed.

(** Storing a constant at consecutive indices. *)
Lemma fold_insert_range {A} (x : A) i n d :
  (i + n <= length d)%nat ->
  fold_left (fun d j => <[j := x]> d) (seq i n) d
  = take i d ++ repeat x n ++ drop (i + n) d.
Proof.
  revert i d. induction n as [|n IH]; intros i d H; cbn [seq fold_left repeat].
  - cbn. by rewrite Nat.add_0_r, take_drop.
  - rewrite IH by (rewrite length_insert; lia).
    rewrite insert_take_drop by lia. 
    assert (length (take i d) = i) as Ht by (rewrite length_take; lia).
    rewrite (take_app_ge _ _ (S i)), Ht by lia.
    replace (S i - i)%nat with 1%nat by lia. cbn [take].
    rewrite drop_app_ge, Ht by lia.
    replace (S i + n - i)%nat with (S n) by lia. cbn [drop app]. rewrite drop_drop.
    rewrite take_0, <- app_assoc. cbn [app]. by replace (S i + n)%nat with (i + S n)%nat by lia.
Qed.

(** ** Exceptions

    A call that may throw returns [exn + A]. *)

Inductive exn := invalid_argument | out_of_range | type_error | stol_error | undefined_behaviour.

#[export] Instance exn_eq_dec : EqDecision exn.
Proof. solve_decision. Defined.

Abbreviation throws A := (exn + A)%type (only parsing).

#[export] Instance throws_ret : MRet (sum exn) := fun A a => inr a.
#[export] Instance throws_bind : MBind (sum exn) :=
  fun A B f m => match m with inl e => inl e | inr a => f a end.

(** [try { m } catch (...) { h }]: undefined behaviour is not an exception. *)
Definition catch {A} (m : throws A) (h : throws A) : throws A :=
  match m with
  | inl undefined_behaviour => m
  | inl _ => h
  | inr _ => m
  end.

(** Stateful code that may throw keeps the changes made before the throw. *)
Definition M (S A : Type) : Type := S -> (exn + A) * S.

#[export] Instance M_ret S : MRet (M S) := fun A a s => (inr a, s).
#[export] Instance M_bind S : MBind (M S) :=
  fun A B f m s => match m s with (inl e, s) => (inl e, s) | (inr a, s) => f a s end.

Definition lift {S A} (m : throws A) : M S A := fun s => (m, s).
Definition modify {S} (f : S -> S) : M S unit := fun s => (inr tt, f s).
Definition getS {S} : M S S := fun s => (inr s, s).
Definition mcatch {S A} (m : M S A) (h : M S A) : M S A :=
  fun s => match m s with
           | (inl undefined_behaviour, s) => (inl undefined_behaviour, s)
           | (inl _, s) => h s
           | r => r
           end.

(** Range-based for. *)
Fixpoint for_each {S A} (l : list A) (body : A -> M S unit) : M S unit :=
  match l with
  | [] => mret tt
  | a :: l => _ ← body a; for_each l body
  end.

(** ** Text

    A [std::string] is its list of bytes; [str] converts a literal. *)
Definition str (s : String.string) : list Z :=
  map (fun c => Z.of_N (Ascii.N_of_ascii c)) (String.list_ascii_of_string s).
Arguments str s%_string.
