(* ===== verification/Floats.v ===== *)
(** * Floating-point arithmetic

    IEEE arithmetic on the executable [spec_float] of the Standard Library: rounding an
    exact value never passes a number of the format that bounds it, from either side, and
    what that gives for sums, products and quotients of non-negative numbers.  [float] and
    [double] are the formats of 24 and 53 bits. *)

From Stdlib Require Import ZArith Lia SpecFloat.
From stdpp Require Import base numbers option.
From S2P Require Import Prelude.

Open Scope Z_scope.

(** ** Operations of the sources *)

(** [static_cast] of an integer. *)
Definition float_of_Z (z : Z) : spec_float := binary_normalize 24 128 z 0 false.
Definition double_of_Z (z : Z) : spec_float := binary_normalize 53 1024 z 0 false.

Definition fmul32 := SFmul 24 128.
Definition fdiv32 := SFdiv 24 128.
Definition fmul := SFmul 53 1024.
Definition fadd := SFadd 53 1024.
Definition fdiv := SFdiv 53 1024.

(** [static_cast<int64_t>]: towards zero; undefined when it does not fit. *)
Definition int64_of_float (x : spec_float) : option Z :=
  match x with
  | S754_zero _ => Some 0
  | S754_finite s m e =>
      let v := if 0 <=? e then Z.pos m * 2 ^ e else Z.pos m / 2 ^ (- e) in
      let v := if s then - v else v in
      if (- 2 ^ 63 <=? v) && (v <? 2 ^ 63) then Some v else None
  | _ => None
  end.

(** ** Shifts *)

Lemma iter_pos_nat {A} (f : A -> A) n : forall x, SpecFloat.iter_pos f n x = Nat.iter (Pos.to_nat n) f x.
Proof.
  induction n as [n IH|n IH|]; intros x; cbn [SpecFloat.iter_pos].
  - rewrite !IH, <- Nat.iter_add, Pos2Nat.inj_xI, Nat.iter_succ_r. f_equal. lia.
  - rewrite !IH, <- Nat.iter_add, Pos2Nat.inj_xO. f_equal. lia.
  - done.
Qed.

Lemma iter_xO m d : Z.pos (Pos.iter xO m d) = Z.pos m * 2 ^ Z.pos d.
Proof.
  induction d as [|d IH] using Pos.peano_ind; [cbn; lia|].
  rewrite Pos.iter_succ, Pos2Z.inj_succ, Z.pow_succ_r by lia. lia.
Qed.

Lemma digits2_bounds m : 2 ^ (Z.pos (digits2_pos m) - 1) <= Z.pos m < 2 ^ Z.pos (digits2_pos m).
Proof.
  induction m as [m IH|m IH|]; cbn [digits2_pos].
  1,2: rewrite Pos2Z.inj_succ;
    replace (Z.succ (Z.pos (digits2_pos m)) - 1) with (Z.succ (Z.pos (digits2_pos m) - 1)) by lia;
    rewrite !Z.pow_succ_r by lia; lia.
  cbn. lia.
Qed.

Lemma digits2_unique m d : 0 <= d -> 2 ^ d <= Z.pos m < 2 ^ (d + 1) -> Z.pos (digits2_pos m) = d + 1.
Proof.
  intros Hd H. pose proof (digits2_bounds m) as [H1 H2].
  assert (Z.pos (digits2_pos m) - 1 < d + 1) by (apply (Z.pow_lt_mono_r_iff 2); lia).
  assert (d < Z.pos (digits2_pos m)) by (apply (Z.pow_lt_mono_r_iff 2); lia). lia.
Qed.

Lemma Zdigits2_le m d : 0 <= d -> 0 <= m < 2 ^ d -> Zdigits2 m <= d.
Proof.
  intros Hd H. destruct m as [|m|m]; cbn; [lia| |lia]. pose proof (digits2_bounds m) as [H1 _].
  assert (Z.pos (digits2_pos m) - 1 < d) by (apply (Z.pow_lt_mono_r_iff 2); lia). lia.
Qed.

(** [2 ^ (a - b)] against [2 ^ (a - c)]. *)
Lemma pow_split a b c : a <= b -> b <= c -> 2 ^ (c - a) = 2 ^ (c - b) * 2 ^ (b - a).
Proof. intros. rewrite <- Z.pow_add_r by lia. f_equal. lia. Qed.

(** ** Bounds *)

(** [x] is a number between zero and [c * 2 ^ k]. *)
Definition below (c k : Z) (x : spec_float) : Prop :=
  match x with
  | S754_zero false => True
  | S754_finite false m e => e <= k /\ Z.pos m <= c * 2 ^ (k - e)
  | _ => False
  end.

(** [x] is a number from [c * 2 ^ k] up; infinity is. *)
Definition above (c k : Z) (x : spec_float) : Prop :=
  match x with
  | S754_infinity false => True
  | S754_finite false m e => k <= e /\ c <= Z.pos m * 2 ^ (e - k)
  | _ => False
  end.

(** [y] is at least [2 ^ j]. *)
Definition at_least (j : Z) (y : spec_float) : Prop :=
  match y with S754_finite false m e => j < Z.pos (digits2_pos m) + e | _ => False end.

Lemma below_mono c1 k1 c k x z :
  z <= k1 -> k1 <= k -> c1 * 2 ^ (k1 - z) <= c * 2 ^ (k - z) -> below c1 k1 x -> below c k x.
Proof.
  intros Hz Hk Hc Hx. destruct x as [[]|[]| |[] m e]; try done. cbn [below] in *. destruct Hx as [He Hm].
  split; [lia|]. etransitivity; [exact Hm|].
  apply (Z.mul_le_mono_pos_r _ _ (2 ^ (k1 - z))); [apply Z.pow_pos_nonneg; lia|].
  transitivity (c * 2 ^ (k - z) * 2 ^ (k1 - e)).
  - pose proof (Z.pow_nonneg 2 (k1 - e)). nia.
  - rewrite <- !Z.mul_assoc, <- !Z.pow_add_r by lia. by replace (k - e + (k1 - z)) with (k - z + (k1 - e)) by lia.
Qed.

Section Rounding.
Context (prec emax : Z) (Hprec : 1 < prec) (Hemax : prec + 2 <= emax).

Abbreviation emin := (SpecFloat.emin prec emax).
Abbreviation fexp := (SpecFloat.fexp prec emax).
Abbreviation shr_fexp := (SpecFloat.shr_fexp prec emax).
Abbreviation round_aux := (SpecFloat.binary_round_aux prec emax).

(** A bound [c * 2 ^ k] of the format. *)
Definition format (c k : Z) : Prop := 0 < c < 2 ^ prec /\ emin <= k <= emax - prec.

(** The least integer from a mantissa and its remainder up. *)
Definition upper (m : Z) (l : location) : Z := match l with loc_Exact => m | _ => m + 1 end.

Lemma upper_record m l : upper (shr_m (shr_record_of_loc m l)) (loc_of_shr_record (shr_record_of_loc m l)) = upper m l.
Proof. by destruct l as [|[]]. Qed.

Lemma shr_m_record m l : shr_m (shr_record_of_loc m l) = m.
Proof. by destruct l as [|[]]. Qed.

Lemma shr_1_upper r b :
  0 <= shr_m r -> upper (shr_m r) (loc_of_shr_record r) <= 2 * b ->
  0 <= shr_m (shr_1 r) /\ upper (shr_m (shr_1 r)) (loc_of_shr_record (shr_1 r)) <= b.
Proof. destruct r as [[|[p|p|]|p] [] []]; cbn; lia. Qed.

Lemma shr_n_upper n : forall r c d,
  0 <= shr_m r -> Z.of_nat n <= d -> upper (shr_m r) (loc_of_shr_record r) <= c * 2 ^ d ->
  let r' := Nat.iter n shr_1 r in
  0 <= shr_m r' /\ upper (shr_m r') (loc_of_shr_record r') <= c * 2 ^ (d - Z.of_nat n).
Proof.
  induction n as [|n IH]; intros r c d Hm Hn Hu.
  - cbn [Nat.iter]. by replace (d - Z.of_nat 0) with d by lia.
  - cbn zeta. rewrite Nat.iter_succ_r. destruct (shr_1_upper r (c * 2 ^ (d - 1)) Hm) as [Hm' Hu'].
    { replace d with (Z.succ (d - 1)) in Hu by lia. rewrite Z.pow_succ_r in Hu by lia. lia. }
    destruct (IH (shr_1 r) c (d - 1) Hm' ltac:(lia) Hu') as [Hm'' Hu''].
    split; [done|]. by replace (d - Z.of_nat (S n)) with (d - 1 - Z.of_nat n) by lia.
Qed.

Lemma shr_iter r e n : SpecFloat.shr r e n = (Nat.iter (Z.to_nat n) shr_1 r, e + Z.max 0 n).
Proof.
  destruct n as [|n|n]; cbn -[Z.add Nat.iter]; [by rewrite Z.add_0_r| |by rewrite Z.add_0_r].
  by rewrite iter_pos_nat.
Qed.

Lemma fexp_below m e c k :
  format c k -> 0 <= m -> e <= k -> m <= c * 2 ^ (k - e) -> fexp (Zdigits2 m + e) <= k.
Proof.
  intros [Hc Hk] Hm He Hu. unfold SpecFloat.fexp.
  assert (Zdigits2 m <= prec + (k - e)); [|lia].
  apply Zdigits2_le; [lia|]. split; [done|]. rewrite Z.pow_add_r by lia. nia.
Qed.

Lemma shr_fexp_upper m e l c k :
  format c k -> 0 <= m -> e <= k -> upper m l <= c * 2 ^ (k - e) ->
  let '(r, e') := shr_fexp m e l in
  0 <= shr_m r /\ e <= e' <= k /\ upper (shr_m r) (loc_of_shr_record r) <= c * 2 ^ (k - e').
Proof.
  intros Hf Hm He Hu. unfold SpecFloat.shr_fexp. rewrite shr_iter.
  assert (m <= upper m l) by (destruct l; cbn; lia).
  pose proof (fexp_below m e c k Hf Hm He ltac:(lia)) as Hx.
  set (n := fexp _ - e) in *.
  destruct (shr_n_upper (Z.to_nat n) (shr_record_of_loc m l) c (k - e)) as [Hm' Hu'].
  - by rewrite shr_m_record.
  - lia.
  - by rewrite upper_record.
  - split; [done|]. split; [lia|]. by replace (k - (e + Z.max 0 n)) with (k - e - Z.of_nat (Z.to_nat n)) by lia.
Qed.

Lemma round_upper m l : 0 <= m -> 0 <= round_nearest_even m l <= upper m l.
Proof. intros H. destruct l as [|[]]; cbn; try destruct (Z.even m); lia. Qed.

(** Rounding stays under a bound of the format. *)
Lemma round_below m e l c k :
  format c k -> 0 <= m -> e <= k -> upper m l <= c * 2 ^ (k - e) -> below c k (round_aux false m e l).
Proof.
  intros Hf Hm He Hu. unfold SpecFloat.binary_round_aux.
  pose proof (shr_fexp_upper m e l c k Hf Hm He Hu) as H1.
  destruct (shr_fexp m e l) as [r1 e1]. destruct H1 as (Hm1 & He1 & Hu1).
  pose proof (round_upper (shr_m r1) (loc_of_shr_record r1) Hm1) as Hr.
  pose proof (shr_fexp_upper (round_nearest_even (shr_m r1) (loc_of_shr_record r1)) e1 loc_Exact c k Hf
    ltac:(lia) ltac:(lia) ltac:(cbn; lia)) as H2.
  destruct (shr_fexp _ e1 loc_Exact) as [r2 e2]. destruct H2 as (Hm2 & He2 & Hu2).
  assert (shr_m r2 <= upper (shr_m r2) (loc_of_shr_record r2)) by (destruct (loc_of_shr_record r2); cbn; lia).
  destruct (shr_m r2) as [|m2|m2]; [done| |lia].
  destruct Hf as [_ Hk]. rewrite (proj2 (Z.leb_le _ _)) by lia. cbn. lia.
Qed.

(** *** Operations against an upper bound *)

Lemma mul_below c1 k1 c2 k2 c k x y :
  format c k -> below c1 k1 x -> below c2 k2 y -> k1 + k2 <= k -> c1 * c2 <= c * 2 ^ (k - k1 - k2) ->
  below c k (SFmul prec emax x y).
Proof.
  intros Hf Hx Hy Hk Hc.
  destruct x as [[]|[]| |[] mx ex]; try done; destruct y as [[]|[]| |[] my ey]; try done.
  cbn [SFmul xorb]. cbn [below] in Hx, Hy. destruct Hx as [Hex Hx], Hy as [Hey Hy].
  apply round_below; [done..|lia|lia|]. cbn [upper].
  replace (k - (ex + ey)) with ((k - k1 - k2) + ((k1 - ex) + (k2 - ey))) by lia.
  rewrite !Z.pow_add_r by lia.
  pose proof (Z.pow_pos_nonneg 2 (k1 - ex)). pose proof (Z.pow_pos_nonneg 2 (k2 - ey)).
  transitivity ((c1 * 2 ^ (k1 - ex)) * (c2 * 2 ^ (k2 - ey))); [rewrite Pos2Z.inj_mul; nia|].
  replace (c1 * 2 ^ (k1 - ex) * (c2 * 2 ^ (k2 - ey))) with (c1 * c2 * (2 ^ (k1 - ex) * 2 ^ (k2 - ey))) by ring.
  rewrite (Z.mul_assoc c). apply Z.mul_le_mono_nonneg_r; [nia|done].
Qed.

(** The mantissas brought to a smaller exponent. *)
Lemma shl_align_spec m e e' :
  Z.pos (shl_align m e e').1 = Z.pos m * 2 ^ (Z.max 0 (e - e')) /\ (shl_align m e e').2 = Z.min e e'.
Proof.
  unfold shl_align. destruct (e' - e) as [|d|d] eqn:E; cbn [fst snd].
  - rewrite Z.max_l, Z.min_l by lia. split; [lia|done].
  - rewrite Z.max_l, Z.min_l by lia. split; [lia|done].
  - rewrite iter_xO. split; [|lia]. do 2 f_equal. lia.
Qed.

Lemma normalize_below m e c k :
  format c k -> 0 <= m -> e <= k -> m <= c * 2 ^ (k - e) -> below c k (binary_normalize prec emax m e false).
Proof.
  intros Hf Hm He Hu. destruct m as [|m|m]; cbn [binary_normalize]; [done| |lia].
  unfold binary_round.
  pose proof (fexp_below (Z.pos m) e c k Hf Hm He Hu) as Hx. cbn [Zdigits2] in Hx.
  pose proof (shl_align_spec m e (fexp (Z.pos (digits2_pos m) + e))) as [E1 E2].
  destruct (shl_align _ _ _) as [mz ez]. cbn [fst snd] in E1, E2. subst ez.
  apply round_below; [done|lia|lia|]. cbn [upper]. rewrite E1.
  set (e' := fexp _) in *.
  replace (k - e `min` e') with ((k - e) + Z.max 0 (e - e')) by lia.
  rewrite Z.pow_add_r by lia. pose proof (Z.pow_pos_nonneg 2 (Z.max 0 (e - e'))). nia.
Qed.

(** The exact sum of two numbers. *)
Definition sum_at (m1 e1 m2 e2 : Z) : Z := m1 * 2 ^ (e1 - Z.min e1 e2) + m2 * 2 ^ (e2 - Z.min e1 e2).

Lemma add_finite mx ex my ey :
  SFadd prec emax (S754_finite false mx ex) (S754_finite false my ey) =
  binary_normalize prec emax (sum_at (Z.pos mx) ex (Z.pos my) ey) (Z.min ex ey) false.
Proof.
  cbn [SFadd cond_Zopp]. rewrite !(proj1 (shl_align_spec _ _ _)). unfold sum_at.
  by rewrite (Z.max_r 0 (ex - _)), (Z.max_r 0 (ey - _)) by lia.
Qed.

Lemma sum_at_below mx ex my ey c1 k1 c2 k2 k z :
  ex <= k1 -> ey <= k2 -> mx <= c1 * 2 ^ (k1 - ex) -> my <= c2 * 2 ^ (k2 - ey) ->
  k1 <= k -> k2 <= k -> z = Z.min ex ey ->
  sum_at mx ex my ey <= (c1 * 2 ^ (k1 - Z.min k1 k2) + c2 * 2 ^ (k2 - Z.min k1 k2)) * 2 ^ (Z.min k1 k2 - z).
Proof.
  intros He1 He2 H1 H2 Hk1 Hk2 ->. unfold sum_at. rewrite Z.mul_add_distr_r, <- !Z.mul_assoc, <- !Z.pow_add_r by lia.
  replace (k1 - k1 `min` k2 + (k1 `min` k2 - ex `min` ey)) with ((k1 - ex) + (ex - ex `min` ey)) by lia.
  replace (k2 - k1 `min` k2 + (k1 `min` k2 - ex `min` ey)) with ((k2 - ey) + (ey - ex `min` ey)) by lia.
  rewrite (Z.pow_add_r 2 (k1 - ex)), (Z.pow_add_r 2 (k2 - ey)) by lia.
  rewrite !Z.mul_assoc. apply Z.add_le_mono; apply Z.mul_le_mono_nonneg_r; auto using Z.pow_nonneg with lia.
Qed.

(** A quotient and the location of its remainder. *)
Lemma quotient_upper n m b :
  0 <= n -> 0 < m -> n <= b * m -> upper (n / m) (new_location m (n mod m)) <= b.
Proof.
  intros Hn Hm Hb. pose proof (Z.mod_pos_bound n m Hm). pose proof (Z.div_mod n m ltac:(lia)).
  destruct (decide (n mod m = 0)) as [E|E].
  - assert (new_location m (n mod m) = loc_Exact) as ->.
    { unfold new_location, new_location_even, new_location_odd. rewrite E. by destruct (Z.even m). }
    cbn [upper]. nia.
  - assert (upper (n / m) (new_location m (n mod m)) <= n / m + 1) by (destruct (new_location _ _); cbn; lia). nia.
Qed.

(** The exponent of a quotient. *)
Definition quotient_exp (m1 e1 m2 e2 : Z) : Z :=
  Z.min (fexp (Zdigits2 m1 + e1 - (Zdigits2 m2 + e2))) (e1 - e2).

Lemma div_core m1 e1 m2 e2 :
  let e' := quotient_exp m1 e1 m2 e2 in
  let n := m1 * 2 ^ (e1 - e2 - e') in
  0 <= m1 -> 0 < m2 -> SFdiv_core_binary prec emax m1 e1 m2 e2 = (n / m2, e', new_location m2 (n mod m2)).
Proof.
  intros e' n Hm1 Hm2. unfold SFdiv_core_binary. fold (quotient_exp m1 e1 m2 e2). fold e'.
  assert (match e1 - e2 - e' with Z0 => m1 | Z.pos _ => Z.shiftl m1 (e1 - e2 - e') | Z.neg _ => 0 end = n) as ->.
  { unfold n. assert (0 <= e1 - e2 - e') by (unfold e', quotient_exp; lia).
    destruct (e1 - e2 - e') as [|s|s] eqn:E; [cbn; lia|by rewrite Z.shiftl_mul_pow2|lia]. }
  unfold Z.div, Z.modulo. by destruct (Z.div_eucl n m2).
Qed.

(** A number that is an integer of at most [prec] bits. *)
Definition is_int (x : spec_float) (z : Z) : Prop :=
  exists d, 0 <= d < prec /\ 2 ^ d <= z < 2 ^ (d + 1) /\
    x = S754_finite false (Z.to_pos (z * 2 ^ (prec - 1 - d))) (d + 1 - prec).

(** Rounding leaves a mantissa of exactly [prec] bits alone. *)
Lemma round_exact m e :
  2 ^ (prec - 1) <= Z.pos m < 2 ^ prec -> emin <= e <= emax - prec ->
  round_aux false (Z.pos m) e loc_Exact = S754_finite false m e.
Proof.
  intros Hm He. unfold SpecFloat.binary_round_aux.
  assert (shr_fexp (Z.pos m) e loc_Exact = (Build_shr_record (Z.pos m) false false, e)) as E.
  { unfold SpecFloat.shr_fexp. rewrite shr_iter. cbn [shr_record_of_loc Zdigits2].
    rewrite (digits2_unique m (prec - 1)) by (replace (prec - 1 + 1) with prec; lia).
    unfold SpecFloat.fexp.
    replace (Z.max (prec - 1 + 1 + e - prec) emin - e) with 0 by lia. cbn [Z.to_nat Nat.iter nat_rect]. f_equal. lia. }
  rewrite E. cbn [shr_m loc_of_shr_record round_nearest_even]. rewrite E. cbn [shr_m].
  by rewrite (proj2 (Z.leb_le _ _)) by lia.
Qed.

Lemma pow_log z : 0 < z -> 2 ^ Z.log2 z <= z < 2 ^ (Z.log2 z + 1).
Proof. intros. rewrite Z.add_1_r. by apply Z.log2_spec. Qed.

Lemma normalize_int z : 0 < z < 2 ^ prec -> is_int (binary_normalize prec emax z 0 false) z.
Proof.
  intros Hz. exists (Z.log2 z). pose proof (pow_log z ltac:(lia)) as Hl. set (d := Z.log2 z) in *.
  assert (0 <= d < prec) as Hd.
  { split; [apply Z.log2_nonneg|]. apply (Z.pow_lt_mono_r_iff 2); lia. }
  split; [done|]. split; [done|]. destruct z as [|z|z]; [lia| |lia]. cbn [binary_normalize]. unfold binary_round.
  rewrite (digits2_unique z d) by lia. unfold SpecFloat.fexp. rewrite Z.add_0_r.
  replace (Z.max (d + 1 - prec) emin) with (d + 1 - prec) by (unfold SpecFloat.emin; lia).
  pose proof (shl_align_spec z 0 (d + 1 - prec)) as [E1 E2].
  destruct (shl_align z 0 (d + 1 - prec)) as [mz ez]. cbn [fst snd] in E1, E2. subst ez.
  replace (Z.max 0 (0 - (d + 1 - prec))) with (prec - 1 - d) in E1 by lia.
  replace (Z.min 0 (d + 1 - prec)) with (d + 1 - prec) by lia.
  rewrite <- E1. cbn [Z.to_pos]. apply round_exact; [|unfold SpecFloat.emin; lia]. rewrite E1.
  replace (2 ^ (prec - 1)) with (2 ^ d * 2 ^ (prec - 1 - d)) by (rewrite <- Z.pow_add_r by lia; f_equal; lia).
  replace (2 ^ prec) with (2 ^ (d + 1) * 2 ^ (prec - 1 - d)) by (rewrite <- Z.pow_add_r by lia; f_equal; lia).
  pose proof (Z.pow_pos_nonneg 2 (prec - 1 - d)). nia.
Qed.

Lemma div_below c k j x y :
  format c k -> format c (k - j) -> below c k x -> at_least j y -> below c (k - j) (SFdiv prec emax x y).
Proof.
  intros Hf Hf' Hx Hy. destruct x as [[]|[]| |[] mx ex]; try done; destruct y as [[]|[]| |[] my ey]; try done.
  cbn [SFdiv xorb]. cbn [below at_least] in Hx, Hy. destruct Hx as [Hex Hx].
  assert (Zdigits2 (Z.pos mx) <= prec + (k - ex)) as Hdx.
  { apply Zdigits2_le; [lia|]. split; [lia|]. rewrite Z.pow_add_r by lia. destruct Hf. nia. }
  pose proof (digits2_bounds my) as [Hmy _].
  rewrite div_core by lia. set (e' := quotient_exp _ _ _ _).
  assert (e' <= k - j) as He'.
  { unfold e', quotient_exp. cbn [Zdigits2] in Hdx |- *. unfold SpecFloat.fexp. destruct Hf', Hf. lia. }
  assert (0 <= ex - ey - e') by (unfold e', quotient_exp; lia).
  pose proof (Z.pow_nonneg 2 (ex - ey - e')).
  apply round_below; [done|apply Z.div_pos; nia|done|]. apply quotient_upper; [nia|lia|].
  transitivity (c * (2 ^ (k - ex) * 2 ^ (ex - ey - e'))).
    { rewrite Z.mul_assoc. apply Z.mul_le_mono_nonneg_r; [apply Z.pow_nonneg; lia|done]. }
    rewrite <- Z.pow_add_r by lia. rewrite <- Z.mul_assoc.
    destruct Hf as [Hc _]. apply Z.mul_le_mono_nonneg_l; [lia|].
    transitivity (2 ^ (k - j - e') * 2 ^ (Z.pos (digits2_pos my) - 1)).
    + rewrite <- Z.pow_add_r by lia. apply Z.pow_le_mono_r; lia.
    + apply Z.mul_le_mono_nonneg_l; [apply Z.pow_nonneg; lia|done].
Qed.

(** *** Rounding to nearest *)

Lemma shr_n_half m n : 0 <= m ->
  let r := Nat.iter (S n) shr_1 (Build_shr_record m false false) in
  0 <= shr_m r /\ 2 * shr_m r + Z.b2z (shr_r r) = m / 2 ^ Z.of_nat n.
Proof.
  intros Hm. induction n as [|n IH]; cbn zeta in *.
  - cbn [Nat.iter nat_rect]. rewrite Z.div_1_r. destruct m as [|[p|p|]|p]; cbn; lia.
  - rewrite Nat.iter_succ. destruct IH as [Hp IH]. set (r := Nat.iter _ _ _) in *. clearbody r.
    rewrite Nat2Z.inj_succ, Z.pow_succ_r, (Z.mul_comm 2 (2 ^ _)), <- Z.div_div by (try apply Z.pow_nonzero; lia).
    rewrite <- IH.
    assert (2 * shr_m (shr_1 r) + Z.b2z (shr_r (shr_1 r)) = shr_m r) as ->
      by (destruct r as [[|[p|p|]|p] [] []]; cbn in *; lia).
    split; [destruct r as [[|[p|p|]|p] [] []]; cbn in *; lia|].
    destruct (shr_r r); cbn [Z.b2z]; Z.to_euclidean_division_equations; lia.
Qed.

(** An exact value less than half a unit above the bound is rounded down to it. *)
Lemma normalize_below_near m e c k :
  format c k -> 2 ^ (prec - 1) <= c -> 0 <= m -> e <= k -> 2 * m < (2 * c + 1) * 2 ^ (k - e) ->
  below c k (binary_normalize prec emax m e false).
Proof.
  intros Hf Hc Hm He Hu. destruct (Z.le_gt_cases m (c * 2 ^ (k - e))) as [|Hgt]; [by apply normalize_below|].
  pose proof Hf as [Hc2 Hk]. set (n := k - e) in *.
  assert (0 < 2 ^ n) by (apply Z.pow_pos_nonneg; unfold n; lia).
  assert (1 <= n) as Hn by (destruct (decide (n = 0)) as [E|]; [rewrite E in *; cbn in *; lia|unfold n in *; lia]).
  destruct m as [|m|m]; [nia| |lia]. cbn [binary_normalize]. unfold binary_round.
  assert (Z.pos (digits2_pos m) = prec + n) as Hd.
  { replace (prec + n) with (prec + n - 1 + 1) by lia. apply digits2_unique; [lia|].
    replace (prec + n - 1) with ((prec - 1) + n) by lia. replace (prec - 1 + n + 1) with (prec + n) by lia.
    rewrite !Z.pow_add_r by lia. nia. }
  assert (fexp (Z.pos (digits2_pos m) + e) = k) as Ek by (rewrite Hd; unfold SpecFloat.fexp; lia).
  rewrite Ek.
  assert (shl_align m e k = (m, e)) as -> by (unfold shl_align; fold n; by destruct n).
  unfold SpecFloat.binary_round_aux at 1. unfold SpecFloat.shr_fexp at 1. rewrite shr_iter. cbn [Zdigits2]. rewrite Ek. fold n.
  replace (e + Z.max 0 n) with k by lia. cbn [shr_record_of_loc].
  replace (Z.to_nat n) with (S (Z.to_nat (n - 1))) by lia.
  destruct (shr_n_half (Z.pos m) (Z.to_nat (n - 1)) ltac:(lia)) as [Hr E]. set (r := Nat.iter _ _ _) in *. clearbody r.
  rewrite Z2Nat.id in E by lia.
  assert (2 ^ n = 2 * 2 ^ (n - 1)) as En by (rewrite <- Z.pow_succ_r by lia; f_equal; lia). rewrite En in *.
  assert (Z.pos m / 2 ^ (n - 1) < 2 * c + 1) by (apply Z.div_lt_upper_bound; lia).
  assert (2 * c <= Z.pos m / 2 ^ (n - 1)) by (apply Z.div_le_lower_bound; lia).
  assert (shr_m r = c /\ shr_r r = false) as [Em Er] by (destruct (shr_r r); cbn in E; lia).
  assert (round_nearest_even (shr_m r) (loc_of_shr_record r) = c) as ->
    by (destruct r as [rm [] []]; cbn in *; congruence || done).
  destruct c as [|c|c]; [lia| |lia].
  assert (shr_fexp (Z.pos c) k loc_Exact = (Build_shr_record (Z.pos c) false false, k)) as ->.
  { unfold SpecFloat.shr_fexp. rewrite shr_iter. cbn [Zdigits2 shr_record_of_loc].
    rewrite (digits2_unique c (prec - 1)) by (replace (prec - 1 + 1) with prec; lia).
    unfold SpecFloat.fexp. replace (_ - k) with 0 by lia. cbn [Z.to_nat Nat.iter nat_rect]. f_equal. lia. }
  cbn [shr_m]. rewrite (proj2 (Z.leb_le _ _)) by lia. cbn [below]. rewrite Z.sub_diag. lia.
Qed.

Lemma add_below_near c1 k1 c2 k2 c k x y :
  format c k -> 2 ^ (prec - 1) <= c -> below c1 k1 x -> below c2 k2 y -> k1 <= k -> k2 <= k ->
  let z := Z.min k1 k2 in
  c1 * 2 ^ (k1 - z) <= c * 2 ^ (k - z) -> c2 * 2 ^ (k2 - z) <= c * 2 ^ (k - z) ->
  2 * (c1 * 2 ^ (k1 - z) + c2 * 2 ^ (k2 - z)) < (2 * c + 1) * 2 ^ (k - z) ->
  below c k (SFadd prec emax x y).
Proof.
  intros Hf Hc Hx Hy Hk1 Hk2 z H1 H2 Hs.
  pose proof (below_mono c1 k1 c k x z ltac:(lia) Hk1 H1 Hx) as Hx'.
  pose proof (below_mono c2 k2 c k y z ltac:(lia) Hk2 H2 Hy) as Hy'.
  destruct x as [[]|[]| |[] mx ex]; try done; destruct y as [[]|[]| |[] my ey]; try done.
  cbn [below] in Hx, Hy. destruct Hx as [Hex Hx], Hy as [Hey Hy]. rewrite add_finite.
  pose proof (sum_at_below _ _ _ _ _ _ _ _ k (Z.min ex ey) Hex Hey Hx Hy Hk1 Hk2 eq_refl) as Hsum. fold z in Hsum.
  apply normalize_below_near; [done..| |lia|].
  - unfold sum_at. apply Z.add_nonneg_nonneg; apply Z.mul_nonneg_nonneg; try apply Z.pow_nonneg; lia.
  - replace (k - Z.min ex ey) with ((k - z) + (z - Z.min ex ey)) by lia. rewrite Z.pow_add_r by lia.
    pose proof (Z.pow_pos_nonneg 2 (z - Z.min ex ey)). nia.
Qed.

(** *** Lower bounds *)

Lemma shr_n_div n : forall r, 0 <= shr_m r -> shr_m (Nat.iter n shr_1 r) = shr_m r / 2 ^ Z.of_nat n.
Proof.
  induction n as [|n IH]; intros r Hr; [by rewrite Z.div_1_r|].
  rewrite Nat.iter_succ_r.
  assert (0 <= shr_m (shr_1 r) /\ shr_m (shr_1 r) = shr_m r / 2) as [Hp E].
  { destruct r as [[|[p|p|]|p] [] []]; cbn in *; try lia; Z.to_euclidean_division_equations; lia. }
  rewrite (IH _ Hp), E, Z.div_div by (try apply Z.pow_pos_nonneg; lia).
  by rewrite Nat2Z.inj_succ, Z.pow_succ_r by lia.
Qed.

(** A value from [c * 2 ^ k] up, as a mantissa and an exponent. *)
Definition ge_at (c k m e : Z) : Prop := c * 2 ^ Z.max 0 (k - e) <= m * 2 ^ Z.max 0 (e - k).

Lemma shr_fexp_above m e l c k :
  format c k -> 2 ^ (prec - 1) <= c -> 0 <= m -> ge_at c k m e ->
  let '(r, e') := shr_fexp m e l in k <= e' /\ c <= shr_m r * 2 ^ (e' - k).
Proof.
  intros [Hc Hk] Hc1 Hm Hg. unfold ge_at in Hg.
  assert (0 < m) as Hm0. { destruct (decide (m = 0)) as [->|]; [|lia]. pose proof (Z.pow_pos_nonneg 2 (Z.max 0 (k - e))). nia. }
  destruct m as [|m|m]; [lia| |lia]. unfold SpecFloat.shr_fexp. rewrite shr_iter. cbn [Zdigits2].
  rewrite shr_n_div, shr_m_record by (by rewrite shr_m_record).
  pose proof (digits2_bounds m) as [Hd1 Hd2]. set (D := Z.pos (digits2_pos m)) in *.
  assert (e < k -> prec + (k - e) <= D) as Hlow.
  { intros He. rewrite (Z.max_l 0 (e - k)), Z.max_r, Z.mul_1_r in Hg by lia.
    assert (2 ^ (prec - 1 + (k - e)) < 2 ^ D); [|assert (prec - 1 + (k - e) < D) by (apply (Z.pow_lt_mono_r_iff 2); lia); lia].
    rewrite Z.pow_add_r by lia. pose proof (Z.pow_pos_nonneg 2 (k - e)). nia. }
  unfold SpecFloat.fexp. destruct (Z.le_gt_cases (Z.max (D + e - prec) emin - e) 0) as [Hn|Hn].
  - rewrite Z.max_l by lia. replace (Z.to_nat _) with 0%nat by lia. rewrite Z.div_1_r, Z.add_0_r.
    assert (k <= e) by lia. rewrite Z.max_l, Z.mul_1_r, Z.max_r in Hg by lia. done.
  - rewrite Z.max_r, Z2Nat.id by lia.
    assert (Z.max (D + e - prec) emin = D + e - prec) as -> by lia.
    replace (e + (D + e - prec - e)) with (D + e - prec) by lia. replace (D + e - prec - e) with (D - prec) by lia.
    assert (2 ^ (prec - 1) <= Z.pos m / 2 ^ (D - prec)) as Hq.
    { apply Z.div_le_lower_bound; [apply Z.pow_pos_nonneg; lia|]. rewrite <- Z.pow_add_r by lia.
      by replace (D - prec + (prec - 1)) with (D - 1) by lia. }
    destruct (decide (D + e - prec = k)) as [E|E].
    + split; [lia|]. rewrite E, Z.sub_diag, Z.mul_1_r.
      apply Z.div_le_lower_bound; [apply Z.pow_pos_nonneg; lia|].
      rewrite (Z.max_l 0 (e - k)), Z.mul_1_r, Z.max_r in Hg by lia.
      replace (D - prec) with (k - e) by lia. lia.
    + assert (k < D + e - prec) by lia. split; [lia|].
      transitivity (2 ^ (prec - 1) * 2 ^ 1); [rewrite <- Z.pow_add_r by lia; replace (prec - 1 + 1) with prec; lia|].
      apply Z.mul_le_mono_nonneg; [apply Z.pow_nonneg; lia|done|lia|apply Z.pow_le_mono_r; lia].
Qed.

(** Rounding stays above a bound of the format with a full mantissa. *)
Lemma round_above m e l c k :
  format c k -> 2 ^ (prec - 1) <= c -> 0 <= m -> ge_at c k m e -> above c k (round_aux false m e l).
Proof.
  intros Hf Hc Hm Hg. unfold SpecFloat.binary_round_aux.
  pose proof (shr_fexp_above m e l c k Hf Hc Hm Hg) as H1. destruct (shr_fexp m e l) as [r1 e1]. destruct H1 as [He1 H1].
  pose proof (Z.pow_pos_nonneg 2 (prec - 1)). pose proof (Z.pow_pos_nonneg 2 (e1 - k)).
  assert (0 <= shr_m r1) as Hr1 by nia.
  set (m1 := round_nearest_even _ _).
  assert (shr_m r1 <= m1) by (unfold m1; destruct (loc_of_shr_record r1) as [|[]]; cbn; try destruct (Z.even _); lia).
  pose proof (shr_fexp_above m1 e1 loc_Exact c k Hf Hc ltac:(lia)) as Hs.
  destruct (shr_fexp m1 e1 loc_Exact) as [r2 e2]. destruct Hs as [He2 Hs].
  { unfold ge_at. rewrite Z.max_l, Z.mul_1_r, Z.max_r by lia. nia. }
  pose proof (Z.pow_pos_nonneg 2 (e2 - k)).
  destruct (shr_m r2) as [|m2|m2]; [lia| |lia]. by destruct (_ <=? _).
Qed.

(** *** The quotient of two integers *)

Lemma div_int_core a b da db :
  0 <= da < prec -> 0 <= db < prec -> 2 ^ da <= a < 2 ^ (da + 1) -> 2 ^ db <= b < 2 ^ (db + 1) ->
  let n := a * 2 ^ (prec - 1 - da) * 2 ^ prec in let m := b * 2 ^ (prec - 1 - db) in
  2 ^ (prec - 1) <= m < 2 ^ prec /\ 2 ^ (prec - 1) * m <= n /\
  forall x y, is_int x a -> is_int y b ->
    SFdiv prec emax x y = round_aux false (n / m) (da - db - prec) (new_location m (n mod m)).
Proof.
  intros Hda Hdb Ha Hb n m.
  assert (forall z d, 0 <= d < prec -> 2 ^ d <= z < 2 ^ (d + 1) ->
    2 ^ (prec - 1) <= z * 2 ^ (prec - 1 - d) < 2 ^ prec) as Hnorm.
  { intros z d Hd Hz.
    replace (2 ^ (prec - 1)) with (2 ^ d * 2 ^ (prec - 1 - d)) by (rewrite <- Z.pow_add_r by lia; f_equal; lia).
    replace (2 ^ prec) with (2 ^ (d + 1) * 2 ^ (prec - 1 - d)) by (rewrite <- Z.pow_add_r by lia; f_equal; lia).
    pose proof (Z.pow_pos_nonneg 2 (prec - 1 - d)). nia. }
  pose proof (Hnorm a da Hda Ha) as Hma. pose proof (Hnorm b db Hdb Hb) as Hmb. fold m in Hmb.
  pose proof (Z.pow_pos_nonneg 2 (prec - 1)).
  split; [done|]. split; [unfold n; nia|].
  assert (forall z d d', 0 <= d -> 0 <= d' -> 2 ^ d <= z < 2 ^ (d + 1) -> 2 ^ d' <= z < 2 ^ (d' + 1) -> d' = d) as Huniq.
  { intros z d d' Hd Hd' H1 H2. destruct z as [|z|z]; [pose proof (Z.pow_pos_nonneg 2 d); lia| |pose proof (Z.pow_pos_nonneg 2 d); lia].
    pose proof (digits2_unique z d Hd H1). pose proof (digits2_unique z d' Hd' H2). lia. }
  intros x y (d1 & Hd1 & Hz1 & ->) (d2 & Hd2 & Hz2 & ->).
  rewrite (Huniq a da d1), (Huniq b db d2) by lia. fold m. cbn [SFdiv xorb].
  rewrite div_core by lia. rewrite !Z2Pos.id by lia.
  assert (quotient_exp (a * 2 ^ (prec - 1 - da)) (da + 1 - prec) m (db + 1 - prec) = da - db - prec) as ->.
  { unfold quotient_exp.
    assert (forall z, 2 ^ (prec - 1) <= z < 2 ^ prec -> Zdigits2 z = prec) as Hdig.
    { intros z Hz. destruct z as [|z|z]; [lia| |lia]. cbn [Zdigits2]. replace prec with (prec - 1 + 1) at 1 by lia.
      apply digits2_unique; [lia|]. by replace (prec - 1 + 1) with prec by lia. }
    rewrite !Hdig by done. unfold SpecFloat.fexp, SpecFloat.emin. lia. }
  replace (da + 1 - prec - (db + 1 - prec) - (da - db - prec)) with prec by lia. done.
Qed.

Lemma div_int_below a b x y c k :
  format c k -> is_int x a -> is_int y b -> k <= 0 -> a * 2 ^ (- k) <= c * b -> below c k (SFdiv prec emax x y).
Proof.
  intros Hf Hx Hy Hk Hu. pose proof Hx as (da & Hda & Ha & _). pose proof Hy as (db & Hdb & Hb & _).
  destruct (div_int_core a b da db Hda Hdb Ha Hb) as (Hm & Hn & E). rewrite (E x y Hx Hy). clear E.
  assert (da - db - prec <= k) as He.
  { assert (2 ^ (da - k) < 2 ^ (prec + (db + 1))); [|assert (da - k < prec + (db + 1)) by (apply (Z.pow_lt_mono_r_iff 2); lia); lia].
    replace (da - k) with (da + - k) by lia. rewrite (Z.pow_add_r 2 da), (Z.pow_add_r 2 prec) by lia. destruct Hf.
    pose proof (Z.pow_pos_nonneg 2 (- k)). pose proof (Z.pow_pos_nonneg 2 da).
    apply (Z.le_lt_trans _ (c * b)); [|nia].
    etransitivity; [|exact Hu]. apply Z.mul_le_mono_nonneg_r; [apply Z.pow_nonneg|]; lia. }
  pose proof (Z.pow_pos_nonneg 2 (prec - 1)). pose proof (Z.pow_pos_nonneg 2 da).
  apply round_below; [done|apply Z.div_pos; nia|done|]. apply quotient_upper; [nia|lia|].
  apply (Z.mul_le_mono_pos_r _ _ (2 ^ (- k))); [apply Z.pow_pos_nonneg; lia|].
  replace (a * 2 ^ (prec - 1 - da) * 2 ^ prec * 2 ^ (- k)) with (a * 2 ^ (- k) * (2 ^ (prec - 1 - da) * 2 ^ prec)) by ring.
  rewrite <- Z.pow_add_r by lia.
  replace (c * 2 ^ (k - (da - db - prec)) * (b * 2 ^ (prec - 1 - db)) * 2 ^ (- k))
    with (c * b * (2 ^ (k - (da - db - prec)) * 2 ^ (prec - 1 - db) * 2 ^ (- k))) by ring.
  rewrite <- !Z.pow_add_r by lia.
  replace (k - (da - db - prec) + (prec - 1 - db) + - k) with (prec - 1 - da + prec) by lia.
  apply Z.mul_le_mono_nonneg_r; [apply Z.pow_nonneg; lia|done].
Qed.

Lemma div_int_above a b x y c k :
  format c k -> 2 ^ (prec - 1) <= c -> is_int x a -> is_int y b -> k <= 0 -> c * b <= a * 2 ^ (- k) ->
  above c k (SFdiv prec emax x y).
Proof.
  intros Hf Hc Hx Hy Hk Hu. pose proof Hx as (da & Hda & Ha & _). pose proof Hy as (db & Hdb & Hb & _).
  destruct (div_int_core a b da db Hda Hdb Ha Hb) as (Hm & Hn & E). rewrite (E x y Hx Hy). clear E.
  pose proof (Z.pow_pos_nonneg 2 (prec - 1)). pose proof (Z.pow_pos_nonneg 2 da).
  set (m := b * 2 ^ (prec - 1 - db)) in *. set (n := a * 2 ^ (prec - 1 - da) * 2 ^ prec) in *.
  assert (2 ^ (prec - 1) <= n / m) as Hq by (apply Z.div_le_lower_bound; lia).
  apply round_above; [done..|lia|]. unfold ge_at. set (e := da - db - prec).
  destruct (Z.le_gt_cases e k) as [He|He].
  - rewrite (Z.max_l 0 (e - k)), Z.max_r, Z.mul_1_r by lia.
    apply Z.div_le_lower_bound; [lia|].
    apply (Z.mul_le_mono_pos_r _ _ (2 ^ (- k))); [apply Z.pow_pos_nonneg; lia|]. unfold m, n, e.
    replace (a * 2 ^ (prec - 1 - da) * 2 ^ prec * 2 ^ (- k)) with (a * 2 ^ (- k) * (2 ^ (prec - 1 - da) * 2 ^ prec)) by ring.
    rewrite <- Z.pow_add_r by lia.
    replace (b * 2 ^ (prec - 1 - db) * (c * 2 ^ (k - (da - db - prec))) * 2 ^ (- k))
      with (c * b * (2 ^ (k - (da - db - prec)) * 2 ^ (prec - 1 - db) * 2 ^ (- k))) by ring.
    rewrite <- !Z.pow_add_r by (unfold e in He; lia).
    replace (k - (da - db - prec) + (prec - 1 - db) + - k) with (prec - 1 - da + prec) by lia.
    apply Z.mul_le_mono_nonneg_r; [apply Z.pow_nonneg; lia|done].
  - rewrite (Z.max_r 0 (e - k)), Z.max_l, Z.mul_1_r by lia. destruct Hf as [Hc2 _].
    transitivity (2 ^ (prec - 1) * 2 ^ 1); [rewrite <- Z.pow_add_r by lia; replace (prec - 1 + 1) with prec; lia|].
    apply Z.mul_le_mono_nonneg; [apply Z.pow_nonneg; lia|done|lia|apply Z.pow_le_mono_r; lia].
Qed.

End Rounding.
