(* ===== verification/Endian.v ===== *)
(** * Byte order and rolling caps ([src/normalize/endianness.h], [rolling_caps.h])

    The byte swaps, the two 32-byte conversions between big-endian byte strings and
    little-endian word arrays, and the clamps of the rolled header fields. *)

From S2P Require Import Prelude.
From stdpp Require Import base numbers list option.

Open Scope Z_scope.
Open Scope cxx_scope.

(** ** Definitions *)

Definition bswap32 (v : Z) : Z :=
  ((v .& 255) .<< 24) .| ((v .& 65280) .<< 8) .|
  ((v .& 16711680) .>> 8) .| ((v .& 4278190080) .>> 24).

Definition bswap64 (v : Z) : Z :=
  u64 (Z.shiftl (bswap32 (u32 v)) 32) .| bswap32 (u32 (v .>> 32)).

(** [be] has 32 bytes; the result has 8 words. *)
Definition be32BytesToLeU32Words (be : list Z) : list Z :=
  map (fun i => bswap32 (word_at be (4 * i))) (seq 0 8).

(** [words] has 8 words; the result has 32 bytes. *)
Definition leU32WordsToBe32Bytes (words : list Z) : list Z :=
  concat (map (fun i => be_bytes32 (bswap32 (rd words i))) (seq 0 8)).

Definition clampRollingVersion (version vmask : Z) : Z :=
  (version .& not32 vmask) .| (version .& vmask).

Definition clampNtime (ntime ntime_min ntime_max : Z) : Z :=
  if ntime <? ntime_min then ntime_min
  else if ntime >? ntime_max then ntime_max
  else ntime.

(** The 256-bit number a little-endian word array stands for. *)
Definition target_val (ws : list Z) : Z := be_val (leU32WordsToBe32Bytes ws).

(** ** Byte swaps *)

Lemma bswap32_be_word v :
  is_u32 v ->
  bswap32 v = be_word32 (v mod 2 ^ 8) ((v / 2 ^ 8) mod 2 ^ 8)
                        ((v / 2 ^ 16) mod 2 ^ 8) ((v / 2 ^ 24) mod 2 ^ 8).
Proof.
  intros Hv. unfold bswap32, be_word32.
  change (v .& 255) with (v .& (2 ^ 8 - 1)). rewrite land_ones_mod by lia.
  rewrite (land_field v 8 8), (land_field v 8 16), (land_field v 8 24) by lia.
  rewrite !Z.shiftr_div_pow2, !shl32_mul by lia.
  pose proof (mod_in_u 8 (v / 2 ^ 16)) as Hb. unfold in_u in Hb.
  rewrite (u32_small ((v / 2 ^ 16) mod 2 ^ 8 * 2 ^ 8)) by (unfold in_u; lia).
  f_equal; [f_equal; [f_equal; f_equal; lia|]|];
    Z.to_euclidean_division_equations; lia.
Qed.

Lemma bswap32_range v : is_u32 v -> is_u32 (bswap32 v).
Proof. intros. rewrite bswap32_be_word by done. apply be_word32_range. by apply mod_in_u. Qed.
#[export] Hint Resolve bswap32_range : cxx.

(** The big-endian bytes of the swapped word are those of the word reversed. *)
Lemma bswap32_bytes v : is_u32 v -> be_bytes32 (bswap32 v) = rev (be_bytes32 v).
Proof.
  intros Hv. rewrite (be_bytes32_eq v). cbn [rev app].
  apply be_val_inj; [done|cxx_range|by repeat constructor; apply mod_in_u|].
  rewrite be_bytes32_val, bswap32_be_word by cxx_range.
  rewrite be_word32_val by (by apply mod_in_u). done.
Qed.

Lemma bswap32_le_val v : is_u32 v -> bswap32 v = le_val (be_bytes32 v).
Proof.
  intros. rewrite <- (be_bytes32_val (bswap32 v)), bswap32_bytes by cxx_range.
  unfold be_val. by rewrite rev_involutive.
Qed.

Lemma bswap32_invol v : is_u32 v -> bswap32 (bswap32 v) = v.
Proof.
  intros. rewrite <- (be_bytes32_val v) at 2 by done.
  rewrite <- (be_bytes32_val (bswap32 (bswap32 v))) by cxx_range.
  by rewrite !bswap32_bytes, rev_involutive by cxx_range.
Qed.

Lemma map_bswap32_invol ws : is_words ws -> map bswap32 (map bswap32 ws) = ws.
Proof.
  induction 1 as [|w ws Hw _ IH]; [done|]. cbn [map]. by rewrite bswap32_invol, IH.
Qed.

Lemma map_bswap32_words ws : is_words ws -> is_words (map bswap32 ws).
Proof. induction 1; constructor; cxx_range. Qed.

(** The 64-bit swap of a value is the swap of its halves, exchanged. *)
Lemma bswap64_halves v :
  is_u64 v -> bswap64 v = bswap32 (v mod 2 ^ 32) * 2 ^ 32 + bswap32 (v / 2 ^ 32).
Proof.
  intros Hv. unfold bswap64. rewrite Z.shiftr_div_pow2 by lia.
  pose proof (bswap32_range (u32 v) (u32_range _)) as H1. unfold in_u in H1, Hv.
  assert (is_u32 (v / 2 ^ 32)) as Hh.
  { unfold in_u. split; [apply Z.div_pos; lia|apply Z.div_lt_upper_bound; lia]. }
  pose proof (bswap32_range _ Hh) as H2. unfold in_u in H2.
  rewrite (u32_small (v / 2 ^ 32)) by done.
  rewrite u64_small by (unfold in_u; rewrite Z.shiftl_mul_pow2; lia).
  by rewrite lor_shiftl_add by lia.
Qed.

Lemma bswap64_range v : is_u64 v -> is_u64 (bswap64 v).
Proof.
  intros Hv. rewrite bswap64_halves by done.
  pose proof (bswap32_range (v mod 2 ^ 32) (u32_range _)) as H1.
  assert (is_u32 (v / 2 ^ 32)) as Hh.
  { unfold in_u in *. split; [apply Z.div_pos; lia|apply Z.div_lt_upper_bound; lia]. }
  pose proof (bswap32_range _ Hh) as H2. unfold in_u in *. lia.
Qed.

Lemma bswap64_invol v : is_u64 v -> bswap64 (bswap64 v) = v.
Proof.
  intros Hv. rewrite (bswap64_halves (bswap64 v)) by (by apply bswap64_range).
  rewrite bswap64_halves by done.
  assert (is_u32 (v / 2 ^ 32)) as Hh.
  { unfold in_u in *. split; [apply Z.div_pos; lia|apply Z.div_lt_upper_bound; lia]. }
  pose proof (bswap32_range _ Hh) as H2. unfold in_u in H2.
  replace ((bswap32 (v mod 2 ^ 32) * 2 ^ 32 + bswap32 (v / 2 ^ 32)) mod 2 ^ 32)
    with (bswap32 (v / 2 ^ 32)) by (Z.to_euclidean_division_equations; lia).
  replace ((bswap32 (v mod 2 ^ 32) * 2 ^ 32 + bswap32 (v / 2 ^ 32)) / 2 ^ 32)
    with (bswap32 (v mod 2 ^ 32)) by (Z.to_euclidean_division_equations; lia).
  rewrite !bswap32_invol by (done || apply u32_range).
  pose proof (Z.div_mod v (2 ^ 32)). lia.
Qed.

(** ** The two 32-byte conversions *)

Lemma be32BytesToLeU32Words_map be :
  be32BytesToLeU32Words be = map bswap32 (words_of 8 be).
Proof. unfold be32BytesToLeU32Words, words_of. by rewrite map_map. Qed.

Lemma leU32WordsToBe32Bytes_map ws :
  length ws = 8%nat -> leU32WordsToBe32Bytes ws = bytes_of (map bswap32 ws).
Proof.
  intros Hl. rewrite <- (map_rd_seq_n ws 8 Hl) at 2.
  unfold leU32WordsToBe32Bytes, bytes_of. by rewrite !map_map.
Qed.

Lemma be32BytesToLeU32Words_length be : length (be32BytesToLeU32Words be) = 8%nat.
Proof. done. Qed.

Lemma be32BytesToLeU32Words_words be : is_bytes be -> is_words (be32BytesToLeU32Words be).
Proof.
  intros. rewrite be32BytesToLeU32Words_map.
  apply map_bswap32_words. by apply words_of_words.
Qed.

Lemma leU32WordsToBe32Bytes_length ws : length (leU32WordsToBe32Bytes ws) = 32%nat.
Proof. done. Qed.

Lemma leU32WordsToBe32Bytes_bytes ws : is_bytes (leU32WordsToBe32Bytes ws).
Proof.
  unfold leU32WordsToBe32Bytes. apply Forall_concat, Forall_map, Forall_true. cxx_range.
Qed.

Lemma be_le_roundtrip be :
  length be = 32%nat -> is_bytes be ->
  leU32WordsToBe32Bytes (be32BytesToLeU32Words be) = be.
Proof.
  intros Hl Hb. rewrite leU32WordsToBe32Bytes_map, be32BytesToLeU32Words_map by done.
  rewrite map_bswap32_invol by (by apply words_of_words).
  by apply bytes_of_words_of.
Qed.

Lemma le_be_roundtrip ws :
  length ws = 8%nat -> is_words ws ->
  be32BytesToLeU32Words (leU32WordsToBe32Bytes ws) = ws.
Proof.
  intros Hl Hw. rewrite leU32WordsToBe32Bytes_map, be32BytesToLeU32Words_map by done.
  rewrite <- (app_nil_r (bytes_of _)), words_of_bytes_of
    by (rewrite ?length_map; auto using map_bswap32_words).
  by apply map_bswap32_invol.
Qed.

Lemma target_val_range ws : 0 <= target_val ws < 2 ^ 256.
Proof. apply (be_val_range _ (leU32WordsToBe32Bytes_bytes ws)). Qed.

(** ** Rolling caps *)

Lemma clampRollingVersion_id version vmask :
  is_u32 version -> is_u32 vmask -> clampRollingVersion version vmask = version.
Proof.
  intros Hv Hm. unfold clampRollingVersion, not32.
  change (2 ^ 32 - 1) with (Z.ones 32).
  apply Z.bits_inj'. intros i Hi.
  rewrite Z.lor_spec, !Z.land_spec, Z.lxor_spec. destruct (decide (i < 32)).
  - rewrite Z.ones_spec_low by lia. by destruct (Z.testbit version i), (Z.testbit vmask i).
  - rewrite (in_u_high 32 version) by (done || lia). done.
Qed.

Lemma clampNtime_bounds t lo hi :
  lo <= hi -> lo <= clampNtime t lo hi <= hi /\ (lo <= t <= hi -> clampNtime t lo hi = t).
Proof.
  intros. unfold clampNtime.
  destruct (Z.ltb_spec t lo); [lia|]. destruct (Z.gtb_spec t hi); lia.
Qed.

(** ** Properties *)

(** The conversion of a 32-byte big-endian string to eight little-endian words and
    the conversion back are mutually inverse on well-formed arrays, and every word of
    the result is the little-endian reading of its four bytes. *)
Theorem endian_roundtrip (be ws : list Z) (i : nat) :
  length be = 32%nat -> is_bytes be -> length ws = 8%nat -> is_words ws -> (i < 8)%nat ->
  leU32WordsToBe32Bytes (be32BytesToLeU32Words be) = be /\
  be32BytesToLeU32Words (leU32WordsToBe32Bytes ws) = ws /\
  rd (be32BytesToLeU32Words be) i = le_val (take 4 (drop (4 * i) be)).
Proof.
  intros Hl Hb Hl' Hw Hi. split_and!; [by apply be_le_roundtrip|by apply le_be_roundtrip|].
  rewrite be32BytesToLeU32Words_map, (take_drop_word 8) by done.
  rewrite <- bswap32_le_val by (apply rd_word; by apply words_of_words).
  unfold rd. change 0 with (bswap32 0) at 1. by rewrite (map_nth bswap32).
Qed.

Lemma endian_roundtrip_witness :
  let be := map Z.of_nat (seq 200 32) in let ws := map Z.of_nat (seq 7 8) in
  leU32WordsToBe32Bytes (be32BytesToLeU32Words be) = be /\
  be32BytesToLeU32Words (leU32WordsToBe32Bytes ws) = ws /\
  rd (be32BytesToLeU32Words be) 3 = le_val (take 4 (drop (4 * 3) be)).
Proof.
  apply (endian_roundtrip (map Z.of_nat (seq 200 32)) (map Z.of_nat (seq 7 8)) 3);
    [reflexivity|repeat (constructor; [unfold in_u; lia|]); constructor|reflexivity
    |repeat (constructor; [unfold in_u; lia|]); constructor|lia].
Defined.
