(* ===== verification/Targets.v ===== *)
(** * Compact targets ([src/normalize/targets.cc])

    The expansion of Bitcoin's compact [nBits] into the eight little-endian words
    the miner compares hashes with, against the numeric meaning of the encoding. *)

From S2P Require Import Prelude Endian.
From stdpp Require Import base numbers list option.

Open Scope Z_scope.
Open Scope cxx_scope.

(** ** Definitions *)

(** A C array store: [None] when the index is outside the array (undefined
    behaviour in the source). *)
Definition wr (a : list Z) (i v : Z) : option (list Z) :=
  if (0 <=? i) && (i <? zlen a) then Some (<[Z.to_nat i := v]> a) else None.

Definition setZero : list Z := repeat 0 8.

Definition setFromBigEndianBytes (be : list Z) : list Z :=
  map (fun i => let w := word_at be (4 * i) in
    ((w .& 255) .<< 24) .| ((w .& 65280) .<< 8) .|
    ((w .& 16711680) .>> 8) .| ((w .& 4278190080) .>> 24)) (seq 0 8).

Definition compactToTargetU32LE (nBits : Z) : option (list Z) :=
  let target := setZero in
  let exponent := nBits .>> 24 in
  let mantissa := nBits .& 8388607 in
  if negb (nBits .& 8388608 =? 0) then Some target
  else if mantissa =? 0 then Some target
  else
    let be := repeat 0 32 in
    let bytes := exponent in
    if bytes <=? 3 then
      let m := mantissa .>> (8 * (3 - bytes)) in
      be ← wr be (32 - bytes) (u8 ((m .>> 16) .& 255));
      be ← (if 2 <=? bytes then wr be (32 - bytes + 1) (u8 ((m .>> 8) .& 255))
            else Some be);
      be ← (if 3 <=? bytes then wr be (32 - bytes + 2) (u8 (m .& 255)) else Some be);
      Some (setFromBigEndianBytes be)
    else
      let idx := 32 - bytes in
      if idx <? 0 then Some (repeat 4294967295 8)
      else
        be ← wr be idx (u8 ((mantissa .>> 16) .& 255));
        be ← wr be (idx + 1) (u8 ((mantissa .>> 8) .& 255));
        be ← wr be (idx + 2) (u8 (mantissa .& 255));
        Some (setFromBigEndianBytes be).

(** ** Specification *)

Definition compact_exponent (nBits : Z) : Z := nBits / 2 ^ 24.
Definition compact_mantissa (nBits : Z) : Z := nBits mod 2 ^ 23.
Definition compact_negative (nBits : Z) : bool := Z.testbit nBits 23.

(** The number a compact encoding stands for, saturated at 256 bits. *)
Definition compact_value (nBits : Z) : Z :=
  let e := compact_exponent nBits in
  let m := compact_mantissa nBits in
  if compact_negative nBits || (m =? 0) then 0
  else if e <=? 3 then m / 256 ^ (3 - e)
  else if 32 <? e then 2 ^ 256 - 1
  else m * 256 ^ (e - 3).

(** ** Lemmas *)

Lemma u8_land x : u8 (x .& 255) = x mod 2 ^ 8.
Proof.
  change 255 with (2 ^ 8 - 1). rewrite land_ones_mod by lia.
  unfold u8. by rewrite Z.mod_mod by lia.
Qed.

Lemma setFromBigEndianBytes_eq be : setFromBigEndianBytes be = be32BytesToLeU32Words be.
Proof. unfold setFromBigEndianBytes, be32BytesToLeU32Words, bswap32. cbv zeta. reflexivity. Qed.

Lemma setFromBigEndianBytes_words8 be :
  is_bytes be -> length (setFromBigEndianBytes be) = 8%nat /\ is_words (setFromBigEndianBytes be).
Proof.
  intros. rewrite setFromBigEndianBytes_eq. split; [|by apply be32BytesToLeU32Words_words].
  apply be32BytesToLeU32Words_length.
Qed.
#[global] Opaque setFromBigEndianBytes be32BytesToLeU32Words.

(** Three bytes stored into a zeroed 32-byte array. *)
Lemma wr3_zeros i a b c :
  (i <= 29)%nat ->
  (be ← wr (repeat 0 32) (Z.of_nat i) a; be ← wr be (Z.of_nat i + 1) b;
   wr be (Z.of_nat i + 2) c)
  = Some (repeat 0 i ++ [a; b; c] ++ repeat 0 (29 - i)).
Proof. intros H. do 30 (destruct i as [|i]; [reflexivity|]). lia. Qed.

Lemma be_val_padded i a b c r :
  be_val (repeat 0 i ++ [a; b; c] ++ repeat 0 r)
  = (a * 2 ^ 16 + b * 2 ^ 8 + c) * 2 ^ (8 * Z.of_nat r).
Proof.
  rewrite !be_val_app, !be_val_zeros, repeat_length.
  replace (be_val [a; b; c]) with (a * 2 ^ 16 + b * 2 ^ 8 + c); [lia|].
  unfold be_val. cbn. lia.
Qed.

Lemma compact_fields nBits :
  is_u32 nBits ->
  nBits .>> 24 = compact_exponent nBits /\ nBits .& 8388607 = compact_mantissa nBits /\
  (nBits .& 8388608 =? 0) = negb (compact_negative nBits) /\
  0 <= compact_exponent nBits < 256 /\ 0 <= compact_mantissa nBits < 2 ^ 23.
Proof.
  intros Hn. unfold compact_exponent, compact_mantissa, compact_negative. split_and!.
  - by rewrite Z.shiftr_div_pow2 by lia.
  - change 8388607 with (2 ^ 23 - 1). by rewrite land_ones_mod by lia.
  - rewrite (land_field nBits 1 23) by lia.
    rewrite Z.testbit_eqb by lia. change (2 ^ 1) with 2.
    pose proof (Z.mod_pos_bound (nBits / 2 ^ 23) 2).
    destruct (Z.eqb_spec ((nBits / 2 ^ 23) mod 2) 1),
      (Z.eqb_spec ((nBits / 2 ^ 23) mod 2 * 2 ^ 23) 0); try done; lia.
  - apply Z.div_pos; unfold in_u in Hn; lia.
  - unfold in_u in Hn. apply Z.div_lt_upper_bound; lia.
  - apply Z.mod_pos_bound. lia.
  - apply Z.mod_pos_bound. lia.
Qed.

Lemma target_val_words be :
  length be = 32%nat -> is_bytes be -> target_val (setFromBigEndianBytes be) = be_val be.
Proof.
  intros. unfold target_val. rewrite setFromBigEndianBytes_eq. by rewrite be_le_roundtrip.
Qed.

Lemma mantissa_bytes m :
  0 <= m < 2 ^ 24 ->
  u8 ((m .>> 16) .& 255) * 2 ^ 16 + u8 ((m .>> 8) .& 255) * 2 ^ 8 + u8 (m .& 255) = m.
Proof.
  intros. rewrite !u8_land, !Z.shiftr_div_pow2 by lia.
  Z.to_euclidean_division_equations. lia.
Qed.

Lemma bind3_fmap (o : option (list Z)) (g h f : list Z -> _) :
  (be ← o; be ← g be; be ← h be; Some (f be)) =
  (f : list Z -> list Z) <$> (be ← o; be ← g be; h be : option (list Z)).
Proof. by destruct o as [x|]; cbn; [destruct (g x) as [y|]; cbn; [destruct (h y)|]|]. Qed.

(** The shared store sequence of the branches with at least three bytes. *)
Lemma compact_store m bytes :
  0 <= m < 2 ^ 24 -> 3 <= bytes <= 32 ->
  exists t,
    (be ← wr (repeat 0 32) (32 - bytes) (u8 ((m .>> 16) .& 255));
     be ← wr be (32 - bytes + 1) (u8 ((m .>> 8) .& 255));
     be ← wr be (32 - bytes + 2) (u8 (m .& 255));
     Some (setFromBigEndianBytes be)) = Some t /\
    length t = 8%nat /\ is_words t /\ target_val t = m * 256 ^ (bytes - 3).
Proof.
  intros Hm Hb.
  pose proof (wr3_zeros (Z.to_nat (32 - bytes)) (u8 ((m .>> 16) .& 255))
    (u8 ((m .>> 8) .& 255)) (u8 (m .& 255)) ltac:(lia)) as E.
  rewrite Z2Nat.id in E by lia.
  rewrite bind3_fmap, E. clear E. set (n := Z.to_nat (32 - bytes)) in *.
  assert (n <= 29)%nat as Hn by lia.
  set (be := repeat 0 n ++ _).
  assert (length be = 32%nat) as Hlen
    by (unfold be; rewrite !length_app, !repeat_length; cbn [length]; lia).
  assert (is_bytes be) as Hby.
  { unfold be. rewrite !Forall_app. split_and!; [cxx_range| |cxx_range].
    repeat constructor; apply u8_range. }
  destruct (setFromBigEndianBytes_words8 be Hby) as [? ?].
  eexists. split; [done|]. split_and!; [done..|].
  rewrite target_val_words by done. unfold be. rewrite be_val_padded, mantissa_bytes by done.
  f_equal. change 256 with (2 ^ 8). rewrite <- Z.pow_mul_r by lia. f_equal.
  unfold n. lia.
Qed.

Lemma wr_bytes a i v b :
  wr a i v = Some b -> is_bytes a -> is_u8 v -> is_bytes b.
Proof.
  unfold wr. destruct (_ && _); [|done]. intros [= <-] Ha Hv. by apply Forall_insert.
Qed.

(** Whatever the encoding, a result is eight words. *)
Lemma compact_words8 nBits t :
  compactToTargetU32LE nBits = Some t -> length t = 8%nat /\ is_words t.
Proof.
  assert (forall i v be be', wr be i (u8 v) = Some be' -> is_bytes be -> is_bytes be') as Hw
    by (intros; eapply wr_bytes; eauto using u8_range).
  assert (forall x, x <= 2 ^ 32 - 1 -> 0 <= x -> length (repeat x 8) = 8%nat /\ is_words (repeat x 8)) as Hr
    by (intros; split; [done|apply Forall_rep; unfold in_u; lia]).
  unfold compactToTargetU32LE. destruct (negb _); [intros [= <-]; apply (Hr 0); lia|].
  destruct (_ =? 0); [intros [= <-]; apply (Hr 0); lia|].
  pose proof (zeros_bytes 32) as Hz.
  destruct (_ <=? 3); [|destruct (_ <? 0); [intros [= <-]; apply Hr; lia|]];
    (destruct (wr (repeat 0 32) _ _) as [b1|] eqn:E1; [|done]); cbn [mbind option_bind];
    apply Hw in E1; [|done|..]; try done.
  - destruct (2 <=? _); [destruct (wr b1 _ _) as [b2|] eqn:E2; [|done]; apply Hw in E2; [|done];
      rename b2 into bx|rename b1 into bx]; cbn [mbind option_bind];
    (destruct (3 <=? _); [destruct (wr bx _ _) as [b3|] eqn:E3; [|done]; apply Hw in E3; [|done]|]);
      cbn [mbind option_bind]; intros [= <-]; by apply setFromBigEndianBytes_words8.
  - destruct (wr b1 _ _) as [b2|] eqn:E2; [|done]; cbn [mbind option_bind]. apply Hw in E2; [|done].
    destruct (wr b2 _ _) as [b3|] eqn:E3; [|done]; cbn [mbind option_bind]. apply Hw in E3; [|done].
    intros [= <-]. by apply setFromBigEndianBytes_words8.
Qed.

(** The value of the words returned, from exponent three on. *)
Lemma compact_value_ok nBits :
  is_u32 nBits -> 3 <= compact_exponent nBits ->
  exists t, compactToTargetU32LE nBits = Some t /\ length t = 8%nat /\ is_words t /\
            target_val t = compact_value nBits.
Proof.
  intros Hn He.
  destruct (compact_fields nBits Hn) as (E1 & E2 & E3 & Hexp & Hman).
  unfold compactToTargetU32LE, compact_value. rewrite E1, E2, E3, negb_involutive.
  destruct (compact_negative nBits); cbn [orb].
  { exists setZero. split_and!; [done..|apply Forall_rep; unfold in_u; lia|done]. }
  destruct (Z.eqb_spec (compact_mantissa nBits) 0).
  { exists setZero. split_and!; [done..|apply Forall_rep; unfold in_u; lia|done]. }
  destruct (Z.leb_spec (compact_exponent nBits) 3).
  - replace (compact_exponent nBits) with 3 by lia.
    change (8 * (3 - 3)) with 0. rewrite Z.shiftr_0_r. change (256 ^ (3 - 3)) with 1.
    rewrite Z.div_1_r.
    destruct (compact_store (compact_mantissa nBits) 3) as (t & E & Hl & Hw & Hv); [lia..|].
    exists t. split_and!; [exact E|done..|lia].
  - destruct (Z.ltb_spec (32 - compact_exponent nBits) 0), (Z.ltb_spec 32 (compact_exponent nBits));
      try lia.
    + eexists. split; [done|]. split_and!; [done|apply Forall_rep; unfold in_u; lia|done].
    + destruct (compact_store (compact_mantissa nBits) (compact_exponent nBits))
        as (t & E & Hl & Hw & Hv); [lia..|].
      exists t. split_and!; [exact E|done..].
Qed.

(** ** Properties *)

(** C7: for every 32-bit [nBits] whose exponent is at least three,
    [compactToTargetU32LE] returns eight words that stand for exactly the number the
    compact encoding denotes: zero for a negative or zero mantissa, the all-ones
    target above 32 bytes, and [mantissa * 256^(exponent-3)] otherwise. *)
Theorem compact_correct nBits :
  is_u32 nBits -> 3 <= compact_exponent nBits ->
  exists t, compactToTargetU32LE nBits = Some t /\ length t = 8%nat /\ is_words t /\
            target_val t = compact_value nBits.
Proof. apply compact_value_ok. Qed.

Lemma compact_correct_witness :
  is_u32 486604799 /\ 3 <= compact_exponent 486604799 /\
  exists t, compactToTargetU32LE 486604799 = Some t /\ length t = 8%nat /\ is_words t /\
            target_val t = compact_value 486604799.
Proof.
  assert (is_u32 486604799) as H by (unfold in_u; lia).
  assert (3 <= compact_exponent 486604799) as H' by (vm_compute; discriminate).
  split_and!; [exact H|exact H'|]. exact (compact_correct 486604799 H H').
Defined.

(** Below three bytes the expansion departs from the encoding.  With a positive
    mantissa [m], exponent 2 yields [m / 2^16] instead of [m / 2^8], exponent 1 yields
    zero instead of [m / 2^16], and exponent 0 stores one byte past the end of the
    32-byte buffer (no defined result). *)
Theorem compact_small_exponent nBits :
  is_u32 nBits -> compact_negative nBits = false -> compact_mantissa nBits <> 0 ->
  compact_exponent nBits <= 2 ->
  match compactToTargetU32LE nBits with
  | None => compact_exponent nBits = 0
  | Some t =>
      (compact_exponent nBits = 2 /\
         target_val t = compact_mantissa nBits / 2 ^ 16 /\
         compact_value nBits = compact_mantissa nBits / 2 ^ 8) \/
      (compact_exponent nBits = 1 /\
         target_val t = 0 /\ compact_value nBits = compact_mantissa nBits / 2 ^ 16)
  end.
Proof.
  intros Hn Hneg Hz He.
  destruct (compact_fields nBits Hn) as (E1 & E2 & E3 & Hexp & Hman).
  unfold compactToTargetU32LE, compact_value. rewrite E1, E2, E3, Hneg. cbn [negb orb].
  rewrite (proj2 (Z.eqb_neq _ _) Hz).
  assert (compact_exponent nBits = 0 \/ compact_exponent nBits = 1 \/
          compact_exponent nBits = 2) as [->|[->| ->]] by lia; [done|..];
    set (m := compact_mantissa nBits) in *.
  - replace (u8 ((m .>> (8 * (3 - 1)) .>> 16) .& 255)) with 0; [by right|].
    rewrite u8_land, !Z.shiftr_div_pow2 by lia. Z.to_euclidean_division_equations. lia.
  - replace (u8 ((m .>> (8 * (3 - 2)) .>> 16) .& 255)) with 0
      by (rewrite u8_land, !Z.shiftr_div_pow2 by lia; Z.to_euclidean_division_equations; lia).
    replace (u8 ((m .>> (8 * (3 - 2)) .>> 8) .& 255)) with (m / 2 ^ 16)
      by (rewrite u8_land, !Z.shiftr_div_pow2 by lia; Z.to_euclidean_division_equations; lia).
    assert (is_u8 (m / 2 ^ 16)) as Hb
      by (unfold in_u; Z.to_euclidean_division_equations; lia).
    change (wr (repeat 0 32) (32 - 2) 0) with (Some (repeat 0 32)).
    cbn -[setFromBigEndianBytes Z.div Z.pow target_val].
    left. split_and!; [done| |done].
    rewrite target_val_words; [|done|repeat constructor; unfold in_u in *; lia].
    change (m / 2 ^ 16 + 2 ^ 8 * le_val (repeat 0 31) = m / 2 ^ 16).
    change (le_val (repeat 0 31)) with 0. by rewrite Z.mul_0_r, Z.add_0_r.
Qed.

Lemma compact_small_exponent_witness :
  compact_exponent 38797311 <= 2 /\
  match compactToTargetU32LE 38797311 with
  | None => compact_exponent 38797311 = 0
  | Some t =>
      (compact_exponent 38797311 = 2 /\
         target_val t = compact_mantissa 38797311 / 2 ^ 16 /\
         compact_value 38797311 = compact_mantissa 38797311 / 2 ^ 8) \/
      (compact_exponent 38797311 = 1 /\
         target_val t = 0 /\ compact_value 38797311 = compact_mantissa 38797311 / 2 ^ 16)
  end.
Proof.
  assert (is_u32 38797311) as H by (unfold in_u; lia).
  assert (compact_negative 38797311 = false) as H1 by reflexivity.
  assert (compact_mantissa 38797311 <> 0) as H2 by (vm_compute; discriminate).
  assert (compact_exponent 38797311 <= 2) as H3 by (vm_compute; discriminate).
  split; [exact H3|].
  exact (compact_small_exponent 38797311 H H1 H2 H3).
Defined.
