(* ===== verification/Sha256.v ===== *)
(** * SHA-256, the reference

    FIPS 180-4 SHA-256 on byte lists: the functions, the constants obtained from
    the primes they are defined by, the block function, the padding and the hash.
    Nothing here models source lines; [CpuVerify], [Midstate] and [Device] relate the
    program's three implementations to it. *)

From S2P Require Import Prelude.
From stdpp Require Import base numbers list.

Open Scope Z_scope.
Open Scope cxx_scope.

(** ** Words *)

Definition rotr (x n : Z) : Z := (x .>> n) .| (x .<< (32 - n)).
Definition ch (x y z : Z) : Z := (x .& y) .^ (not32 x .& z).
Definition maj (x y z : Z) : Z := (x .& y) .^ (x .& z) .^ (y .& z).
Definition bsig0 (x : Z) : Z := rotr x 2 .^ rotr x 13 .^ rotr x 22.
Definition bsig1 (x : Z) : Z := rotr x 6 .^ rotr x 11 .^ rotr x 25.
Definition ssig0 (x : Z) : Z := rotr x 7 .^ rotr x 18 .^ (x .>> 3).
Definition ssig1 (x : Z) : Z := rotr x 17 .^ rotr x 19 .^ (x .>> 10).

Lemma add32_4 a b c d : a ⊞ b ⊞ c ⊞ d = u32 (a + b + c + d).
Proof.
  unfold add32, u32.
  rewrite Zplus_mod_idemp_l, <- (Z.add_assoc (_ mod _)), Zplus_mod_idemp_l.
  f_equal. lia.
Qed.

(** ** Constants

    [K] is the first 32 bits of the fractional parts of the cube roots of the first
    64 primes, the initial value those of the square roots of the first eight. *)

Definition first_primes : list Z :=
  let is_prime n := forallb (fun d => negb (n mod d =? 0))
                      (map Z.of_nat (seq 2 (Z.to_nat (Z.sqrt n) - 1))) in
  filter (fun n => is_prime n = true) (map Z.of_nat (seq 2 310)).

(** Integer cube root, one bit at a time from bit [n - 1] down. *)
Fixpoint icbrt_from (n : nat) (acc x : Z) : Z :=
  match n with
  | O => acc
  | S n => let acc' := acc + 2 ^ Z.of_nat n in
           icbrt_from n (if acc' * acc' * acc' <=? x then acc' else acc) x
  end.

Definition cbrt_frac32 (p : Z) : Z := u32 (icbrt_from 36 0 (p * 2 ^ 96)).
Definition sqrt_frac32 (p : Z) : Z := u32 (Z.sqrt (p * 2 ^ 64)).

Definition fips_K : list Z := Eval vm_compute in map cbrt_frac32 first_primes.
Definition fips_H0 : list Z := Eval vm_compute in map sqrt_frac32 (take 8 first_primes).

(** ** The block function *)

Record regs := Regs { ra : Z; rb : Z; rc : Z; rd4 : Z; re : Z; rf : Z; rg : Z; rh : Z }.

Definition regs_of (st : list Z) : regs :=
  Regs (rd st 0) (rd st 1) (rd st 2) (rd st 3) (rd st 4) (rd st 5) (rd st 6) (rd st 7).

Definition fips_round (r : regs) (k w : Z) : regs :=
  let t1 := rh r ⊞ bsig1 (re r) ⊞ ch (re r) (rf r) (rg r) ⊞ k ⊞ w in
  let t2 := bsig0 (ra r) ⊞ maj (ra r) (rb r) (rc r) in
  Regs (t1 ⊞ t2) (ra r) (rb r) (rc r) (rd4 r ⊞ t1) (re r) (rf r) (rg r).

Definition fips_schedule (block : list Z) : list Z :=
  fold_left (fun w t => w ++ [ssig1 (rd w (t - 2)) ⊞ rd w (t - 7) ⊞
                              ssig0 (rd w (t - 15)) ⊞ rd w (t - 16)])
            (seq 16 48) block.

Definition add_regs (st : list Z) (r : regs) : list Z :=
  [rd st 0 ⊞ ra r; rd st 1 ⊞ rb r; rd st 2 ⊞ rc r; rd st 3 ⊞ rd4 r;
   rd st 4 ⊞ re r; rd st 5 ⊞ rf r; rd st 6 ⊞ rg r; rd st 7 ⊞ rh r].

(** [compress H M]: the intermediate hash value after the 16-word block [M]. *)
Definition compress (st block : list Z) : list Z :=
  let w := fips_schedule block in
  add_regs st (fold_left (fun r t => fips_round r (rd fips_K t) (rd w t))
                         (seq 0 64) (regs_of st)).

(** ** Padding and the hash *)

(** The [i]-th 64-byte block of a message. *)
Definition msg_block (bs : list Z) (i : nat) : list Z := take 64 (drop (64 * i) bs).

(** The chaining value after the first [n] blocks. *)
Definition absorb (n : nat) (st bs : list Z) : list Z :=
  fold_left (fun st i => compress st (words_of 16 (msg_block bs i))) (seq 0 n) st.

Definition be64 (x : Z) : list Z :=
  map (fun k => (x / 2 ^ k) mod 2 ^ 8) [56; 48; 40; 32; 24; 16; 8; 0].

(** Padding with the length field [lf], which FIPS takes to be the 64-bit
    big-endian bit length. *)
Definition pad_zeros (n : nat) : nat := Z.to_nat ((55 - Z.of_nat n) mod 64).
Definition padding (lf : list Z) (n : nat) : list Z := 128 :: repeat 0 (pad_zeros n) ++ lf.

Definition hash_with (lf st msg : list Z) : list Z :=
  let m := msg ++ padding lf (length msg) in
  bytes_of (absorb (length m / 64) st m).

Definition fips_sha256 (msg : list Z) : list Z :=
  hash_with (be64 (8 * zlen msg)) fips_H0 msg.

(** Known-answer tests: the empty message and "abc". *)
Example fips_sha256_empty :
  be_val (fips_sha256 []) =
  102987336249554097029535212322581322789799900648198034993379397001115665086549.
Proof. vm_compute. reflexivity. Qed.

Example fips_sha256_abc :
  be_val (fips_sha256 [97; 98; 99]) =
  84342368487090800366523834928142263660104883695016514377462985829716817089965.
Proof. vm_compute. reflexivity. Qed.

(** ** Lemmas *)

Lemma add_regs_length st r : length (add_regs st r) = 8%nat.
Proof. done. Qed.

Lemma compress_length st b : length (compress st b) = 8%nat.
Proof. done. Qed.

Lemma compress_words st b : is_words (compress st b).
Proof. repeat constructor; apply u32_range. Qed.

Lemma absorb_S n st bs :
  absorb (S n) st bs = compress (absorb n st bs) (words_of 16 (msg_block bs n)).
Proof. unfold absorb. rewrite seq_S, fold_left_app. done. Qed.

Lemma msg_block_app_l a b i : (64 * S i <= length a)%nat -> msg_block (a ++ b) i = msg_block a i.
Proof.
  intros H. unfold msg_block. rewrite drop_app_le, take_app_le; [done|..];
    rewrite ?length_drop; lia.
Qed.

Lemma absorb_app n st a b :
  (64 * n <= length a)%nat -> absorb n st (a ++ b) = absorb n st a.
Proof.
  induction n as [|n IH]; intros H; [done|].
  rewrite !absorb_S, IH, msg_block_app_l by lia. done.
Qed.

Lemma absorb_shift n st a b :
  length a = 64%nat -> absorb (S n) st (a ++ b) = absorb n (absorb 1 st a) b.
Proof.
  intros Ha. induction n as [|n IH].
  - rewrite absorb_app by lia. done.
  - rewrite absorb_S, IH, (absorb_S n). unfold msg_block.
    by replace (64 * S n)%nat with (length a + 64 * n)%nat by lia;
      rewrite <- drop_drop, drop_app_length.
Qed.

Lemma absorb_length n st bs : length st = 8%nat -> length (absorb n st bs) = 8%nat.
Proof. destruct n; [done|]. by rewrite absorb_S. Qed.

Lemma absorb_words n st bs : is_words st -> is_words (absorb n st bs).
Proof. destruct n; [done|]. intros. rewrite absorb_S. apply compress_words. Qed.

(** The number of zero bytes depends on the position in the last block only. *)
Lemma pad_zeros_mod n : pad_zeros (n mod 64) = pad_zeros n.
Proof.
  unfold pad_zeros. f_equal. rewrite Nat2Z.inj_mod.
  by rewrite Zminus_mod_idemp_r.
Qed.

Lemma pad_zeros_eq n :
  pad_zeros n = if decide (n mod 64 < 56)%nat then (55 - n mod 64)%nat
                else (119 - n mod 64)%nat.
Proof.
  rewrite <- pad_zeros_mod. unfold pad_zeros.
  assert (n mod 64 < 64)%nat by (by apply Nat.mod_upper_bound).
  set (r := (n mod 64)%nat) in *. case_decide.
  - rewrite Z.mod_small by lia. lia.
  - rewrite <- (Z.mod_add _ 1), Z.mod_small by lia. lia.
Qed.

Lemma padding_length lf n :
  length lf = 8%nat ->
  length (padding lf n) = if decide (n mod 64 < 56)%nat then (64 - n mod 64)%nat
                          else (128 - n mod 64)%nat.
Proof.
  intros H. unfold padding. cbn [length]. rewrite length_app, repeat_length, H, pad_zeros_eq.
  assert (n mod 64 < 64)%nat by (by apply Nat.mod_upper_bound).
  case_decide; lia.
Qed.

(** Number of blocks of a padded message. *)
Lemma padded_blocks lf n :
  length lf = 8%nat ->
  ((n + length (padding lf n)) / 64)%nat =
  if decide (n mod 64 < 56)%nat then S (n / 64) else S (S (n / 64)).
Proof.
  intros H. rewrite padding_length by done.
  pose proof (Nat.div_mod_eq n 64) as E.
  assert (n mod 64 < 64)%nat by (by apply Nat.mod_upper_bound).
  case_decide.
  - replace (n + (64 - n mod 64))%nat with (S (n / 64) * 64)%nat by lia.
    by rewrite Nat.div_mul.
  - replace (n + (128 - n mod 64))%nat with (S (S (n / 64)) * 64)%nat by lia.
    by rewrite Nat.div_mul.
Qed.

Lemma padding_mod lf n : padding lf (n mod 64) = padding lf n.
Proof. unfold padding. by rewrite pad_zeros_mod. Qed.

(** A 64-byte prefix can be absorbed first. *)
Lemma hash_with_prefix lf st a msg :
  length a = 64%nat -> length lf = 8%nat ->
  hash_with lf (absorb 1 st a) msg = hash_with lf st (a ++ msg).
Proof.
  intros Ha Hlf. unfold hash_with. f_equal.
  rewrite <- app_assoc, !length_app, Ha.
  replace (padding lf (64 + length msg)) with (padding lf (length msg))
    by (rewrite <- (padding_mod lf (64 + _)), <- padding_mod; f_equal;
        rewrite <- (Nat.Div0.mod_add (length msg) 1 64); f_equal; lia).
  replace (64 + (length msg + length (padding lf (length msg))))%nat
    with (length msg + length (padding lf (length msg)) + 1 * 64)%nat by lia.
  rewrite Nat.div_add, Nat.add_1_r by lia. by rewrite absorb_shift.
Qed.

(** The last one or two blocks, in terms of the bytes after the last full block. *)
Lemma hash_with_tail lf st msg :
  length lf = 8%nat ->
  let q := (length msg / 64)%nat in
  let r := (length msg mod 64)%nat in
  let tail := drop (64 * q) msg in
  hash_with lf st msg =
  bytes_of
    (if decide (r < 56)%nat then
       compress (absorb q st msg) (words_of 16 (tail ++ 128 :: repeat 0 (55 - r) ++ lf))
     else
       compress (compress (absorb q st msg)
                   (words_of 16 (tail ++ 128 :: repeat 0 (63 - r))))
                (words_of 16 (repeat 0 56 ++ lf))).
Proof.
  intros Hlf q r tail. unfold hash_with. f_equal.
  rewrite length_app, padded_blocks by done. fold q r.
  pose proof (Nat.div_mod_eq (length msg) 64) as E. fold q r in E.
  assert (r < 64)%nat as Hr by (by apply Nat.mod_upper_bound).
  assert (length tail = r) as Ht by (unfold tail; rewrite length_drop; lia).
  assert (forall x, drop (64 * q) (msg ++ x) = tail ++ x) as Hd.
  { intros x. unfold tail. rewrite drop_app_le by lia. done. }
  unfold padding. rewrite pad_zeros_eq. fold r. case_decide as Hc.
  - rewrite absorb_S, absorb_app by lia. unfold msg_block.
    rewrite Hd, take_ge; [done|].
    rewrite length_app, Ht. cbn [length]. rewrite length_app, repeat_length. lia.
  - rewrite !absorb_S, absorb_app by lia. unfold msg_block.
    replace (64 * S q)%nat with (64 * q + 64)%nat by lia.
    rewrite <- (drop_drop _ 64), Hd.
    replace (119 - r)%nat with ((63 - r) + 56)%nat by lia.
    rewrite repeat_app, <- app_assoc, app_comm_cons, app_assoc.
    assert (length (tail ++ 128 :: repeat 0 (63 - r)) = 64%nat) as H64.
    { rewrite length_app, Ht. cbn [length]. rewrite repeat_length. lia. }
    rewrite take_app_length', drop_app_length' by done.
    rewrite take_ge; [done|].
    rewrite length_app, repeat_length, Hlf. lia.
Qed.

Lemma absorb_0 st bs : absorb 0 st bs = st.
Proof. done. Qed.

Lemma compress_eq st b :
  compress st b = add_regs st
    (fold_left (fun r t => fips_round r (rd fips_K t) (rd (fips_schedule b) t))
               (seq 0 64) (regs_of st)).
Proof. done. Qed.

(** The block function is used through its lemmas. *)
#[global] Opaque compress absorb.
