(* ===== verification/CpuVerify.v ===== *)
(** * CPU hashing and verification ([src/submit/cpu_verify.cc])

    The streaming SHA-256 the submit path hashes headers and coinbases with, its
    double application, and the comparison of a digest with a little-endian target. *)

From S2P Require Import Prelude Endian Targets Sha256.
From stdpp Require Import base numbers list.

Open Scope Z_scope.
Open Scope cxx_scope.

(** ** The hash context *)

Record SHA256Ctx := MkCtx {
  bitlen : Z;          (* uint64_t *)
  state : list Z;      (* uint32_t[8] *)
  data : list Z;       (* uint8_t[64], uninitialised at first *)
  datalen : nat        (* size_t *)
}.

Definition K : list Z :=
  [ 1116352408; 1899447441; 3049323471; 3921009573; 961987163; 1508970993; 2453635748; 2870763221;
    3624381080; 310598401; 607225278; 1426881987; 1925078388; 2162078206; 2614888103; 3248222580;
    3835390401; 4022224774; 264347078; 604807628; 770255983; 1249150122; 1555081692; 1996064986;
    2554220882; 2821834349; 2952996808; 3210313671; 3336571891; 3584528711; 113926993; 338241895;
    666307205; 773529912; 1294757372; 1396182291; 1695183700; 1986661051; 2177026350; 2456956037;
    2730485921; 2820302411; 3259730800; 3345764771; 3516065817; 3600352804; 4094571909; 275423344;
    430227734; 506948616; 659060556; 883997877; 958139571; 1322822218; 1537002063; 1747873779;
    1955562222; 2024104815; 2227730452; 2361852424; 2428436474; 2756734187; 3204031479; 3329325298 ].

Definition rotr (x n : Z) : Z := (x .>> n) .| (x .<< (32 - n)).

(** One iteration of the 64-round loop. *)
Definition sha256_round (r : regs) (k m : Z) : regs :=
  let 'Regs a b c d e f g h := r in
  let S1 := rotr e 6 .^ rotr e 11 .^ rotr e 25 in
  let ch := (e .& f) .^ (not32 e .& g) in
  let temp1 := h ⊞ S1 ⊞ ch ⊞ k ⊞ m in
  let S0 := rotr a 2 .^ rotr a 13 .^ rotr a 22 in
  let maj := (a .& b) .^ (a .& c) .^ (b .& c) in
  let temp2 := S0 ⊞ maj in
  Regs (temp1 ⊞ temp2) a b c (d ⊞ temp1) e f g.

(** The message schedule [m[64]]: sixteen big-endian words, then 48 more. *)
Definition sha256_schedule (data : list Z) : list Z :=
  fold_left (fun m i =>
      let s0 := rotr (rd m (i - 15)) 7 .^ rotr (rd m (i - 15)) 18 .^ (rd m (i - 15) .>> 3) in
      let s1 := rotr (rd m (i - 2)) 17 .^ rotr (rd m (i - 2)) 19 .^ (rd m (i - 2) .>> 10) in
      m ++ [rd m (i - 16) ⊞ s0 ⊞ rd m (i - 7) ⊞ s1])
    (seq 16 48) (words_of 16 data).

Definition sha256_transform (st data : list Z) : list Z :=
  let m := sha256_schedule data in
  add_regs st (fold_left (fun r i => sha256_round r (rd K i) (rd m i)) (seq 0 64)
                         (regs_of st)).

(** [garbage] is the content of the uninitialised [data] array. *)
Definition sha256_init (garbage : list Z) : SHA256Ctx :=
  MkCtx 0 [1779033703; 3144134277; 1013904242; 2773480762;
           1359893119; 2600822924; 528734635; 1541459225] garbage 0.

Definition sha256_update1 (ctx : SHA256Ctx) (b : Z) : SHA256Ctx :=
  let d := <[datalen ctx := b]> (data ctx) in
  let n := S (datalen ctx) in
  if (n =? 64)%nat then
    MkCtx (u64 (bitlen ctx + 512)) (sha256_transform (state ctx) d) d 0
  else MkCtx (bitlen ctx) (state ctx) d n.

Definition sha256_update (ctx : SHA256Ctx) (bytes : list Z) : SHA256Ctx :=
  fold_left sha256_update1 bytes ctx.

(** [while (i < hi) data[i++] = 0x00;] *)
Definition fill_zeros (d : list Z) (i hi : nat) : list Z :=
  fold_left (fun d i => <[i := 0]> d) (seq i (hi - i)) d.

(** The eight length bytes as the source stores them in [data[56..63]]. *)
Definition length_field (bitlen : Z) : list Z :=
  [0; u8 (bitlen .>> 56); u8 (bitlen .>> 48); u8 (bitlen .>> 32);
   u8 (bitlen .>> 24); u8 (bitlen .>> 16); u8 (bitlen .>> 8); u8 bitlen].

Definition sha256_final (ctx : SHA256Ctx) : list Z :=
  let i := datalen ctx in
  let d := <[i := 128]> (data ctx) in
  let '(st, d) :=
    if (i <? 56)%nat then (state ctx, fill_zeros d (S i) 56)
    else
      let d := fill_zeros d (S i) 64 in
      (sha256_transform (state ctx) d, fill_zeros d 0 56) in
  let bl := u64 (bitlen ctx + Z.of_nat (datalen ctx) * 8) in
  let d := take 56 d ++ length_field bl in
  bytes_of (sha256_transform st d).

(** The whole computation for a given uninitialised buffer; [sha256] fixes one,
    which [sha256_buffer_irrelevant] justifies. *)
Definition sha256_in (garbage bytes : list Z) : list Z :=
  sha256_final (sha256_update (sha256_init garbage) bytes).

Definition sha256 (bytes : list Z) : list Z := sha256_in (repeat 0 64) bytes.

Definition sha256d (bytes : list Z) : list Z := sha256 (sha256 bytes).

(** ** Comparison with a target *)

(** The byte loop: the first difference decides, equality is accepted. *)
Fixpoint bytes_leq (hash target : list Z) : bool :=
  match hash, target with
  | h :: hash, t :: target =>
      if h <? t then true else if h >? t then false else bytes_leq hash target
  | _, _ => true
  end.

Definition isHashLEQTarget (hash_be target_le : list Z) : bool :=
  let target_be := concat (map (fun i =>
    let w := rd target_le i in
    let be := ((w .& 255) .<< 24) .| ((w .& 65280) .<< 8) .|
              ((w .& 16711680) .>> 8) .| ((w .& 4278190080) .>> 24) in
    [u8 ((be .>> 24) .& 255); u8 ((be .>> 16) .& 255);
     u8 ((be .>> 8) .& 255); u8 (be .& 255)]) (seq 0 8)) in
  bytes_leq hash_be target_be.

(** ** The block function *)

Lemma K_fips : K = fips_K.
Proof. reflexivity. Qed.

Lemma sha256_round_fips r k m : sha256_round r k m = fips_round r k m.
Proof. by destruct r. Qed.

Lemma sha256_schedule_fips d : sha256_schedule d = fips_schedule (words_of 16 d).
Proof.
  unfold sha256_schedule, fips_schedule. apply fold_left_cong. intros m i.
  do 2 f_equal. rewrite !add32_4. f_equal. unfold ssig0, ssig1, Sha256.rotr, rotr. lia.
Qed.

Lemma sha256_transform_fips st d : sha256_transform st d = compress st (words_of 16 d).
Proof.
  rewrite compress_eq. unfold sha256_transform. rewrite sha256_schedule_fips, K_fips.
  generalize (fips_schedule (words_of 16 d)), fips_K, (regs_of st). intros w k r.
  apply (f_equal (add_regs st)). apply fold_left_cong. intros. apply sha256_round_fips.
Qed.

#[global] Opaque sha256_transform.

Lemma fill_zeros_eq d i hi :
  (i <= hi <= length d)%nat ->
  fill_zeros d i hi = take i d ++ repeat 0 (hi - i) ++ drop hi d.
Proof.
  intros. unfold fill_zeros. rewrite fold_insert_range by lia.
  by replace (i + (hi - i))%nat with hi by lia.
Qed.

(** ** Streaming: the context after a message

    [ctx_after garbage msg ctx]: [ctx] holds the chaining value of the full blocks of
    [msg] and, in the first [datalen] bytes of the buffer, what follows them. *)
Record ctx_after (msg : list Z) (ctx : SHA256Ctx) : Prop := {
  ca_state : state ctx = absorb (length msg / 64) fips_H0 msg;
  ca_datalen : datalen ctx = (length msg mod 64)%nat;
  ca_length : length (data ctx) = 64%nat;
  ca_data : take (datalen ctx) (data ctx) = drop (64 * (length msg / 64)) msg;
  ca_bitlen : bitlen ctx = u64 (512 * Z.of_nat (length msg / 64))
}.

Lemma init_after garbage : length garbage = 64%nat -> ctx_after [] (sha256_init garbage).
Proof. by constructor. Qed.

Lemma update1_after msg ctx b :
  ctx_after msg ctx -> ctx_after (msg ++ [b]) (sha256_update1 ctx b).
Proof.
  intros [Hst Hdl Hlen Hdat Hbit]. unfold sha256_update1.
  pose proof (Nat.div_mod_eq (length msg) 64) as E.
  assert (length msg mod 64 < 64)%nat as Hr by (by apply Nat.mod_upper_bound).
  set (q := (length msg / 64)%nat) in *. rewrite <- Hdl in E, Hr.
  set (n := datalen ctx) in *. clear Hdl.
  assert (take (S n) (<[n := b]> (data ctx)) = drop (64 * q) (msg ++ [b])) as Hd.
  { rewrite (take_S_r _ _ b) by (apply list_lookup_insert_eq; lia).
    by rewrite take_insert_ge, Hdat, drop_app_le by lia. }
  destruct (Nat.eqb_spec (S n) 64) as [Hn|Hn].
  - assert (length (msg ++ [b]) = (S q * 64)%nat) as El by (rewrite length_app; cbn [length]; lia).
    assert (length (msg ++ [b]) / 64 = S q)%nat as Eq by (by rewrite El, Nat.div_mul).
    constructor; cbn [state datalen data bitlen]; rewrite ?Eq.
    + rewrite absorb_S, absorb_app by lia. rewrite Hst, sha256_transform_fips.
      unfold msg_block. rewrite <- Hd, Hn. rewrite !take_ge; [done|..];
        rewrite ?length_take, length_insert; lia.
    + rewrite El. by rewrite Nat.Div0.mod_mul.
    + by rewrite length_insert.
    + rewrite drop_ge; [done|]. lia.
    + rewrite Hbit. unfold u64. rewrite Zplus_mod_idemp_l. f_equal. lia.
  - assert (length (msg ++ [b]) = (S n + q * 64)%nat) as El by (rewrite length_app; cbn [length]; lia).
    assert (length (msg ++ [b]) / 64 = q)%nat as Eq.
    { rewrite El, Nat.div_add, Nat.div_small by lia. lia. }
    constructor; cbn [state datalen data bitlen]; rewrite ?Eq.
    + rewrite absorb_app by lia. exact Hst.
    + rewrite El, Nat.Div0.mod_add, Nat.mod_small by lia. done.
    + by rewrite length_insert.
    + exact Hd.
    + exact Hbit.
Qed.

Lemma update_after msg ctx bytes :
  ctx_after msg ctx -> ctx_after (msg ++ bytes) (sha256_update ctx bytes).
Proof.
  revert msg ctx. induction bytes as [|b bytes IH]; intros msg ctx H.
  - by rewrite app_nil_r.
  - replace (msg ++ b :: bytes) with ((msg ++ [b]) ++ bytes) by (by rewrite <- app_assoc).
    apply IH. by apply update1_after.
Qed.

(** ** The final blocks *)

Lemma length_field_length x : length (length_field x) = 8%nat.
Proof. done. Qed.

Lemma take_S_insert (n : nat) (x : Z) d :
  (n < length d)%nat -> take (S n) (<[n := x]> d) = take n d ++ [x].
Proof.
  intros. rewrite (take_S_r _ _ x) by (by apply list_lookup_insert_eq).
  by rewrite take_insert_ge by lia.
Qed.

Lemma final_after msg ctx :
  ctx_after msg ctx ->
  sha256_final ctx = hash_with (length_field (u64 (8 * zlen msg))) fips_H0 msg.
Proof.
  intros [Hst Hdl Hlen Hdat Hbit].
  rewrite hash_with_tail by done. unfold sha256_final.
  pose proof (Nat.div_mod_eq (length msg) 64) as E.
  assert (length msg mod 64 < 64)%nat as Hr by (by apply Nat.mod_upper_bound).
  rewrite <- Hdat, <- Hst, <- Hdl. rewrite <- Hdl in E, Hr.
  assert (u64 (bitlen ctx + Z.of_nat (datalen ctx) * 8) = u64 (8 * zlen msg)) as ->.
  { rewrite Hbit. unfold u64. rewrite Zplus_mod_idemp_l. f_equal. lia. }
  clear Hst Hdl Hdat Hbit E.
  destruct ctx as [bl st d n]. cbn [state data datalen bitlen] in *.
  set (lf := length_field _).
  assert (length (<[n := 128]> d) = 64%nat) as Hlen' by (by rewrite length_insert).
  assert (length (take n d ++ [128]) = S n) as HlS
    by (rewrite length_app, length_take; cbn [length]; lia).
  destruct (Nat.ltb_spec n 56); case_decide; try lia.
  - rewrite fill_zeros_eq, take_S_insert, sha256_transform_fips by lia.
    rewrite (app_assoc (take n d ++ [128])), take_app_length'
      by (rewrite length_app, HlS, repeat_length; lia).
    by rewrite <- !app_assoc.
  - rewrite (fill_zeros_eq _ (S n) 64), take_S_insert by lia.
    rewrite (drop_ge _ 64), app_nil_r by lia.
    set (d1 := (take n d ++ [128]) ++ _).
    assert (length d1 = 64%nat) as Hl1
      by (unfold d1; rewrite length_app, HlS, repeat_length; lia).
    rewrite fill_zeros_eq, !sha256_transform_fips by lia. rewrite take_0, app_nil_l.
    rewrite take_app_length' by (by rewrite repeat_length).
    unfold d1. rewrite <- app_assoc. done.
Qed.

Lemma sha256_in_hash garbage msg :
  length garbage = 64%nat ->
  sha256_in garbage msg = hash_with (length_field (u64 (8 * zlen msg))) fips_H0 msg.
Proof.
  intros. unfold sha256_in. apply final_after.
  rewrite <- (app_nil_l msg) at 1. by apply update_after, init_after.
Qed.

(** The bytes of the uninitialised buffer never reach the digest. *)
Lemma sha256_buffer_irrelevant garbage msg :
  length garbage = 64%nat -> sha256_in garbage msg = sha256 msg.
Proof. intros. unfold sha256. by rewrite !sha256_in_hash. Qed.

Lemma sha256_hash msg :
  sha256 msg = hash_with (length_field (u64 (8 * zlen msg))) fips_H0 msg.
Proof. by apply sha256_in_hash. Qed.

Lemma length_field_be64 b : is_u64 b -> (length_field b = be64 b <-> b < 2 ^ 40).
Proof.
  intros Hb. unfold in_u in Hb. unfold length_field, be64, u8. cbn [map].
  rewrite !Z.shiftr_div_pow2 by lia. rewrite Z.div_1_r.
  split.
  - intros E. injection E as E1 E2 E3. Z.to_euclidean_division_equations. lia.
  - intros Hs.
    replace (b / 2 ^ 56) with 0 by (Z.to_euclidean_division_equations; lia).
    replace (b / 2 ^ 48) with 0 by (Z.to_euclidean_division_equations; lia).
    replace (b / 2 ^ 40) with 0 by (Z.to_euclidean_division_equations; lia).
    done.
Qed.

Lemma hash_with_length lf st msg : length st = 8%nat -> length (hash_with lf st msg) = 32%nat.
Proof. intros. unfold hash_with. by rewrite bytes_of_length, absorb_length. Qed.

Lemma sha256_length msg : length (sha256 msg) = 32%nat.
Proof. rewrite sha256_hash. by apply hash_with_length. Qed.
Lemma sha256_bytes msg : is_bytes (sha256 msg).
Proof. rewrite sha256_hash. apply bytes_of_bytes. Qed.
Lemma sha256d_length msg : length (sha256d msg) = 32%nat.
Proof. apply sha256_length. Qed.
Lemma sha256d_bytes msg : is_bytes (sha256d msg).
Proof. apply sha256_bytes. Qed.

Lemma sha256_fips msg : zlen msg < 2 ^ 37 -> sha256 msg = fips_sha256 msg.
Proof.
  intros H. rewrite sha256_hash. unfold fips_sha256.
  rewrite u64_small by (unfold in_u; lia).
  by rewrite (proj2 (length_field_be64 (8 * zlen msg) ltac:(unfold in_u; lia)) ltac:(lia)).
Qed.

(** ** The comparison *)

Lemma bytes_leq_val a b :
  length a = length b -> is_bytes a -> is_bytes b ->
  bytes_leq a b = (be_val a <=? be_val b).
Proof.
  revert b. induction a as [|x a IH]; intros [|y b]; try done.
  intros Hl Ha Hb. inversion Ha as [|? ? Hx Ha']; inversion Hb as [|? ? Hy Hb']; subst.
  injection Hl as Hl. pose proof (be_val_range _ Ha') as Ra.
  pose proof (be_val_range _ Hb') as Rb. rewrite <- Hl in Rb.
  rewrite !be_val_cons, <- Hl. cbn [bytes_leq].
  unfold in_u in Hx, Hy. symmetry.
  destruct (Z.ltb_spec x y); [apply Z.leb_le; nia|].
  destruct (Z.gtb_spec x y); [apply Z.leb_gt; nia|].
  assert (x = y) as -> by lia. rewrite IH by done.
  destruct (Z.leb_spec (be_val a) (be_val b)); [apply Z.leb_le|apply Z.leb_gt]; lia.
Qed.

Lemma isHashLEQTarget_bytes hash target :
  isHashLEQTarget hash target = bytes_leq hash (leU32WordsToBe32Bytes target).
Proof.
  unfold isHashLEQTarget, leU32WordsToBe32Bytes, bswap32. f_equal. f_equal.
  apply map_ext. intros i. rewrite be_bytes32_eq, !Targets.u8_land.
  by rewrite !Z.shiftr_div_pow2 by lia.
Qed.

Lemma isHashLEQTarget_val hash target :
  length hash = 32%nat -> is_bytes hash ->
  isHashLEQTarget hash target = (be_val hash <=? target_val target).
Proof.
  intros. rewrite isHashLEQTarget_bytes. apply bytes_leq_val; [done..|].
  apply leU32WordsToBe32Bytes_bytes.
Qed.

(** ** Properties *)

(** C3: whatever the uninitialised context buffer holds, the streaming
    implementation ([sha256_init], [sha256_update] byte by byte, [sha256_final] with its
    one- or two-block padding) computes FIPS 180-4 SHA-256 on every message shorter
    than 2^37 bytes. *)
Theorem sha256_correct garbage msg :
  length garbage = 64%nat -> zlen msg < 2 ^ 37 ->
  sha256_in garbage msg = fips_sha256 msg.
Proof. intros. rewrite sha256_buffer_irrelevant by done. by apply sha256_fips. Qed.

Lemma sha256_correct_witness :
  length (repeat 171 64) = 64%nat /\ zlen [97; 98; 99] < 2 ^ 37 /\
  sha256_in (repeat 171 64) [97; 98; 99] = fips_sha256 [97; 98; 99].
Proof.
  split_and!; [reflexivity|reflexivity|].
  apply (sha256_correct (repeat 171 64) [97; 98; 99]); reflexivity.
Defined.

(** The limit of [sha256_correct] is real.  The source stores the bit length
    without its bits 40 to 47 and its top two bytes one position low, so for every
    length the padding is the one FIPS prescribes exactly when the message is shorter
    than 2^37 bytes. *)
Theorem sha256_length_defect garbage msg :
  length garbage = 64%nat -> zlen msg < 2 ^ 61 ->
  sha256_in garbage msg = hash_with (length_field (8 * zlen msg)) fips_H0 msg /\
  (length_field (8 * zlen msg) = be64 (8 * zlen msg) <-> zlen msg < 2 ^ 37).
Proof.
  intros Hg Hm. rewrite sha256_in_hash by done.
  rewrite u64_small by (unfold in_u; lia). split; [done|].
  rewrite length_field_be64 by (unfold in_u; lia). lia.
Qed.

Lemma sha256_length_defect_witness :
  length (repeat 0 64) = 64%nat /\ zlen [1; 2] < 2 ^ 61 /\
  sha256_in (repeat 0 64) [1; 2] = hash_with (length_field (8 * zlen [1; 2])) fips_H0 [1; 2] /\
  (length_field (8 * zlen [1; 2]) = be64 (8 * zlen [1; 2]) <-> zlen [1; 2] < 2 ^ 37).
Proof.
  split_and!; [reflexivity|reflexivity|..];
    apply (sha256_length_defect (repeat 0 64) [1; 2]); reflexivity.
Defined.

(** [isHashLEQTarget] accepts a digest exactly when the number its bytes denote,
    read big-endian, is at most the number the little-endian target words denote. *)
Theorem isHashLEQTarget_correct hash target :
  length hash = 32%nat -> is_bytes hash ->
  (isHashLEQTarget hash target = true <-> be_val hash <= target_val target).
Proof. intros. rewrite isHashLEQTarget_val by done. apply Z.leb_le. Qed.

Lemma isHashLEQTarget_correct_witness :
  length (repeat 7 32) = 32%nat /\ is_bytes (repeat 7 32) /\
  (isHashLEQTarget (repeat 7 32) (repeat 4294967295 8) = true <->
   be_val (repeat 7 32) <= target_val (repeat 4294967295 8)).
Proof.
  assert (is_bytes (repeat 7 32)) as H by (apply Forall_rep; unfold in_u; lia).
  split_and!; [reflexivity|exact H|].
  exact (isHashLEQTarget_correct (repeat 7 32) (repeat 4294967295 8) eq_refl H).
Defined.
