(* ===== verification/Midstate.v ===== *)
(** * Midstate hashing ([src/normalize/midstate.cc])

    The second SHA-256 of the program: the chaining value after the first 64 header
    bytes, and the completion of a hash from such a midstate. *)

From S2P Require Import Prelude Endian Sha256 CpuVerify.
From stdpp Require Import base numbers list.

Open Scope Z_scope.
Open Scope cxx_scope.

Module Midstate.

(** ** Definitions *)

(** [struct Ctx]. *)
Record Ctx := MkMid { bitlen : Z; state : list Z }.

Definition rotr (x n : Z) : Z := (x .>> n) .| (x .<< (32 - n)).

Definition K : list Z :=
  [ 1116352408; 1899447441; 3049323471; 3921009573; 961987163; 1508970993; 2453635748; 2870763221;
    3624381080; 310598401; 607225278; 1426881987; 1925078388; 2162078206; 2614888103; 3248222580;
    3835390401; 4022224774; 264347078; 604807628; 770255983; 1249150122; 1555081692; 1996064986;
    2554220882; 2821834349; 2952996808; 3210313671; 3336571891; 3584528711; 113926993; 338241895;
    666307205; 773529912; 1294757372; 1396182291; 1695183700; 1986661051; 2177026350; 2456956037;
    2730485921; 2820302411; 3259730800; 3345764771; 3516065817; 3600352804; 4094571909; 275423344;
    430227734; 506948616; 659060556; 883997877; 958139571; 1322822218; 1537002063; 1747873779;
    1955562222; 2024104815; 2227730452; 2361852424; 2428436474; 2756734187; 3204031479; 3329325298 ].

Definition round (r : regs) (k m : Z) : regs :=
  let 'Regs a b c d e f g h := r in
  let S1 := rotr e 6 .^ rotr e 11 .^ rotr e 25 in
  let ch := (e .& f) .^ (not32 e .& g) in
  let temp1 := h ⊞ S1 ⊞ ch ⊞ k ⊞ m in
  let S0 := rotr a 2 .^ rotr a 13 .^ rotr a 22 in
  let maj := (a .& b) .^ (a .& c) .^ (b .& c) in
  let temp2 := S0 ⊞ maj in
  Regs (temp1 ⊞ temp2) a b c (d ⊞ temp1) e f g.

Definition schedule (block : list Z) : list Z :=
  fold_left (fun m i =>
      let s0 := rotr (rd m (i - 15)) 7 .^ rotr (rd m (i - 15)) 18 .^ (rd m (i - 15) .>> 3) in
      let s1 := rotr (rd m (i - 2)) 17 .^ rotr (rd m (i - 2)) 19 .^ (rd m (i - 2) .>> 10) in
      m ++ [rd m (i - 16) ⊞ s0 ⊞ rd m (i - 7) ⊞ s1])
    (seq 16 48) (words_of 16 block).

Definition transform (ctx : Ctx) (block : list Z) : Ctx :=
  let m := schedule block in
  MkMid (bitlen ctx)
    (add_regs (state ctx)
       (fold_left (fun r i => round r (rd K i) (rd m i)) (seq 0 64) (regs_of (state ctx)))).

Definition init : Ctx :=
  MkMid 0 [1779033703; 3144134277; 1013904242; 2773480762;
           1359893119; 2600822924; 528734635; 1541459225].

Definition sha256_midstate_64 (first64 : list Z) : list Z :=
  let ctx := transform init first64 in
  map (rd (state ctx)) (seq 0 8).

(** [while (rem >= 64) { transform(ctx, tail + offset); offset += 64; rem -= 64; }]:
    one iteration per full block, so [fuel] = number of full blocks suffices. *)
Fixpoint full_blocks (fuel : nat) (ctx : Ctx) (tail : list Z) (offset rem : nat)
  : Ctx * nat * nat :=
  match fuel with
  | O => (ctx, offset, rem)
  | S fuel =>
      if (64 <=? rem)%nat
      then full_blocks fuel (transform ctx (take 64 (drop offset tail))) tail
             (offset + 64) (rem - 64)
      else (ctx, offset, rem)
  end.

Definition sha256_finish_from_midstate (midstate tail : list Z) (total_len_bytes : Z)
  : list Z :=
  let ctx := MkMid (u64 (total_len_bytes * 8)) (map (rd midstate) (seq 0 8)) in
  let '(ctx, offset, rem) :=
    full_blocks (length tail / 64) ctx tail 0 (length tail) in
  let block := take rem (drop offset tail) ++ repeat 0 (64 - rem) in
  let block := <[rem := 128]> block in
  let '(ctx, block) :=
    if (56 <=? rem)%nat then (transform ctx block, repeat 0 64) else (ctx, block) in
  let bl := u64 (total_len_bytes * 8) in
  let block := take 56 block ++
    [0; u8 (bl .>> 56); u8 (bl .>> 48); u8 (bl .>> 32);
     u8 (bl .>> 24); u8 (bl .>> 16); u8 (bl .>> 8); u8 bl] in
  let ctx := transform ctx block in
  bytes_of (state ctx).

(** ** Lemmas *)

Lemma schedule_fips b : schedule b = fips_schedule (words_of 16 b).
Proof.
  unfold schedule, fips_schedule. apply fold_left_cong. intros m i.
  do 2 f_equal. rewrite !add32_4. f_equal. unfold ssig0, ssig1, Sha256.rotr, rotr. lia.
Qed.

Lemma round_fips r k m : round r k m = fips_round r k m.
Proof. by destruct r. Qed.

Lemma transform_fips ctx b :
  transform ctx b = MkMid (bitlen ctx) (compress (state ctx) (words_of 16 b)).
Proof.
  destruct ctx as [bl st]. unfold transform. cbn [bitlen state]. rewrite compress_eq.
  rewrite schedule_fips.
  change K with fips_K.
  generalize (fips_schedule (words_of 16 b)), fips_K, (regs_of st). intros w k r.
  apply (f_equal (fun x => MkMid bl (add_regs st x))).
  apply fold_left_cong. intros. apply round_fips.
Qed.
#[global] Opaque transform.

Lemma sha256_midstate_64_absorb first64 :
  length first64 = 64%nat -> sha256_midstate_64 first64 = absorb 1 fips_H0 first64.
Proof.
  intros H. unfold sha256_midstate_64. rewrite transform_fips. cbn [state].
  rewrite map_rd_seq_n by apply compress_length.
  rewrite absorb_S, absorb_0. unfold msg_block.
  by rewrite Nat.mul_0_r, drop_0, take_ge by lia.
Qed.

(** The loop consumes exactly the full blocks. *)
Lemma full_blocks_absorb bl st tail n k :
  (64 * k + n * 64 <= length tail)%nat ->
  full_blocks n (MkMid bl (absorb k st tail)) tail (64 * k) (length tail - 64 * k)
  = (MkMid bl (absorb (k + n) st tail), (64 * (k + n))%nat, (length tail - 64 * (k + n))%nat).
Proof.
  revert k. induction n as [|n IH]; intros k H; cbn [full_blocks].
  - by rewrite Nat.add_0_r.
  - destruct (Nat.leb_spec 64 (length tail - 64 * k)); [|lia].
    rewrite transform_fips. cbn [bitlen state].
    change (take 64 (drop (64 * k) tail)) with (msg_block tail k).
    rewrite <- absorb_S.
    replace (64 * k + 64)%nat with (64 * S k)%nat by lia.
    replace (length tail - 64 * k - 64)%nat with (length tail - 64 * S k)%nat by lia.
    rewrite IH by lia. by replace (S k + n)%nat with (k + S n)%nat by lia.
Qed.

(** Finishing from any eight-word midstate. *)
Lemma finish_hash st tail total :
  length st = 8%nat ->
  sha256_finish_from_midstate st tail total
  = hash_with (length_field (u64 (total * 8))) st tail.
Proof.
  intros Hst. rewrite hash_with_tail by done. unfold sha256_finish_from_midstate.
  rewrite (map_rd_seq_n st) by done.
  pose proof (Nat.div_mod_eq (length tail) 64) as E.
  assert (length tail mod 64 < 64)%nat as Hr by (by apply Nat.mod_upper_bound).
  pose proof (full_blocks_absorb (u64 (total * 8)) st tail (length tail / 64) 0 ltac:(lia)) as F.
  rewrite absorb_0, Nat.mul_0_r, Nat.sub_0_r, Nat.add_0_l in F. rewrite F. clear F.
  set (q := (length tail / 64)%nat) in *.
  replace (length tail - 64 * q)%nat with (length tail mod 64)%nat by lia.
  set (r := (length tail mod 64)%nat) in *.
  set (rest := drop (64 * q) tail).
  assert (length rest = r) as Hlr by (unfold rest; rewrite length_drop; lia).
  rewrite (take_ge rest) by lia.
  assert (<[r := 128]> (rest ++ repeat 0 (64 - r)) = rest ++ 128 :: repeat 0 (63 - r)) as ->.
  { rewrite insert_app_r_alt by lia. rewrite Hlr, Nat.sub_diag.
    by replace (64 - r)%nat with (S (63 - r)) by lia. }
  change ([0; _; _; _; _; _; _; _]) with (length_field (u64 (total * 8))).
  destruct (Nat.leb_spec 56 r); case_decide; try lia; rewrite !transform_fips; cbn [state].
  - done.
  - replace (63 - r)%nat with ((55 - r) + 8)%nat by lia.
    rewrite repeat_app, app_comm_cons, app_assoc, take_app_length'.
    + by rewrite <- app_assoc.
    + rewrite length_app, Hlr. cbn [length]. rewrite repeat_length. lia.
Qed.

(** ** Properties *)

(** C31: completing the hash from the midstate of the first 64 bytes gives the same
    digest as hashing the whole message with [submit::sha256], for every tail,
    provided the caller passes the total length. *)
Theorem midstate_finish_correct first64 tail :
  length first64 = 64%nat ->
  sha256_finish_from_midstate (sha256_midstate_64 first64) tail (64 + zlen tail)
  = sha256 (first64 ++ tail).
Proof.
  intros H. rewrite sha256_midstate_64_absorb by done.
  rewrite finish_hash by (by apply absorb_length).
  rewrite hash_with_prefix by done. rewrite sha256_hash, length_app, H.
  by replace ((64 + zlen tail) * 8) with (8 * Z.of_nat (64 + length tail)) by lia.
Qed.

Lemma midstate_finish_correct_witness :
  length (repeat 17 64) = 64%nat /\
  sha256_finish_from_midstate (sha256_midstate_64 (repeat 17 64)) (repeat 3 16)
    (64 + zlen (repeat 3 16)) = sha256 (repeat 17 64 ++ repeat 3 16).
Proof.
  split; [reflexivity|].
  exact (midstate_finish_correct (repeat 17 64) (repeat 3 16) eq_refl).
Defined.

End Midstate.
