(* ===== verification/Merkle.v ===== *)
(** * Merkle roots ([src/normalize/merkle.cc])

    The level-by-level reduction of a transaction list, against the top-down
    definition of a Merkle tree with last-node duplication. *)

From S2P Require Import Prelude Sha256 CpuVerify.
From stdpp Require Import base numbers list.

Open Scope Z_scope.

(** ** Definitions *)

Definition hash_pair (a b : list Z) : list Z := sha256d (a ++ b).

(** The body of the [for (i = 0; i < level.size(); i += 2)] loop. *)
Definition merkle_next (level : list (list Z)) : list (list Z) :=
  map (fun k => let i := (2 * k)%nat in
         let a := nth i level [] in
         let b := if (i + 1 <? length level)%nat then nth (i + 1) level []
                  else nth i level [] in
         hash_pair a b)
      (seq 0 ((length level + 1) / 2)).

(** [while (level.size() > 1) level.swap(next)]; [None] when [fuel] runs out. *)
Fixpoint merkle_loop (fuel : nat) (level : list (list Z)) : option (list (list Z)) :=
  if (1 <? length level)%nat then
    match fuel with
    | O => None
    | S fuel => merkle_loop fuel (merkle_next level)
    end
  else Some level.

(** A level at least halves (rounding up), so [length] rounds are enough:
    [merkle_loop_spec]. *)
Definition compute_merkle_root_be (txids_be : list (list Z)) : option (list Z) :=
  match txids_be with
  | [] => Some (repeat 0 32)
  | _ => level ← merkle_loop (length txids_be) txids_be; Some (nth 0 level [])
  end.

(** ** Specification *)

(** The root of a tree of depth [d] whose leaves are [l], at most [2^d] of them: the
    left half is complete, a missing right half repeats the left one. *)
Fixpoint tree_root (d : nat) (l : list (list Z)) : list Z :=
  match d with
  | O => nth 0 l []
  | S d =>
      if (length l <=? 2 ^ d)%nat then let t := tree_root d l in hash_pair t t
      else hash_pair (tree_root d (take (2 ^ d) l)) (tree_root d (drop (2 ^ d) l))
  end.

Definition merkle_spec (l : list (list Z)) : list Z :=
  match l with [] => repeat 0 32 | _ => tree_root (Nat.log2_up (length l)) l end.

(** ** Lemmas *)

#[global] Opaque sha256d.

Lemma merkle_next_nil : merkle_next [] = [].
Proof. done. Qed.
Lemma merkle_next_one a : merkle_next [a] = [hash_pair a a].
Proof. done. Qed.

Lemma merkle_next_cons a b l :
  merkle_next (a :: b :: l) = hash_pair a b :: merkle_next l.
Proof.
  unfold merkle_next. cbn [length].
  replace (S (S (length l)) + 1)%nat with (length l + 1 + 1 * 2)%nat by lia.
  rewrite Nat.div_add, Nat.add_1_r by lia. cbn [seq map]. f_equal.
  rewrite <- seq_shift, map_map. apply map_ext. intros k.
  replace (2 * S k)%nat with (S (S (2 * k))) by lia. done.
Qed.

Lemma pair_ind {A} (P : list A -> Prop) :
  P [] -> (forall a, P [a]) -> (forall a b l, P l -> P (a :: b :: l)) -> forall l, P l.
Proof.
  intros H0 H1 H2. fix IH 1. intros [|a [|b l]]; [done|done|]. apply H2, IH.
Qed.

Lemma merkle_next_length l : length (merkle_next l) = ((length l + 1) / 2)%nat.
Proof. unfold merkle_next. by rewrite length_map, length_seq. Qed.

Lemma merkle_next_app_even l1 l2 n :
  length l1 = (2 * n)%nat -> merkle_next (l1 ++ l2) = merkle_next l1 ++ merkle_next l2.
Proof.
  revert l1. induction n as [|n IH]; intros l1 H; [by destruct l1|].
  destruct l1 as [|a [|b l1]]; cbn in H; try lia. cbn [app].
  rewrite !merkle_next_cons. cbn [app]. f_equal. apply IH. lia.
Qed.

Lemma half_bound n m : (n <= 2 * m)%nat -> ((n + 1) / 2 <= m)%nat.
Proof. intros. apply Nat.lt_succ_r, Nat.Div0.div_lt_upper_bound. lia. Qed.

Lemma half_lower n m : (2 * m < n)%nat -> (m < (n + 1) / 2)%nat.
Proof. intros. apply Nat.div_le_lower_bound; lia. Qed.

(** One bottom-up round peels one level of the top-down tree. *)
Lemma tree_root_next d l :
  (0 < length l <= 2 ^ S d)%nat -> tree_root (S d) l = tree_root d (merkle_next l).
Proof.
  revert l. induction d as [|d IH]; intros l Hl.
  - cbn in Hl. destruct l as [|a [|b [|c l]]]; cbn in Hl; try lia; done.
  - cbn [tree_root]. cbn [tree_root] in IH.
    pose proof (merkle_next_length l) as Hn.
    replace (2 ^ S (S d))%nat with (2 * 2 ^ S d)%nat in Hl by (cbn; lia).
    destruct (Nat.leb_spec (length l) (2 ^ S d)) as [Hs|Hs].
    + rewrite IH by lia.
      destruct (Nat.leb_spec (length (merkle_next l)) (2 ^ d)) as [|Hc]; [done|].
      pose proof (half_bound (length l) (2 ^ d)). cbn in Hs. lia.
    + assert (length (take (2 ^ S d) l) = 2 * 2 ^ d)%nat as Ht
        by (rewrite length_take; cbn [Nat.pow] in *; lia).
      rewrite (IH (take _ _)), (IH (drop _ _))
        by (rewrite ?Ht, ?length_drop; cbn [Nat.pow] in *; lia).
      pose proof (merkle_next_app_even _ (drop (2 ^ S d) l) _ Ht) as E.
      rewrite take_drop in E. rewrite E.
      assert (length (merkle_next (take (2 ^ S d) l)) = 2 ^ d)%nat as Hnt.
      { rewrite merkle_next_length, Ht, Nat.mul_comm, Nat.div_add_l; [|lia].
        rewrite Nat.div_small; lia. }
      rewrite take_app_length', drop_app_length' by done.
      destruct (Nat.leb_spec (length (merkle_next (take (2 ^ S d) l) ++
                                      merkle_next (drop (2 ^ S d) l))) (2 ^ d)); [|done].
      rewrite length_app, Hnt in *. rewrite merkle_next_length, length_drop in *.
      pose proof (half_lower (length l - 2 ^ S d) 0). lia.
Qed.

Lemma merkle_loop_done fuel l : (length l <= 1)%nat -> merkle_loop fuel l = Some l.
Proof. intros. destruct fuel; cbn [merkle_loop]; destruct (Nat.ltb_spec 1 (length l)); done || lia. Qed.

Lemma merkle_loop_tree d fuel l :
  (0 < length l <= 2 ^ d)%nat -> (d <= fuel)%nat -> (d = 0 \/ 2 ^ (d - 1) < length l)%nat ->
  merkle_loop fuel l = Some [tree_root d l].
Proof.
  revert fuel l. induction d as [|d IH]; intros fuel l Hl Hf Hmin.
  - cbn in Hl. destruct l as [|a [|? ?]]; cbn in Hl; try lia. by apply merkle_loop_done.
  - destruct Hmin as [|Hmin]; [lia|]. rewrite Nat.sub_1_r in Hmin. cbn [Nat.pred] in Hmin.
    destruct fuel as [|fuel]; [lia|]. cbn [merkle_loop].
    pose proof (Nat.pow_nonzero 2 d).
    destruct (Nat.ltb_spec 1 (length l)); [|lia].
    rewrite tree_root_next by done. apply IH; [|lia|].
    + rewrite merkle_next_length. split.
      * apply half_lower. lia.
      * apply half_bound. cbn in Hl. lia.
    + destruct d as [|d]; [by left|right].
      rewrite merkle_next_length. apply half_lower. cbn in Hmin |- *. by rewrite Nat.sub_0_r; lia.
Qed.

Lemma log2_up_le n : (0 < n)%nat -> (Nat.log2_up n <= n)%nat.
Proof.
  intros. destruct (decide (n = 1)%nat) as [->|]; [cbn; lia|].
  pose proof (Nat.log2_up_lt_lin n). lia.
Qed.

(** Enough fuel gives the root. *)
Lemma merkle_loop_spec fuel l :
  (0 < length l <= fuel)%nat -> merkle_loop fuel l = Some [merkle_spec l].
Proof.
  intros H. replace (merkle_spec l) with (tree_root (Nat.log2_up (length l)) l)
    by (destruct l; cbn in H; [lia|done]).
  pose proof (log2_up_le (length l)). apply merkle_loop_tree; [split; [lia|]|lia|].
  - destruct (decide (length l = 1)%nat) as [->|]; [done|]. apply Nat.log2_up_spec. lia.
  - destruct (decide (length l = 1)%nat) as [->|]; [by left|right].
    rewrite Nat.sub_1_r. apply Nat.log2_up_spec. lia.
Qed.

Lemma compute_merkle_root_spec l : compute_merkle_root_be l = Some (merkle_spec l).
Proof.
  destruct l as [|t l]; [done|]. unfold compute_merkle_root_be.
  by rewrite merkle_loop_spec by (cbn; lia).
Qed.

(** The root of a list of several hashes is the root of its next level. *)
Lemma merkle_spec_next l : (1 < length l)%nat -> merkle_spec l = merkle_spec (merkle_next l).
Proof.
  intros H. pose proof (merkle_loop_spec (length l) l ltac:(lia)) as E.
  destruct (length l) as [|n] eqn:El; [lia|]. cbn [merkle_loop] in E.
  destruct (Nat.ltb_spec 1 (length l)); [|lia].
  rewrite merkle_loop_spec in E; [by injection E|].
  rewrite merkle_next_length, El. split; [apply half_lower; lia|].
  apply Nat.lt_succ_r, Nat.Div0.div_lt_upper_bound. lia.
Qed.

(** ** Properties *)

(** C8: the reduction always terminates with one root (the loop's fuel, one round per
    leaf, is enough), and that root is the root of the top-down Merkle tree of minimal
    depth with last-node duplication, 32 zero bytes for the empty list. *)
Theorem merkle_root_correct txids :
  compute_merkle_root_be txids = Some (merkle_spec txids).
Proof. apply compute_merkle_root_spec. Qed.

(** Duplication makes different transaction lists collide: for a list of odd
    length above one, appending its last transaction again does not change the root. *)
Theorem merkle_root_duplicate l x n :
  length l = (2 * n)%nat -> l <> [] ->
  compute_merkle_root_be (l ++ [x; x]) = compute_merkle_root_be (l ++ [x]).
Proof.
  intros Hl Hne. assert (0 < length l)%nat by (destruct l; [done|cbn; lia]).
  rewrite !compute_merkle_root_spec. f_equal.
  rewrite (merkle_spec_next (l ++ [x; x])), (merkle_spec_next (l ++ [x]))
    by (rewrite length_app; cbn [length]; lia).
  by rewrite (merkle_next_app_even l [x; x] n), (merkle_next_app_even l [x] n) by done.
Qed.

Lemma merkle_root_duplicate_witness :
  length [[1]; [2]] = (2 * 1)%nat /\ [[1]; [2]] <> [] /\
  compute_merkle_root_be ([[1]; [2]] ++ [[3]; [3]]) = compute_merkle_root_be ([[1]; [2]] ++ [[3]]).
Proof.
  split_and!; [reflexivity|discriminate|].
  apply (merkle_root_duplicate [[1]; [2]] [3] 1); [reflexivity|discriminate].
Defined.
