(* ===== verification/Registry.v ===== *)
(** * Work items and the work-source registry ([src/registry])

    The data shared by every component, the slot table with its generation
    counters, and the interleavings of one writer with one reader of a slot. *)

From S2P Require Import Prelude.
From stdpp Require Import base numbers list option relations.

Open Scope Z_scope.

(** ** Data ([types.h]) *)

Record GpuJobConst := mkGpuJobConst { midstate_le : list Z }.

Record WorkItem := mkWorkItem {
  work_id : Z; source_id : Z;
  version : Z; ntime : Z; nbits : Z; nonce_start : Z;
  prevhash_le : list Z; merkle_root_le : list Z;
  share_target_le : list Z; block_target_le : list Z;
  vmask : Z; ntime_min : Z; ntime_max : Z;
  extranonce2_size : Z; clean_jobs : bool; active : bool; found_submitted : bool }.

Definition GpuJobConst_default : GpuJobConst := mkGpuJobConst (repeat 0 8).
Definition WorkItem_default : WorkItem :=
  mkWorkItem 0 0 0 0 0 0 (repeat 0 8) (repeat 0 8) (repeat 0 8) (repeat 0 8)
    0 0 0 0 false false false.

Record WorkSlot := mkWorkSlot {
  slot_gen : Z; slot_item : WorkItem; slot_const : GpuJobConst }.
Definition WorkSlot_default : WorkSlot :=
  mkWorkSlot 0 WorkItem_default GpuJobConst_default.

Record WorkSlotSnapshot := mkWorkSlotSnapshot {
  gen : Z; item : WorkItem; job_const : GpuJobConst }.

#[export] Instance GpuJobConst_eq_dec : EqDecision GpuJobConst.
Proof. solve_decision. Defined.
#[export] Instance WorkItem_eq_dec : EqDecision WorkItem.
Proof. solve_decision. Defined.
#[export] Instance WorkSlotSnapshot_eq_dec : EqDecision WorkSlotSnapshot.
Proof. solve_decision. Defined.

(** Fields within the widths the struct declares. *)
Definition words8 (ws : list Z) : Prop := length ws = 8%nat /\ is_words ws.

Record wf_item (w : WorkItem) : Prop := {
  wf_work_id : is_u64 (work_id w);
  wf_source_id : is_u32 (source_id w);
  wf_version : is_u32 (version w);
  wf_ntime : is_u32 (ntime w);
  wf_nbits : is_u32 (nbits w);
  wf_nonce_start : is_u32 (nonce_start w);
  wf_prevhash : words8 (prevhash_le w);
  wf_merkle : words8 (merkle_root_le w);
  wf_share : words8 (share_target_le w);
  wf_block : words8 (block_target_le w);
  wf_vmask : is_u32 (vmask w);
  wf_ntime_min : is_u32 (ntime_min w);
  wf_ntime_max : is_u32 (ntime_max w);
  wf_extranonce2_size : is_u8 (extranonce2_size w) }.

Definition wf_const (c : GpuJobConst) : Prop := words8 (midstate_le c).

(** ** The registry ([work_source_registry.cc])

    [slots_] is the list of slots. *)

Abbreviation registry := (list WorkSlot).

Definition WorkSourceRegistry (num_slots : nat) : throws registry :=
  if (num_slots =? 0)%nat then inl invalid_argument
  else inr (repeat WorkSlot_default num_slots).

Definition size (r : registry) : nat := length r.

Definition set (r : registry) (slot_index : nat) (i : WorkItem) (c : GpuJobConst) :
    throws registry :=
  match r !! slot_index with
  | None => inl out_of_range
  | Some s => inr (<[slot_index := mkWorkSlot (u64 (slot_gen s + 1)) i c]> r)
  end.

Definition get (r : registry) (slot_index : nat) : option WorkSlotSnapshot :=
  src ← r !! slot_index; Some (mkWorkSlotSnapshot (slot_gen src) (slot_item src) (slot_const src)).

(** A sequence of [set] calls. *)
Fixpoint sets (r : registry) (l : list (nat * (WorkItem * GpuJobConst))) : throws registry :=
  match l with
  | [] => inr r
  | (k, (i, c)) :: l => r ← set r k i c; sets r l
  end.

(** ** Interleavings of one slot

    [set] and [get] copy a [WorkItem] and a [GpuJobConst] with plain assignments: nothing
    makes the copy of either struct, or of a field, one access.  A writer and a reader
    are therefore interleaved byte by byte on the memory image of the slot.  The only
    order assumed is what the code asks for: the bytes are stored in some order before
    the release increment of the generation, and loaded in some order after its acquire
    load.  [writes] is the history of the writes begun. *)

(** The image of an item and its constants: the bytes of each field in declaration order
    (the padding, which no one reads, is left out). *)
Definition layout : list nat := 8%nat :: (repeat 4%nat 40 ++ repeat 1%nat 4) ++ repeat 4%nat 8.

Definition values_of (p : WorkItem * GpuJobConst) : list Z :=
  let '(w, c) := p in
  work_id w :: (([source_id w; version w; ntime w; nbits w; nonce_start w] ++
    prevhash_le w ++ merkle_root_le w ++ share_target_le w ++ block_target_le w ++
    [vmask w; ntime_min w; ntime_max w]) ++
  [extranonce2_size w; Z.b2z (clean_jobs w); Z.b2z (active w); Z.b2z (found_submitted w)]) ++
  midstate_le c.

Fixpoint encode_fields (sizes : list nat) (vs : list Z) : list Z :=
  match sizes, vs with
  | n :: sizes, v :: vs => le_bytes n v ++ encode_fields sizes vs
  | _, _ => []
  end.

Fixpoint decode_fields (sizes : list nat) (bs : list Z) : list Z :=
  match sizes with
  | [] => []
  | n :: sizes => le_val (take n bs) :: decode_fields sizes (drop n bs)
  end.

Definition image_of (p : WorkItem * GpuJobConst) : list Z := encode_fields layout (values_of p).
Definition image_size : nat := 204.

(** The snapshot whose object holds the generation [g] and the bytes [bs]. *)
Definition snapshot_of (g : Z) (bs : list Z) : WorkSlotSnapshot :=
  let v := decode_fields layout bs in
  let flag i := negb (rd v i =? 0) in
  mkWorkSlotSnapshot g
    (mkWorkItem (rd v 0) (rd v 1) (rd v 2) (rd v 3) (rd v 4) (rd v 5)
       (take 8 (drop 6 v)) (take 8 (drop 14 v)) (take 8 (drop 22 v)) (take 8 (drop 30 v))
       (rd v 38) (rd v 39) (rd v 40) (rd v 41) (flag 42%nat) (flag 43%nat) (flag 44%nat))
    (mkGpuJobConst (drop 45 v)).

(** The offsets a copy still has to store, or to load. *)
Inductive writer_pc := Widle | Wcopy (rest : list nat).
Inductive reader_pc :=
  | Ridle
  | Rcopy (g : Z) (buf : list Z) (rest : list nat)
  | Rdone (g : Z) (buf : list Z).

Record slot_state := mkSlotState {
  published_gen : Z; bytes : list Z; writes : list (WorkItem * GpuJobConst);
  wpc : writer_pc; rpc : reader_pc }.

Inductive slot_step : slot_state -> slot_state -> Prop :=
  | step_set g bs h r i c offsets :
      wf_item i -> wf_const c -> offsets ≡ₚ seq 0 image_size ->
      slot_step (mkSlotState g bs h Widle r)
                (mkSlotState g bs (h ++ [(i, c)]) (Wcopy offsets) r)
  | step_store g bs h p o b offsets r :
      image_of p !! o = Some b ->
      slot_step (mkSlotState g bs (h ++ [p]) (Wcopy (o :: offsets)) r)
                (mkSlotState g (<[o := b]> bs) (h ++ [p]) (Wcopy offsets) r)
  | step_fetch_add g bs h r :
      slot_step (mkSlotState g bs h (Wcopy []) r)
                (mkSlotState (u64 (g + 1)) bs h Widle r)
  | step_load_gen g bs h w offsets :
      offsets ≡ₚ seq 0 image_size ->
      slot_step (mkSlotState g bs h w Ridle)
        (mkSlotState g bs h w
           (Rcopy g (image_of (WorkItem_default, GpuJobConst_default)) offsets))
  | step_load g bs h w g' buf o b offsets :
      bs !! o = Some b ->
      slot_step (mkSlotState g bs h w (Rcopy g' buf (o :: offsets)))
                (mkSlotState g bs h w (Rcopy g' (<[o := b]> buf) offsets))
  | step_loaded g bs h w g' buf :
      slot_step (mkSlotState g bs h w (Rcopy g' buf []))
                (mkSlotState g bs h w (Rdone g' buf))
  | step_return g bs h w g' buf :
      slot_step (mkSlotState g bs h w (Rdone g' buf)) (mkSlotState g bs h w Ridle).

Definition slot_init : slot_state :=
  mkSlotState 0 (image_of (WorkItem_default, GpuJobConst_default)) [] Widle Ridle.
Definition slot_reachable (s : slot_state) : Prop := rtc slot_step slot_init s.

(** The content of the slot after the first [n] writes of a history. *)
Definition nth_write (h : list (WorkItem * GpuJobConst)) (n : nat) : WorkItem * GpuJobConst :=
  nth n ((WorkItem_default, GpuJobConst_default) :: h) (WorkItem_default, GpuJobConst_default).

(** ** Lemmas *)

Lemma get_set_eq r k i c r' :
  set r k i c = inr r' ->
  exists s, get r k = Some s /\ get r' k = Some (mkWorkSlotSnapshot (u64 (gen s + 1)) i c).
Proof.
  unfold set, get. destruct (r !! k) as [s|] eqn:E; [|done]. intros [= <-].
  eexists. split; [done|]. rewrite list_lookup_insert_eq; [done|by eapply lookup_lt_Some].
Qed.

Lemma get_set_ne r k i c r' j : set r k i c = inr r' -> j <> k -> get r' j = get r j.
Proof.
  unfold set, get. destruct (r !! k) as [s|] eqn:E; [|done]. intros [= <-] Hj.
  by rewrite list_lookup_insert_ne.
Qed.

Lemma size_set r k i c r' : set r k i c = inr r' -> size r' = size r.
Proof.
  unfold set, size. destruct (r !! k); [|done]. intros [= <-]. apply length_insert.
Qed.

Lemma set_ok r k i c : (k < size r)%nat -> exists r', set r k i c = inr r'.
Proof.
  intros Hk. unfold set. destruct (lookup_lt_is_Some_2 r k Hk) as [s ->]. by eexists.
Qed.

Lemma set_throws r k i c : (size r <= k)%nat -> set r k i c = inl out_of_range.
Proof. intros Hk. unfold set. by rewrite lookup_ge_None_2. Qed.

Lemma get_none r k : (size r <= k)%nat -> get r k = None.
Proof. intros Hk. unfold get. by rewrite lookup_ge_None_2. Qed.

(** The writes to slot [k] in a sequence. *)
Definition writes_to (k : nat) (l : list (nat * (WorkItem * GpuJobConst))) :=
  map snd (filter (fun p => p.1 = k) l).

Lemma writes_to_cons k j p l :
  writes_to k ((j, p) :: l) = if decide (j = k) then p :: writes_to k l else writes_to k l.
Proof. unfold writes_to. rewrite filter_cons. cbn [fst]. by destruct (decide (j = k)). Qed.

Lemma u64_add_l x y : u64 (u64 x + y) = u64 (x + y).
Proof. apply Z.add_mod_idemp_l. lia. Qed.

(** The slot after the writes [h], started from [s]. *)
Definition after (s : WorkSlotSnapshot) (h : list (WorkItem * GpuJobConst)) : WorkSlotSnapshot :=
  let p := fold_left (fun _ w => w) h (item s, job_const s) in
  mkWorkSlotSnapshot (u64 (gen s + zlen h)) p.1 p.2.

Lemma sets_get r l r' k s :
  sets r l = inr r' -> get r k = Some s -> is_u64 (gen s) ->
  get r' k = Some (after s (writes_to k l)).
Proof.
  revert r s. induction l as [|[j [i c]] l IH]; intros r s; cbn [sets].
  - intros [= ->] Hg Hu. rewrite Hg. f_equal. unfold after. cbn.
    rewrite Z.add_0_r, u64_small by done. by destruct s.
  - intros Hs Hg Hu. destruct (set r j i c) as [|r1] eqn:E; [done|]. cbn in Hs.
    rewrite writes_to_cons. destruct (decide (j = k)) as [->|Hj].
    + destruct (get_set_eq _ _ _ _ _ E) as (s0 & Hs0 & Hg1).
      rewrite Hg in Hs0. injection Hs0 as <-.
      rewrite (IH _ _ Hs Hg1) by apply u64_range. f_equal. unfold after. cbn [gen item job_const].
      rewrite u64_add_l. f_equal. f_equal. cbn [length]. lia.
    + apply (IH r1 s Hs); [|done]. by rewrite (get_set_ne _ _ _ _ _ _ E).
Qed.

(** *** The memory image *)

Lemma decode_encode_fields sizes vs :
  Forall2 (fun n v => in_u (8 * Z.of_nat n) v) sizes vs ->
  decode_fields sizes (encode_fields sizes vs) = vs.
Proof.
  induction 1 as [|n v sizes vs Hv _ IH]; [done|]. cbn [encode_fields decode_fields].
  rewrite take_app_length', drop_app_length' by (by rewrite le_bytes_length).
  by rewrite IH, (le_val_le_bytes_u n _ v eq_refl Hv).
Qed.

Lemma encode_fields_length sizes vs :
  length sizes = length vs -> length (encode_fields sizes vs) = sum_list sizes.
Proof.
  revert vs. induction sizes as [|n sizes IH]; intros [|v vs] H; try done.
  injection H as H. cbn. by rewrite length_app, le_bytes_length, IH.
Qed.

Lemma wf_image p : wf_item p.1 -> wf_const p.2 ->
  Forall2 (fun n v => in_u (8 * Z.of_nat n) v) layout (values_of p).
Proof.
  destruct p as [[] [ms]]. intros [] [Hm1 Hm2]. cbn in * |-.
  repeat match goal with H : words8 _ |- _ => destruct H end.
  assert (forall l, is_words l -> Forall2 (fun n v => in_u (8 * Z.of_nat n) v) (repeat 4%nat (length l)) l) as Hw
    by (induction 1; constructor; done).
  assert (forall b, is_u8 (Z.b2z b)) as Hb by (intros []; by vm_compute).
  unfold layout, values_of. cbn [work_id source_id version ntime nbits nonce_start prevhash_le merkle_root_le
    share_target_le block_target_le vmask ntime_min ntime_max extranonce2_size clean_jobs active found_submitted midstate_le].
  apply Forall2_cons_2; [done|]. apply Forall2_app; [apply Forall2_app|].
  - match goal with |- Forall2 _ _ ?l => replace 40%nat with (length l); [apply Hw|] end.
    + repeat first [apply Forall_app; split|apply Forall_cons; split]; done || constructor.
    + rewrite !length_app. cbn [length]. lia.
  - change (repeat 1%nat 4) with [1; 1; 1; 1]%nat. repeat apply Forall2_cons_2; try apply Hb; done || constructor.
  - rewrite <- Hm1. by apply Hw.
Qed.

Lemma image_of_length p : wf_item p.1 -> wf_const p.2 -> length (image_of p) = image_size.
Proof.
  intros H1 H2. unfold image_of. rewrite encode_fields_length; [done|].
  by eapply Forall2_length, wf_image.
Qed.

Lemma snapshot_of_image g p :
  wf_item p.1 -> wf_const p.2 -> snapshot_of g (image_of p) = mkWorkSlotSnapshot g p.1 p.2.
Proof.
  intros H1 H2. unfold snapshot_of, image_of.
  rewrite decode_encode_fields by by apply wf_image.
  destruct p as [[] [ms]], H1, H2 as [Hm _]. cbn in *.
  repeat match goal with H : words8 _ |- _ => destruct H end.
  repeat match goal with
  | H : length ?l = 8%nat |- _ => do 9 (destruct l as [|? l]; [try discriminate H|]); discriminate H || clear H
  end.
  by destruct clean_jobs0, active0, found_submitted0.
Qed.

Lemma wf_default : wf_item WorkItem_default /\ wf_const GpuJobConst_default.
Proof. split; repeat split; try lia; repeat constructor; by vm_compute. Qed.

(** *** The interleaving invariant *)

Definition begun (s : slot_state) : nat := length (writes s).
(** Writes whose generation is published. *)
Definition published (s : slot_state) : nat :=
  match wpc s with Widle => begun s | Wcopy _ => (begun s - 1)%nat end.
Definition unstored (s : slot_state) : list nat :=
  match wpc s with Widle => [] | Wcopy offsets => offsets end.

(** The byte [b] at offset [o] is that of one of the writes [lo] to [hi]. *)
Definition byte_of_write (h : list (WorkItem * GpuJobConst)) (lo hi o : nat) (b : Z) : Prop :=
  exists m, (lo <= m <= hi)%nat /\ image_of (nth_write h m) !! o = Some b.

(** A buffer loaded since generation [g] was, except at the offsets [rest]. *)
Definition buffer_ok (s : slot_state) (g : Z) (buf : list Z) (rest : list nat) : Prop :=
  exists n, (n <= published s)%nat /\ g = u64 (Z.of_nat n) /\ length buf = image_size /\
    forall o b, o ∉ rest -> buf !! o = Some b -> byte_of_write (writes s) n (begun s) o b.

Definition reader_ok (s : slot_state) : Prop :=
  match rpc s with
  | Ridle => True
  | Rcopy g buf rest => buffer_ok s g buf rest
  | Rdone g buf => buffer_ok s g buf []
  end.

Record slot_inv (s : slot_state) : Prop := {
  inv_busy : wpc s = Widle \/ (0 < begun s)%nat;
  inv_wf : Forall (fun p => wf_item p.1 /\ wf_const p.2) (writes s);
  inv_gen : published_gen s = u64 (Z.of_nat (published s));
  inv_length : length (bytes s) = image_size;
  inv_bytes : forall o b, bytes s !! o = Some b ->
    byte_of_write (writes s) (if decide (o ∈ unstored s) then published s else begun s) (begun s) o b;
  inv_reader : reader_ok s }.

Lemma lookup_repeat {A} (x : A) n k : (k < n)%nat -> repeat x n !! k = Some x.
Proof.
  revert k. induction n as [|n IH]; intros [|k] H; try lia; [done|]. apply IH. lia.
Qed.

Lemma nth_write_app h p n : (n <= length h)%nat -> nth_write (h ++ [p]) n = nth_write h n.
Proof. intros H. unfold nth_write. rewrite app_comm_cons. apply app_nth1. cbn. lia. Qed.

Lemma nth_write_last h p : nth_write (h ++ [p]) (length (h ++ [p])) = p.
Proof.
  unfold nth_write. rewrite length_app, Nat.add_1_r, app_comm_cons, app_nth2 by (cbn; lia).
  cbn [length]. by rewrite Nat.sub_diag.
Qed.

Lemma byte_of_write_mono h p lo lo' hi hi' o b :
  byte_of_write h lo hi o b -> (lo' <= lo)%nat -> (hi <= hi')%nat -> (hi <= length h)%nat ->
  byte_of_write (h ++ [p]) lo' hi' o b.
Proof. intros (m & Hm & Hb) ? ? ?. exists m. split; [lia|]. by rewrite nth_write_app by lia. Qed.

Lemma byte_of_write_lo h lo lo' hi o b :
  byte_of_write h lo hi o b -> (lo' <= lo)%nat -> byte_of_write h lo' hi o b.
Proof. intros (m & Hm & Hb) ?. exists m. split; [lia|done]. Qed.

(** A buffer stays good when writes begin or are published, and as bytes are stored. *)
Lemma buffer_ok_mono s s' g buf rest :
  buffer_ok s g buf rest -> (published s <= published s')%nat ->
  (writes s' = writes s \/ exists p, writes s' = writes s ++ [p]) -> buffer_ok s' g buf rest.
Proof.
  intros (n & Hn & Hg & Hl & Hb) Hp Hw. exists n. split_and!; [lia|done..|].
  intros o b Ho E. specialize (Hb o b Ho E). unfold begun in *. destruct Hw as [->|[p ->]]; [done|].
  apply (byte_of_write_mono _ _ _ _ _ _ _ _ Hb); [done| |done]. rewrite length_app. lia.
Qed.

Lemma reader_ok_mono s s' :
  reader_ok s -> rpc s' = rpc s -> (published s <= published s')%nat ->
  (writes s' = writes s \/ exists p, writes s' = writes s ++ [p]) -> reader_ok s'.
Proof.
  unfold reader_ok. intros H -> Hp Hw. destruct (rpc s); [done|by eapply buffer_ok_mono..].
Qed.

Lemma all_offsets offsets o : offsets ≡ₚ seq 0 image_size -> o ∈ offsets <-> (o < image_size)%nat.
Proof. intros ->. rewrite elem_of_seq. lia. Qed.

Lemma slot_inv_step s s' : slot_inv s -> slot_step s s' -> slot_inv s'.
Proof.
  intros [Hb Hf Hg Hl Hm Hr] Hs. destruct Hs as
    [g bs h r i c offsets Hi Hc Ho|g bs h p o b offsets r Ho|g bs h r
    |g bs h w offsets Ho|g bs h w g' buf o b offsets Ho|g bs h w g' buf|g bs h w g' buf];
    unfold begun, published, unstored, begun in *; cbn [wpc writes published_gen bytes] in *.
  - split; unfold begun, published, unstored, begun; cbn [wpc writes published_gen bytes].
    + right. rewrite length_app. cbn. lia.
    + apply Forall_app. auto.
    + rewrite Hg. f_equal. rewrite length_app. cbn [length]. lia.
    + done.
    + intros o b Hob. rewrite decide_True by (apply (all_offsets _ _ Ho); rewrite <- Hl; by eapply lookup_lt_Some).
      apply (byte_of_write_mono _ _ _ _ _ _ _ _ (Hm o b Hob)); rewrite ?length_app; cbn [length]; try lia.

    + apply (reader_ok_mono _ _ Hr); [done| |right; by eexists].
      unfold published, begun. cbn. rewrite length_app. cbn. lia.
  - split; unfold begun, published, unstored, begun; cbn [wpc writes published_gen bytes]; try done.
    + right. by destruct Hb.
    + by rewrite length_insert.
    + intros o' b'. destruct (decide (o' = o)) as [->|Hne].
      * intros E. exists (length (h ++ [p])). rewrite nth_write_last.
        split; [case_decide; rewrite length_app; lia|].
        assert (o < length bs)%nat by (apply lookup_lt_Some in E; by rewrite length_insert in E).
        rewrite list_lookup_insert_eq in E by done. congruence.
      * rewrite list_lookup_insert_ne by done. intros E. apply (byte_of_write_lo _ _ _ _ _ _ (Hm o' b' E)).
        repeat case_decide; try lia. set_solver.
  - destruct Hb as [|Hb]; [done|].
    split; unfold begun, published, unstored, begun; cbn [wpc writes published_gen bytes]; try done.
    + by left.
    + rewrite Hg, u64_add_l. f_equal. lia.
    + apply (reader_ok_mono _ _ Hr); [done| |by left]. unfold published, begun. cbn. lia.
  - split; try done. exists (published (mkSlotState g bs h w Ridle)). split_and!; [done|done| |].
    + apply image_of_length; apply wf_default.
    + intros o b Hno E. destruct Hno. apply (all_offsets _ _ Ho).
      apply lookup_lt_Some in E. by rewrite image_of_length in E by apply wf_default.
  - split; try done. destruct Hr as (n & Hn & -> & Hlb & Hbuf).
    exists n. split_and!; [done|done|by rewrite length_insert|]. intros o' b' Hno.
    destruct (decide (o' = o)) as [->|Hne].
    + intros E. assert (o < length buf)%nat by (apply lookup_lt_Some in E; by rewrite length_insert in E).
      rewrite list_lookup_insert_eq in E by done. injection E as <-.
      apply (byte_of_write_lo _ _ _ _ _ _ (Hm o b Ho)). unfold published, begun in Hn. cbn in Hn.
      case_decide; destruct w; lia.
    + rewrite list_lookup_insert_ne by done. apply Hbuf. set_solver.
  - by split.
  - by split.
Qed.

Lemma slot_inv_reachable s : slot_reachable s -> slot_inv s.
Proof.
  unfold slot_reachable. intros H.
  assert (slot_inv slot_init) as Hi.
  { split; [by left|done|done|apply image_of_length; apply wf_default| |done].
    intros o b E. by exists 0%nat. }
  revert Hi. induction H as [|s1 s2 s3 Hs _ IH]; [done|].
  intros Hi. apply IH. by eapply slot_inv_step.
Qed.

Lemma nth_write_wf h n :
  Forall (fun p => wf_item p.1 /\ wf_const p.2) h -> (n <= length h)%nat ->
  wf_item (nth_write h n).1 /\ wf_const (nth_write h n).2.
Proof.
  intros Hf Hn. unfold nth_write.
  assert (Forall (fun p => wf_item p.1 /\ wf_const p.2) ((WorkItem_default, GpuJobConst_default) :: h)) as H
    by (constructor; [apply wf_default|done]).
  rewrite Forall_forall in H. apply H, list_elem_of_In, nth_In. cbn. lia.
Qed.

(** Bytes that are those of one write everywhere are its image. *)
Lemma whole_image bs p :
  length bs = length (image_of p) -> (forall o b, bs !! o = Some b -> image_of p !! o = Some b) ->
  bs = image_of p.
Proof.
  intros Hl H. apply list_eq. intros o. destruct (bs !! o) as [b|] eqn:E; [by rewrite (H o b E)|].
  apply lookup_ge_None in E. by rewrite lookup_ge_None_2 by lia.
Qed.

(** *** Runs of a copy *)

(** [dst] after the bytes of [src] at [offsets] were copied to it. *)
Fixpoint copied (src dst : list Z) (offsets : list nat) : list Z :=
  match offsets with
  | [] => dst
  | o :: offsets => copied src (match src !! o with Some b => <[o := b]> dst | None => dst end) offsets
  end.

Lemma copied_lookup src dst offsets o :
  length src = length dst ->
  copied src dst offsets !! o = if decide (o ∈ offsets) then src !! o else dst !! o.
Proof.
  revert dst. induction offsets as [|o' offsets IH]; intros dst Hl; [done|]. cbn [copied].
  destruct (src !! o') as [b|] eqn:E.
  - rewrite IH by (by rewrite length_insert). pose proof (lookup_lt_Some _ _ _ E).
    destruct (decide (o = o')) as [->|Hne].
    + rewrite (decide_True (P := o' ∈ o' :: offsets)) by set_solver. case_decide; [done|].
      rewrite E. apply list_lookup_insert_eq. lia.
    + rewrite list_lookup_insert_ne by done. repeat case_decide; set_solver.
  - rewrite IH by done. apply lookup_ge_None in E as E'.
    destruct (decide (o = o')) as [->|Hne]; [|repeat case_decide; set_solver].
    rewrite E, (lookup_ge_None_2 dst) by lia. by repeat case_decide.
Qed.

(** A whole copy, in any order, reproduces the source. *)
Lemma copied_all src dst offsets :
  length src = image_size -> length dst = image_size -> offsets ≡ₚ seq 0 image_size ->
  copied src dst offsets = src.
Proof.
  intros Hs Hd Ho. apply list_eq. intros o. rewrite copied_lookup by congruence.
  case_decide as H; [done|]. rewrite (all_offsets offsets o Ho) in H.
  by rewrite !lookup_ge_None_2 by lia.
Qed.

Lemma store_run g bs h p l1 l2 r :
  Forall (fun o => (o < length (image_of p))%nat) l1 ->
  rtc slot_step (mkSlotState g bs (h ++ [p]) (Wcopy (l1 ++ l2)) r)
    (mkSlotState g (copied (image_of p) bs l1) (h ++ [p]) (Wcopy l2) r).
Proof.
  intros H. revert bs. induction H as [|o l1 Ho _ IH]; intros bs; [done|]. cbn [app copied].
  destruct (lookup_lt_is_Some_2 _ _ Ho) as [b E]. rewrite E.
  eapply rtc_l; [by apply step_store|]. apply IH.
Qed.

Lemma load_run g bs h w g' buf l1 l2 :
  Forall (fun o => (o < length bs)%nat) l1 ->
  rtc slot_step (mkSlotState g bs h w (Rcopy g' buf (l1 ++ l2)))
    (mkSlotState g bs h w (Rcopy g' (copied bs buf l1) l2)).
Proof.
  intros H. revert buf. induction H as [|o l1 Ho _ IH]; intros buf; [done|]. cbn [app copied].
  destruct (lookup_lt_is_Some_2 _ _ Ho) as [b E]. rewrite E.
  eapply rtc_l; [by apply step_load|]. apply IH.
Qed.

Lemma offsets_in_range offsets n :
  offsets ≡ₚ seq 0 image_size -> n = image_size -> Forall (fun o => (o < n)%nat) offsets.
Proof. intros Ho ->. apply Forall_forall. intros o. by rewrite (all_offsets _ _ Ho). Qed.

(** [set] and [get] are the uninterrupted runs of their steps. *)
Lemma set_run g bs h p offsets r :
  wf_item p.1 -> wf_const p.2 -> offsets ≡ₚ seq 0 image_size -> length bs = image_size ->
  rtc slot_step (mkSlotState g bs h Widle r)
    (mkSlotState (u64 (g + 1)) (image_of p) (h ++ [p]) Widle r).
Proof.
  intros Hi Hc Ho Hl. pose proof (image_of_length p Hi Hc) as Hs. destruct p as [i c].
  eapply rtc_l; [by apply step_set|].
  pose proof (store_run g bs h (i, c) offsets [] r) as H. rewrite app_nil_r in H.
  rewrite (copied_all _ bs) in H by done.
  etrans; [apply H; by apply offsets_in_range|].
  eapply rtc_l; [apply step_fetch_add|done].
Qed.

Lemma get_run g bs h w offsets :
  offsets ≡ₚ seq 0 image_size -> length bs = image_size ->
  rtc slot_step (mkSlotState g bs h w Ridle) (mkSlotState g bs h w (Rdone g bs)).
Proof.
  intros Ho Hl. eapply rtc_l; [by apply step_load_gen|].
  pose proof (load_run g bs h w g (image_of (WorkItem_default, GpuJobConst_default)) offsets []) as H.
  rewrite app_nil_r, copied_all in H by (done || by apply image_of_length; apply wf_default).
  etrans; [apply H; by apply offsets_in_range|].
  eapply rtc_l; [apply step_loaded|done].
Qed.

(** An item with the given identifier, and its write. *)
Definition numbered (n : Z) : WorkItem * GpuJobConst :=
  (mkWorkItem n 0 0 0 0 0 (repeat 0 8) (repeat 0 8) (repeat 0 8) (repeat 0 8)
     0 0 0 0 false true false, GpuJobConst_default).

Lemma numbered_wf n : is_u64 n -> wf_item (numbered n).1 /\ wf_const (numbered n).2.
Proof. intros H. destruct wf_default as [[] Hc]. by split. Qed.

(** An interleaving in which the snapshot is torn inside a field.  The reader loads the
    generation after write 1 and the first byte of its identifier, write 2 runs whole,
    and the reader copies the rest: with the identifiers 1 and 514 it returns 513. *)
Definition torn_bytes : list Z :=
  copied (image_of (numbered 514)) (copied (image_of (numbered 1)) (image_of (WorkItem_default, GpuJobConst_default)) [0%nat])
    (seq 1 203).

Lemma torn_reachable :
  slot_reachable (mkSlotState 2 (image_of (numbered 514)) [numbered 1; numbered 514] Widle
                    (Rdone 1 torn_bytes)).
Proof.
  destruct (numbered_wf 1) as [Hi1 Hc1]; [done|]. destruct (numbered_wf 514) as [Hi2 Hc2]; [done|].
  pose proof (image_of_length _ Hi1 Hc1) as L1. pose proof (image_of_length _ Hi2 Hc2) as L2.
  unfold slot_reachable, slot_init, torn_bytes.
  generalize dependent (numbered 514). generalize dependent (numbered 1). intros p1 Hi1 Hc1 L1 p2 Hi2 Hc2 L2.
  etrans; [apply (set_run 0 _ [] p1 (seq 0 image_size)); [done..|by apply image_of_length; apply wf_default]|].
  eapply rtc_l; [by apply (step_load_gen _ _ _ _ (seq 0 image_size))|].
  etrans; [apply (load_run _ _ _ _ _ _ [0%nat] (seq 1 203)); constructor; [rewrite L1; unfold image_size; lia|done]|].
  etrans; [by apply (set_run _ _ [p1] p2 (seq 0 image_size))|].
  rewrite <- (app_nil_r (seq 1 203)) at 1. etrans; [apply load_run|].
  { apply Forall_forall. intros o Ho%elem_of_seq. rewrite L2. unfold image_size. lia. }
  eapply rtc_l; [apply step_loaded|done].
Qed.

Example snapshot_may_tear :
  work_id (item (snapshot_of 1 torn_bytes)) = 513 /\
  map (fun p => work_id p.1) [numbered 1; numbered 514] = [1; 514].
Proof. by vm_compute. Qed.

(** Sequences of [set] calls in range never throw. *)
Lemma sets_ok r l :
  Forall (fun p => (p.1 < size r)%nat) l -> exists r', sets r l = inr r' /\ size r' = size r.
Proof.
  revert r. induction l as [|[k [i c]] l IH]; intros r H; [by eexists|].
  inversion_clear H as [|? ? Hk Hl]. cbn [sets]. destruct (set_ok r k i c Hk) as [r1 E].
  rewrite E. cbn [mbind throws_bind]. pose proof (size_set _ _ _ _ _ E) as Hs.
  destruct (IH r1) as (r' & ? & ?); [by rewrite Hs|]. exists r'. split; [done|congruence].
Qed.

Lemma get_fresh n r k :
  WorkSourceRegistry n = inr r -> (k < n)%nat ->
  get r k = Some (mkWorkSlotSnapshot 0 WorkItem_default GpuJobConst_default).
Proof.
  unfold WorkSourceRegistry. destruct (n =? 0)%nat; [done|]. intros [= <-] Hk.
  unfold get. by rewrite lookup_repeat.
Qed.

(** ** Properties *)

(** C20: a registry built with [n > 0] slots, after any sequence of [set] calls in range
    (none throws), has [n] slots; each slot holds the last item and constants written
    to it, and its generation is the number of those writes modulo 2^64.  Outside the
    range [set] throws and [get] returns nothing; a registry of no slots is refused. *)
Theorem registry_history n r0 l k i c :
  WorkSourceRegistry n = inr r0 -> Forall (fun p => (p.1 < n)%nat) l ->
  WorkSourceRegistry 0 = inl invalid_argument /\
  exists r, sets r0 l = inr r /\ size r = n /\
    if (k <? n)%nat
    then get r k = Some (after (mkWorkSlotSnapshot 0 WorkItem_default GpuJobConst_default)
                               (writes_to k l))
    else get r k = None /\ set r k i c = inl out_of_range.
Proof.
  intros H0 Hl. split; [done|].
  assert (size r0 = n) as Hn.
  { revert H0. unfold WorkSourceRegistry. destruct (n =? 0)%nat; [done|]. intros [= <-].
    unfold size. by rewrite repeat_length. }
  destruct (sets_ok r0 l) as (r & Hs & Hr); [by rewrite Hn|].
  exists r. split; [done|]. rewrite Hr. split; [done|].
  destruct (Nat.ltb_spec k n) as [Hk|Hk].
  - by apply (sets_get _ _ _ _ _ Hs); [apply (get_fresh n)|].
  - split; [apply get_none; lia|apply set_throws; lia].
Qed.

Lemma registry_history_witness :
  exists r, sets (repeat WorkSlot_default 2)
              [(1%nat, (WorkItem_default, mkGpuJobConst [7]))] = inr r /\
    get r 1 = Some (mkWorkSlotSnapshot 1 WorkItem_default (mkGpuJobConst [7])).
Proof.
  destruct (registry_history 2 (repeat WorkSlot_default 2)
    [(1%nat, (WorkItem_default, mkGpuJobConst [7]))] 1 WorkItem_default GpuJobConst_default)
    as (_ & r & Hs & _ & Hg); [reflexivity|repeat constructor|].
  exists r. split; [exact Hs|exact Hg].
Defined.

(** C19: under every interleaving, byte by byte and in any order, of a writer's [set] calls
    with a reader's [get], the snapshot [get] returns is never older than the generation
    it carries: the generation is that of a write [n], and each byte of its item and
    constants is that of write [n] or of a later one already begun.  The bytes may come
    from different writes (a torn item); if the writes from [n] on agree, in particular
    if none was begun after write [n], the snapshot is that write, whole. *)
Theorem snapshot_not_stale s g bs :
  slot_reachable s -> rpc s = Rdone g bs ->
  exists n, g = u64 (Z.of_nat n) /\ (n <= length (writes s))%nat /\ length bs = image_size /\
    (forall o b, bs !! o = Some b ->
       exists m, (n <= m <= length (writes s))%nat /\ image_of (nth_write (writes s) m) !! o = Some b) /\
    (forall i c, (forall m, (n <= m <= length (writes s))%nat -> nth_write (writes s) m = (i, c)) ->
       snapshot_of g bs = mkWorkSlotSnapshot g i c).
Proof.
  intros Hs Hr. apply slot_inv_reachable in Hs as [_ Hf _ _ _ H].
  unfold reader_ok in H. rewrite Hr in H. destruct H as (n & Hn & Hg & Hl & Hb).
  assert (n <= length (writes s))%nat as Hle
    by (unfold published, begun in Hn; destruct (wpc s); lia).
  exists n. split_and!; [done..| |].
  - intros o b E. apply (Hb o b); [set_solver|done].
  - intros i c Hm. destruct (nth_write_wf _ n Hf Hle) as [Hi Hc]. rewrite Hm in Hi, Hc by lia.
    pose proof (image_of_length (i, c) Hi Hc) as Hli.
    replace bs with (image_of (i, c)) by (symmetry; apply (whole_image bs (i, c)); [congruence|]; intros o b E;
      destruct (Hb o b) as (m & Hm' & E'); [set_solver|done|]; by rewrite Hm in E').
    by apply (snapshot_of_image g (i, c)).
Qed.

Lemma snapshot_not_stale_witness :
  let s := mkSlotState 2 (image_of (numbered 514)) [numbered 1; numbered 514] Widle
             (Rdone 1 torn_bytes) in
  slot_reachable s /\ work_id (item (snapshot_of 1 torn_bytes)) = 513 /\
  exists n, 1 = u64 (Z.of_nat n) /\ (n <= 2)%nat /\
    forall o b, torn_bytes !! o = Some b ->
      exists m, (n <= m <= 2)%nat /\
        image_of (nth_write [numbered 1; numbered 514] m) !! o = Some b.
Proof.
  split; [exact torn_reachable|]. split; [by vm_compute|].
  destruct (snapshot_not_stale _ _ _ torn_reachable eq_refl) as (n & Hg & Hn & _ & Hb & _).
  exists n. split; [exact Hg|]. split; [exact Hn|exact Hb].
Defined.
