(* ===== verification/Normalizer.v ===== *)
(** * Normalisation of raw jobs ([src/normalize/normalizer.cc], [coinbase.cc])

    A pool's job becomes the work item and the GPU constants that the registry, the
    kernels and the submit path share. *)

From S2P Require Import Prelude Endian Targets Sha256 CpuVerify Midstate Registry.
From stdpp Require Import base numbers list option strings.

Open Scope Z_scope.

(** ** Coinbase assembly *)

Record CoinbaseParts := mkCoinbaseParts {
  prefix : list Z; suffix : list Z; has_witness : bool; witness_commitment : list Z }.

(** [extranonce1] is a string: its characters are the bytes. *)
Definition assembleCoinbaseTx (parts : CoinbaseParts) (extranonce1 extranonce2 : list Z) : list Z :=
  prefix parts ++ extranonce1 ++ extranonce2 ++ suffix parts.

Definition computeWitnessCommitmentPlaceholder (parts : CoinbaseParts) : list Z :=
  if has_witness parts then witness_commitment parts else repeat 0 32.

(** ** Raw jobs *)

(** [adapters::RawJob]. *)
Record RawJob := mkRawJob {
  source_name : string; job_work_id : Z; job_version : Z; job_nbits : Z; job_ntime : Z }.

Record RawJobInputs := mkRawJobInputs {
  in_source_id : Z; in_job : RawJob;
  prevhash_be : list Z; merkle_root_be : list Z; header_first64 : list Z;
  share_nbits : Z; in_vmask : Z; in_ntime_min : Z; in_ntime_max : Z;
  in_extranonce2_size : Z; in_clean_jobs : bool }.

Definition RawJob_default : RawJob := mkRawJob "" 0 0 0 0.
Definition RawJobInputs_default : RawJobInputs :=
  mkRawJobInputs 0 RawJob_default (repeat 0 32) (repeat 0 32) (repeat 0 64) 0 0 0 0 0 true.

Record NormalizerResult := mkNormalizerResult {
  res_item : WorkItem; res_job_const : GpuJobConst }.

(** The outer [None] is the undefined store of [compactToTargetU32LE]; the function
    itself always returns an engaged optional. *)
Definition normalizeJob (inp : RawJobInputs) : option (option NormalizerResult) :=
  let job := in_job inp in
  block ← compactToTargetU32LE (job_nbits job);
  share ← compactToTargetU32LE (share_nbits inp);
  Some (Some (mkNormalizerResult
    (mkWorkItem (job_work_id job) (in_source_id inp)
       (job_version job) (job_ntime job) (job_nbits job) 0
       (be32BytesToLeU32Words (prevhash_be inp))
       (be32BytesToLeU32Words (merkle_root_be inp))
       share block
       (in_vmask inp)
       (if negb (in_ntime_min inp =? 0) then in_ntime_min inp else job_ntime job)
       (if negb (in_ntime_max inp =? 0) then in_ntime_max inp else job_ntime job)
       (in_extranonce2_size inp) (in_clean_jobs inp) true false)
    (mkGpuJobConst (Midstate.sha256_midstate_64 (header_first64 inp))))).

(** ** Well-formed inputs *)

Record wf_inputs (i : RawJobInputs) : Prop := {
  wfi_work_id : is_u64 (job_work_id (in_job i));
  wfi_version : is_u32 (job_version (in_job i));
  wfi_nbits : is_u32 (job_nbits (in_job i));
  wfi_ntime : is_u32 (job_ntime (in_job i));
  wfi_source_id : is_u32 (in_source_id i);
  wfi_prevhash : length (prevhash_be i) = 32%nat /\ is_bytes (prevhash_be i);
  wfi_merkle : length (merkle_root_be i) = 32%nat /\ is_bytes (merkle_root_be i);
  wfi_first64 : length (header_first64 i) = 64%nat /\ is_bytes (header_first64 i);
  wfi_share_nbits : is_u32 (share_nbits i);
  wfi_vmask : is_u32 (in_vmask i);
  wfi_ntime_min : is_u32 (in_ntime_min i);
  wfi_ntime_max : is_u32 (in_ntime_max i);
  wfi_en2 : is_u8 (in_extranonce2_size i) }.

(** ** Lemmas *)

Lemma normalizeJob_some i r :
  normalizeJob i = Some r ->
  exists n block share, r = Some n /\
    compactToTargetU32LE (job_nbits (in_job i)) = Some block /\
    compactToTargetU32LE (share_nbits i) = Some share /\
    block_target_le (res_item n) = block /\ share_target_le (res_item n) = share.
Proof.
  unfold normalizeJob.
  destruct (compactToTargetU32LE (job_nbits _)) as [b|]; [|done].
  destruct (compactToTargetU32LE (share_nbits _)) as [s|]; [|done]. cbn [mbind option_bind].
  intros [= <-]. by eexists _, _, _.
Qed.

Lemma fips_H0_words : is_words fips_H0.
Proof.
  change fips_H0 with (state (sha256_init [])). cbn [state sha256_init].
  repeat (constructor; [unfold in_u; lia|]). constructor.
Qed.

Lemma normalizeJob_wf i n :
  wf_inputs i -> normalizeJob i = Some (Some n) ->
  wf_item (res_item n) /\ wf_const (res_job_const n).
Proof.
  intros H E. unfold normalizeJob in E.
  destruct (compactToTargetU32LE (job_nbits _)) as [b|] eqn:Eb; [|done].
  destruct (compactToTargetU32LE (share_nbits _)) as [s|] eqn:Es; [|done].
  cbn [mbind option_bind] in E. injection E as <-. split.
  - pose proof (wfi_prevhash i H) as [_ ?]. pose proof (wfi_merkle i H) as [_ ?].
    destruct H. split; cbn -[be32BytesToLeU32Words in_u]; try done;
      try (by apply compact_words8 in Eb); try (by apply compact_words8 in Es);
      try (by repeat case_match); try (unfold in_u; lia);
      (split; [apply be32BytesToLeU32Words_length|by apply be32BytesToLeU32Words_words]).
  - unfold wf_const. cbn [res_job_const midstate_le].
    rewrite Midstate.sha256_midstate_64_absorb by apply H.
    split; [by apply absorb_length|apply absorb_words, fips_H0_words].
Qed.

(** The header hash computed from a job's constants: the kernels start from the
    midstate and absorb the last sixteen header bytes. *)
Lemma normalizeJob_midstate i n tail :
  wf_inputs i -> normalizeJob i = Some (Some n) -> length tail = 16%nat ->
  Midstate.sha256_finish_from_midstate (midstate_le (res_job_const n)) tail 80
  = sha256 (header_first64 i ++ tail).
Proof.
  intros H E Ht. apply normalizeJob_some in E as E'.
  unfold normalizeJob in E. destruct (compactToTargetU32LE (job_nbits _)); [|done].
  destruct (compactToTargetU32LE (share_nbits _)); [|done].
  cbn [mbind option_bind] in E. injection E as <-. cbn [res_job_const midstate_le].
  destruct (wfi_first64 i H) as [Hl _].
  rewrite Midstate.sha256_midstate_64_absorb, Midstate.finish_hash by (done || by apply absorb_length).
  rewrite hash_with_prefix by done. rewrite sha256_hash, length_app, Hl, Ht. done.
Qed.

Lemma normalizeJob_targets i n :
  wf_inputs i -> 3 <= compact_exponent (job_nbits (in_job i)) ->
  3 <= compact_exponent (share_nbits i) -> normalizeJob i = Some (Some n) ->
  target_val (block_target_le (res_item n)) = compact_value (job_nbits (in_job i)) /\
  target_val (share_target_le (res_item n)) = compact_value (share_nbits i).
Proof.
  intros H Hb Hs E. apply normalizeJob_some in E as (n' & b & s & [= <-] & Eb & Es & -> & ->).
  destruct (compact_value_ok _ (wfi_nbits i H) Hb) as (? & E1 & _ & _ & <-).
  destruct (compact_value_ok _ (wfi_share_nbits i H) Hs) as (? & E2 & _ & _ & <-).
  split; congruence.
Qed.

(** ** Properties *)

(** C9: for well-formed inputs whose two compact targets have exponents of at least
    three, normalisation returns a well-formed item and constants: the words of the two
    hashes convert back to the input bytes, the two targets have the values the compact
    encodings denote, an empty time bound becomes the job's time and another is kept, the
    other fields are the input's, the item is active and not yet submitted, and hashing
    any sixteen tail bytes from the midstate gives the hash of the 80-byte header. *)
Theorem normalizeJob_correct i tail :
  wf_inputs i -> 3 <= compact_exponent (job_nbits (in_job i)) ->
  3 <= compact_exponent (share_nbits i) -> length tail = 16%nat ->
  exists n, normalizeJob i = Some (Some n) /\ wf_item (res_item n) /\ wf_const (res_job_const n) /\
    work_id (res_item n) = job_work_id (in_job i) /\ source_id (res_item n) = in_source_id i /\
    leU32WordsToBe32Bytes (prevhash_le (res_item n)) = prevhash_be i /\
    leU32WordsToBe32Bytes (merkle_root_le (res_item n)) = merkle_root_be i /\
    target_val (block_target_le (res_item n)) = compact_value (job_nbits (in_job i)) /\
    target_val (share_target_le (res_item n)) = compact_value (share_nbits i) /\
    ntime_min (res_item n) =
      (if decide (in_ntime_min i = 0) then job_ntime (in_job i) else in_ntime_min i) /\
    ntime_max (res_item n) =
      (if decide (in_ntime_max i = 0) then job_ntime (in_job i) else in_ntime_max i) /\
    version (res_item n) = job_version (in_job i) /\ ntime (res_item n) = job_ntime (in_job i) /\
    nbits (res_item n) = job_nbits (in_job i) /\ nonce_start (res_item n) = 0 /\
    vmask (res_item n) = in_vmask i /\ extranonce2_size (res_item n) = in_extranonce2_size i /\
    clean_jobs (res_item n) = in_clean_jobs i /\ active (res_item n) = true /\
    found_submitted (res_item n) = false /\
    Midstate.sha256_finish_from_midstate (midstate_le (res_job_const n)) tail 80
      = sha256 (header_first64 i ++ tail).
Proof.
  intros H Hb Hs Ht.
  assert (exists n, normalizeJob i = Some (Some n)) as [n E].
  { destruct (compact_value_ok _ (wfi_nbits i H) Hb) as (b & Eb & _).
    destruct (compact_value_ok _ (wfi_share_nbits i H) Hs) as (s & Es & _).
    unfold normalizeJob. rewrite Eb, Es. by eexists. }
  exists n. pose proof (normalizeJob_wf i n H E) as [Hw Hc].
  pose proof (normalizeJob_targets i n H Hb Hs E) as [Hv1 Hv2].
  pose proof (normalizeJob_midstate i n tail H E Ht) as Hm.
  pose proof E as E0. unfold normalizeJob in E. destruct (compactToTargetU32LE (job_nbits _)); [|done].
  destruct (compactToTargetU32LE (share_nbits _)); [|done].
  cbn [mbind option_bind] in E. injection E as <-.
  split; [exact E0|]. split; [done|]. split; [done|]. split; [done|]. split; [done|].
  split; [apply be_le_roundtrip; apply H|]. split; [apply be_le_roundtrip; apply H|].
  split; [done|]. split; [done|]. cbn [ntime_min ntime_max res_item].
  split; [destruct (Z.eqb_spec (in_ntime_min i) 0); by destruct (decide _)|].
  split; [destruct (Z.eqb_spec (in_ntime_max i) 0); by destruct (decide _)|]. done.
Qed.

Lemma normalizeJob_correct_witness :
  exists n, normalizeJob (mkRawJobInputs 1 (mkRawJob "p" 7 2 486604799 5)
      (repeat 1 32) (repeat 2 32) (repeat 3 64) 545259519 0 0 0 4 true) = Some (Some n) /\
    target_val (share_target_le (res_item n)) = compact_value 545259519.
Proof.
  destruct (normalizeJob_correct (mkRawJobInputs 1 (mkRawJob "p" 7 2 486604799 5)
      (repeat 1 32) (repeat 2 32) (repeat 3 64) 545259519 0 0 0 4 true) (repeat 0 16))
    as (n & E & _ & _ & _ & _ & _ & _ & _ & Hv & _).
  - split; cbn -[in_u]; try in_range; (split; [reflexivity|in_range]).
  - vm_compute. discriminate.
  - vm_compute. discriminate.
  - reflexivity.
  - exists n. split; [exact E|exact Hv].
Defined.
