(* ===== verification/Cache.v ===== *)
(** * VRAM page bookkeeping and allocation policy ([src/cache])

    The page table with its identifier counter, the manager in front of it and the
    watermark decision, with the 32-bit arithmetic the source performs. *)

From S2P Require Import Prelude.
From stdpp Require Import base numbers list option gmap.

Open Scope Z_scope.

(** ** Pages ([vram_pages.cc]) *)

Record VramPageMeta := mkVramPageMeta { id : Z; sizeMiB : Z; inUse : bool }.

Record VramPages := mkVramPages { next_id : Z; pages : gmap Z VramPageMeta }.

Definition VramPages_init : VramPages := mkVramPages 1 ∅.

Definition create (p : VramPages) (size : Z) : VramPages * Z :=
  let i := next_id p in
  (mkVramPages (u64 (next_id p + 1)) (<[i := mkVramPageMeta i size false]> (pages p)), i).

Definition markInUse (p : VramPages) (i : Z) (in_use : bool) : VramPages * bool :=
  match pages p !! i with
  | None => (p, false)
  | Some m => (mkVramPages (next_id p) (<[i := mkVramPageMeta (id m) (sizeMiB m) in_use]> (pages p)), true)
  end.

(** [erase(id) > 0]. *)
Definition destroy (p : VramPages) (i : Z) : VramPages * bool :=
  (mkVramPages (next_id p) (delete i (pages p)), bool_decide (is_Some (pages p !! i))).

Definition totalPages (p : VramPages) : Z := u32 (Z.of_nat (base.size (pages p))).

(** ** The manager ([cache_manager.cc]) *)

Record Watermarks := mkWatermarks { targetUtilPercent : Z; minFreeMiB : Z }.

Record CacheManager := mkCacheManager { wm_ : Watermarks; pages_ : VramPages }.

Definition allocate (c : CacheManager) (size : Z) : CacheManager * Z :=
  let '(p, i) := create (pages_ c) size in (mkCacheManager (wm_ c) p, i).

Definition release (c : CacheManager) (i : Z) : CacheManager * bool :=
  let '(p, b) := destroy (pages_ c) i in (mkCacheManager (wm_ c) p, b).

Definition setWatermarks (c : CacheManager) (wm : Watermarks) : CacheManager :=
  mkCacheManager wm (pages_ c).

Definition watermarks (c : CacheManager) : Watermarks := wm_ c.

(** The calls on a manager, and a sequence of them with the identifiers handed out and
    the number of pages released. *)
Inductive call :=
  | CAllocate (size : Z)
  | CRelease (i : Z)
  | CWatermarks (wm : Watermarks).

Fixpoint run (c : CacheManager) (l : list call) : CacheManager * list Z * nat :=
  match l with
  | [] => (c, [], 0%nat)
  | CAllocate s :: l => let '(c, i) := allocate c s in
      let '(c, ids, n) := run c l in (c, i :: ids, n)
  | CRelease i :: l => let '(c, b) := release c i in
      let '(c, ids, n) := run c l in (c, ids, if b then S n else n)
  | CWatermarks wm :: l => run (setWatermarks c wm) l
  end.

(** ** The decision ([predict_worker.h]) *)

Record GpuTelemetry := mkGpuTelemetry {
  totalVRAMMiB : Z; usedVRAMMiB : Z; gpuUtilPercent : Z }.

Record PredictDecision := mkPredictDecision {
  throttle : bool; allowAllocate : bool; allowRelease : bool }.

Definition freeMiB (t : GpuTelemetry) : Z :=
  if totalVRAMMiB t >? usedVRAMMiB t then u32 (totalVRAMMiB t - usedVRAMMiB t) else 0.

Definition evaluate (wm : Watermarks) (t : GpuTelemetry) : PredictDecision :=
  let free := freeMiB t in
  mkPredictDecision
    ((95 <=? gpuUtilPercent t) || (free <? minFreeMiB wm))
    ((minFreeMiB wm <=? free) && (gpuUtilPercent t <=? u32 (targetUtilPercent wm + 5)))
    (negb ((u32 (minFreeMiB wm * 2) <=? free) &&
           (gpuUtilPercent t <? u32 (targetUtilPercent wm - 10)))).

(** ** Well-formedness *)

(** Every page is stored under its own identifier, below the next one. *)
Definition wf_pages (p : VramPages) : Prop :=
  map_Forall (fun i m => id m = i /\ 0 < i < next_id p) (pages p).

Definition wf_watermarks (w : Watermarks) : Prop :=
  is_u32 (targetUtilPercent w) /\ is_u32 (minFreeMiB w).
Definition wf_telemetry (t : GpuTelemetry) : Prop :=
  is_u32 (totalVRAMMiB t) /\ is_u32 (usedVRAMMiB t) /\ is_u32 (gpuUtilPercent t).

(** ** Lemmas *)

Lemma create_wf p s :
  wf_pages p -> 0 < next_id p < 2 ^ 64 - 1 ->
  wf_pages (create p s).1 /\ next_id (create p s).1 = next_id p + 1 /\
  pages p !! (create p s).2 = None.
Proof.
  intros H Hn. unfold create, wf_pages. cbn [fst snd pages next_id].
  rewrite u64_small by (unfold in_u; lia). split_and!; [|done|].
  - apply map_Forall_insert_2; [cbn; lia|].
    eapply map_Forall_impl; [exact H|]. cbn. lia.
  - destruct (pages p !! next_id p) eqn:E; [|done]. apply H in E. lia.
Qed.

Lemma markInUse_wf p i b : wf_pages p -> wf_pages (markInUse p i b).1.
Proof.
  unfold markInUse, wf_pages. intros H. destruct (pages p !! i) as [m|] eqn:E; [|done].
  cbn. apply map_Forall_insert_2; [|done]. by apply (H i m) in E.
Qed.

Lemma destroy_wf p i : wf_pages p -> wf_pages (destroy p i).1.
Proof. unfold destroy, wf_pages. cbn. intros H. by apply map_Forall_delete. Qed.

Lemma destroy_size p i :
  base.size (pages p) =
  (base.size (pages (destroy p i).1) + if (destroy p i).2 then 1 else 0)%nat.
Proof.
  unfold destroy. cbn [fst snd pages]. case_bool_decide as H.
  - destruct H as [m Hm]. rewrite map_size_delete_Some by (by exists m).
    assert (base.size (pages p) <> 0)%nat; [|lia].
    intros E. apply map_size_empty_inv in E. by rewrite E in Hm.
  - rewrite delete_id; [lia|]. by apply eq_None_not_Some.
Qed.

Lemma evaluate_free t : wf_telemetry t -> freeMiB t = Z.max 0 (totalVRAMMiB t - usedVRAMMiB t).
Proof.
  unfold wf_telemetry, in_u, freeMiB. intros H.
  destruct (Z.gtb_spec (totalVRAMMiB t) (usedVRAMMiB t)); [|lia].
  rewrite u32_small by (unfold in_u; lia). lia.
Qed.

(** The identifiers a run hands out are consecutive. *)
Lemma run_spec l c c' ids n :
  run c l = (c', ids, n) -> wf_pages (pages_ c) -> 0 < next_id (pages_ c) ->
  next_id (pages_ c) + zlen l < 2 ^ 64 ->
  wf_pages (pages_ c') /\ ids = map (fun k => next_id (pages_ c) + Z.of_nat k) (seq 0 (length ids)) /\
  next_id (pages_ c') = next_id (pages_ c) + zlen ids /\
  (base.size (pages (pages_ c)) + length ids = base.size (pages (pages_ c')) + n)%nat.
Proof.
  revert c c' ids n. induction l as [|op l IH]; intros c c' ids n; cbn [run length].
  { intros [= <- <- <-]. cbn. intros; split_and!; try done; lia. }
  destruct op as [s|i|wm].
  - unfold allocate, create. destruct (run _ l) as [[c1 ids1] n1] eqn:E.
    intros [= <- <- <-] Hwf Hp Hl.
    pose proof (create_wf (pages_ c) s Hwf ltac:(lia)) as (Hw & Hn & Hf).
    unfold create in Hw, Hn, Hf. cbn [fst snd next_id pages] in Hw, Hn, Hf.
    apply IH in E as (Hw1 & Hids & Hn1 & Hsz); [|done|cbn; lia|cbn [pages_ next_id]; lia].
    cbn [pages_ next_id pages] in *. rewrite Hn in *. split_and!; [done| |cbn [length]; lia|].
    + cbn [length seq map]. rewrite Z.add_0_r. f_equal.
      rewrite Hids at 1. rewrite <- seq_shift, map_map. apply map_ext. lia.
    + rewrite map_size_insert_None in Hsz by done. cbn [length]. lia.
  - unfold release. destruct (destroy (pages_ c) i) as [p b] eqn:Ed.
    destruct (run _ l) as [[c1 ids1] n1] eqn:E. intros [= <- <- <-] Hwf Hp Hl.
    pose proof (destroy_wf (pages_ c) i Hwf) as Hw.
    pose proof (destroy_size (pages_ c) i) as Hs. rewrite Ed in Hw, Hs. cbn [fst snd] in Hw, Hs.
    assert (next_id p = next_id (pages_ c)) as Hn by (unfold destroy in Ed; by injection Ed as <- <-).
    apply IH in E as (Hw1 & Hids & Hn1 & Hsz); cbn [pages_] in *; [|done|lia|lia].
    rewrite Hn in *. split_and!; [done..|]. destruct b; lia.
  - intros E Hwf Hp Hl. apply IH in E; cbn [setWatermarks pages_] in *; [done|done|lia|lia].
Qed.

(** ** Properties *)

(** From a fresh manager, any sequence of calls hands out the identifiers 1, 2, 3,
    ... (pairwise distinct, never a live page's), and the number of pages is the
    number of allocations less the number of successful releases. *)
Theorem cache_run_fresh wm l c ids n :
  run (mkCacheManager wm VramPages_init) l = (c, ids, n) -> zlen l < 2 ^ 32 ->
  wf_pages (pages_ c) /\ ids = map (fun k => 1 + Z.of_nat k) (seq 0 (length ids)) /\
  totalPages (pages_ c) = zlen ids - Z.of_nat n /\ (length ids <= length l)%nat /\
  (create (pages_ c) 0).2 = 1 + zlen ids /\ pages (pages_ c) !! (create (pages_ c) 0).2 = None.
Proof.
  intros E Hl.
  assert (length ids <= length l)%nat as Hle.
  { clear Hl. revert E. generalize (mkCacheManager wm VramPages_init). revert ids n c.
    induction l as [|[s|i|w] l IH]; intros ids n c c0; cbn [run length].
    - intros [= _ <- _]. done.
    - destruct (allocate c0 s) as [c1 i]. destruct (run c1 l) as [[c2 ids2] n2] eqn:E.
      intros [= _ <- _]. apply IH in E. cbn. lia.
    - destruct (release c0 i) as [c1 b]. destruct (run c1 l) as [[c2 ids2] n2] eqn:E.
      intros [= _ <- _]. apply IH in E. lia.
    - intros E. apply IH in E. lia. }
  apply run_spec in E as (Hw & Hids & Hn & Hs); cbn [pages_ VramPages_init next_id pages] in *;
    [|apply map_Forall_empty|lia|lia].
  rewrite map_size_empty in Hs.
  split_and!; [done|done| |done|cbn; lia|].
  - unfold totalPages. rewrite u32_small by (unfold in_u; lia). lia.
  - apply (create_wf (pages_ c) 0); [done|lia].
Qed.

Lemma cache_run_fresh_witness :
  let l := [CAllocate 64; CAllocate 32; CRelease 1; CRelease 9] in
  let '(c, ids, n) := run (mkCacheManager (mkWatermarks 85 256) VramPages_init) l in
  ids = [1; 2] /\ totalPages (pages_ c) = 1.
Proof.
  destruct (cache_run_fresh (mkWatermarks 85 256) [CAllocate 64; CAllocate 32; CRelease 1; CRelease 9]
    _ _ _ eq_refl ltac:(reflexivity)) as (_ & Hids & Ht & _).
  split; [exact Hids|exact Ht].
Defined.

(** When the two sums and the difference of the thresholds fit 32 bits, the
    decision is the documented one on unbounded integers: throttle at 95 percent or
    below the minimum, allocate within both limits, release unless memory is ample and
    utilisation low; an allocation is never allowed below the minimum. *)
Theorem evaluate_correct wm t :
  wf_watermarks wm -> wf_telemetry t ->
  10 <= targetUtilPercent wm < 2 ^ 32 - 5 -> minFreeMiB wm < 2 ^ 31 ->
  let free := Z.max 0 (totalVRAMMiB t - usedVRAMMiB t) in
  let d := evaluate wm t in
  (throttle d = true <-> 95 <= gpuUtilPercent t \/ free < minFreeMiB wm) /\
  (allowAllocate d = true <-> minFreeMiB wm <= free /\ gpuUtilPercent t <= targetUtilPercent wm + 5) /\
  (allowRelease d = false <->
     2 * minFreeMiB wm <= free /\ gpuUtilPercent t < targetUtilPercent wm - 10).
Proof.
  intros [Hw1 Hw2] Ht Htg Hm free d. unfold in_u in Hw1, Hw2.
  unfold d, evaluate. cbn [throttle allowAllocate allowRelease].
  rewrite (evaluate_free t Ht). fold free.
  rewrite !u32_small by (unfold in_u; lia).
  rewrite orb_true_iff, negb_false_iff, !andb_true_iff, !Z.leb_le, !Z.ltb_lt.
  split_and!; [done|done|]. split; intros []; split; lia.
Qed.

Lemma evaluate_correct_witness :
  throttle (evaluate (mkWatermarks 85 256) (mkGpuTelemetry 8192 8000 50)) = true.
Proof.
  destruct (evaluate_correct (mkWatermarks 85 256) (mkGpuTelemetry 8192 8000 50)) as [H _];
    [split; in_range|split_and!; in_range|cbn; lia|cbn; lia|].
  apply H. right. cbn. lia.
Defined.

(** A target below ten percent makes [targetUtilPercent - 10] wrap to almost 2^32:
    with ample free memory the decision then denies releases at every utilisation up to
    100 percent, where the difference read as a number would never deny one. *)
Theorem evaluate_target_wraps wm t :
  wf_telemetry t -> 0 <= targetUtilPercent wm < 10 -> 0 <= minFreeMiB wm < 2 ^ 31 ->
  0 <= gpuUtilPercent t <= 100 ->
  2 * minFreeMiB wm <= Z.max 0 (totalVRAMMiB t - usedVRAMMiB t) ->
  allowRelease (evaluate wm t) = false /\ ~ gpuUtilPercent t < targetUtilPercent wm - 10.
Proof.
  intros Ht Htg Hm Hu Hf. split; [|lia]. unfold evaluate. cbn [allowRelease].
  rewrite (evaluate_free t Ht), (u32_small (minFreeMiB wm * 2)) by (unfold in_u; lia).
  replace (u32 (targetUtilPercent wm - 10)) with (targetUtilPercent wm - 10 + 2 ^ 32)
    by (unfold u32; Z.to_euclidean_division_equations; lia).
  apply negb_false_iff, andb_true_iff. rewrite Z.leb_le, Z.ltb_lt. lia.
Qed.

Lemma evaluate_target_wraps_witness :
  allowRelease (evaluate (mkWatermarks 5 256) (mkGpuTelemetry 8192 0 100)) = false.
Proof.
  apply (evaluate_target_wraps (mkWatermarks 5 256) (mkGpuTelemetry 8192 0 100));
    [split_and!; in_range|cbn; lia..].
Defined.
