(* ===== verification/Scheduler.v ===== *)
(** * Weighted selection of work ([src/scheduler/scheduler.h])

    The selection loop with its two break conditions, against the declarative
    description: the prefix of the weighted expansion of the live identifiers. *)

From S2P Require Import Prelude Registry.
From stdpp Require Import base numbers list option gmap.

Open Scope Z_scope.

(** ** Definitions *)

Record SchedulerState := mkSchedulerState {
  source_weight : gmap Z Z;
  tick : Z;
  source_penalty : gmap Z Z;
  max_weight_cap : Z }.

Definition SchedulerState_init : SchedulerState := mkSchedulerState ∅ 0 ∅ 4.

(** The local [w] of the loop body. *)
Definition effective_weight (s : SchedulerState) (sid : Z) : Z :=
  let w := 1 in
  let w := match source_weight s !! sid with
           | Some ws =>
               if ws >? 0 then
                 let cap := if max_weight_cap s =? 0 then 1 else max_weight_cap s in
                 if ws >? cap then cap else ws
               else w
           | None => w
           end in
  match source_penalty s !! sid with
  | Some p => if p >? 0 then (if w <=? p then 1 else u32 (w - p)) else w
  | None => w
  end.

(** [for (k = 0; k < w; ++k) { out.push_back(wid); if (out.size() >= max_ids) break; }] *)
Fixpoint push_loop (w : nat) (wid : Z) (max_ids : nat) (out : list Z) : list Z :=
  match w with
  | O => out
  | S w =>
      let out := out ++ [wid] in
      if (max_ids <=? length out)%nat then out else push_loop w wid max_ids out
  end.

Fixpoint select_loop (s : SchedulerState) (snaps : gmap Z WorkSlotSnapshot) (max_ids : nat)
    (work_ids out : list Z) : list Z :=
  match work_ids with
  | [] => out
  | wid :: work_ids =>
      match snaps !! wid with
      | None => select_loop s snaps max_ids work_ids out
      | Some snap =>
          let w := effective_weight s (source_id (item snap)) in
          let out := push_loop (Z.to_nat w) wid max_ids out in
          if (max_ids <=? length out)%nat then out
          else select_loop s snaps max_ids work_ids out
      end
  end.

Definition select (s : SchedulerState) (work_ids : list Z)
    (snaps : gmap Z WorkSlotSnapshot) (max_ids : nat) : SchedulerState * list Z :=
  (mkSchedulerState (source_weight s) (u64 (tick s + 1)) (source_penalty s) (max_weight_cap s),
   select_loop s snaps max_ids work_ids []).

(** ** Specification *)

(** Each live identifier, repeated its effective weight. *)
Definition expansion (s : SchedulerState) (snaps : gmap Z WorkSlotSnapshot) (work_ids : list Z) :
    list Z :=
  concat (map (fun wid => match snaps !! wid with
                          | None => []
                          | Some snap => repeat wid (Z.to_nat (effective_weight s (source_id (item snap))))
                          end) work_ids).

Definition wf_scheduler (s : SchedulerState) : Prop :=
  map_Forall (fun _ w => is_u32 w) (source_weight s) /\
  map_Forall (fun _ w => is_u32 w) (source_penalty s) /\ is_u32 (max_weight_cap s).

(** ** Lemmas *)

Lemma effective_weight_bounds s sid :
  wf_scheduler s -> 1 <= effective_weight s sid <= Z.max 1 (max_weight_cap s).
Proof.
  intros (Hw & Hp & Hc). unfold effective_weight, in_u in *.
  set (w := match source_weight s !! sid with Some _ => _ | None => _ end).
  assert (1 <= w <= Z.max 1 (max_weight_cap s)) as Hb.
  { subst w. destruct (source_weight s !! sid) as [ws|] eqn:E; [|lia].
    destruct (Z.gtb_spec ws 0); [|lia].
    destruct (Z.eqb_spec (max_weight_cap s) 0);
      match goal with |- context [?a >? ?b] => destruct (Z.gtb_spec a b) end; lia. }
  destruct (source_penalty s !! sid) as [p|] eqn:Ep; [|done].
  destruct (Z.gtb_spec p 0); [|done]. destruct (Z.leb_spec w p); [lia|].
  rewrite u32_small by (unfold in_u; lia). lia.
Qed.

Lemma push_loop_take w wid m out :
  (length out < m)%nat \/ (m = 0 /\ out = [])%nat -> (0 < w)%nat ->
  push_loop w wid m out = take (Nat.max 1 m) (out ++ repeat wid w).
Proof.
  revert out. induction w as [|w IH]; intros out Ho Hw; [lia|].
  cbn [push_loop repeat]. destruct (Nat.leb_spec m (length (out ++ [wid]))) as [Hm|Hm];
    rewrite length_app in Hm; cbn [length] in Hm.
  - replace (out ++ wid :: repeat wid w) with ((out ++ [wid]) ++ repeat wid w)
      by by rewrite <- app_assoc.
    rewrite take_app_length'; [done|]. rewrite length_app. cbn [length].
    destruct Ho as [?|[-> ->]]; cbn [length] in *; lia.
  - replace (out ++ wid :: repeat wid w) with ((out ++ [wid]) ++ repeat wid w)
      by by rewrite <- app_assoc.
    destruct w as [|w].
    + cbn [push_loop repeat]. rewrite app_nil_r, take_ge; [done|].
      rewrite length_app. cbn [length]. lia.
    + apply IH; [|lia]. left. rewrite length_app. cbn [length]. lia.
Qed.

Lemma select_loop_take s snaps m ids out :
  wf_scheduler s -> (length out < m)%nat \/ (m = 0 /\ out = [])%nat ->
  select_loop s snaps m ids out = take (Nat.max 1 m) (out ++ expansion s snaps ids).
Proof.
  intros Hs. revert out. induction ids as [|wid ids IH]; intros out Ho;
    cbn [select_loop].
  - unfold expansion. cbn. rewrite app_nil_r, take_ge; [done|].
    destruct Ho as [?|[-> ->]]; cbn; lia.
  - unfold expansion. cbn [map concat]. fold (expansion s snaps ids).
    destruct (snaps !! wid) as [snap|] eqn:E; [|by rewrite IH].
    pose proof (effective_weight_bounds s (source_id (item snap)) Hs) as Hb.
    set (w := Z.to_nat _). assert (0 < w)%nat as Hw by lia.
    rewrite app_assoc.
    destruct (Nat.leb_spec m (length (push_loop w wid m out))) as [Hm|Hm].
    + rewrite push_loop_take in Hm |- * by done. rewrite length_take in Hm.
      rewrite (take_app_le (out ++ repeat wid w)); [done|]. rewrite length_app, repeat_length in *. lia.
    + rewrite push_loop_take in Hm |- * by done. rewrite length_take in Hm.
      rewrite take_ge in * by (rewrite length_app, repeat_length in *; lia).
      rewrite length_app, repeat_length in Hm. rewrite IH; [done|].
      left. rewrite length_app, repeat_length. lia.
Qed.

Lemma elem_of_expansion s snaps ids x :
  x ∈ expansion s snaps ids -> x ∈ ids /\ is_Some (snaps !! x).
Proof.
  unfold expansion. rewrite list_elem_of_In, in_concat.
  intros (l & Hl & Hx). apply in_map_iff in Hl as (wid & <- & Hwid).
  destruct (snaps !! wid) as [snap|] eqn:E; [|done].
  apply repeat_spec in Hx as ->. rewrite list_elem_of_In. by rewrite E.
Qed.

Lemma count_expansion s snaps ids x snap :
  NoDup ids -> x ∈ ids -> snaps !! x = Some snap ->
  length (filter (eq x) (expansion s snaps ids))
  = Z.to_nat (effective_weight s (source_id (item snap))).
Proof.
  intros Hnd Hx Hs. induction ids as [|y ids IH]; [by apply not_elem_of_nil in Hx|].
  apply NoDup_cons in Hnd as [Hy Hnd].
  unfold expansion. cbn [map concat]. fold (expansion s snaps ids).
  rewrite filter_app, length_app.
  assert (forall w z, length (filter (eq x) (repeat z w)) = if decide (x = z) then w else 0%nat) as Hr.
  { intros w z. destruct (decide (x = z)) as [<-|Hne];
      (induction w as [|w IHw]; [done|]); cbn [repeat]; rewrite filter_cons;
      case_decide; try done; cbn [length]; by rewrite IHw. }
  apply list_elem_of_In in Hx. destruct Hx as [->|Hx].
  - rewrite Hs, Hr. rewrite decide_True by done.
    assert (filter (eq x) (expansion s snaps ids) = []) as ->; [|cbn; lia].
    destruct (filter (eq x) (expansion s snaps ids)) as [|z l] eqn:E; [done|].
    assert (z ∈ filter (eq x) (expansion s snaps ids)) as Hz by (rewrite E; left).
    apply list_elem_of_filter in Hz as [-> Hz]. by apply elem_of_expansion in Hz as [? _].
  - apply list_elem_of_In in Hx. rewrite (IH Hnd Hx).
    assert (x <> y) as Hne by (intros ->; done).
    destruct (snaps !! y); [|done]. rewrite Hr, decide_False by done. done.
Qed.

(** ** Properties *)

(** C32: selection returns the first [max(1, max_ids)] entries of the weighted expansion
    of the live identifiers, in the order given, every entry a known identifier, and
    advances the tick; a limit of zero therefore still emits one. *)
Theorem select_spec s work_ids snaps max_ids :
  wf_scheduler s ->
  (select s work_ids snaps max_ids).2 = take (Nat.max 1 max_ids) (expansion s snaps work_ids) /\
  (length (select s work_ids snaps max_ids).2 <= Nat.max 1 max_ids)%nat /\
  (forall x, x ∈ (select s work_ids snaps max_ids).2 -> x ∈ work_ids /\ is_Some (snaps !! x)) /\
  tick (select s work_ids snaps max_ids).1 = u64 (tick s + 1).
Proof.
  intros Hs. unfold select. cbn [fst snd tick].
  rewrite (select_loop_take _ _ _ _ [] Hs); [|cbn; lia || destruct max_ids; [by right|left; cbn; lia]].
  cbn [app]. split_and!; [done|rewrite length_take; lia| |done].
  intros x Hx. apply (elem_of_expansion s).
  rewrite <- (take_drop (Nat.max 1 max_ids) (expansion _ _ _)). apply elem_of_app. by left.
Qed.

Lemma select_spec_witness :
  (select SchedulerState_init [5; 6]
     {[ 5 := mkWorkSlotSnapshot 1 WorkItem_default GpuJobConst_default ]} 0).2 = [5].
Proof.
  destruct (select_spec SchedulerState_init [5; 6]
     {[ 5 := mkWorkSlotSnapshot 1 WorkItem_default GpuJobConst_default ]} 0) as [H _].
  - split_and!; [apply map_Forall_empty|apply map_Forall_empty|in_range].
  - exact H.
Defined.

(** When the limit is not reached, every live identifier of a duplicate-free list
    is selected exactly its effective weight, between one and the cap: no live source
    starves, none exceeds the cap. *)
Theorem select_fair s work_ids snaps max_ids x snap :
  wf_scheduler s -> NoDup work_ids -> x ∈ work_ids -> snaps !! x = Some snap ->
  (length (expansion s snaps work_ids) <= max_ids)%nat ->
  let n := length (filter (eq x) (select s work_ids snaps max_ids).2) in
  Z.of_nat n = effective_weight s (source_id (item snap)) /\
  1 <= Z.of_nat n <= Z.max 1 (max_weight_cap s).
Proof.
  intros Hs Hnd Hx Hsnap Hl n. unfold n, select. cbn [snd].
  pose proof (effective_weight_bounds s (source_id (item snap)) Hs).
  rewrite (select_loop_take _ _ _ _ [] Hs); [|destruct max_ids; [by right|left; cbn; lia]].
  cbn [app]. rewrite take_ge by lia.
  rewrite (count_expansion s snaps work_ids x snap) by done. lia.
Qed.

Lemma select_fair_witness :
  let s := mkSchedulerState {[ 3 := 9 ]} 0 {[ 3 := 1 ]} 4 in
  let item3 := mkWorkItem 5 3 0 0 0 0 [] [] [] [] 0 0 0 0 false true false in
  Z.of_nat (length (filter (eq 5) (select s [5; 6]
     {[ 5 := mkWorkSlotSnapshot 1 item3 GpuJobConst_default ]} 64).2)) = 3.
Proof.
  destruct (select_fair (mkSchedulerState {[ 3 := 9 ]} 0 {[ 3 := 1 ]} 4) [5; 6]
     {[ 5 := mkWorkSlotSnapshot 1 (mkWorkItem 5 3 0 0 0 0 [] [] [] [] 0 0 0 0 false true false)
          GpuJobConst_default ]} 64 5
     (mkWorkSlotSnapshot 1 (mkWorkItem 5 3 0 0 0 0 [] [] [] [] 0 0 0 0 false true false)
          GpuJobConst_default)) as [H _].
  - split_and!; [apply map_Forall_singleton; in_range|apply map_Forall_singleton; in_range|in_range].
  - apply (bool_decide_unpack _). reflexivity.
  - left.
  - reflexivity.
  - vm_compute. lia.
  - exact H.
Defined.
