(* ===== verification/FileSys.v ===== *)
(** * Files

    The file system the stores write to, and reading a text file by lines. *)

From stdpp Require Import base numbers list option gmap strings.
From S2P Require Import Prelude.

Open Scope Z_scope.

(** ** The file system

    What the C++ library calls rely on: files are byte strings; whether a path can be
    opened for writing, renamed or copied is up to the environment. *)

Record Env := mkEnv {
  can_write : string -> bool;
  can_rename : string -> string -> bool;
  can_copy : string -> string -> bool }.

Abbreviation FS := (gmap string (list Z)).

Definition fs_append (fs : FS) (path : string) (bytes : list Z) : FS :=
  <[path := default [] (fs !! path) ++ bytes]> fs.

(** [while (std::getline(ifs, line))]: the lines of a file; a last line without its
    newline counts when it is not empty. *)
Fixpoint lines_from (cur bytes : list Z) : list (list Z) :=
  match bytes with
  | [] => match cur with [] => [] | _ => [cur] end
  | b :: bytes => if b =? 10 then cur :: lines_from [] bytes else lines_from (cur ++ [b]) bytes
  end.
Definition lines (bytes : list Z) : list (list Z) := lines_from [] bytes.

Lemma lines_from_newline cur l rest :
  10 ∉ l -> lines_from cur (l ++ 10 :: rest) = (cur ++ l) :: lines_from [] rest.
Proof.
  revert cur. induction l as [|b l IH]; intros cur H; cbn [app lines_from].
  - by rewrite app_nil_r.
  - rewrite not_elem_of_cons in H. destruct H as [Hb Hl].
    destruct (Z.eqb_spec b 10) as [->|]; [done|]. by rewrite IH, <- app_assoc.
Qed.

(** The lines of a text written line by line, followed by a partial line. *)
Lemma lines_concat (ls : list (list Z)) tail :
  Forall (fun l => 10 ∉ l) ls -> 10 ∉ tail ->
  lines (concat (map (fun l => l ++ [10]) ls) ++ tail)
  = ls ++ match tail with [] => [] | _ => [tail] end.
Proof.
  intros Hls Ht. unfold lines. induction Hls as [|l ls Hl _ IH]; cbn [map concat app].
  - assert (forall cur, lines_from cur tail = match cur ++ tail with [] => [] | _ => [cur ++ tail] end) as E.
    { induction tail as [|b tail IH]; intros cur; cbn [lines_from].
      - rewrite app_nil_r. done.
      - rewrite not_elem_of_cons in Ht. destruct Ht as [Hb Ht].
        destruct (Z.eqb_spec b 10) as [->|]; [done|]. rewrite IH by done.
        by rewrite <- app_assoc. }
    by rewrite E.
  - rewrite <- !app_assoc. cbn [app]. rewrite lines_from_newline by done. cbn [app]. by rewrite IH.
Qed.
