(* ===== verification/Outbox.v ===== *)
(** * The submission outbox ([src/store/outbox.h])

    The deduplicating queue, its binary log and the file operations, over a file
    system of byte strings. *)

From stdpp Require Import base numbers list option gmap strings.
From S2P Require Import Prelude FileSys.

Open Scope Z_scope.

(** ** Data *)

Record PendingSubmit := mkPendingSubmit {
  work_id : Z; nonce : Z; header80 : list Z }.

#[export] Instance PendingSubmit_eq_dec : EqDecision PendingSubmit.
Proof. solve_decision. Defined.

Record Outbox := mkOutbox { q_ : list PendingSubmit; seen_ : gset Z }.

Definition Outbox_init : Outbox := mkOutbox [] ∅.

(** [(s.work_id << 32) ^ s.nonce] *)
Definition key (s : PendingSubmit) : Z := Z.lxor (u64 (Z.shiftl (work_id s) 32)) (nonce s).

(** ** Queue operations *)

Definition enqueue (o : Outbox) (s : PendingSubmit) : Outbox :=
  if decide (key s ∈ seen_ o) then o
  else mkOutbox (q_ o ++ [s]) ({[ key s ]} ∪ seen_ o).

Definition tryDequeue (o : Outbox) : Outbox * option PendingSubmit :=
  match q_ o with
  | [] => (o, None)
  | s :: q => (mkOutbox q (seen_ o), Some s)
  end.

Definition empty (o : Outbox) : bool := match q_ o with [] => true | _ => false end.

(** The rebuilding loop of [drop]: [tmp], the seen set and [removed]. *)
Fixpoint drop_loop (wid n : Z) (q tmp : list PendingSubmit) (seen : gset Z) (removed : bool) :
    list PendingSubmit * gset Z * bool :=
  match q with
  | [] => (tmp, seen, removed)
  | s :: q =>
      if negb removed && (work_id s =? wid) && (nonce s =? n)
      then drop_loop wid n q tmp (seen ∖ {[ key s ]}) true
      else drop_loop wid n q (tmp ++ [s]) seen removed
  end.

Definition drop (o : Outbox) (wid n : Z) : Outbox * bool :=
  match q_ o with
  | [] => (o, false)
  | q => let '(tmp, seen, removed) := drop_loop wid n q [] (seen_ o) false in
         (mkOutbox tmp seen, removed)
  end.

(** ** The log: [work_id(8)][nonce(4)][header(80)], integers in memory order *)

Definition record_bytes (s : PendingSubmit) : list Z :=
  le_bytes 8 (work_id s) ++ le_bytes 4 (nonce s) ++ header80 s.

(** [ifs.read(p, n)]: fails when fewer than [n] bytes remain. *)
Definition read (n : nat) (bytes : list Z) : option (list Z * list Z) :=
  if (n <=? length bytes)%nat then Some (take n bytes, list.drop n bytes) else None.

Definition read_record (bytes : list Z) : option (PendingSubmit * list Z) :=
  '(w, bytes) ← read 8 bytes;
  '(n, bytes) ← read 4 bytes;
  '(h, bytes) ← read 80 bytes;
  Some (mkPendingSubmit (le_val w) (le_val n) h, bytes).

(** The [while (true)] loop; each round that does not break consumes 92 bytes, so the
    length of the file is enough fuel ([load_loop_fuel]). *)
Fixpoint load_loop (fuel : nat) (bytes : list Z) (o : Outbox) : Outbox :=
  match fuel with
  | O => o
  | S fuel =>
      match read_record bytes with
      | None => o
      | Some (s, bytes) => load_loop fuel bytes (enqueue o s)
      end
  end.

Section Files.
Context (env : Env).

Definition appendToFile (fs : FS) (path : string) (s : PendingSubmit) : FS * bool :=
  if can_write env path then (fs_append fs path (record_bytes s), true) else (fs, false).

Definition loadFromFile (o : Outbox) (fs : FS) (path : string) : Outbox * bool :=
  match fs !! path with
  | None => (o, false)
  | Some bytes => (load_loop (length bytes) bytes Outbox_init, true)
  end.

(** The writing loop runs over a copy of the queue. *)
Fixpoint write_all (q : list PendingSubmit) (bytes : list Z) : list Z :=
  match q with [] => bytes | s :: q => write_all q (bytes ++ record_bytes s) end.

Definition rewriteFile (o : Outbox) (fs : FS) (path : string) : FS * bool :=
  if can_write env path then (<[path := write_all (q_ o) []]> fs, true) else (fs, false).

Definition clearFile (fs : FS) (path : string) : FS * bool :=
  if can_write env path then (<[path := []]> fs, true) else (fs, false).

(** Rename; failing that copy, ignoring the copy's own error, and truncate. *)
Definition rotateFile (fs : FS) (path newpath : string) : FS * bool :=
  match fs !! path with
  | Some bytes =>
      if can_rename env path newpath then (<[newpath := bytes]> (delete path fs), true)
      else
        let fs := if can_copy env path newpath then <[newpath := bytes]> fs else fs in
        if can_write env path then (<[path := []]> fs, true) else (fs, false)
  | None => if can_write env path then (<[path := []]> fs, true) else (fs, false)
  end.

End Files.

(** ** Well-formedness *)

Record wf_submit (s : PendingSubmit) : Prop := {
  wf_work : is_u64 (work_id s);
  wf_nonce : is_u32 (nonce s);
  wf_header : length (header80 s) = 80%nat /\ is_bytes (header80 s) }.

Record wf_outbox (o : Outbox) : Prop := {
  wf_entries : Forall wf_submit (q_ o);
  wf_keys : NoDup (map key (q_ o));
  wf_seen : forall s, s ∈ q_ o -> key s ∈ seen_ o }.

(** The calls of a client on the queue. *)
Inductive outbox_op := OEnqueue (s : PendingSubmit) | ODequeue | ODrop (wid n : Z).

Definition outbox_step (o : Outbox) (op : outbox_op) : Outbox :=
  match op with
  | OEnqueue s => enqueue o s
  | ODequeue => (tryDequeue o).1
  | ODrop wid n => (drop o wid n).1
  end.

Definition wf_op (op : outbox_op) : Prop :=
  match op with OEnqueue s => wf_submit s | _ => True end.

(** ** Lemmas *)

Lemma key_eq s : is_u32 (nonce s) -> key s = (work_id s mod 2 ^ 32) * 2 ^ 32 + nonce s.
Proof.
  intros Hn. unfold key. rewrite Z.shiftl_mul_pow2 by lia.
  replace (u64 (work_id s * 2 ^ 32)) with (Z.shiftl (work_id s mod 2 ^ 32) 32).
  - assert (Z.land (Z.shiftl (work_id s mod 2 ^ 32) 32) (nonce s) = 0) as E.
    { apply Z.bits_inj'. intros i Hi. rewrite Z.land_spec, Z.bits_0.
      destruct (decide (i < 32)); [by rewrite Z.shiftl_spec_low by lia|].
      by rewrite (in_u_high 32 (nonce s)), andb_false_r by (done || lia). }
    rewrite Z.lxor_lor by done. apply lor_shiftl_add; [lia|done].
  - rewrite Z.shiftl_mul_pow2 by lia. unfold u64.
    change (2 ^ 64) with (2 ^ 32 * 2 ^ 32). by rewrite Z.mul_mod_distr_r by lia.
Qed.

(** Two submissions share a key exactly when their nonces and the low halves of their
    work identifiers agree. *)
Lemma key_inj s t :
  is_u32 (nonce s) -> is_u32 (nonce t) ->
  (key s = key t <-> work_id s mod 2 ^ 32 = work_id t mod 2 ^ 32 /\ nonce s = nonce t).
Proof.
  intros Hs Ht. rewrite !key_eq by done. unfold in_u in *.
  pose proof (Z.mod_pos_bound (work_id s) (2 ^ 32)).
  pose proof (Z.mod_pos_bound (work_id t) (2 ^ 32)). split; [|intros [-> ->]; done].
  intros E. assert (work_id s mod 2 ^ 32 = work_id t mod 2 ^ 32) by nia. split; [done|nia].
Qed.

Lemma enqueue_wf o s : wf_submit s -> wf_outbox o -> wf_outbox (enqueue o s).
Proof.
  intros Hs [He Hk Hseen]. unfold enqueue. destruct (decide _) as [|Hn]; [by split|].
  split; cbn [q_ seen_].
  - apply Forall_app. by split; [|constructor].
  - rewrite map_app. apply NoDup_app. split_and!; [done| |apply NoDup_singleton].
    intros k Hk1 Hk2. apply list_elem_of_singleton in Hk2 as ->.
    apply list_elem_of_fmap in Hk1 as (t & E & Ht). apply Hn. rewrite E. by apply Hseen.
  - intros t [Ht|Ht]%elem_of_app; [by apply elem_of_union_r, Hseen|].
    apply list_elem_of_singleton in Ht as ->. by apply elem_of_union_l, elem_of_singleton.
Qed.

Lemma tryDequeue_wf o : wf_outbox o -> wf_outbox (tryDequeue o).1.
Proof.
  intros [He Hk Hs]. unfold tryDequeue. destruct (q_ o) as [|s q] eqn:E; cbn [fst].
  - by split; rewrite E.
  - split; cbn [q_ seen_].
    + by inversion He.
    + by apply NoDup_cons in Hk as [_ ?].
    + intros t Ht. apply Hs. by right.
Qed.

(** *** Dropping an entry *)

Definition matches (wid n : Z) (s : PendingSubmit) : bool := (work_id s =? wid) && (nonce s =? n).

Lemma matches_true wid n s : matches wid n s = true <-> work_id s = wid /\ nonce s = n.
Proof. unfold matches. by rewrite andb_true_iff, !Z.eqb_eq. Qed.

Lemma drop_loop_removed wid n q tmp seen :
  drop_loop wid n q tmp seen true = (tmp ++ q, seen, true).
Proof.
  revert tmp. induction q as [|s q IH]; intros tmp; cbn; [by rewrite app_nil_r|].
  by rewrite IH, <- app_assoc.
Qed.

Lemma drop_loop_hit wid n a s b tmp seen :
  Forall (fun t => matches wid n t = false) a -> matches wid n s = true ->
  drop_loop wid n (a ++ s :: b) tmp seen false = (tmp ++ a ++ b, seen ∖ {[ key s ]}, true).
Proof.
  intros Ha Hs. revert tmp. induction Ha as [|t a Ht _ IH]; intros tmp; cbn.
  - fold (matches wid n s). rewrite Hs. apply drop_loop_removed.
  - fold (matches wid n t). rewrite Ht. by rewrite IH, <- app_assoc.
Qed.

Lemma drop_loop_miss wid n q tmp seen :
  Forall (fun t => matches wid n t = false) q ->
  drop_loop wid n q tmp seen false = (tmp ++ q, seen, false).
Proof.
  intros Hq. revert tmp. induction Hq as [|t q Ht _ IH]; intros tmp; cbn; [by rewrite app_nil_r|].
  fold (matches wid n t). rewrite Ht. by rewrite IH, <- app_assoc.
Qed.

(** The queue splits at its first matching entry. *)
Lemma first_match wid n q :
  Forall (fun t => matches wid n t = false) q \/
  exists a s b, q = a ++ s :: b /\ Forall (fun t => matches wid n t = false) a /\
                matches wid n s = true.
Proof.
  induction q as [|t q IH]; [by left|]. destruct (matches wid n t) eqn:E.
  - right. by exists [], t, q.
  - destruct IH as [H|(a & s & b & -> & Ha & Hs)]; [left; by constructor|].
    right. exists (t :: a), s, b. split_and!; [done|by constructor|done].
Qed.

Lemma drop_cases o wid n :
  (Forall (fun t => matches wid n t = false) (q_ o) /\ drop o wid n = (o, false)) \/
  exists a s b, q_ o = a ++ s :: b /\ Forall (fun t => matches wid n t = false) a /\
    matches wid n s = true /\
    drop o wid n = (mkOutbox (a ++ b) (seen_ o ∖ {[ key s ]}), true).
Proof.
  destruct (first_match wid n (q_ o)) as [H|(a & s & b & E & Ha & Hs)].
  - left. split; [done|]. unfold drop. destruct o as [[|t q] seen]; [done|].
    cbn [q_ seen_] in *. by rewrite drop_loop_miss.
  - right. exists a, s, b. split_and!; [done..|]. unfold drop. rewrite E.
    pose proof (drop_loop_hit wid n a s b [] (seen_ o) Ha Hs) as D.
    destruct (a ++ s :: b) eqn:E'; [by destruct a|]. by rewrite D.
Qed.

Lemma drop_wf o wid n : wf_outbox o -> wf_outbox (drop o wid n).1.
Proof.
  intros [He Hk Hseen].
  destruct (drop_cases o wid n) as [[_ ->]|(a & s & b & E & _ & _ & ->)]; [done|].
  rewrite E in *. rewrite map_app in Hk. cbn [map] in Hk.
  apply NoDup_app in Hk as (Hk1 & Hk2 & Hk3). apply NoDup_cons in Hk3 as [Hk3 Hk4].
  rewrite Forall_app, Forall_cons in He. destruct He as (He1 & _ & He2).
  split; cbn [fst q_ seen_].
  - by apply Forall_app.
  - rewrite map_app. apply NoDup_app. split_and!; [done| |done].
    intros k H1 H2. apply (Hk2 k H1). by right.
  - intros t Ht. apply elem_of_difference. split.
    + apply Hseen. set_solver.
    + intros Hkey%elem_of_singleton. apply elem_of_app in Ht as [Ht|Ht].
      * apply (Hk2 (key t)); [by apply list_elem_of_fmap_2|]. rewrite Hkey. left.
      * apply Hk3. rewrite <- Hkey. by apply list_elem_of_fmap_2.
Qed.

Lemma outbox_step_wf o op : wf_op op -> wf_outbox o -> wf_outbox (outbox_step o op).
Proof.
  destruct op; cbn; [apply enqueue_wf|intros _; apply tryDequeue_wf|intros _; apply drop_wf].
Qed.

Lemma init_wf : wf_outbox Outbox_init.
Proof. split; [constructor|constructor|]. intros s Hs. by apply not_elem_of_nil in Hs. Qed.

Lemma outbox_run_wf o ops :
  Forall wf_op ops -> wf_outbox o -> wf_outbox (fold_left outbox_step ops o).
Proof.
  intros H. revert o. induction H as [|op ops Hop _ IH]; intros o Ho; [done|].
  cbn. apply IH. by apply outbox_step_wf.
Qed.

Lemma keys_distinct q : NoDup (map key q) -> NoDup (map (fun s => (work_id s, nonce s)) q).
Proof.
  induction q as [|s q IH]; cbn; [constructor|]. intros [H1 H2]%NoDup_cons.
  apply NoDup_cons. split; [|by apply IH]. intros (t & E & Ht)%list_elem_of_fmap.
  apply H1. apply list_elem_of_fmap. exists t. split; [|done].
  unfold key. by injection E as -> ->.
Qed.

(** *** The log *)

Definition encode (q : list PendingSubmit) : list Z := concat (map record_bytes q).

Lemma write_all_encode q bytes : write_all q bytes = bytes ++ encode q.
Proof.
  revert bytes. induction q as [|s q IH]; intros bytes; cbn; [by rewrite app_nil_r|].
  by rewrite IH, <- app_assoc.
Qed.

Lemma record_bytes_length s : wf_submit s -> length (record_bytes s) = 92%nat.
Proof. intros [_ _ [H _]]. unfold record_bytes. by rewrite !length_app, !le_bytes_length, H. Qed.

Lemma read_app n a b : length a = n -> read n (a ++ b) = Some (a, b).
Proof.
  intros <-. unfold read. rewrite length_app. destruct (Nat.leb_spec (length a) (length a + length b)); [|lia].
  by rewrite take_app_length, drop_app_length.
Qed.

Lemma read_record_app s rest : wf_submit s -> read_record (record_bytes s ++ rest) = Some (s, rest).
Proof.
  intros [Hw Hn [Hl _]]. unfold read_record, record_bytes. rewrite <- !app_assoc.
  rewrite (read_app 8) by apply le_bytes_length. cbn [mbind option_bind].
  rewrite (read_app 4) by apply le_bytes_length. cbn [mbind option_bind].
  rewrite (read_app 80) by done. cbn [mbind option_bind].
  rewrite (le_val_le_bytes_u 8 64), (le_val_le_bytes_u 4 32) by done. by destruct s.
Qed.

Lemma read_record_short bytes : (length bytes < 92)%nat -> read_record bytes = None.
Proof.
  intros H. unfold read_record, read.
  destruct (Nat.leb_spec 8 (length bytes)); [|done]. cbn [mbind option_bind].
  rewrite length_drop. destruct (Nat.leb_spec 4 (length bytes - 8)); [|done].
  cbn [mbind option_bind]. rewrite !length_drop.
  destruct (Nat.leb_spec 80 (length bytes - 8 - 4)); [lia|done].
Qed.

Lemma read_record_length bytes s rest :
  read_record bytes = Some (s, rest) -> length bytes = (92 + length rest)%nat.
Proof.
  unfold read_record, read.
  destruct (Nat.leb_spec 8 (length bytes)); [|done]. cbn [mbind option_bind].
  rewrite length_drop. destruct (Nat.leb_spec 4 (length bytes - 8)); [|done].
  cbn [mbind option_bind]. rewrite !length_drop.
  destruct (Nat.leb_spec 80 (length bytes - 8 - 4)); [|done].
  cbn [mbind option_bind]. intros [= _ <-]. rewrite !length_drop. lia.
Qed.

(** Any fuel of at least the number of bytes gives the same result. *)
Lemma load_loop_fuel n m bytes o :
  (length bytes <= n)%nat -> (n <= m)%nat -> load_loop n bytes o = load_loop m bytes o.
Proof.
  revert m bytes o. induction n as [|n IH]; intros m bytes o Hn Hm.
  - destruct m; [done|]. cbn. by rewrite read_record_short by lia.
  - destruct m as [|m]; [lia|]. cbn. destruct (read_record bytes) as [[s rest]|] eqn:E; [|done].
    apply read_record_length in E. apply IH; lia.
Qed.

Lemma load_loop_encode q tail fuel o :
  Forall wf_submit q -> (length tail < 92)%nat -> (length q < fuel)%nat ->
  load_loop fuel (encode q ++ tail) o = fold_left enqueue q o.
Proof.
  intros Hq Ht. revert fuel o. induction Hq as [|s q Hs _ IH]; intros fuel o Hf;
    (destruct fuel as [|fuel]; cbn [length] in Hf; [lia|]).
  - cbn. by rewrite read_record_short.
  - unfold encode. cbn [map concat load_loop]. fold (encode q).
    rewrite <- app_assoc, read_record_app by done. cbn [fold_left]. apply IH. lia.
Qed.

Lemma encode_length q : Forall wf_submit q -> length (encode q) = (92 * length q)%nat.
Proof.
  induction 1 as [|s q Hs _ IH]; [done|]. unfold encode. cbn [map concat length].
  rewrite length_app, record_bytes_length by done. unfold encode in IH. lia.
Qed.

Lemma load_encode q tail o :
  Forall wf_submit q -> (length tail < 92)%nat ->
  load_loop (length (encode q ++ tail)) (encode q ++ tail) o = fold_left enqueue q o.
Proof.
  intros Hq Ht. rewrite (load_loop_fuel _ (S (length (encode q ++ tail)))) by lia.
  apply load_loop_encode; [done..|]. rewrite length_app, encode_length by done. lia.
Qed.

(** Enqueuing distinct new keys appends them. *)
Lemma fold_enqueue_fresh q o :
  NoDup (map key q) -> (forall s, s ∈ q -> key s ∉ seen_ o) ->
  fold_left enqueue q o = mkOutbox (q_ o ++ q) (list_to_set (map key q) ∪ seen_ o).
Proof.
  revert o. induction q as [|s q IH]; intros o Hnd Hn; cbn [fold_left map list_to_set].
  - rewrite app_nil_r, union_empty_l_L. by destruct o.
  - cbn [map] in Hnd. apply NoDup_cons in Hnd as [Hs Hnd].
    assert (enqueue o s = mkOutbox (q_ o ++ [s]) ({[ key s ]} ∪ seen_ o)) as ->.
    { unfold enqueue. rewrite decide_False; [done|]. apply Hn. left. }
    rewrite IH; [|done|].
    + cbn [q_ seen_]. rewrite <- app_assoc. cbn [app]. f_equal. set_solver.
    + intros t Ht. cbn [seen_]. rewrite not_elem_of_union, not_elem_of_singleton.
      split; [|apply Hn; by right]. intros E. apply Hs. rewrite <- E. by apply list_elem_of_fmap_2.
Qed.

Lemma load_rewritten o : wf_outbox o ->
  fold_left enqueue (q_ o) Outbox_init = mkOutbox (q_ o) (list_to_set (map key (q_ o))).
Proof.
  intros [_ Hk _]. rewrite fold_enqueue_fresh by (done || set_solver).
  cbn. by rewrite union_empty_r_L.
Qed.

Definition append_all (env : Env) (fs : FS) (path : string) (l : list PendingSubmit) : FS :=
  fold_left (fun fs s => (appendToFile env fs path s).1) l fs.

Lemma append_all_lookup env fs path l :
  can_write env path = true -> is_Some (fs !! path) ->
  append_all env fs path l !! path = Some (default [] (fs !! path) ++ encode l).
Proof.
  intros Hw. revert fs. induction l as [|s l IH]; intros fs [b Hb]; cbn.
  - rewrite Hb. cbn. by rewrite app_nil_r.
  - unfold append_all in IH. rewrite IH; unfold appendToFile; rewrite Hw; cbn; unfold fs_append;
      rewrite lookup_insert_eq; [|done]. cbn. rewrite Hb. cbn. by rewrite <- app_assoc.
Qed.

(** At most one entry of a well-formed queue matches. *)
Lemma unique_match o a s b wid n :
  wf_outbox o -> q_ o = a ++ s :: b -> matches wid n s = true ->
  Forall (fun t => matches wid n t = false) b.
Proof.
  intros [_ Hk _] E Hs. rewrite E, map_app in Hk. cbn [map] in Hk.
  apply NoDup_app in Hk as (_ & _ & Hk). apply NoDup_cons in Hk as [Hk _].
  apply Forall_forall. intros t Ht.
  destruct (matches wid n t) eqn:Em; [|done]. exfalso. apply Hk.
  apply matches_true in Hs as [<- <-], Em as [E1 E2].
  apply list_elem_of_fmap. exists t. split; [|done]. unfold key. by rewrite E1, E2.
Qed.

Lemma filter_none wid n q :
  Forall (fun t => matches wid n t = false) q -> List.filter (fun t => negb (matches wid n t)) q = q.
Proof. induction 1 as [|t q Ht _ IH]; [done|]. cbn. rewrite Ht. cbn. by rewrite IH. Qed.

(** ** Properties *)

(** C21: whatever the sequence of enqueues, dequeues and drops, the queue never holds two
    submissions of the same work and nonce, and every queued key is remembered. *)
Theorem outbox_no_duplicates ops :
  Forall wf_op ops ->
  let o := fold_left outbox_step ops Outbox_init in
  wf_outbox o /\ NoDup (map (fun s => (work_id s, nonce s)) (q_ o)).
Proof.
  intros H o. assert (wf_outbox o) as Hw by (apply outbox_run_wf; [done|apply init_wf]).
  split; [done|]. apply keys_distinct, Hw.
Qed.

Lemma outbox_no_duplicates_witness :
  let s := mkPendingSubmit 7 9 (repeat 0 80) in
  NoDup (map (fun s => (work_id s, nonce s))
           (q_ (fold_left outbox_step [OEnqueue s; OEnqueue s; ODrop 7 9; OEnqueue s] Outbox_init))).
Proof.
  apply outbox_no_duplicates.
  assert (wf_submit (mkPendingSubmit 7 9 (repeat 0 80))) as H
    by (split; cbn -[in_u]; [in_range|in_range|split; [reflexivity|in_range]]).
  repeat (constructor; [first [exact H|exact I]|]). constructor.
Defined.

(** C22: the log is durable: after rewriting the file from the queue, any number of
    appended records and a torn final record (a crash in the middle of an append), loading
    restores exactly the queue followed by the appended submissions that are new, whatever
    the outbox held before; loading a rewritten file alone restores the queue itself. *)
Theorem outbox_log_roundtrip env fs path o o' l tail :
  can_write env path = true -> wf_outbox o -> Forall wf_submit l -> (length tail < 92)%nat ->
  let fs1 := (rewriteFile env o fs path).1 in
  let fs2 := fs_append (append_all env fs1 path l) path tail in
  loadFromFile o' fs1 path = (mkOutbox (q_ o) (list_to_set (map key (q_ o))), true) /\
  loadFromFile o' fs2 path =
    (fold_left enqueue l (mkOutbox (q_ o) (list_to_set (map key (q_ o)))), true).
Proof.
  intros Hw Ho Hl Ht fs1 fs2.
  assert (fs1 !! path = Some (encode (q_ o))) as E1.
  { unfold fs1, rewriteFile. rewrite Hw. cbn. rewrite lookup_insert_eq.
    by rewrite write_all_encode. }
  assert (fs2 !! path = Some (encode (q_ o ++ l) ++ tail)) as E2.
  { unfold fs2, fs_append. rewrite lookup_insert_eq.
    rewrite append_all_lookup by (done || by rewrite E1). rewrite E1. cbn.
    unfold encode. by rewrite map_app, concat_app. }
  unfold loadFromFile. rewrite E1, E2.
  rewrite load_encode by (done || by apply Forall_app; split; [apply Ho|]).
  rewrite <- (app_nil_r (encode (q_ o))), load_encode by (apply Ho || cbn; lia).
  by rewrite fold_left_app, load_rewritten.
Qed.

Lemma outbox_log_roundtrip_witness :
  let env := mkEnv (fun _ => true) (fun _ _ => true) (fun _ _ => true) in
  let s := mkPendingSubmit 7 9 (repeat 0 80) in
  let o := enqueue Outbox_init s in
  (loadFromFile Outbox_init (fs_append (append_all env (rewriteFile env o ∅ "p").1 "p" [s]) "p" [1; 2]) "p").1
  = fold_left enqueue [s] (mkOutbox (q_ o) (list_to_set (map key (q_ o)))).
Proof.
  assert (wf_submit (mkPendingSubmit 7 9 (repeat 0 80))) as H
    by (split; cbn -[in_u]; [in_range|in_range|split; [reflexivity|in_range]]).
  pose proof (outbox_log_roundtrip (mkEnv (fun _ => true) (fun _ _ => true) (fun _ _ => true)) ∅ "p"
    (enqueue Outbox_init (mkPendingSubmit 7 9 (repeat 0 80))) Outbox_init
    [mkPendingSubmit 7 9 (repeat 0 80)] [1; 2] eq_refl (enqueue_wf _ _ H init_wf)
    (Forall_cons_2 _ _ _ H (Forall_nil_2 _)) ltac:(cbn; lia)) as [_ E].
  exact (f_equal fst E).
Defined.

(** Dropping an accepted submission removes exactly its entry, reports whether it
    was there, and frees its key so that it can be queued again. *)
Theorem outbox_drop_correct o wid n :
  wf_outbox o ->
  let '(o', b) := drop o wid n in
  q_ o' = List.filter (fun s => negb (matches wid n s)) (q_ o) /\
  (b = true <-> exists s, s ∈ q_ o /\ work_id s = wid /\ nonce s = n) /\
  (b = false -> o' = o) /\
  (b = true -> forall s, work_id s = wid -> nonce s = n -> q_ (enqueue o' s) = q_ o' ++ [s]).
Proof.
  intros Ho. destruct (drop_cases o wid n) as [[H ->]|(a & s & b & E & Ha & Hs & ->)].
  - split_and!; [by rewrite filter_none| |done|done]. split; [done|].
    intros (s & Hin & Hw & Hn). apply (proj1 (Forall_forall _ _) H) in Hin.
    by rewrite (proj2 (matches_true wid n s)) in Hin.
  - pose proof (unique_match _ _ _ _ _ _ Ho E Hs) as Hb. cbn [q_].
    split_and!; [|split; [intros _|done]|done|].
    + rewrite E, List.filter_app. cbn. rewrite Hs. cbn. by rewrite !filter_none.
    + apply matches_true in Hs. exists s. split; [rewrite E; set_solver|done].
    + intros _ t Hw Hn. unfold enqueue. cbn [seen_ q_]. rewrite decide_False; [done|].
      apply matches_true in Hs as [Hw' Hn']. unfold key. rewrite Hw, Hn, Hw', Hn'. set_solver.
Qed.

Lemma outbox_drop_correct_witness :
  let s := mkPendingSubmit 7 9 (repeat 0 80) in
  q_ (drop (enqueue Outbox_init s) 7 9).1 = [].
Proof.
  assert (wf_submit (mkPendingSubmit 7 9 (repeat 0 80))) as H
    by (split; cbn -[in_u]; [in_range|in_range|split; [reflexivity|in_range]]).
  pose proof (outbox_drop_correct (enqueue Outbox_init (mkPendingSubmit 7 9 (repeat 0 80))) 7 9
    (enqueue_wf _ _ H init_wf)) as P.
  exact (proj1 P).
Defined.

(** The deduplication key keeps only the low half of the work identifier: a second
    submission for different work is silently lost exactly when the low 32 bits of the
    identifiers and the nonces agree. *)
Theorem outbox_key_collision s t :
  wf_submit s -> wf_submit t -> work_id s <> work_id t ->
  (enqueue (enqueue Outbox_init s) t = enqueue Outbox_init s <->
   work_id s mod 2 ^ 32 = work_id t mod 2 ^ 32 /\ nonce s = nonce t).
Proof.
  intros Hs Ht Hne. rewrite <- key_inj by (apply Hs || apply Ht).
  assert (enqueue Outbox_init s = mkOutbox [s] {[ key s ]}) as ->.
  { unfold enqueue. rewrite decide_False by set_solver. cbn. by rewrite union_empty_r_L. }
  unfold enqueue. cbn [q_ seen_]. split.
  - destruct (decide _) as [Hin|Hn]; [by apply elem_of_singleton in Hin|done].
  - intros E. by rewrite decide_True by set_solver.
Qed.

Lemma outbox_key_collision_witness :
  enqueue (enqueue Outbox_init (mkPendingSubmit 1 5 (repeat 0 80)))
    (mkPendingSubmit 4294967297 5 (repeat 1 80))
  = enqueue Outbox_init (mkPendingSubmit 1 5 (repeat 0 80)).
Proof.
  apply (outbox_key_collision (mkPendingSubmit 1 5 (repeat 0 80)) (mkPendingSubmit 4294967297 5 (repeat 1 80))).
  - split; cbn -[in_u]; [in_range|in_range|split; [reflexivity|in_range]].
  - split; cbn -[in_u]; [in_range|in_range|split; [reflexivity|in_range]].
  - discriminate.
  - split; reflexivity.
Defined.

(** Dequeuing keeps the key: a submission taken from the queue and put back is
    dropped, so neither the queue nor a rewritten file holds it any more. *)
Theorem outbox_requeue_lost env fs path o o' s :
  wf_outbox o -> tryDequeue o = (o', Some s) -> can_write env path = true ->
  enqueue o' s = o' /\ s ∉ q_ (enqueue o' s) /\
  (rewriteFile env (enqueue o' s) fs path).1 !! path = Some (encode (List.tail (q_ o))).
Proof.
  intros [_ Hk Hs] E Hw. unfold tryDequeue in E. destruct (q_ o) as [|s' q] eqn:Eq; [done|].
  injection E as <- <-.
  assert (enqueue (mkOutbox q (seen_ o)) s' = mkOutbox q (seen_ o)) as ->.
  { unfold enqueue. cbn [seen_]. rewrite decide_True; [done|]. apply Hs. left. }
  split_and!; [done| |].
  - cbn [q_ map] in *. apply NoDup_cons in Hk as [Hk _]. intros Hin. apply Hk.
    by apply list_elem_of_fmap_2.
  - unfold rewriteFile. rewrite Hw. cbn. by rewrite lookup_insert_eq, write_all_encode.
Qed.

Lemma outbox_requeue_lost_witness :
  let s := mkPendingSubmit 7 9 (repeat 0 80) in
  let o := enqueue Outbox_init s in
  enqueue (tryDequeue o).1 s = (tryDequeue o).1.
Proof.
  assert (wf_submit (mkPendingSubmit 7 9 (repeat 0 80))) as H
    by (split; cbn -[in_u]; [in_range|in_range|split; [reflexivity|in_range]]).
  exact (proj1 (outbox_requeue_lost (mkEnv (fun _ => true) (fun _ _ => true) (fun _ _ => true)) ∅ "p"
    (enqueue Outbox_init (mkPendingSubmit 7 9 (repeat 0 80))) _ _ (enqueue_wf _ _ H init_wf)
    eq_refl eq_refl)).
Defined.

(** Rotation moves the log to the new path when the rename or the copy succeeds;
    when both fail and the old path is writable, it still truncates the old file and
    reports success, so the pending submissions are gone. *)
Theorem rotate_spec env fs path newpath bytes :
  fs !! path = Some bytes -> path <> newpath -> can_write env path = true ->
  let '(fs', ok) := rotateFile env fs path newpath in
  ok = true /\ default [] (fs' !! path) = [] /\
  fs' !! newpath =
    if can_rename env path newpath || can_copy env path newpath then Some bytes
    else fs !! newpath.
Proof.
  intros E Hne Hw. unfold rotateFile. rewrite E, Hw.
  destruct (can_rename env path newpath); cbn [orb].
  - split_and!; [done| |by rewrite lookup_insert_eq].
    by rewrite lookup_insert_ne, lookup_delete_eq by done.
  - split_and!; [done|by rewrite lookup_insert_eq|]. rewrite lookup_insert_ne by done.
    destruct (can_copy env path newpath); [by rewrite lookup_insert_eq|done].
Qed.

Lemma rotate_spec_witness :
  let env := mkEnv (fun _ => true) (fun _ _ => false) (fun _ _ => false) in
  let '(fs', ok) := rotateFile env {[ "a" := [1; 2; 3] ]} "a" "b" in
  ok = true /\ default [] (fs' !! "a") = [] /\ fs' !! "b" = None.
Proof.
  exact (rotate_spec (mkEnv (fun _ => true) (fun _ _ => false) (fun _ _ => false))
    {[ "a" := [1; 2; 3] ]} "a" "b" [1; 2; 3] eq_refl ltac:(discriminate) eq_refl).
Defined.
