(* ===== verification/SubmitRouter.v ===== *)
(** * The submit router ([src/submit/submit_router.cc])

    CPU verification of a hit, its entry in the outbox, and the callback that sends it,
    over a world that the callback may change too. *)

From S2P Require Import Prelude Endian Targets Sha256 CpuVerify Outbox.
From stdpp Require Import base numbers list option gmap.

Open Scope Z_scope.

(** ** Data *)

Record HitRecord := mkHitRecord { hit_work_id : Z; hit_nonce : Z; hit_header80 : list Z }.

Section Router.
Context {W : Type}.

(** [outbox] is the object behind the router's pointer ([None]: not attached); [rest] is
    everything else the callback can reach.  The ledger pointer is never read. *)
Record World := mkWorld { outbox : option Outbox; rest : W }.

(** [cb_]: an empty [std::function] is [None]. *)
Definition SubmitCallback := option (HitRecord -> World -> World).

Definition attachOutbox (w : World) (o : option Outbox) : World := mkWorld o (rest w).

Definition pending_of (r : HitRecord) : PendingSubmit :=
  mkPendingSubmit (hit_work_id r) (hit_nonce r) (hit_header80 r).

Definition record_pending (w : World) (r : HitRecord) : World :=
  match outbox w with
  | Some o => mkWorld (Some (enqueue o (pending_of r))) (rest w)
  | None => w
  end.

Definition verifyAndSubmit (cb_ : SubmitCallback) (w : World)
    (header80_be target_le : list Z) (work_id nonce : Z) : World * bool :=
  let h1 := sha256 header80_be in
  let h2 := sha256 h1 in
  if negb (isHashLEQTarget h2 target_le) then (w, false)
  else
    let rec := mkHitRecord work_id nonce header80_be in
    let w := record_pending w rec in
    let w := match cb_ with Some cb => cb rec w | None => w end in
    (w, true).

Definition routeRaw (cb_ : SubmitCallback) (w : World) (r : HitRecord) : World * bool :=
  let w := record_pending w r in
  match cb_ with Some cb => (cb r w, true) | None => (w, false) end.

Definition onAccepted (w : World) (work_id nonce : Z) : World :=
  match outbox w with
  | Some o => mkWorld (Some (Outbox.drop o work_id nonce).1) (rest w)
  | None => w
  end.

End Router.
Arguments World : clear implicits.
Arguments SubmitCallback : clear implicits.

(** ** Specification *)

Definition fips_sha256d (m : list Z) : list Z := fips_sha256 (fips_sha256 m).

(** Bitcoin's proof of work reads the digest as a little-endian number. *)
Definition bitcoin_pow (header : list Z) (target : Z) : Prop :=
  le_val (fips_sha256d header) <= target.

(** The serialised header of the first block. *)
Definition genesis_header : list Z :=
  le_bytes 4 1 ++ repeat 0 32 ++
  [59; 163; 237; 253; 122; 123; 18; 178; 122; 199; 44; 62; 103; 118; 143; 97; 127; 200; 27; 195;
   136; 138; 81; 50; 58; 159; 184; 170; 75; 30; 94; 74] ++
  le_bytes 4 1231006505 ++ le_bytes 4 486604799 ++ le_bytes 4 2083236893.

(** ** Lemmas *)

Lemma sha256_twice_fips m :
  zlen m < 2 ^ 37 -> sha256 (sha256 m) = fips_sha256d m.
Proof.
  intros H. unfold fips_sha256d. rewrite (sha256_fips m) by done.
  rewrite <- (sha256_fips m) by done. apply sha256_fips.
  rewrite sha256_length. done.
Qed.

Lemma verify_decision m target :
  zlen m < 2 ^ 37 ->
  isHashLEQTarget (sha256 (sha256 m)) target = (be_val (fips_sha256d m) <=? target_val target).
Proof.
  intros H. rewrite isHashLEQTarget_val by (apply sha256_length || apply sha256_bytes).
  by rewrite sha256_twice_fips.
Qed.

(** ** Properties *)

(** C11: a hit is accepted exactly when the double SHA-256 of the 80 header bytes, read as
    a big-endian number, is at most the target.  A rejected hit changes nothing.
    For an accepted one, before the callback runs, the record is at the end of the queue
    of the outbox (if attached) when the outbox did not know its key, and the outbox is
    as it was when it did: the record of a dequeued key, or of one that agrees with
    another's in 32 bits, is not queued ([outbox_key_collision]).  The callback runs
    exactly once, with the very record, as the last effect. *)
Theorem verifyAndSubmit_correct {W} (cb : SubmitCallback W) (w : World W) header target wid n :
  length header = 80%nat -> wf_submit (mkPendingSubmit wid n header) ->
  (forall o, outbox w = Some o -> wf_outbox o) ->
  let '(w', ok) := verifyAndSubmit cb w header target wid n in
  (ok = true <-> be_val (fips_sha256d header) <= target_val target) /\
  if ok then
    exists w1, w' = match cb with Some f => f (mkHitRecord wid n header) w1 | None => w1 end /\
      rest w1 = rest w /\
      match outbox w, outbox w1 with
      | Some o, Some o1 => wf_outbox o1 /\
          (key (mkPendingSubmit wid n header) ∉ seen_ o ->
             q_ o1 = q_ o ++ [mkPendingSubmit wid n header] /\
             seen_ o1 = {[ key (mkPendingSubmit wid n header) ]} ∪ seen_ o) /\
          (key (mkPendingSubmit wid n header) ∈ seen_ o -> o1 = o)
      | None, None => True
      | _, _ => False
      end
  else w' = w.
Proof.
  intros Hl Hs Ho. unfold verifyAndSubmit. rewrite verify_decision by (rewrite Hl; done).
  destruct (Z.leb_spec (be_val (fips_sha256d header)) (target_val target)) as [H|H]; cbn [negb].
  - split; [done|]. eexists. split; [done|]. unfold record_pending, pending_of.
    cbn [hit_work_id hit_nonce hit_header80].
    destruct (outbox w) as [o|] eqn:E; cbn [outbox rest]; [|by rewrite E].
    split; [done|]. split; [by apply enqueue_wf; [|apply Ho]|].
    unfold enqueue. by destruct (decide _).
  - split; [|done]. split; [done|lia].
Qed.

Lemma verifyAndSubmit_correct_witness :
  let '(w', ok) := verifyAndSubmit (W := unit) None (mkWorld (Some Outbox_init) tt)
                     (repeat 0 80) (repeat 4294967295 8) 1 2 in
  ok = true /\ q_ <$> outbox w' = Some [mkPendingSubmit 1 2 (repeat 0 80)].
Proof.
  pose proof (verifyAndSubmit_correct (W := unit) None (mkWorld (Some Outbox_init) tt)
    (repeat 0 80) (repeat 4294967295 8) 1 2 eq_refl) as P.
  assert (snd (verifyAndSubmit (W := unit) None (mkWorld (Some Outbox_init) tt)
    (repeat 0 80) (repeat 4294967295 8) 1 2) = true) as E by (vm_compute; reflexivity).
  destruct (verifyAndSubmit _ _ _ _ _ _) as [w' ok]. cbn [snd] in E. subst ok. split; [reflexivity|].
  destruct P as (_ & w1 & -> & _ & P).
  - split; cbn -[in_u]; [in_range|in_range|split; [reflexivity|in_range]].
  - intros o [= <-]. apply init_wf.
  - cbn [outbox] in P. destruct (outbox w1) as [o1|]; [|contradiction].
    destruct P as (_ & P & _). destruct P as [P _]; [apply not_elem_of_empty|]. cbn [fmap option_fmap option_map]. by rewrite P.
Defined.

(** An accepted submission leaves no trace: if the callback leaves the queue alone,
    acceptance after a verified hit with a fresh key gives back the queue, and the key can
    be submitted again. *)
Theorem accepted_restores_queue {W} (w : World W) header target wid n o w' :
  outbox w = Some o -> wf_outbox o -> wf_submit (mkPendingSubmit wid n header) ->
  key (mkPendingSubmit wid n header) ∉ seen_ o ->
  verifyAndSubmit None w header target wid n = (w', true) ->
  exists o', outbox (onAccepted w' wid n) = Some o' /\ q_ o' = q_ o /\ seen_ o' = seen_ o /\
    rest (onAccepted w' wid n) = rest w.
Proof.
  intros E Ho Hs Hk. unfold verifyAndSubmit. destruct (negb _); [done|]. intros [= <-].
  unfold onAccepted, record_pending, pending_of. cbn [hit_work_id hit_nonce hit_header80].
  rewrite E. cbn [outbox rest]. eexists. split; [done|].
  unfold enqueue. rewrite decide_False by done.
  pose proof (drop_loop_hit wid n (q_ o) (mkPendingSubmit wid n header) [] []
    ({[ key (mkPendingSubmit wid n header) ]} ∪ seen_ o)) as D.
  assert (Forall (fun t => matches wid n t = false) (q_ o)) as Hm.
  { apply Forall_forall. intros t Ht. destruct (matches wid n t) eqn:Em; [|done]. exfalso.
    apply matches_true in Em as [E1 E2]. apply Hk. destruct Ho as [_ _ Hseen].
    apply Hseen in Ht. unfold key in *. cbn [work_id nonce] in *. by rewrite <- E1, <- E2. }
  assert (matches wid n (mkPendingSubmit wid n header) = true) as Hh by (by apply matches_true).
  specialize (D Hm Hh). unfold Outbox.drop. cbn [q_ seen_].
  destruct (q_ o ++ [mkPendingSubmit wid n header]) eqn:Eq; [by destruct (q_ o)|].
  rewrite D. cbn [fst q_ seen_ app]. rewrite app_nil_r.
  split_and!; [done|set_solver|done].
Qed.

Lemma accepted_restores_queue_witness :
  exists w', verifyAndSubmit (W := unit) None (mkWorld (Some Outbox_init) tt)
      (repeat 0 80) (repeat 4294967295 8) 1 2 = (w', true) /\
    exists o', outbox (onAccepted w' 1 2) = Some o' /\ q_ o' = [].
Proof.
  eexists. split; [vm_compute; reflexivity|].
  destruct (accepted_restores_queue (W := unit) (mkWorld (Some Outbox_init) tt)
    (repeat 0 80) (repeat 4294967295 8) 1 2 Outbox_init
    (mkWorld (Some (enqueue Outbox_init (mkPendingSubmit 1 2 (repeat 0 80)))) tt))
    as (o' & E & Eq & _).
  - reflexivity.
  - apply init_wf.
  - split; cbn -[in_u]; [in_range|in_range|split; [reflexivity|in_range]].
  - apply not_elem_of_empty.
  - vm_compute. reflexivity.
  - exists o'. split; [|exact Eq]. exact E.
Defined.

(** The byte order of the comparison is not Bitcoin's.  The header of the first block
    meets its own [nBits] target as a proof of work, and the router rejects it. *)
Theorem genesis_rejected {W} (cb : SubmitCallback W) (w : World W) wid n :
  exists target, compactToTargetU32LE 486604799 = Some target /\
    bitcoin_pow genesis_header (target_val target) /\
    verifyAndSubmit cb w genesis_header target wid n = (w, false).
Proof.
  eexists. split; [vm_compute; reflexivity|]. split.
  - unfold bitcoin_pow. vm_compute. discriminate.
  - unfold verifyAndSubmit.
    match goal with |- context [isHashLEQTarget ?h ?t] =>
      assert (isHashLEQTarget h t = false) as -> by (vm_compute; reflexivity) end.
    done.
Qed.
