(* ===== verification/Json.v ===== *)
(** * The JSON interface

    The sources use nlohmann::json through the operations of the class [Json]; the
    library itself is not part of the repository and stays a parameter of every
    definition that uses it.  [JsonLaws] is the documented behaviour the theorems rely
    on.  [Jv] is one concrete document type with these operations: the theorems'
    witnesses are evaluated on it. *)

From S2P Require Import Prelude.
From stdpp Require Import base numbers list option strings countable gmap.

Open Scope Z_scope.

(** ** Operations *)

Class Json (J : Type) := {
  contains : J -> string -> bool;
  (** [operator[](key)]; on a const value a missing key is undefined. *)
  idx : J -> string -> throws J;
  idx_n : J -> nat -> throws J;
  is_object : J -> bool;
  is_array : J -> bool;
  is_string : J -> bool;
  is_null : J -> bool;
  is_number_unsigned : J -> bool;
  is_boolean : J -> bool;
  is_number : J -> bool;
  (** [j == n] for an integer [n]. *)
  json_eq_int : J -> Z -> bool;
  jsize : J -> nat;
  (** Range-based for over a value. *)
  elements : J -> list J;
  get_string : J -> throws (list Z);
  get_bool : J -> throws bool;
  (** [get<uintN_t>] and [get<intN_t>], by the width N. *)
  get_uint : Z -> J -> throws Z;
  get_int : Z -> J -> throws Z;
  jnull : J;
  jstring : list Z -> J;
  jnumber : Z -> J;
  jbool : bool -> J;
  jarray : list J -> J;
  jobject : list (string * J) -> J;
  (** [parse(s, nullptr, false)]: [None] is a discarded value. *)
  parse : list Z -> option J;
  (** [stream >> j]: [None] is the thrown parse error. *)
  parse_stream : list Z -> option J;
  (** Whether every string of the document is UTF-8 and every integer fits 64 bits, and
      the text of such a document. *)
  encodable : J -> bool;
  dump : J -> list Z }.

(** Well-formed UTF-8 (table 3-7 of the Unicode standard), as the serialiser checks it. *)
Definition tail_byte (c : Z) : bool := (128 <=? c) && (c <=? 191).
Definition two_bytes (a b : Z) : bool := (194 <=? a) && (a <=? 223) && tail_byte b.
Definition three_bytes (a b c : Z) : bool :=
  (224 <=? a) && (a <=? 239) && tail_byte b && tail_byte c &&
  (if a =? 224 then 160 <=? b else if a =? 237 then b <=? 159 else true).
Definition four_bytes (a b c d : Z) : bool :=
  (240 <=? a) && (a <=? 244) && tail_byte b && tail_byte c && tail_byte d &&
  (if a =? 240 then 144 <=? b else if a =? 244 then b <=? 143 else true).

Fixpoint utf8_ok (s : list Z) : bool :=
  match s with
  | [] => true
  | a :: s1 =>
      if (0 <=? a) && (a <=? 127) then utf8_ok s1
      else match s1 with
           | [] => false
           | b :: s2 =>
               if two_bytes a b then utf8_ok s2
               else match s2 with
                    | [] => false
                    | c :: s3 =>
                        if three_bytes a b c then utf8_ok s3
                        else match s3 with [] => false | d :: s4 => four_bytes a b c d && utf8_ok s4 end
                    end
           end
  end.

(** [j.dump()] throws on a string that is not UTF-8. *)
Definition dump_text {J} `{Json J} (j : J) : throws (list Z) :=
  if encodable j then inr (dump j) else inl type_error.

(** [j[k]] on a value that is not const: a missing key is inserted with a null value. *)
Definition jfield {J} `{Json J} (j : J) (k : string) : throws J :=
  if contains j k then idx j k
  else if is_object j || is_null j then inr jnull else inl type_error.

(** [j[n]] on a value that is not const: a short array is extended with nulls. *)
Definition jat {J} `{Json J} (j : J) (n : nat) : throws J :=
  if is_array j then inr (default jnull (elements j !! n))
  else if is_null j then inr jnull else inl type_error.

(** The first binding of a key. *)
Fixpoint assoc {A} (l : list (string * A)) (k : string) : option A :=
  match l with
  | [] => None
  | (k', v) :: l => if String.eqb k k' then Some v else assoc l k
  end.

(** [j.value(key, d)], with the conversion of [d]'s type. *)
Definition value {J A} `{Json J} (get : J -> throws A) (j : J) (k : string) (d : A) : throws A :=
  if is_object j then
    if contains j k then v ← idx j k; get v else mret d
  else inl type_error.

Class JsonLaws (J : Type) `{Json J} := {
  is_object_jobject l : is_object (jobject l) = true;
  contains_jobject l k : contains (jobject l) k = bool_decide (is_Some (assoc l k));
  idx_jobject l k v : assoc l k = Some v -> idx (jobject l) k = inr v;
  get_string_jstring s : get_string (jstring s) = inr s;
  is_string_jstring s : is_string (jstring s) = true;
  get_bool_jbool b : get_bool (jbool b) = inr b;
  get_uint_jnumber w z : in_u w z -> get_uint w (jnumber z) = inr z;
  get_int_jnumber w z : 0 < w -> - 2 ^ (w - 1) <= z < 2 ^ (w - 1) -> get_int w (jnumber z) = inr z;
  is_null_jnull : is_null jnull = true;
  json_eq_int_jnumber n z : json_eq_int (jnumber n) z = (n =? z);
  json_eq_int_jnull z : json_eq_int jnull z = false;
  is_number_jnumber n : is_number (jnumber n) = true;
  get_string_jbool b : get_string (jbool b) = inl type_error;
  get_string_jnumber n : get_string (jnumber n) = inl type_error;
  get_int_jstring w s : get_int w (jstring s) = inl type_error;
  get_string_jnull : get_string jnull = inl type_error;
  is_object_jnull : is_object jnull = false;
  get_bool_jnull : get_bool jnull = inl type_error;
  is_array_jarray l : is_array (jarray l) = true;
  elements_jarray l : elements (jarray l) = l;
  jsize_jarray l : jsize (jarray l) = length l;
  encodable_jnull : encodable jnull = true;
  encodable_jbool b : encodable (jbool b) = true;
  encodable_jnumber z : encodable (jnumber z) = (- 2 ^ 63 <=? z) && (z <? 2 ^ 64);
  encodable_jstring s : encodable (jstring s) = utf8_ok s;
  encodable_jarray l : encodable (jarray l) = forallb encodable l;
  encodable_jobject l : NoDup (map fst l) ->
    encodable (jobject l) = forallb (fun p => utf8_ok (str p.1) && encodable p.2) l;
  parse_dump j : encodable j = true -> parse (dump j) = Some j;
  parse_stream_dump j : encodable j = true -> parse_stream (dump j) = Some j;
  dump_one_line j : 10 ∉ dump j;
  dump_nonempty j : dump j <> [] }.

(** ** Derived facts *)

Lemma utf8_ascii s : Forall (fun c => 0 <= c <= 127) s -> utf8_ok s = true.
Proof.
  induction 1 as [|c s Hc _ IH]; [done|]. cbn [utf8_ok]. by rewrite !(proj2 (Z.leb_le _ _)) by lia.
Qed.

Section Laws.
Context {J : Type} `{JsonLaws J}.

Lemma value_jobject {A} (get : J -> throws A) l k d v :
  assoc l k = Some v -> value get (jobject l) k d = get v.
Proof.
  intros E. unfold value. rewrite is_object_jobject, contains_jobject, bool_decide_true by (by eexists).
  by rewrite (idx_jobject l k v E).
Qed.

Lemma jfield_jobject l k v : assoc l k = Some v -> jfield (jobject l) k = inr v.
Proof.
  intros E. unfold jfield. rewrite contains_jobject, bool_decide_true by (by eexists).
  by apply idx_jobject.
Qed.

Lemma jat_jarray l n : jat (jarray l) n = inr (default jnull (l !! n)).
Proof. unfold jat. by rewrite is_array_jarray, elements_jarray. Qed.

Lemma encodable_u32 z : is_u32 z -> encodable (jnumber z) = true.
Proof. unfold in_u. intros Hz. rewrite encodable_jnumber, andb_true_iff, Z.leb_le, Z.ltb_lt. lia. Qed.

Lemma encodable_u64 z : is_u64 z -> encodable (jnumber z) = true.
Proof. unfold in_u. intros Hz. rewrite encodable_jnumber, andb_true_iff, Z.leb_le, Z.ltb_lt. lia. Qed.

Lemma encodable_numbers l : Forall is_u32 l -> encodable (jarray (map jnumber l)) = true.
Proof.
  intros Hl. rewrite encodable_jarray, forallb_forall. intros j (z & <- & Hz)%in_map_iff.
  apply encodable_u32. rewrite list.Forall_forall in Hl. by apply Hl, list_elem_of_In.
Qed.

(** An object: its keys are distinct and its values encodable. *)
Lemma encodable_object l :
  bool_decide (NoDup (map fst l)) = true -> Forall (fun p => utf8_ok (str p.1) = true /\ encodable p.2 = true) l ->
  encodable (jobject l) = true.
Proof.
  intros Hk%bool_decide_eq_true Hl. rewrite encodable_jobject by done. rewrite forallb_forall. intros p Hp%list_elem_of_In.
  rewrite list.Forall_forall in Hl. apply andb_true_iff. by apply Hl.
Qed.

Lemma dump_text_ok j : encodable j = true -> dump_text j = inr (dump j).
Proof. intros E. unfold dump_text. by rewrite E. Qed.

Lemma value_default {A} (get : J -> throws A) l k d :
  assoc l k = None -> value get (jobject l) k d = inr d.
Proof.
  intros E. unfold value. rewrite is_object_jobject, contains_jobject, bool_decide_false; [done|].
  rewrite E. by intros [? ?].
Qed.

End Laws.

(** ** A concrete document type *)

Module Concrete.

Inductive Jv :=
  | JNull
  | JBool (b : bool)
  | JNum (z : Z)
  | JStr (s : list Z)
  | JArr (l : list Jv)
  | JObj (l : list (string * Jv)).

(** Text form: a tree over the leaves, its code as a string of two characters. *)
Definition leaf : Type := unit + bool + Z + list Z + string.

Fixpoint to_tree (j : Jv) : gen_tree leaf :=
  match j with
  | JNull => GenLeaf (inl (inl (inl (inl tt))))
  | JBool b => GenLeaf (inl (inl (inl (inr b))))
  | JNum z => GenLeaf (inl (inl (inr z)))
  | JStr s => GenLeaf (inl (inr s))
  | JArr l => GenNode 0 (map to_tree l)
  | JObj l => GenNode 1 (map (fun p => GenNode 0 [GenLeaf (inr p.1); to_tree p.2]) l)
  end.

Fixpoint of_tree (t : gen_tree leaf) : Jv :=
  match t with
  | GenLeaf (inl (inl (inl (inl _)))) => JNull
  | GenLeaf (inl (inl (inl (inr b)))) => JBool b
  | GenLeaf (inl (inl (inr z))) => JNum z
  | GenLeaf (inl (inr s)) => JStr s
  | GenNode 0 l => JArr (map of_tree l)
  | GenNode _ l => JObj (map (fun t => match t with
                                       | GenNode _ [GenLeaf (inr k); t] => (k, of_tree t)
                                       | _ => (EmptyString, JNull)
                                       end) l)
  | GenLeaf (inr _) => JNull
  end.

Fixpoint bits (p : positive) : list Z :=
  match p with xH => [49] | xO p => 48 :: bits p | xI p => 49 :: bits p end.
Fixpoint of_bits (l : list Z) : option positive :=
  match l with
  | [] => None
  | [_] => Some xH
  | d :: l => p ← of_bits l; Some (if d =? 48 then xO p else xI p)
  end.

Fixpoint jv_encodable (j : Jv) : bool :=
  match j with
  | JNum z => (- 2 ^ 63 <=? z) && (z <? 2 ^ 64)
  | JStr s => utf8_ok s
  | JArr l => forallb jv_encodable l
  | JObj l => forallb (fun p => utf8_ok (str p.1) && jv_encodable p.2) l
  | _ => true
  end.

Definition jv_dump (j : Jv) : list Z := bits (encode (to_tree j)).
Definition jv_parse (l : list Z) : option Jv :=
  p ← of_bits l; t ← decode p; Some (of_tree t).

#[export] Instance Jv_json : Json Jv := {
  contains j k := match j with JObj l => bool_decide (is_Some (assoc l k)) | _ => false end;
  idx j k := match j with
             | JObj l => match assoc l k with Some v => inr v | None => inl undefined_behaviour end
             | _ => inl type_error end;
  idx_n j i := match j with
               | JArr l => match l !! i with Some v => inr v | None => inl undefined_behaviour end
               | _ => inl type_error end;
  is_object j := match j with JObj _ => true | _ => false end;
  is_array j := match j with JArr _ => true | _ => false end;
  is_string j := match j with JStr _ => true | _ => false end;
  is_null j := match j with JNull => true | _ => false end;
  is_number_unsigned j := match j with JNum z => 0 <=? z | _ => false end;
  is_boolean j := match j with JBool _ => true | _ => false end;
  is_number j := match j with JNum _ => true | _ => false end;
  json_eq_int j n := match j with JNum z => z =? n | _ => false end;
  jsize j := match j with JArr l => length l | JObj l => length l | JNull => 0%nat | _ => 1%nat end;
  elements j := match j with JArr l => l | JObj l => map snd l | JNull => [] | j => [j] end;
  get_string j := match j with JStr s => inr s | _ => inl type_error end;
  get_bool j := match j with JBool b => inr b | _ => inl type_error end;
  get_uint w j := match j with JNum z => inr (z mod 2 ^ w) | _ => inl type_error end;
  get_int w j := match j with
                 | JNum z => inr ((z + 2 ^ (w - 1)) mod 2 ^ w - 2 ^ (w - 1))
                 | _ => inl type_error end;
  jnull := JNull; jstring := JStr; jnumber := JNum; jbool := JBool;
  jarray := JArr; jobject := JObj;
  parse := jv_parse; parse_stream := jv_parse; encodable := jv_encodable; dump := jv_dump }.

Fixpoint of_to_tree (j : Jv) : of_tree (to_tree j) = j.
Proof.
  destruct j as [| | | |l|l]; try reflexivity; cbn; f_equal; rewrite map_map.
  - induction l as [|j l IH]; cbn; [done|]. f_equal; [apply of_to_tree|exact IH].
  - induction l as [|[k j] l IH]; cbn; [done|]. f_equal; [|exact IH].
    f_equal. apply of_to_tree.
Qed.

Lemma of_bits_bits p : of_bits (bits p) = Some p.
Proof.
  induction p as [p IH|p IH|]; [| |done]; cbn [bits of_bits];
    (destruct (bits p) eqn:E; [by destruct p|]); by rewrite IH.
Qed.

Lemma bits_digits p d : d ∈ bits p -> d = 48 \/ d = 49.
Proof. induction p; cbn; rewrite ?elem_of_cons; set_solver. Qed.

Lemma jv_parse_dump j : jv_parse (jv_dump j) = Some j.
Proof.
  unfold jv_parse, jv_dump. rewrite of_bits_bits. cbn.
  rewrite decode_encode. cbn. by rewrite of_to_tree.
Qed.

#[export] Instance Jv_laws : JsonLaws Jv.
Proof.
  split; try reflexivity.
  - intros l k v E. cbn. by rewrite E.
  - intros w z Hz. cbn. f_equal. by apply Z.mod_small.
  - intros w z Hw Hz. cbn. f_equal. rewrite Z.mod_small; [lia|].
    replace (2 ^ w) with (2 * 2 ^ (w - 1)); [lia|].
    rewrite <- Z.pow_succ_r by lia. f_equal. lia.
  - intros j _. apply jv_parse_dump.
  - intros j _. apply jv_parse_dump.
  - intros j H. apply bits_digits in H. lia.
  - intros j. cbn. unfold jv_dump. by destruct (encode (to_tree j)).
Qed.

End Concrete.
