(* ===== verification/Ledger.v ===== *)
(** * The work ledger ([src/store/ledger.h])

    The map from work identifiers to work items and its persistence as one JSON object
    per line. *)

From stdpp Require Import base numbers list option gmap strings.
From S2P Require Import Prelude FileSys Json Registry.

Open Scope Z_scope.

(** ** The map *)

Abbreviation Ledger := (gmap Z WorkItem).

Definition put (l : Ledger) (i : WorkItem) : Ledger := <[work_id i := i]> l.
Definition get (l : Ledger) (wid : Z) : option WorkItem := l !! wid.
Definition erase (l : Ledger) (wid : Z) : Ledger := delete wid l.

(** ** Persistence *)

Section Persistence.
Context {J : Type} `{Json J}.

Definition arr_to_vec (a : list Z) : J := jarray (map jnumber a).

Definition item_to_json (i : WorkItem) : J :=
  jobject
    [("work_id"%string, jnumber (work_id i));
     ("source_id"%string, jnumber (source_id i));
     ("version"%string, jnumber (version i));
     ("ntime"%string, jnumber (ntime i));
     ("nbits"%string, jnumber (nbits i));
     ("nonce_start"%string, jnumber (nonce_start i));
     ("prevhash_le"%string, arr_to_vec (prevhash_le i));
     ("merkle_root_le"%string, arr_to_vec (merkle_root_le i));
     ("share_target_le"%string, arr_to_vec (share_target_le i));
     ("block_target_le"%string, arr_to_vec (block_target_le i));
     ("vmask"%string, jnumber (vmask i));
     ("ntime_min"%string, jnumber (ntime_min i));
     ("ntime_max"%string, jnumber (ntime_max i));
     ("extranonce2_size"%string, jnumber (extranonce2_size i));
     ("clean_jobs"%string, jbool (clean_jobs i));
     ("active"%string, jbool (active i));
     ("found_submitted"%string, jbool (found_submitted i))].

(** The iteration order of an [unordered_map] is not specified: [order] lists the
    entries. *)
Definition saveToFile (env : Env) (order : Ledger -> list (Z * WorkItem))
    (l : Ledger) (fs : FS) (path : string) : FS * bool :=
  if can_write env path
  then (<[path := concat (map (fun l => l ++ [10]) (map (fun p => dump (item_to_json p.2)) (order l)))]> fs, true)
  else (fs, false).

(** [get<std::vector<uint32_t>>]. *)
Definition get_words (j : J) : throws (list Z) :=
  if is_array j then mapM (get_uint 32) (elements j) else inl type_error.

Definition vec_to_arr (v : list Z) : list Z := take 8 v ++ repeat 0 (8 - length v).

Definition item_of_json (j : J) : throws WorkItem :=
  work_id ← value (get_uint 64) j "work_id" 0;
  source_id ← value (get_uint 32) j "source_id" 0;
  version ← value (get_uint 32) j "version" 0;
  ntime ← value (get_uint 32) j "ntime" 0;
  nbits ← value (get_uint 32) j "nbits" 0;
  nonce_start ← value (get_uint 32) j "nonce_start" 0;
  prevhash ← value get_words j "prevhash_le" [];
  merkle ← value get_words j "merkle_root_le" [];
  share ← value get_words j "share_target_le" [];
  block ← value get_words j "block_target_le" [];
  vmask ← value (get_uint 32) j "vmask" 0;
  ntime_min ← value (get_uint 32) j "ntime_min" 0;
  ntime_max ← value (get_uint 32) j "ntime_max" 0;
  en2 ← value (get_uint 32) j "extranonce2_size" 0;
  clean_jobs ← value get_bool j "clean_jobs" false;
  active ← value get_bool j "active" false;
  found_submitted ← value get_bool j "found_submitted" false;
  mret (mkWorkItem work_id source_id version ntime nbits nonce_start
    (vec_to_arr prevhash) (vec_to_arr merkle) (vec_to_arr share) (vec_to_arr block)
    vmask ntime_min ntime_max (u8 en2) clean_jobs active found_submitted).

(** The [getline] loop; a type error in a parsed line escapes with the map cleared and
    the lines before it loaded. *)
Definition load_line (line : list Z) : M Ledger unit :=
  match line with
  | [] => mret tt
  | _ => match parse line with
         | None => mret tt
         | Some j => i ← lift (item_of_json j); modify (fun l => put l i)
         end
  end.

Definition loadFromFile (fs : FS) (path : string) : M Ledger bool :=
  match fs !! path with
  | None => mret false
  | Some bytes => _ ← modify (fun _ => ∅); _ ← for_each (lines bytes) load_line; mret true
  end.

End Persistence.

(** ** Well-formedness *)

Definition wf_ledger (l : Ledger) : Prop :=
  map_Forall (fun k i => work_id i = k /\ wf_item i) l.

(** ** Lemmas *)

Lemma put_wf l i : wf_item i -> wf_ledger l -> wf_ledger (put l i).
Proof. intros Hi Hl. by apply map_Forall_insert_2. Qed.

Lemma erase_wf l wid : wf_ledger l -> wf_ledger (erase l wid).
Proof. intros. by apply map_Forall_delete. Qed.

Lemma vec_to_arr_words8 v : words8 v -> vec_to_arr v = v.
Proof.
  intros [Hl _]. unfold vec_to_arr. rewrite Hl, take_ge by lia. by rewrite app_nil_r.
Qed.

Section Laws.
Context {J : Type} `{JsonLaws J}.

Lemma mapM_get_uint w v : Forall (in_u w) v -> mapM (get_uint w) (map jnumber v) = inr v.
Proof.
  induction 1 as [|z v Hz _ IH]; [done|]. cbn. rewrite get_uint_jnumber by done.
  cbn. cbn in IH. by rewrite IH.
Qed.

Lemma get_words_arr v : words8 v -> get_words (arr_to_vec v) = inr v.
Proof.
  intros [_ Hv]. unfold get_words, arr_to_vec. rewrite is_array_jarray, elements_jarray.
  by apply mapM_get_uint.
Qed.

Lemma item_roundtrip i : wf_item i -> item_of_json (item_to_json i) = inr i.
Proof.
  intros []. unfold item_of_json, item_to_json.
  repeat (erewrite value_jobject; [|reflexivity];
    first [rewrite get_uint_jnumber by first [done | unfold in_u in *; lia]
          | rewrite get_words_arr by done | rewrite get_bool_jbool]; cbn [mbind throws_bind]).
  rewrite !vec_to_arr_words8, u8_small by done. by destruct i.
Qed.

Lemma item_encodable i : wf_item i -> encodable (item_to_json i) = true.
Proof.
  intros []. apply encodable_object; [reflexivity|]. unfold arr_to_vec.
  repeat (apply Forall_cons; split; [split; [reflexivity|]|]); [..|constructor]; cbn [snd];
    first [apply encodable_jbool | apply encodable_numbers; by match goal with H : words8 _ |- _ => apply H end
          | apply encodable_u64; unfold in_u in *; lia ].
Qed.

Lemma load_line_item l i : wf_item i ->
  load_line (dump (item_to_json i)) l = (inr tt, put l i).
Proof.
  intros Hi. unfold load_line. destruct (dump (item_to_json i)) as [|b d] eqn:E.
  - by apply dump_nonempty in E.
  - rewrite <- E, parse_dump by (by apply item_encodable). unfold mbind, M_bind, lift. by rewrite item_roundtrip.
Qed.

Lemma load_items (items : list WorkItem) rest l :
  Forall wf_item items ->
  for_each (map (fun i => dump (item_to_json i)) items ++ rest) load_line l
  = for_each rest load_line (fold_left put items l).
Proof.
  intros Hi. revert l. induction Hi as [|i items Hi _ IH]; intros l; [done|].
  cbn [map app for_each]. unfold mbind at 1, M_bind at 1. by rewrite load_line_item, IH.
Qed.

Definition text_of (items : list WorkItem) : list (list Z) :=
  map (fun i => dump (item_to_json i)) items.

Lemma text_one_line items : Forall (fun l => 10 ∉ l) (text_of items).
Proof. apply Forall_forall. intros l (i & -> & _)%list_elem_of_fmap. apply dump_one_line. Qed.

(** Loading a saved text followed by a partial line. *)
Lemma load_text items tail l :
  Forall wf_item items -> 10 ∉ tail -> tail = [] \/ parse tail = None ->
  for_each (lines (concat (map (fun l => l ++ [10]) (text_of items)) ++ tail)) load_line l
  = (inr tt, fold_left put items l).
Proof.
  intros Hi Ht Hp. rewrite lines_concat by (done || apply text_one_line).
  unfold text_of. rewrite load_items by done.
  destruct tail as [|b tail]; [done|]. destruct Hp as [|Hp]; [done|].
  cbn [for_each]. unfold mbind, M_bind, load_line. by rewrite Hp.
Qed.

End Laws.

Lemma wf_ledger_items l (es : list (Z * WorkItem)) :
  wf_ledger l -> es ≡ₚ map_to_list l -> Forall wf_item (map snd es).
Proof.
  intros Hl He. apply Forall_forall. intros i ([k j] & -> & Hin)%list_elem_of_fmap.
  rewrite He in Hin. apply elem_of_map_to_list in Hin. by apply Hl in Hin as [].
Qed.

Lemma fold_put_map l es :
  map_Forall (fun k i => work_id i = k) l -> es ≡ₚ map_to_list l ->
  fold_left put (map snd es) ∅ = l.
Proof.
  intros Hk Hp.
  assert (forall m, fold_left put (map snd es) m = list_to_map (rev es) ∪ m) as E.
  { assert (Forall (fun p => work_id p.2 = p.1) es) as He.
    { apply Forall_forall. intros [k i] Hin. rewrite Hp in Hin.
      apply elem_of_map_to_list in Hin. by apply Hk. }
    clear Hp. induction He as [|[k i] es Hw _ IH]; intros m; cbn [map fold_left rev].
    - cbn. by rewrite (left_id_L ∅ (∪)).
    - rewrite IH. unfold put. cbn [snd fst] in *. rewrite Hw, list_to_map_app.
      cbn [list_to_map foldr]. rewrite <- (assoc_L (∪)). f_equal. cbn.
      by rewrite <- insert_union_l, (left_id_L ∅ (∪)). }
  rewrite E, (right_id_L ∅ (∪)).
  assert (rev es ≡ₚ map_to_list l) as Hr by (by rewrite <- Permutation_rev).
  rewrite (list_to_map_proper (rev es) (map_to_list l)); [apply list_to_map_to_list| |done].
  rewrite Hr. apply NoDup_fst_map_to_list.
Qed.

(** ** Properties *)

(** C30: a ledger saved to a file and loaded back, whatever was in memory before, is the
    same ledger, for any iteration order of the hash map; a truncated last line that does
    not parse (a crash during the save) is ignored. *)
Theorem ledger_roundtrip {J} `{JsonLaws J} env order l l0 fs path tail :
  can_write env path = true -> wf_ledger l -> order l ≡ₚ map_to_list l ->
  10 ∉ tail -> parse (J := J) tail = None ->
  let fs1 := (saveToFile (J := J) env order l fs path).1 in
  loadFromFile (J := J) fs1 path l0 = (inr true, l) /\
  loadFromFile (J := J) (fs_append fs1 path tail) path l0 = (inr true, l).
Proof.
  intros Hw Hl Ho Ht Hp fs1.
  assert (fs1 !! path = Some (concat (map (fun l => l ++ [10]) (text_of (J := J) (map snd (order l)))))) as E1.
  { unfold fs1, saveToFile. rewrite Hw. cbn [fst]. rewrite lookup_insert_eq.
    unfold text_of. by rewrite (map_map snd). }
  pose proof (wf_ledger_items l (order l) Hl Ho) as Hi.
  assert (fold_left put (map snd (order l)) ∅ = l) as Hf
    by (apply fold_put_map; [intros k i Hk; by apply Hl in Hk as []|done]).
  unfold loadFromFile, mbind, M_bind, modify. split.
  - rewrite E1, <- (app_nil_r (concat _)). cbv beta iota. rewrite load_text by (done || by left || apply not_elem_of_nil).
    by rewrite Hf.
  - unfold fs_append. rewrite lookup_insert_eq, E1. cbn [default from_option].
    unfold id. cbv beta iota. rewrite load_text by (done || by right). by rewrite Hf.
Qed.

Import Concrete.

Lemma ledger_roundtrip_witness :
  let env := mkEnv (fun _ => true) (fun _ _ => true) (fun _ _ => true) in
  let l := put ∅ WorkItem_default in
  loadFromFile (J := Concrete.Jv)
    (fs_append (saveToFile (J := Concrete.Jv) env map_to_list l ∅ "l").1 "l" [50]) "l" ∅ = (inr true, l).
Proof.
  apply (ledger_roundtrip (J := Concrete.Jv) (mkEnv (fun _ => true) (fun _ _ => true) (fun _ _ => true))
    map_to_list (put ∅ WorkItem_default) ∅ ∅ "l" [50]).
  - reflexivity.
  - apply put_wf; [|apply map_Forall_empty].
    split; try in_range; (split; [reflexivity|in_range]).
  - reflexivity.
  - apply (bool_decide_unpack _). reflexivity.
  - vm_compute. reflexivity.
Defined.
