(* ===== verification/Hex.v ===== *)
(** * Hexadecimal text and Bitcoin's variable-length integers

    The formatting helpers of [src/submit/gbt_submitter.cc] and their inverses: the hex
    digits of bytes, the [setw(2)] idiom, [encodeVarIntHex] and the CompactSize encoding
    it implements. *)

From stdpp Require Import base numbers list option strings.
From S2P Require Import Prelude Json.

Open Scope Z_scope.
Open Scope cxx_scope.

(** ** Definitions *)

Definition kHex : list Z := str "0123456789abcdef".
Definition kHex_at (n : Z) : Z := rd kHex (Z.to_nat n).

(** [kHex[(b >> 4) & 0xF]], [kHex[b & 0xF]]. *)
Definition hex_byte (b : Z) : list Z := [kHex_at ((b .>> 4) .& 15); kHex_at (b .& 15)].

Definition bytesToHex (bytes : list Z) : list Z := concat (map hex_byte bytes).

(** [oss << std::hex << std::setw(2) << std::setfill('0') << n] for [n >= 0]: at least
    two digits. *)
Fixpoint hex_digits (fuel : nat) (n : Z) : list Z :=
  match fuel with
  | O => []
  | S fuel => if n <? 16 then [kHex_at n] else hex_digits fuel (n / 16) ++ [kHex_at (n mod 16)]
  end.
Definition put_w2 (n : Z) : list Z :=
  let d := hex_digits 16 n in repeat 48 (2 - length d) ++ d.

(** The lambda [emitLE]. *)
Definition emitLE (vv : Z) (bytes : nat) : list Z :=
  concat (map (fun i => hex_byte (u8 ((vv .>> (8 * Z.of_nat i)) .& 255))) (seq 0 bytes)).

Definition encodeVarIntHex (v : Z) : list Z :=
  if v <? 253 then emitLE v 1
  else if v <=? 65535 then str "fd" ++ emitLE v 2
  else if v <=? 4294967295 then str "fe" ++ emitLE v 4
  else str "ff" ++ emitLE v 8.

(** ** Specification *)

Definition hex_val (c : Z) : option Z :=
  if (48 <=? c) && (c <=? 57) then Some (c - 48)
  else if (97 <=? c) && (c <=? 102) then Some (c - 87)
  else if (65 <=? c) && (c <=? 70) then Some (c - 55)
  else None.

Fixpoint from_hex (s : list Z) : option (list Z) :=
  match s with
  | [] => Some []
  | h :: l :: s => h ← hex_val h; l ← hex_val l; r ← from_hex s; Some (h * 16 + l :: r)
  | _ => None
  end.

(** The CompactSize encoding. *)
Definition compact_size (v : Z) : list Z :=
  if v <? 253 then le_bytes 1 v
  else if v <? 2 ^ 16 then 253 :: le_bytes 2 v
  else if v <? 2 ^ 32 then 254 :: le_bytes 4 v
  else 255 :: le_bytes 8 v.

Definition split_at (n : nat) (l : list Z) : option (list Z * list Z) :=
  if (n <=? length l)%nat then Some (take n l, drop n l) else None.

Definition read_compact_size (l : list Z) : option (Z * list Z) :=
  match l with
  | [] => None
  | b :: l =>
      if b <? 253 then Some (b, l)
      else
        let n := if b =? 253 then 2%nat else if b =? 254 then 4%nat else 8%nat in
        '(d, l) ← split_at n l; Some (le_val d, l)
  end.

(** ** Lemmas *)

Lemma hex_val_kHex n : 0 <= n < 16 -> hex_val (kHex_at n) = Some n.
Proof.
  intros H. replace n with (Z.of_nat (Z.to_nat n)) by lia.
  assert (Z.to_nat n < 16)%nat as Hn by lia. revert Hn. generalize (Z.to_nat n). clear.
  intros n Hn. do 16 (destruct n as [|n]; [reflexivity|]). lia.
Qed.

Lemma hex_byte_nibbles b : is_u8 b -> hex_byte b = [kHex_at (b / 16); kHex_at (b mod 16)].
Proof.
  unfold in_u, hex_byte. intros. change 15 with (2 ^ 4 - 1).
  rewrite !land_ones_mod, Z.shiftr_div_pow2 by lia. change (2 ^ 4) with 16.
  rewrite (Z.mod_small (b / 16)); [done|]. Z.to_euclidean_division_equations. lia.
Qed.

Lemma from_hex_byte b s : is_u8 b -> from_hex (hex_byte b ++ s) = r ← from_hex s; Some (b :: r).
Proof.
  intros Hb. rewrite hex_byte_nibbles by done. unfold in_u in Hb. cbn [app from_hex].
  rewrite !hex_val_kHex by (Z.to_euclidean_division_equations; lia). cbn [mbind option_bind].
  destruct (from_hex s); [|done]. cbn. do 2 f_equal. pose proof (Z.div_mod b 16). lia.
Qed.

Lemma bytesToHex_app a b : bytesToHex (a ++ b) = bytesToHex a ++ bytesToHex b.
Proof. unfold bytesToHex. by rewrite map_app, concat_app. Qed.

Lemma bytesToHex_cons b l : bytesToHex (b :: l) = hex_byte b ++ bytesToHex l.
Proof. done. Qed.

Lemma hex_byte_utf8 b s : utf8_ok (hex_byte b ++ s) = utf8_ok s.
Proof.
  unfold hex_byte. cbn [app utf8_ok].
  assert (forall x, 0 <= kHex_at x <= 127) as Hk.
  { intros x. unfold kHex_at. generalize (Z.to_nat x). intros n. do 16 (destruct n as [|n]; [cbn; lia|]).
    unfold rd. rewrite nth_overflow by (cbn; lia). lia. }
  pose proof (Hk (b .>> 4 .& 15)%cxx). pose proof (Hk (b .& 15)%cxx).
  by rewrite !(proj2 (Z.leb_le _ _)) by lia.
Qed.

(** Hexadecimal text is UTF-8. *)
Lemma bytesToHex_utf8 l : utf8_ok (bytesToHex l) = true.
Proof. induction l as [|b l IH]; [done|]. by rewrite bytesToHex_cons, hex_byte_utf8. Qed.

Lemma bytesToHex_length l : length (bytesToHex l) = (2 * length l)%nat.
Proof. induction l as [|b l IH]; [done|]. rewrite bytesToHex_cons, length_app, IH. cbn. lia. Qed.

Lemma from_hex_app bs s : is_bytes bs ->
  from_hex (bytesToHex bs ++ s) = r ← from_hex s; Some (bs ++ r).
Proof.
  induction 1 as [|b bs Hb _ IH]; cbn [app].
  - cbn. by destruct (from_hex s).
  - rewrite bytesToHex_cons, <- app_assoc, from_hex_byte, IH by done.
    by destruct (from_hex s).
Qed.

Lemma from_hex_bytesToHex bs : is_bytes bs -> from_hex (bytesToHex bs) = Some bs.
Proof.
  intros H. rewrite <- (app_nil_r (bytesToHex bs)), from_hex_app by done. cbn. by rewrite app_nil_r.
Qed.

Lemma bytesToHex_inj a b : is_bytes a -> is_bytes b -> bytesToHex a = bytesToHex b -> a = b.
Proof.
  intros Ha Hb E. apply (f_equal from_hex) in E. rewrite !from_hex_bytesToHex in E by done.
  by injection E.
Qed.

Lemma bytesToHex_half bs : zlen (bytesToHex bs) / 2 = zlen bs.
Proof. rewrite bytesToHex_length, Nat2Z.inj_mul, Z.mul_comm. by apply Z.div_mul. Qed.

(** Two hex digits below 256. *)
Lemma put_w2_byte b : is_u8 b -> put_w2 b = hex_byte b.
Proof.
  intros Hb. rewrite hex_byte_nibbles by done. unfold in_u in Hb. unfold put_w2.
  cbn [hex_digits]. destruct (Z.ltb_spec b 16).
  - rewrite Z.div_small, Z.mod_small by lia. reflexivity.
  - destruct (Z.ltb_spec (b / 16) 16) as [|Hc].
    + reflexivity.
    + exfalso. Z.to_euclidean_division_equations. lia.
Qed.

Lemma put_w2_bytes bs : is_bytes bs -> concat (map put_w2 bs) = bytesToHex bs.
Proof.
  unfold bytesToHex. induction 1 as [|b bs Hb _ IH]; [done|]. cbn [map concat]. by rewrite put_w2_byte, IH.
Qed.

(** From 256 on the digits of a length no longer fill one byte. *)
Lemma put_w2_wide b : 256 <= b < 4096 -> length (put_w2 b) = 3%nat.
Proof.
  intros Hb. unfold put_w2. cbn [hex_digits].
  destruct (Z.ltb_spec b 16); [lia|]. destruct (Z.ltb_spec (b / 16) 16) as [|Hc].
  - exfalso. Z.to_euclidean_division_equations. lia.
  - destruct (Z.ltb_spec (b / 16 / 16) 16); [reflexivity|].
    exfalso. Z.to_euclidean_division_equations. lia.
Qed.

Lemma le_bytes_seq n v :
  le_bytes n v = map (fun i => (v / 2 ^ (8 * Z.of_nat i)) mod 2 ^ 8) (seq 0 n).
Proof.
  revert v. induction n as [|n IH]; intros v; [done|]. cbn [le_bytes seq map].
  rewrite Z.mul_0_r, Z.pow_0_r, Z.div_1_r. f_equal.
  rewrite IH, <- seq_shift, map_map. apply map_ext. intros i.
  rewrite Z.div_div by lia. do 2 f_equal.
  replace (8 * Z.of_nat (S i)) with (8 + 8 * Z.of_nat i) by lia. by rewrite Z.pow_add_r by lia.
Qed.

Lemma emitLE_le_bytes v n : emitLE v n = bytesToHex (le_bytes n v).
Proof.
  unfold emitLE, bytesToHex. rewrite le_bytes_seq, map_map. f_equal. apply map_ext. intros i.
  change 255 with (2 ^ 8 - 1). rewrite land_ones_mod, Z.shiftr_div_pow2 by lia.
  unfold u8. by rewrite Z.mod_mod.
Qed.

Lemma encodeVarIntHex_compact v : is_u64 v -> encodeVarIntHex v = bytesToHex (compact_size v).
Proof.
  intros Hv. unfold in_u in Hv. unfold encodeVarIntHex, compact_size. rewrite !emitLE_le_bytes.
  destruct (Z.ltb_spec v 253); [done|].
  destruct (Z.leb_spec v 65535), (Z.ltb_spec v (2 ^ 16)); try lia; [done|].
  destruct (Z.leb_spec v 4294967295), (Z.ltb_spec v (2 ^ 32)); try lia; done.
Qed.

Lemma compact_size_bytes v : is_bytes (compact_size v).
Proof.
  unfold compact_size. repeat case_match; try apply le_bytes_bytes;
    (constructor; [unfold in_u; lia|apply le_bytes_bytes]).
Qed.

Lemma split_at_app a b n : length a = n -> split_at n (a ++ b) = Some (a, b).
Proof.
  intros <-. unfold split_at. rewrite length_app.
  destruct (Nat.leb_spec (length a) (length a + length b)); [|lia].
  by rewrite take_app_length, drop_app_length.
Qed.

Lemma read_compact_size_app v rest :
  is_u64 v -> read_compact_size (compact_size v ++ rest) = Some (v, rest).
Proof.
  intros Hv. unfold in_u in Hv. unfold compact_size.
  destruct (Z.ltb_spec v 253).
  - cbn [le_bytes app read_compact_size]. rewrite Z.mod_small by lia.
    by destruct (Z.ltb_spec v 253); [|lia].
  - destruct (Z.ltb_spec v (2 ^ 16)); [|destruct (Z.ltb_spec v (2 ^ 32))];
      cbn [app read_compact_size Z.ltb Z.eqb Z.compare Pos.compare Pos.compare_cont Pos.eqb];
      rewrite split_at_app by apply le_bytes_length; cbn [mbind option_bind];
      rewrite le_val_le_bytes; cbn [Z.of_nat Pos.of_succ_nat Pos.succ]; rewrite Z.mod_small by lia; done.
Qed.

(** ** Properties *)

(** [encodeVarIntHex] writes the CompactSize encoding of every 64-bit value: the hex
    text decodes to bytes from which the value is read back, whatever follows, and the
    encoding has the length its range prescribes. *)
Theorem varint_roundtrip v rest :
  is_u64 v ->
  exists bs, from_hex (encodeVarIntHex v) = Some bs /\
    read_compact_size (bs ++ rest) = Some (v, rest) /\
    zlen bs = (if v <? 253 then 1 else if v <? 2 ^ 16 then 3 else if v <? 2 ^ 32 then 5 else 9).
Proof.
  intros Hv. exists (compact_size v).
  rewrite encodeVarIntHex_compact, from_hex_bytesToHex by (done || apply compact_size_bytes).
  split_and!; [done|by apply read_compact_size_app|].
  unfold compact_size. repeat case_match; done.
Qed.

Lemma varint_roundtrip_witness :
  exists bs, from_hex (encodeVarIntHex 515) = Some bs /\ read_compact_size (bs ++ [7]) = Some (515, [7]).
Proof.
  destruct (varint_roundtrip 515 [7] ltac:(in_range)) as (bs & H1 & H2 & _).
  exists bs. split; [exact H1|exact H2].
Defined.
