(* ===== verification/Text.v ===== *)
(** * Number parsing from text

    The two C library conversions the sources apply to hexadecimal fields:
    [std::stoul(s, nullptr, 16)] and [sscanf(p, "%02x", &v)], and the byte loop three
    sources repeat with the latter (stratum_runner.cc:186, gbt_runner.cc:42). *)

From stdpp Require Import base numbers list option.
From S2P Require Import Prelude Hex.

Open Scope Z_scope.

(** ** Definitions *)

(** The value of a hexadecimal digit in either case. *)
Definition digit_val (c : Z) : option Z :=
  if (48 <=? c) && (c <=? 57) then Some (c - 48)
  else if (97 <=? c) && (c <=? 102) then Some (c - 87)
  else if (65 <=? c) && (c <=? 70) then Some (c - 55)
  else None.

Definition is_space (c : Z) : bool := (c =? 32) || ((9 <=? c) && (c <=? 13)).

Fixpoint skip_space (s : list Z) : list Z :=
  match s with c :: r => if is_space c then skip_space r else s | [] => [] end.

(** The longest run of digits, most significant first, and whether there was one. *)
Fixpoint hex_run (s : list Z) (acc : Z) : Z :=
  match s with
  | [] => acc
  | c :: r => match digit_val c with Some d => hex_run r (acc * 16 + d) | None => acc end
  end.

Definition starts_digit (s : list Z) : bool :=
  match s with c :: _ => match digit_val c with Some _ => true | None => false end | [] => false end.

(** [0x] counts as a prefix only before a digit. *)
Definition skip_0x (s : list Z) : list Z :=
  match s with
  | z :: x :: r => if (z =? 48) && ((x =? 120) || (x =? 88)) && starts_digit r then r else s
  | _ => s
  end.

Definition stoul16 (s : list Z) : throws Z :=
  let s := skip_space s in
  let '(neg, s) :=
    match s with
    | c :: r => if c =? 45 then (true, r) else if c =? 43 then (false, r) else (false, s)
    | [] => (false, s)
    end in
  let s := skip_0x s in
  if starts_digit s then
    let v := hex_run s 0 in
    if v <? 2 ^ 64 then inr (if neg : bool then u64 (- v) else v) else inl out_of_range
  else inl invalid_argument.

(** [sscanf(p, "%02x", &v)] followed by the conversion to a byte.  When nothing converts
    the variable is uninitialised and its use undefined; "0x" inside the two characters
    is a matching failure too. *)
Definition scan_byte (s : list Z) : throws Z :=
  match skip_space s with
  | c :: s =>
      if (c =? 45) || (c =? 43) then
        match s with
        | d :: _ => match digit_val d with
                    | Some d => inr (u8 (if c =? 45 then - d else d))
                    | None => inl undefined_behaviour end
        | [] => inl undefined_behaviour
        end
      else
        match digit_val c with
        | None => inl undefined_behaviour
        | Some a =>
            match s with
            | d :: _ =>
                match digit_val d with
                | Some b => inr (a * 16 + b)
                | None => if (c =? 48) && ((d =? 120) || (d =? 88)) then inl undefined_behaviour else inr a
                end
            | [] => inr a
            end
        end
  | [] => inl undefined_behaviour
  end.

(** [for (i = 0; i < n; i++) { sscanf(hex.c_str() + 2*i, ...); out[i] = v; }]; a start
    beyond the terminator is out of bounds. *)
Definition scan_bytes (hex : list Z) (n : nat) : throws (list Z) :=
  mapM (fun i => if (2 * i <=? length hex)%nat then scan_byte (drop (2 * i) hex)
                 else inl undefined_behaviour) (seq 0 n).

(** [hexToBytes(hex, out, out_len)] into an array of [out_len] bytes. *)
Definition hexToBytes (hex out : list Z) : throws (list Z) :=
  let n := Nat.min (length hex / 2) (length out) in
  l ← scan_bytes hex n; mret (l ++ drop n out).

(** ** Reading back the printers of [Hex.v] *)

Lemma kHex_digit n : 0 <= n < 16 -> digit_val (kHex_at n) = Some n /\ is_space (kHex_at n) = false /\
  (kHex_at n =? 45) || (kHex_at n =? 43) = false /\ (kHex_at n =? 120) || (kHex_at n =? 88) = false.
Proof.
  intros H.
  assert (forallb (fun i => bool_decide (digit_val (kHex_at (Z.of_nat i)) = Some (Z.of_nat i)) &&
      negb (is_space (kHex_at (Z.of_nat i))) &&
      negb ((kHex_at (Z.of_nat i) =? 45) || (kHex_at (Z.of_nat i) =? 43)) &&
      negb ((kHex_at (Z.of_nat i) =? 120) || (kHex_at (Z.of_nat i) =? 88))) (seq 0 16) = true) as A
    by (vm_compute; reflexivity).
  rewrite forallb_forall in A. specialize (A (Z.to_nat n)).
  rewrite Z2Nat.id, !andb_true_iff, bool_decide_eq_true, !negb_true_iff in A by lia.
  destruct A as [[[? ?] ?] ?]; [apply in_seq; lia|done].
Qed.

Lemma scan_byte_hex b s : is_u8 b -> scan_byte (hex_byte b ++ s) = inr b.
Proof.
  intros Hb. rewrite hex_byte_nibbles by done. unfold in_u in Hb. unfold scan_byte. cbn [app skip_space].
  destruct (kHex_digit (b / 16)) as (E1 & -> & Es & _); [Z.to_euclidean_division_equations; lia|].
  destruct (kHex_digit (b mod 16)) as (E2 & _ & _); [Z.to_euclidean_division_equations; lia|].
  rewrite Es, E1, E2. f_equal. pose proof (Z.div_mod b 16). lia.
Qed.

Lemma drop_bytesToHex k bs : drop (2 * k) (bytesToHex bs) = bytesToHex (drop k bs).
Proof.
  revert bs. induction k as [|k IH]; intros bs; [done|]. replace (2 * S k)%nat with (2 + 2 * k)%nat by lia.
  destruct bs as [|b bs]; [by rewrite drop_nil|]. rewrite <- drop_drop. apply IH.
Qed.

Lemma scan_bytes_hex bs n :
  is_bytes bs -> (n <= length bs)%nat -> scan_bytes (bytesToHex bs) n = inr (take n bs).
Proof.
  intros Hb. unfold scan_bytes.
  assert (forall k n, (k + n <= length bs)%nat ->
    mapM (fun i => if (2 * i <=? length (bytesToHex bs))%nat then scan_byte (drop (2 * i) (bytesToHex bs))
                   else inl undefined_behaviour) (seq k n) = inr (take n (drop k bs))) as A;
    [|intros Hn; by apply (A 0%nat n)].
  clear n. intros k n. revert k. induction n as [|n IH]; intros k Hk; [done|]. cbn [seq mapM].
  rewrite bytesToHex_length, (proj2 (Nat.leb_le _ _)), drop_bytesToHex by lia.
  destruct (drop k bs) as [|b r] eqn:E; [apply (f_equal length) in E; rewrite length_drop in E; cbn in E; lia|].
  rewrite bytesToHex_cons, scan_byte_hex.
  - cbn [mbind throws_bind]. rewrite <- (bytesToHex_length bs), (IH (S k)) by lia. cbn.
    replace (drop (S k) bs) with r; [done|].
    replace (S k) with (k + 1)%nat by lia. by rewrite <- drop_drop, E.
  - apply (Forall_drop _ k) in Hb. rewrite E in Hb. by inversion Hb.
Qed.

Lemma hexToBytes_hex bs out :
  is_bytes bs -> length bs = length out -> hexToBytes (bytesToHex bs) out = inr bs.
Proof.
  intros Hb Hl. unfold hexToBytes. rewrite bytesToHex_length, Nat.mul_comm, Nat.div_mul by done.
  rewrite <- Hl, Nat.min_id, scan_bytes_hex by done. cbn.
  by rewrite firstn_all, Hl, drop_all, app_nil_r.
Qed.

(** Eight digits of a 32-bit word. *)
Lemma hex_run_byte b s acc : is_u8 b -> hex_run (hex_byte b ++ s) acc = hex_run s (acc * 256 + b).
Proof.
  intros Hb. rewrite hex_byte_nibbles by done. unfold in_u in Hb. cbn [app hex_run].
  destruct (kHex_digit (b / 16)) as (-> & _); [Z.to_euclidean_division_equations; lia|].
  destruct (kHex_digit (b mod 16)) as (-> & _); [Z.to_euclidean_division_equations; lia|].
  f_equal. pose proof (Z.div_mod b 16). lia.
Qed.

Lemma hex_run_bytes bs acc :
  is_bytes bs -> hex_run (bytesToHex bs) acc = acc * 2 ^ (8 * zlen bs) + be_val bs.
Proof.
  intros H. revert acc. induction H as [|b bs Hb _ IH]; intros acc; [cbn; lia|].
  rewrite bytesToHex_cons, hex_run_byte, IH, be_val_cons by done. cbn [length].
  replace (8 * Z.of_nat (S (length bs))) with (8 + 8 * zlen bs) by lia.
  rewrite Z.pow_add_r by lia. ring.
Qed.

Lemma stoul16_hex_word w : is_u32 w -> stoul16 (bytesToHex (be_bytes32 w)) = inr w.
Proof.
  intros Hw. pose proof (be_bytes32_bytes w) as Hb. pose proof (be_bytes32_val w Hw) as Hv.
  destruct (be_bytes32 w) as [|a bs] eqn:E; [by apply (f_equal length) in E|].
  assert (is_u8 a) as Ha by (by inversion Hb).
  assert (hex_run (bytesToHex (a :: bs)) 0 = w) as Hr by (rewrite hex_run_bytes by done; lia).
  revert Hr. rewrite bytesToHex_cons, hex_byte_nibbles by done. unfold in_u in Ha, Hw.
  destruct (kHex_digit (a / 16)) as (E1 & Es & Esign & _); [Z.to_euclidean_division_equations; lia|].
  destruct (kHex_digit (a mod 16)) as (_ & _ & _ & Ex); [Z.to_euclidean_division_equations; lia|].
  intros Hr. unfold stoul16. cbn [app skip_space] in *. rewrite Es.
  apply orb_false_iff in Esign as [-> ->]. unfold skip_0x. rewrite Ex, andb_false_r. cbn [andb].
  unfold starts_digit. rewrite E1, Hr. by rewrite (proj2 (Z.ltb_lt w (2 ^ 64))) by lia.
Qed.
