(* ===== verification/GbtSubmitter.v ===== *)
(** * Block assembly for getblocktemplate pools ([src/submit/gbt_submitter.cc])

    The coinbase transaction, the block text and the cached template, against the
    serialisation of transactions. *)

From stdpp Require Import base numbers list option strings.
From S2P Require Import Prelude Hex Json.

Open Scope Z_scope.
Open Scope cxx_scope.

(** ** Amounts and heights *)

Definition computeBlockSubsidy (height : Z) : Z :=
  let COIN := 100000000 in
  let subsidy := 50 * COIN in
  let halvings := height / 210000 in
  if 64 <=? halvings then 0 else subsidy .>> halvings.

(** [while (height) { le.push_back(height & 0xFF); height >>= 8; }]: four rounds empty a
    32-bit value. *)
Fixpoint height_bytes (fuel : nat) (height : Z) : list Z :=
  match fuel with
  | O => []
  | S fuel => if height =? 0 then [] else u8 (height .& 255) :: height_bytes fuel (height .>> 8)
  end.

Definition bip34_le (height : Z) : list Z :=
  match height_bytes 4 height with [] => [0] | le => le end.

Definition encodeBip34Height (height : Z) : list Z :=
  let le := bip34_le height in put_w2 (zlen le) ++ concat (map put_w2 le).

(** ** Coinbase transactions

    [None] is the [false] return; the output pointer is not null. *)

Definition appendVarInt (v : Z) : list Z := encodeVarIntHex v.

(** [s.size() / 2] *)
Definition half_size (s : list Z) : Z := zlen s / 2.

Definition zeros32_hex : list Z := concat (repeat (str "00") 32).

Definition buildMinimalWitnessCommitmentCoinbase (height_le : Z) (commitment32_hex : list Z) :
    option (list Z) :=
  if negb (zlen commitment32_hex =? 64) then None
  else
    let h := encodeBip34Height height_le in
    let spk := str "6a" ++ str "26" ++ str "aa21a9ed" ++ commitment32_hex in
    Some (str "01000000" ++ appendVarInt 1 ++ zeros32_hex ++ str "ffffffff" ++
          appendVarInt (half_size h) ++ h ++ str "ffffffff" ++ appendVarInt 1 ++
          str "0000000000000000" ++ appendVarInt (half_size spk) ++ spk ++ str "00000000").

(** The loop over the eight bytes of [value_sat]. *)
Definition value_hex (value_sat : Z) : list Z :=
  concat (map (fun i => put_w2 ((value_sat .>> (8 * Z.of_nat i)) .& 255)) (seq 0 8)).

Definition buildCoinbaseTx (height_le : Z) (payout_script_hex : list Z) (value_sat : Z)
    (commitment32_hex extra_sig_push_hex : list Z) : option (list Z) :=
  if negb (zlen commitment32_hex =? 64) then None
  else
    let h := encodeBip34Height height_le in
    let sig := match extra_sig_push_hex with
               | [] => h
               | _ => h ++ put_w2 (half_size extra_sig_push_hex) ++ extra_sig_push_hex
               end in
    let spk := str "6a" ++ str "24" ++ str "aa21a9ed" ++ commitment32_hex in
    Some (str "01000000" ++ appendVarInt 1 ++ zeros32_hex ++ str "ffffffff" ++
          appendVarInt (half_size sig) ++ sig ++ str "ffffffff" ++ appendVarInt 2 ++
          value_hex value_sat ++ appendVarInt (half_size payout_script_hex) ++ payout_script_hex ++
          str "0000000000000000" ++ appendVarInt (half_size spk) ++ spk ++ str "00000000").

(** ** The submitter *)

Record GbtSubmitter := mkGbtSubmitter {
  coinbase_hex_ : list Z;
  txs_hex_ : list (list Z);
  witness_commitment_hex_ : option (list Z);
  allow_synth_coinbase_ : bool;
  payout_script_hex_ : list Z;
  coinbase_tag_ : list Z }.

Definition GbtSubmitter_init : GbtSubmitter := mkGbtSubmitter [] [] None false [] [].

Definition setAllowSynthCoinbase (s : GbtSubmitter) (allow : bool) : GbtSubmitter :=
  mkGbtSubmitter (coinbase_hex_ s) (txs_hex_ s) (witness_commitment_hex_ s) allow
    (payout_script_hex_ s) (coinbase_tag_ s).
Definition setPayoutScriptHex (s : GbtSubmitter) (hex : list Z) : GbtSubmitter :=
  mkGbtSubmitter (coinbase_hex_ s) (txs_hex_ s) (witness_commitment_hex_ s)
    (allow_synth_coinbase_ s) hex (coinbase_tag_ s).
Definition setCoinbaseTag (s : GbtSubmitter) (tag : list Z) : GbtSubmitter :=
  mkGbtSubmitter (coinbase_hex_ s) (txs_hex_ s) (witness_commitment_hex_ s)
    (allow_synth_coinbase_ s) (payout_script_hex_ s) tag.
Definition hasCoinbase (s : GbtSubmitter) : bool :=
  match coinbase_hex_ s with [] => false | _ => true end.

Definition set_cached (s : GbtSubmitter) cb txs w : GbtSubmitter :=
  mkGbtSubmitter cb txs w (allow_synth_coinbase_ s) (payout_script_hex_ s) (coinbase_tag_ s).
Definition set_coinbase (cb : list Z) (s : GbtSubmitter) : GbtSubmitter :=
  set_cached s cb (txs_hex_ s) (witness_commitment_hex_ s).
Definition push_tx (tx : list Z) (s : GbtSubmitter) : GbtSubmitter :=
  set_cached s (coinbase_hex_ s) (txs_hex_ s ++ [tx]) (witness_commitment_hex_ s).
Definition set_witness (w : list Z) (s : GbtSubmitter) : GbtSubmitter :=
  set_cached s (coinbase_hex_ s) (txs_hex_ s) (Some w).
Definition reset_cached (s : GbtSubmitter) : GbtSubmitter := set_cached s [] [] None.

(** Despite its name and comment the source writes the bytes in their given order. *)
Definition leHexFromHeaderBE (header80_be : list Z) : list Z :=
  concat (map hex_byte (take 80 header80_be)).

Definition buildBlockHex (s : GbtSubmitter) (header80_be : list Z) : list Z :=
  let tx_count := u64 ((if hasCoinbase s then 1 else 0) + zlen (txs_hex_ s)) in
  leHexFromHeaderBE header80_be ++ encodeVarIntHex tx_count ++
  (if hasCoinbase s then coinbase_hex_ s else []) ++ concat (txs_hex_ s).

Section Template.
Context {J : Type} `{Json J}.

(** [gbt.contains(k) && p(gbt[k])] *)
Definition has (p : J -> bool) (j : J) (k : string) : throws bool :=
  if contains j k then v ← idx j k; mret (p v) else mret false.

Definition template_tx (tx : J) : M GbtSubmitter unit :=
  if contains tx "data" then
    d ← lift (idx tx "data"); s ← lift (get_string d); modify (push_tx s)
  else mret tt.

(** Fees of the transactions, each guarded by its own [try]. *)
Fixpoint sum_fees (txs : list J) (fees : Z) : throws Z :=
  match txs with
  | [] => mret fees
  | tx :: txs =>
      fees ← catch (if contains tx "fee" then
                      v ← idx tx "fee"; f ← get_int 64 v; mret (u64 (fees + u64 f))
                    else mret fees)
                   (mret fees);
      sum_fees txs fees
  end.

Definition template_height (gbt : J) : throws Z :=
  catch (if contains gbt "height" then v ← idx gbt "height"; h ← get_int 32 v; mret (u32 h)
         else mret 0) (mret 0).

Definition synth_coinbase (gbt : J) (s : GbtSubmitter) (w : list Z) : throws (option (list Z)) :=
  height ← template_height gbt;
  match payout_script_hex_ s with
  | [] => mret (buildMinimalWitnessCommitmentCoinbase height w)
  | payout =>
      b ← has is_array gbt "transactions";
      fees ← (if b : bool then t ← idx gbt "transactions"; sum_fees (elements t) 0 else mret 0);
      mret (buildCoinbaseTx height payout (u64 (computeBlockSubsidy height + fees)) w (coinbase_tag_ s))
  end.

Definition template_coinbase (gbt : J) : M GbtSubmitter unit :=
  b ← lift (has is_object gbt "coinbasetxn");
  if b : bool then
    c ← lift (idx gbt "coinbasetxn"); d ← lift (idx c "data");
    s ← lift (get_string d); modify (set_coinbase s)
  else mret tt.

Definition template_txs (gbt : J) : M GbtSubmitter unit :=
  b ← lift (has is_array gbt "transactions");
  if b : bool then t ← lift (idx gbt "transactions"); for_each (elements t) template_tx
  else mret tt.

Definition template_witness (gbt : J) : M GbtSubmitter unit :=
  b ← lift (has is_string gbt "default_witness_commitment");
  if b : bool then
    v ← lift (idx gbt "default_witness_commitment"); w ← lift (get_string v);
    _ ← modify (set_witness w);
    s ← getS;
    if allow_synth_coinbase_ s && negb (hasCoinbase s) then
      c ← lift (synth_coinbase gbt s w);
      match c with Some c => modify (set_coinbase c) | None => mret tt end
    else mret tt
  else mret tt.

Definition updateTemplate (gbt : J) : M GbtSubmitter unit :=
  _ ← modify reset_cached;
  mcatch (_ ← template_coinbase gbt; _ ← template_txs gbt; template_witness gbt) (mret tt).

(** [rpc_.call] is the client of [Net.v]; its state is [R]. *)
Definition submitHeader {R : Type} (call : R -> list Z -> J -> R * option J)
    (s : GbtSubmitter) (rpc : R) (header80_be : list Z) : R * bool :=
  if negb (hasCoinbase s) then (rpc, false)
  else
    let block_hex := buildBlockHex s header80_be in
    let params := jarray [jstring block_hex] in
    let '(rpc, res) := call rpc (str "submitblock") params in
    (rpc, match res with Some _ => true | None => false end).

End Template.

(** ** Specification: transactions and their serialisation *)

Record TxIn := mkTxIn { prev_hash : list Z; prev_index : Z; script_sig : list Z; sequence : Z }.
Record TxOut := mkTxOut { amount : Z; script_pubkey : list Z }.
Record Tx := mkTx { tx_version : Z; tx_ins : list TxIn; tx_outs : list TxOut; lock_time : Z }.

Definition with_size (s : list Z) : list Z := compact_size (zlen s) ++ s.

Definition ser_in (i : TxIn) : list Z :=
  prev_hash i ++ le_bytes 4 (prev_index i) ++ with_size (script_sig i) ++ le_bytes 4 (sequence i).
Definition ser_out (o : TxOut) : list Z := le_bytes 8 (amount o) ++ with_size (script_pubkey o).
Definition ser_tx (t : Tx) : list Z :=
  le_bytes 4 (tx_version t) ++
  compact_size (zlen (tx_ins t)) ++ concat (map ser_in (tx_ins t)) ++
  compact_size (zlen (tx_outs t)) ++ concat (map ser_out (tx_outs t)) ++
  le_bytes 4 (lock_time t).

Definition coinbase_tx (sig : list Z) (outs : list TxOut) : Tx :=
  mkTx 1 [mkTxIn (repeat 0 32) 4294967295 sig 4294967295] outs 0.

(** [OP_RETURN], a push of [n] bytes, the witness commitment header and the hash. *)
Definition commitment_script (n : Z) (c : list Z) : list Z := [106; n; 170; 33; 169; 237] ++ c.

Definition bip34_push (height : Z) : list Z := zlen (bip34_le height) :: bip34_le height.
Definition tag_push (tag : list Z) : list Z := match tag with [] => [] | _ => zlen tag :: tag end.

(** A script number: little endian, the top bit of the last byte is the sign. *)
Definition script_num (d : list Z) : Z :=
  let v := le_val d in
  let w := 8 * zlen d in
  if 2 ^ (w - 1) <=? v then - (v - 2 ^ (w - 1)) else v.

(** The data of a direct push after [OP_RETURN] is there in full. *)
Definition return_push_ok (script : list Z) : bool :=
  match script with 106 :: n :: data => zlen data =? n | _ => false end.

(** The data pushes of a script, as a node reads them: a length of 1 to 75 is a push of
    that many bytes, a larger byte is another opcode. *)
Fixpoint read_pushes (fuel : nat) (script : list Z) : option (list (list Z)) :=
  match fuel, script with
  | _, [] => Some []
  | S fuel, n :: l =>
      if (1 <=? n) && (n <=? 75) && (n <=? zlen l)
      then ds ← read_pushes fuel (drop (Z.to_nat n) l); Some (take (Z.to_nat n) l :: ds)
      else None
  | O, _ :: _ => None
  end.

(** ** Lemmas *)

Lemma read_push_app fuel d l :
  1 <= zlen d <= 75 -> read_pushes (S fuel) (zlen d :: d ++ l) = (ds ← read_pushes fuel l; Some (d :: ds)).
Proof.
  intros Hd. cbn [read_pushes]. rewrite length_app.
  rewrite (proj2 (Z.leb_le 1 _)), (proj2 (Z.leb_le _ 75)), (proj2 (Z.leb_le _ (Z.of_nat _))) by lia. cbn [andb].
  by rewrite Nat2Z.id, drop_app_length, take_app_length.
Qed.

Lemma height_bytes_spec n h :
  0 <= h < 2 ^ (8 * Z.of_nat n) ->
  le_val (height_bytes n h) = h /\ is_bytes (height_bytes n h) /\
  (length (height_bytes n h) <= n)%nat /\
  (h <> 0 -> 2 ^ (8 * (zlen (height_bytes n h) - 1)) <= h).
Proof.
  revert h. induction n as [|n IH]; intros h Hh; cbn [height_bytes].
  - cbn in *. split_and!; [lia|constructor|lia|lia].
  - destruct (Z.eqb_spec h 0) as [->|Hz]; [cbn; split_and!; [done|constructor|lia|done]|].
    rewrite Z.shiftr_div_pow2 by lia. change (u8 (h .& 255)) with (u8 (Z.land h (2 ^ 8 - 1))).
    rewrite land_ones_mod by lia. unfold u8. rewrite Z.mod_mod by lia.
    replace (8 * Z.of_nat (S n)) with (8 + 8 * Z.of_nat n) in Hh by lia.
    rewrite Z.pow_add_r in Hh by lia.
    destruct (IH (h / 2 ^ 8)) as (Hv & Hb & Hl & Hm).
    { split; [apply Z.div_pos; lia|apply Z.div_lt_upper_bound; lia]. }
    cbn [le_val length]. rewrite Hv. pose proof (Z.div_mod h (2 ^ 8)).
    split_and!; [lia|constructor; [by apply mod_in_u|done]|lia|intros _].
    destruct (decide (h / 2 ^ 8 = 0)) as [E0|Hn].
    + rewrite E0. assert (height_bytes n 0 = []) as -> by (destruct n; done). cbn. lia.
    + specialize (Hm Hn).
      set (k := zlen (height_bytes n (h / 2 ^ 8))) in *.
      assert (1 <= k) as Hk.
      { unfold k. destruct (height_bytes n (h / 2 ^ 8)) eqn:E; [|cbn; lia].
        cbn in Hv. lia. }
      replace (8 * (Z.of_nat (S (length (height_bytes n (h / 2 ^ 8)))) - 1))
        with (8 + 8 * (k - 1)) by (unfold k; lia).
      rewrite Z.pow_add_r by lia. pose proof (Z.mod_pos_bound h (2 ^ 8)). nia.
Qed.

Lemma bip34_le_spec h :
  is_u32 h -> le_val (bip34_le h) = h /\ is_bytes (bip34_le h) /\ 1 <= zlen (bip34_le h) <= 4 /\
  2 ^ (8 * (zlen (bip34_le h) - 1)) <= Z.max 1 h.
Proof.
  intros Hh. destruct (height_bytes_spec 4 h Hh) as (Hv & Hb & Hl & Hm). unfold bip34_le.
  destruct (height_bytes 4 h) as [|b l] eqn:E.
  - cbn in Hv. subst h. split_and!; [done|in_range|done..].
  - cbn [length] in Hl. split_and!; [done|done|cbn [length]; lia|cbn [length]; lia|].
    destruct (decide (h = 0)) as [->|Hz]; [|rewrite Z.max_r by (unfold in_u in Hh; lia); by apply Hm].
    done.
Qed.

Lemma encodeBip34Height_hex h : is_u32 h -> encodeBip34Height h = bytesToHex (bip34_push h).
Proof.
  intros Hh. destruct (bip34_le_spec h Hh) as (_ & Hb & Hl & _).
  unfold encodeBip34Height, bip34_push. rewrite bytesToHex_cons, put_w2_bytes by done.
  by rewrite put_w2_byte by (unfold in_u; lia).
Qed.

Lemma bip34_push_bytes h : is_u32 h -> is_bytes (bip34_push h).
Proof.
  intros Hh. destruct (bip34_le_spec h Hh) as (_ & Hb & Hl & _).
  constructor; [unfold in_u; lia|done].
Qed.

Lemma value_hex_le v : value_hex v = bytesToHex (le_bytes 8 v).
Proof.
  unfold value_hex, bytesToHex. rewrite le_bytes_seq, map_map. f_equal. apply map_ext. intros i.
  change 255 with (2 ^ 8 - 1). rewrite land_ones_mod, Z.shiftr_div_pow2 by lia.
  apply put_w2_byte. by apply mod_in_u.
Qed.

Lemma varint_hex s :
  zlen s < 2 ^ 64 -> appendVarInt (half_size (bytesToHex s)) = bytesToHex (compact_size (zlen s)).
Proof.
  intros H. unfold appendVarInt, half_size. rewrite bytesToHex_half.
  apply encodeVarIntHex_compact. unfold in_u. lia.
Qed.

Lemma with_size_hex s :
  zlen s < 2 ^ 64 ->
  appendVarInt (half_size (bytesToHex s)) ++ bytesToHex s = bytesToHex (with_size s).
Proof. intros. unfold with_size. by rewrite varint_hex, bytesToHex_app. Qed.

Lemma tag_hex h tag :
  is_u32 h -> zlen tag < 256 ->
  match bytesToHex tag with
  | [] => encodeBip34Height h
  | _ => encodeBip34Height h ++ put_w2 (half_size (bytesToHex tag)) ++ bytesToHex tag
  end = bytesToHex (bip34_push h ++ tag_push tag).
Proof.
  intros Hh Ht. rewrite encodeBip34Height_hex, bytesToHex_app by done.
  destruct tag as [|b tag]; [cbn [tag_push bytesToHex map concat]; by rewrite app_nil_r|].
  change (tag_push (b :: tag)) with (zlen (b :: tag) :: b :: tag).
  rewrite (bytesToHex_cons (zlen _)), <- put_w2_byte by (unfold in_u; lia).
  unfold half_size. rewrite bytesToHex_half. done.
Qed.

Lemma commitment_hex n c :
  is_u8 n -> str "6a" ++ hex_byte n ++ str "aa21a9ed" ++ bytesToHex c
  = bytesToHex (commitment_script n c).
Proof. reflexivity. Qed.

Lemma commitment_length n c : zlen (commitment_script n c) = 6 + zlen c.
Proof. unfold commitment_script. rewrite length_app. cbn [length]. lia. Qed.

(** Both builders write the serialised transaction. *)
Lemma coinbase_text sig outs_hex outs :
  zlen sig < 2 ^ 64 -> zlen outs < 253 ->
  outs_hex = bytesToHex (concat (map ser_out outs)) ->
  str "01000000" ++ appendVarInt 1 ++ zeros32_hex ++ str "ffffffff" ++
    appendVarInt (half_size (bytesToHex sig)) ++ bytesToHex sig ++ str "ffffffff" ++
    appendVarInt (zlen outs) ++ outs_hex ++ str "00000000"
  = bytesToHex (ser_tx (coinbase_tx sig outs)).
Proof.
  intros Hs Hn ->. rewrite varint_hex by done.
  unfold appendVarInt. rewrite (encodeVarIntHex_compact (zlen outs)) by (unfold in_u; lia).
  change (str "01000000") with (bytesToHex (le_bytes 4 1)).
  change (encodeVarIntHex 1) with (bytesToHex (compact_size 1)).
  change zeros32_hex with (bytesToHex (repeat 0 32)).
  change (str "ffffffff") with (bytesToHex (le_bytes 4 4294967295)).
  change (str "00000000") with (bytesToHex (le_bytes 4 0)).
  rewrite <- !bytesToHex_app. f_equal. unfold ser_tx, coinbase_tx, ser_in, with_size.
  cbn [tx_version tx_ins tx_outs lock_time prev_hash prev_index script_sig sequence map concat length].
  rewrite app_nil_r, <- !app_assoc. done.
Qed.

Lemma buildCoinbaseTx_text h spk v c tag :
  is_u32 h -> zlen c = 32 -> zlen tag < 256 -> zlen spk < 2 ^ 64 ->
  buildCoinbaseTx h (bytesToHex spk) v (bytesToHex c) (bytesToHex tag)
  = Some (bytesToHex (ser_tx (coinbase_tx (bip34_push h ++ tag_push tag)
                        [mkTxOut v spk; mkTxOut 0 (commitment_script 36 c)]))).
Proof.
  intros Hh Hc Ht Hs. unfold buildCoinbaseTx.
  assert (zlen (bytesToHex c) = 64) as -> by (rewrite bytesToHex_length; lia). cbn [Z.eqb Pos.eqb negb].
  rewrite tag_hex by done. change (str "24") with (hex_byte 36).
  rewrite (commitment_hex 36) by in_range.
  rewrite <- (coinbase_text _
    (value_hex v ++ appendVarInt (half_size (bytesToHex spk)) ++ bytesToHex spk ++
       str "0000000000000000" ++
       appendVarInt (half_size (bytesToHex (commitment_script 36 c))) ++
       bytesToHex (commitment_script 36 c))).
  - f_equal. rewrite <- !app_assoc. done.
  - destruct (bip34_le_spec h Hh) as (_ & _ & Hl & _).
    unfold bip34_push. rewrite length_app. cbn [length].
    assert (zlen (tag_push tag) <= 1 + zlen tag) by (destruct tag; cbn [tag_push length]; lia). lia.
  - done.
  - cbn [map concat]. unfold ser_out. cbn [amount script_pubkey].
    rewrite !bytesToHex_app, <- !with_size_hex by (rewrite ?commitment_length; lia).
    rewrite value_hex_le, <- !app_assoc. do 4 f_equal. by rewrite app_nil_r.
Qed.

Lemma minimal_text h c :
  is_u32 h -> zlen c = 32 ->
  buildMinimalWitnessCommitmentCoinbase h (bytesToHex c)
  = Some (bytesToHex (ser_tx (coinbase_tx (bip34_push h) [mkTxOut 0 (commitment_script 38 c)]))).
Proof.
  intros Hh Hc. unfold buildMinimalWitnessCommitmentCoinbase.
  assert (zlen (bytesToHex c) = 64) as -> by (rewrite bytesToHex_length; lia). cbn [Z.eqb Pos.eqb negb].
  change (str "26") with (hex_byte 38). rewrite (commitment_hex 38) by in_range.
  rewrite encodeBip34Height_hex by done.
  rewrite <- (coinbase_text _
    (str "0000000000000000" ++
       appendVarInt (half_size (bytesToHex (commitment_script 38 c))) ++
       bytesToHex (commitment_script 38 c))).
  - f_equal. rewrite <- !app_assoc. done.
  - destruct (bip34_le_spec h Hh) as (_ & _ & Hl & _). unfold bip34_push. cbn [length]. lia.
  - done.
  - cbn [map concat]. unfold ser_out. cbn [amount script_pubkey].
    rewrite !bytesToHex_app, <- !with_size_hex by (rewrite ?commitment_length; lia).
    rewrite <- !app_assoc. by rewrite app_nil_r.
Qed.

(** *** Reading transactions back *)

Definition read_sized (l : list Z) : option (list Z * list Z) :=
  '(n, l) ← read_compact_size l; split_at (Z.to_nat n) l.

Definition read_le (n : nat) (l : list Z) : option (Z * list Z) :=
  '(d, l) ← split_at n l; Some (le_val d, l).

Definition read_in (l : list Z) : option (TxIn * list Z) :=
  '(h, l) ← split_at 32 l; '(i, l) ← read_le 4 l; '(s, l) ← read_sized l;
  '(q, l) ← read_le 4 l; Some (mkTxIn h i s q, l).

Definition read_out (l : list Z) : option (TxOut * list Z) :=
  '(a, l) ← read_le 8 l; '(s, l) ← read_sized l; Some (mkTxOut a s, l).

Fixpoint read_many {A} (n : nat) (r : list Z -> option (A * list Z)) (l : list Z) :
    option (list A * list Z) :=
  match n with
  | O => Some ([], l)
  | S n => '(a, l) ← r l; '(rest, l) ← read_many n r l; Some (a :: rest, l)
  end.

Definition read_tx (l : list Z) : option (Tx * list Z) :=
  '(v, l) ← read_le 4 l;
  '(n, l) ← read_compact_size l; '(ins, l) ← read_many (Z.to_nat n) read_in l;
  '(n, l) ← read_compact_size l; '(outs, l) ← read_many (Z.to_nat n) read_out l;
  '(t, l) ← read_le 4 l; Some (mkTx v ins outs t, l).

Definition wf_in (i : TxIn) : Prop :=
  length (prev_hash i) = 32%nat /\ is_u32 (prev_index i) /\ zlen (script_sig i) < 2 ^ 64 /\
  is_u32 (sequence i).
Definition wf_out (o : TxOut) : Prop := is_u64 (amount o) /\ zlen (script_pubkey o) < 2 ^ 64.
Definition wf_tx (t : Tx) : Prop :=
  is_u32 (tx_version t) /\ zlen (tx_ins t) < 2 ^ 64 /\ Forall wf_in (tx_ins t) /\
  zlen (tx_outs t) < 2 ^ 64 /\ Forall wf_out (tx_outs t) /\ is_u32 (lock_time t).

Lemma read_le_app n w v rest :
  w = 8 * Z.of_nat n -> in_u w v -> read_le n (le_bytes n v ++ rest) = Some (v, rest).
Proof.
  intros Hw Hv. unfold read_le. rewrite split_at_app by apply le_bytes_length. cbn [mbind option_bind].
  by rewrite (le_val_le_bytes_u n w).
Qed.

Lemma read_sized_app s rest : zlen s < 2 ^ 64 -> read_sized (with_size s ++ rest) = Some (s, rest).
Proof.
  intros Hs. unfold read_sized, with_size. rewrite <- app_assoc.
  rewrite read_compact_size_app by (unfold in_u; lia). cbn [mbind option_bind].
  apply split_at_app. lia.
Qed.

Lemma read_in_app i rest : wf_in i -> read_in (ser_in i ++ rest) = Some (i, rest).
Proof.
  intros (Hp & Hi & Hs & Hq). unfold read_in, ser_in. rewrite <- !app_assoc.
  rewrite split_at_app by done. cbn [mbind option_bind].
  rewrite (read_le_app 4 32) by done. cbn [mbind option_bind].
  rewrite read_sized_app by done. cbn [mbind option_bind].
  rewrite (read_le_app 4 32) by done. by destruct i.
Qed.

Lemma read_out_app o rest : wf_out o -> read_out (ser_out o ++ rest) = Some (o, rest).
Proof.
  intros (Ha & Hs). unfold read_out, ser_out. rewrite <- !app_assoc.
  rewrite (read_le_app 8 64) by done. cbn [mbind option_bind].
  rewrite read_sized_app by done. by destruct o.
Qed.

Lemma read_many_app {A} (r : list Z -> option (A * list Z)) (ser : A -> list Z) (P : A -> Prop) l rest :
  (forall a rest, P a -> r (ser a ++ rest) = Some (a, rest)) -> Forall P l ->
  read_many (length l) r (concat (map ser l) ++ rest) = Some (l, rest).
Proof.
  intros Hr Hl. induction Hl as [|a l Ha _ IH]; [done|]. cbn [length read_many map concat].
  rewrite <- app_assoc, Hr by done. cbn [mbind option_bind]. by rewrite IH.
Qed.

Lemma read_tx_ser t rest : wf_tx t -> read_tx (ser_tx t ++ rest) = Some (t, rest).
Proof.
  intros (Hv & Hni & Hi & Hno & Ho & Hl). unfold read_tx, ser_tx. rewrite <- !app_assoc.
  rewrite (read_le_app 4 32) by done. cbn [mbind option_bind].
  rewrite read_compact_size_app by (unfold in_u; lia). cbn [mbind option_bind].
  rewrite Nat2Z.id, (read_many_app _ ser_in wf_in) by (done || apply read_in_app). cbn [mbind option_bind].
  rewrite read_compact_size_app by (unfold in_u; lia). cbn [mbind option_bind].
  rewrite Nat2Z.id, (read_many_app _ ser_out wf_out) by (done || apply read_out_app). cbn [mbind option_bind].
  rewrite (read_le_app 4 32) by done. by destruct t.
Qed.

Lemma ser_tx_bytes sig outs :
  is_bytes sig -> Forall (fun o => is_bytes (script_pubkey o)) outs ->
  is_bytes (ser_tx (coinbase_tx sig outs)).
Proof.
  intros Hs Ho. unfold ser_tx, coinbase_tx, ser_in, with_size.
  cbn [tx_version tx_ins tx_outs lock_time prev_hash prev_index script_sig sequence map concat].
  repeat (apply Forall_app; split); auto using le_bytes_bytes, compact_size_bytes, zeros_bytes, Forall_nil.
  apply Forall_concat, Forall_map. eapply Forall_impl; [exact Ho|]. intros o Hb. unfold ser_out, with_size.
  repeat (apply Forall_app; split); auto using le_bytes_bytes, compact_size_bytes.
Qed.

Lemma commitment_bytes n c : is_u8 n -> is_bytes c -> is_bytes (commitment_script n c).
Proof.
  intros. unfold commitment_script. apply Forall_app. split; [|done].
  repeat (constructor; [try done; unfold in_u; lia|]). constructor.
Qed.

Lemma tag_push_bytes tag : zlen tag < 256 -> is_bytes tag -> is_bytes (tag_push tag).
Proof. intros. destruct tag; [constructor|]. constructor; [unfold in_u; lia|done]. Qed.

Lemma coinbase_sig_length h tag :
  is_u32 h -> zlen tag < 256 -> zlen (bip34_push h ++ tag_push tag) < 300.
Proof.
  intros Hh Ht. destruct (bip34_le_spec h Hh) as (_ & _ & Hl & _).
  unfold bip34_push. rewrite length_app. cbn [length].
  assert (zlen (tag_push tag) <= 1 + zlen tag) by (destruct tag; cbn [tag_push length]; lia). lia.
Qed.

(** *** Subsidy *)

(** All subsidies ever paid: [blocks] blocks from height zero. *)
Fixpoint supply (eras : nat) : Z :=
  match eras with
  | O => 0
  | S n => supply n + 210000 * computeBlockSubsidy (210000 * Z.of_nat n)
  end.

Lemma subsidy_era h :
  0 <= h -> computeBlockSubsidy h = if h / 210000 <? 64 then 5000000000 / 2 ^ (h / 210000) else 0.
Proof.
  intros Hh. unfold computeBlockSubsidy. pose proof (Z.div_pos h 210000).
  destruct (Z.leb_spec 64 (h / 210000)), (Z.ltb_spec (h / 210000) 64); try lia.
  by rewrite Z.shiftr_div_pow2 by lia.
Qed.

(** *** Templates *)

Section TemplateLaws.
Context {J : Type} `{JsonLaws J}.

Definition tx_json (tx : list Z) : J := jobject [("data"%string, jstring tx)].

Lemma template_tx_push tx s : template_tx (tx_json tx) s = (inr tt, push_tx tx s).
Proof.
  unfold template_tx, tx_json. rewrite contains_jobject, bool_decide_true by (by eexists).
  unfold mbind, M_bind, lift. rewrite (idx_jobject _ _ (jstring tx)) by done.
  by rewrite get_string_jstring.
Qed.

Lemma template_txs_loop txs s :
  for_each (map tx_json txs) template_tx s
  = (inr tt, set_cached s (coinbase_hex_ s) (txs_hex_ s ++ txs) (witness_commitment_hex_ s)).
Proof.
  revert s. induction txs as [|tx txs IH]; intros s; cbn [map for_each].
  - rewrite app_nil_r. by destruct s.
  - unfold mbind at 1, M_bind at 1. rewrite template_tx_push. rewrite IH.
    unfold push_tx, set_cached. cbn. by rewrite <- app_assoc.
Qed.

(** A template in the shape the node sends, with or without its own coinbase. *)
Definition template_json (cb : option (list Z)) (txs : list (list Z)) (w : list Z) (height : Z) : J :=
  jobject (match cb with
           | Some c => [("coinbasetxn"%string, tx_json c)]
           | None => []
           end ++
           [("transactions"%string, jarray (map tx_json txs));
            ("default_witness_commitment"%string, jstring w);
            ("height"%string, jnumber height)]).

Lemma has_jobject (p : J -> bool) l k v : assoc l k = Some v -> has p (jobject l) k = inr (p v).
Proof.
  intros E. unfold has. rewrite contains_jobject, bool_decide_true by (by eexists).
  by rewrite (idx_jobject _ _ _ E).
Qed.

Lemma has_none (p : J -> bool) l k : assoc l k = None -> has p (jobject l) k = inr false.
Proof.
  intros E. unfold has. rewrite contains_jobject, bool_decide_false; [done|]. rewrite E. by intros [? ?].
Qed.

End TemplateLaws.

Section TemplateResults.
Context {J : Type} `{JsonLaws J}.

Lemma sum_fees_none txs : sum_fees (map tx_json txs) 0 = inr 0.
Proof.
  induction txs as [|tx txs IH]; [done|]. cbn [map sum_fees].
  assert (contains (tx_json tx : J) "fee" = false) as ->.
  { unfold tx_json. rewrite contains_jobject. apply bool_decide_false. by intros [? ?]. }
  exact IH.
Qed.

Lemma template_height_json cb txs w h :
  0 <= h < 2 ^ 31 -> template_height (template_json cb txs w h) = inr h.
Proof.
  intros Hh. unfold template_height, template_json.
  rewrite contains_jobject, bool_decide_true by (destruct cb; by eexists).
  rewrite (idx_jobject _ _ (jnumber h)) by (by destruct cb). cbn [mbind throws_bind].
  rewrite get_int_jnumber by lia. cbn. by rewrite u32_small by (unfold in_u; lia).
Qed.

Lemma synth_coinbase_json txs w h s :
  0 <= h < 2 ^ 31 ->
  synth_coinbase (template_json None txs w h) s w =
  inr (match payout_script_hex_ s with
       | [] => buildMinimalWitnessCommitmentCoinbase h w
       | p => buildCoinbaseTx h p (u64 (computeBlockSubsidy h + 0)) w (coinbase_tag_ s)
       end).
Proof.
  intros Hh. unfold synth_coinbase. rewrite template_height_json by done. cbn [mbind throws_bind].
  destruct (payout_script_hex_ s); [done|].
  unfold template_json. rewrite (has_jobject _ _ _ (jarray (map tx_json txs))) by done.
  rewrite is_array_jarray. cbn [mbind throws_bind].
  rewrite (idx_jobject _ _ (jarray (map tx_json txs))) by done. cbn [mbind throws_bind].
  rewrite elements_jarray, sum_fees_none. done.
Qed.

Lemma updateTemplate_json cb txs w h s :
  0 <= h < 2 ^ 31 -> cb <> Some [] ->
  updateTemplate (template_json cb txs w h) s =
  (inr tt,
   set_cached s
     (match cb with
      | Some c => c
      | None =>
          if allow_synth_coinbase_ s then
            default [] (match payout_script_hex_ s with
                        | [] => buildMinimalWitnessCommitmentCoinbase h w
                        | p => buildCoinbaseTx h p (u64 (computeBlockSubsidy h + 0)) w (coinbase_tag_ s)
                        end)
          else []
      end) txs (Some w)).
Proof.
  intros Hh Hcb. unfold updateTemplate.
  unfold mbind at 1, M_bind at 1, modify at 1. unfold mcatch.
  assert (template_coinbase (template_json cb txs w h) (reset_cached s)
          = (inr tt, set_cached s (default [] cb) [] None)) as E1.
  { unfold template_coinbase, template_json. destruct cb as [c|].
    - rewrite (has_jobject _ _ _ (tx_json c)) by done.
      change (is_object (tx_json c : J)) with (is_object (jobject [("data"%string, jstring c : J)])).
      rewrite is_object_jobject. unfold mbind, M_bind, lift.
      rewrite (idx_jobject _ _ (tx_json c)) by done. unfold tx_json.
      rewrite (idx_jobject _ _ (jstring c)) by done. by rewrite get_string_jstring.
    - by rewrite has_none. }
  assert (template_txs (template_json cb txs w h) (set_cached s (default [] cb) [] None)
          = (inr tt, set_cached s (default [] cb) txs None)) as E2.
  { unfold template_txs, template_json.
    rewrite (has_jobject _ _ _ (jarray (map tx_json txs))) by (by destruct cb).
    rewrite is_array_jarray. unfold mbind, M_bind, lift.
    rewrite (idx_jobject _ _ (jarray (map tx_json txs))) by (by destruct cb).
    by rewrite elements_jarray, template_txs_loop. }
  unfold mbind at 1, M_bind at 1. rewrite E1.
  unfold mbind at 1, M_bind at 1. rewrite E2.
  assert (has is_string (template_json cb txs w h) "default_witness_commitment" = inr true) as Ew.
  { unfold template_json. rewrite (has_jobject _ _ _ (jstring w)) by (by destruct cb).
    by rewrite is_string_jstring. }
  assert (idx (template_json cb txs w h) "default_witness_commitment" = inr (jstring w)) as Ei.
  { unfold template_json. by rewrite (idx_jobject _ _ (jstring w)) by (by destruct cb). }
  unfold template_witness. rewrite Ew. unfold mbind, M_bind, lift, modify, getS.
  rewrite Ei, get_string_jstring. unfold set_witness, set_cached, hasCoinbase.
  cbn [allow_synth_coinbase_ coinbase_hex_ txs_hex_ payout_script_hex_ coinbase_tag_ witness_commitment_hex_].
  destruct cb as [[|c0 c]|]; [done|by rewrite andb_false_r|]. cbn [default from_option].
  destruct (allow_synth_coinbase_ s); cbn [andb negb]; [|done].
  rewrite synth_coinbase_json by done.
  cbn [payout_script_hex_ coinbase_tag_]. by destruct (match payout_script_hex_ s with [] => _ | _ => _ end).
Qed.

End TemplateResults.

(** ** Properties *)

(** The input script of a coinbase: the pushes of the height and the tag. *)
Lemma coinbase_pushes h tag :
  is_u32 h -> zlen tag < 76 ->
  read_pushes 2 (bip34_push h ++ tag_push tag) = Some (bip34_le h :: match tag with [] => [] | _ => [tag] end) /\
  2 <= zlen (bip34_push h ++ tag_push tag) <= 100.
Proof.
  intros Hh Ht. destruct (bip34_le_spec h Hh) as (_ & _ & Hl & _). unfold bip34_push.
  assert (zlen (tag_push tag) <= 1 + zlen tag) by (destruct tag; cbn [tag_push length]; lia).
  split; [|rewrite length_app; cbn [length]; lia].
  change ((zlen (bip34_le h) :: bip34_le h) ++ tag_push tag) with (zlen (bip34_le h) :: bip34_le h ++ tag_push tag).
  rewrite read_push_app by lia. destruct tag as [|b tag]; [done|].
  change (tag_push (b :: tag)) with (zlen (b :: tag) :: b :: tag).
  rewrite <- (app_nil_r (b :: tag)) at 2. rewrite read_push_app by (cbn [length] in *; lia). done.
Qed.

(** The byte before a longer tag is not a push of it. *)
Lemma long_tag_no_push h tag fuel :
  is_u32 h -> 76 <= zlen tag -> read_pushes fuel (bip34_push h ++ tag_push tag) = None.
Proof.
  intros Hh Ht. destruct (bip34_le_spec h Hh) as (_ & _ & Hl & _). unfold bip34_push.
  change ((zlen (bip34_le h) :: bip34_le h) ++ tag_push tag) with (zlen (bip34_le h) :: bip34_le h ++ tag_push tag).
  destruct fuel as [|[|fuel]]; [done| |]; rewrite read_push_app by lia; destruct tag as [|b tag]; try done.
  change (tag_push (b :: tag)) with (zlen (b :: tag) :: b :: tag). cbn [read_pushes].
  rewrite (proj2 (Z.leb_gt (zlen (b :: tag)) 75)) by lia. by rewrite andb_false_r.
Qed.

(** C10: for any height, payout script, amount, tag of fewer than 76 bytes and 32-byte
    commitment (all in hex), [buildCoinbaseTx] writes the hex of a well-formed transaction:
    decoding it and parsing the bytes gives exactly one input with the null outpoint, whose
    script, of 2 to 100 bytes, reads as the pushes of the height's bytes and of the tag,
    the payout output, and the witness commitment output whose push is complete, with
    nothing left over.  (The byte before a longer tag is another opcode:
    [long_tag_no_push].) *)
Theorem coinbase_parses_back h spk v c tag :
  is_u32 h -> is_bytes spk -> zlen spk < 2 ^ 64 -> is_u64 v -> is_bytes c -> zlen c = 32 ->
  is_bytes tag -> zlen tag < 76 ->
  exists text bytes sig,
    buildCoinbaseTx h (bytesToHex spk) v (bytesToHex c) (bytesToHex tag) = Some text /\
    from_hex text = Some bytes /\
    read_tx bytes = Some (coinbase_tx sig [mkTxOut v spk; mkTxOut 0 (commitment_script 36 c)], []) /\
    read_pushes 2 sig = Some (bip34_le h :: match tag with [] => [] | _ => [tag] end) /\
    2 <= zlen sig <= 100 /\ le_val (bip34_le h) = h /\
    return_push_ok (commitment_script 36 c) = true.
Proof.
  intros Hh Hspk Hsl Hv Hc Hcl Htag Htl. eexists _, _, (bip34_push h ++ tag_push tag).
  split; [by apply buildCoinbaseTx_text; try lia|].
  destruct (coinbase_pushes h tag Hh Htl) as [Hp Hsz].
  split; [apply from_hex_bytesToHex, ser_tx_bytes|split].
  - apply Forall_app. split; [by apply bip34_push_bytes|apply tag_push_bytes; [lia|done]].
  - constructor; [done|constructor; [|constructor]]. by apply commitment_bytes; [in_range|].
  - rewrite <- (app_nil_r (ser_tx _)), read_tx_ser; [done|].
    pose proof (commitment_length 36 c). unfold wf_tx, coinbase_tx.
    cbn [tx_version tx_ins tx_outs lock_time length].
    split_and!; try in_range; try lia.
    + constructor; [|constructor]. split_and!; try done; cbn [script_sig]; lia.
    + repeat (constructor; [split; cbn [amount script_pubkey]; [done|lia]|]). constructor.
  - split; [exact Hp|]. split; [exact Hsz|]. split; [by apply bip34_le_spec|]. cbn. apply Z.eqb_eq. lia.
Qed.

Lemma coinbase_parses_back_witness :
  exists text bytes sig,
    buildCoinbaseTx 840000 (bytesToHex [81]) 312500000 (bytesToHex (repeat 7 32)) (bytesToHex [1; 2]) = Some text /\
    from_hex text = Some bytes /\
    read_tx bytes = Some (coinbase_tx sig [mkTxOut 312500000 [81]; mkTxOut 0 (commitment_script 36 (repeat 7 32))], []) /\
    read_pushes 2 sig = Some [[64; 209; 12]; [1; 2]].
Proof.
  destruct (coinbase_parses_back 840000 [81] 312500000 (repeat 7 32) [1; 2])
    as (text & bytes & sig & H1 & H2 & H3 & H4 & _); try in_range; try reflexivity.
  exists text, bytes, sig. split; [exact H1|]. split; [exact H2|]. split; [exact H3|]. exact H4.
Defined.

(** The height push of a coinbase holds the height's minimal little-endian bytes; read
    as the signed script number the consensus rule expects, it is the height exactly when
    the top bit of its last byte is clear, and a negative or zero number otherwise. *)
Theorem bip34_height_sign h :
  is_u32 h ->
  from_hex (encodeBip34Height h) = Some (bip34_push h) /\ le_val (bip34_le h) = h /\
  (script_num (bip34_le h) = h <-> h < 2 ^ (8 * zlen (bip34_le h) - 1)) /\
  (h >= 2 ^ (8 * zlen (bip34_le h) - 1) -> script_num (bip34_le h) <= 0).
Proof.
  intros Hh. destruct (bip34_le_spec h Hh) as (Hv & Hb & Hl & _).
  rewrite encodeBip34Height_hex, from_hex_bytesToHex by (done || by apply bip34_push_bytes).
  split_and!; [done|done| |]; unfold script_num; rewrite Hv;
    destruct (Z.leb_spec (2 ^ (8 * zlen (bip34_le h) - 1)) h); unfold in_u in Hh; try lia.
Qed.

Lemma bip34_height_sign_witness : script_num (bip34_le 200) <= 0.
Proof.
  destruct (bip34_height_sign 200 ltac:(in_range)) as (_ & _ & _ & H).
  apply H. vm_compute. discriminate.
Defined.

(** The minimal diagnostic coinbase also parses, but its output script announces a push
    of 38 bytes and only 36 follow, so the commitment push is incomplete. *)
Theorem minimal_coinbase_push h c :
  is_u32 h -> is_bytes c -> zlen c = 32 ->
  exists text bytes,
    buildMinimalWitnessCommitmentCoinbase h (bytesToHex c) = Some text /\
    from_hex text = Some bytes /\
    read_tx bytes = Some (coinbase_tx (bip34_push h) [mkTxOut 0 (commitment_script 38 c)], []) /\
    return_push_ok (commitment_script 38 c) = false.
Proof.
  intros Hh Hc Hcl. eexists _, _. split; [by apply minimal_text|].
  pose proof (coinbase_sig_length h [] Hh ltac:(cbn; lia)) as Hs. cbn [tag_push] in Hs.
  rewrite app_nil_r in Hs.
  split; [apply from_hex_bytesToHex, ser_tx_bytes|split].
  - by apply bip34_push_bytes.
  - constructor; [|constructor]. by apply commitment_bytes; [in_range|].
  - rewrite <- (app_nil_r (ser_tx _)), read_tx_ser; [done|].
    pose proof (commitment_length 38 c). unfold wf_tx, coinbase_tx.
    cbn [tx_version tx_ins tx_outs lock_time length].
    split_and!; try in_range; try lia.
    + constructor; [|constructor]. split_and!; try done; cbn [script_sig]; lia.
    + constructor; [split; cbn [amount script_pubkey]; [in_range|lia]|constructor].
  - cbn. apply Z.eqb_neq. lia.
Qed.

Lemma minimal_coinbase_push_witness :
  exists text, buildMinimalWitnessCommitmentCoinbase 5 (bytesToHex (repeat 9 32)) = Some text /\
    return_push_ok (commitment_script 38 (repeat 9 32)) = false.
Proof.
  destruct (minimal_coinbase_push 5 (repeat 9 32)) as (text & bytes & H1 & _ & _ & H2);
    try in_range; try reflexivity.
  exists text. split; [exact H1|exact H2].
Defined.

(** The subsidy is five billion halved once per 210000 blocks, constant within an
    era and never increasing with the height; all subsidies together stay below 21 million
    coins, and none is paid after 64 eras. *)
Theorem subsidy_schedule h h' :
  0 <= h <= h' ->
  0 <= computeBlockSubsidy h' <= computeBlockSubsidy h /\ computeBlockSubsidy h <= 5000000000 /\
  (h / 210000 = h' / 210000 -> computeBlockSubsidy h = computeBlockSubsidy h') /\
  (64 * 210000 <= h -> computeBlockSubsidy h = 0) /\
  supply 64 = 2099999997690000 /\ supply 64 < 21000000 * 100000000.
Proof.
  intros Hh. rewrite !subsidy_era by lia.
  assert (h / 210000 <= h' / 210000) as Hd by (apply Z.div_le_mono; lia).
  pose proof (Z.div_pos h 210000).
  split_and!.
  - destruct (Z.ltb_spec (h' / 210000) 64); [|lia]. apply Z.div_pos; [lia|]. apply Z.pow_pos_nonneg; lia.
  - destruct (Z.ltb_spec (h' / 210000) 64), (Z.ltb_spec (h / 210000) 64); try lia.
    + apply Z.div_le_compat_l; [lia|]. split; [apply Z.pow_pos_nonneg; lia|].
      apply Z.pow_le_mono_r; lia.
    + apply Z.div_pos; [lia|]. apply Z.pow_pos_nonneg; lia.
  - destruct (Z.ltb_spec (h / 210000) 64); [|lia].
    apply Z.div_le_upper_bound; [apply Z.pow_pos_nonneg; lia|].
    pose proof (Z.pow_pos_nonneg 2 (h / 210000)). lia.
  - by intros ->.
  - intros. assert (64 <= h / 210000) by (apply Z.div_le_lower_bound; lia).
    destruct (Z.ltb_spec (h / 210000) 64); lia.
  - vm_compute. reflexivity.
  - vm_compute. reflexivity.
Qed.

Lemma subsidy_schedule_witness : computeBlockSubsidy 840000 <= computeBlockSubsidy 839999.
Proof. exact (proj2 (proj1 (subsidy_schedule 839999 840000 ltac:(lia)))). Defined.

(** The block text decodes to the 80 header bytes in the order given (no flip), the
    number of transactions, the coinbase and the other transactions. *)
Theorem block_text_decodes s header cb txs rest :
  length header = 80%nat -> is_bytes header ->
  coinbase_hex_ s = bytesToHex cb -> is_bytes cb -> cb <> [] ->
  txs_hex_ s = map bytesToHex txs -> Forall is_bytes txs -> zlen txs < 2 ^ 32 ->
  exists bytes, from_hex (buildBlockHex s header) = Some bytes /\
    take 80 bytes = header /\
    read_compact_size (drop 80 bytes ++ rest) = Some (1 + zlen txs, cb ++ concat txs ++ rest).
Proof.
  intros Hl Hh Ecb Hcb Hne Etx Htx Hn.
  assert (hasCoinbase s = true) as Eh.
  { unfold hasCoinbase. rewrite Ecb. by destruct cb. }
  exists (header ++ compact_size (1 + zlen txs) ++ cb ++ concat txs). split_and!.
  - unfold buildBlockHex. rewrite Eh, Ecb, Etx, length_map.
    unfold leHexFromHeaderBE. rewrite take_ge by lia. fold (bytesToHex header).
    rewrite u64_small by (unfold in_u; lia).
    rewrite encodeVarIntHex_compact by (unfold in_u; lia).
    assert (concat (map bytesToHex txs) = bytesToHex (concat txs)) as ->.
    { clear. induction txs as [|t txs IH]; [done|]. cbn [map concat]. by rewrite bytesToHex_app, IH. }
    rewrite <- !bytesToHex_app. apply from_hex_bytesToHex.
    repeat (apply Forall_app; split); try done; [apply compact_size_bytes|by apply Forall_concat].
  - by rewrite take_app_length'.
  - rewrite drop_app_length' by done. rewrite <- !app_assoc.
    by rewrite read_compact_size_app by (unfold in_u; lia).
Qed.

Lemma block_text_decodes_witness :
  let s := mkGbtSubmitter (bytesToHex [1; 2]) [bytesToHex [3]] None false [] [] in
  exists bytes, from_hex (buildBlockHex s (repeat 5 80)) = Some bytes /\ take 80 bytes = repeat 5 80.
Proof.
  destruct (block_text_decodes (mkGbtSubmitter (bytesToHex [1; 2]) [bytesToHex [3]] None false [] [])
    (repeat 5 80) [1; 2] [[3]] []) as (bytes & H1 & H2 & _);
    try reflexivity; try in_range; try discriminate.
  - constructor; [in_range|constructor].
  - exists bytes. split; [exact H1|exact H2].
Defined.

(** A new template replaces the cached pieces completely, whatever was cached: the
    template's coinbase and transactions in order, and its commitment.  Without a coinbase
    in the template one is synthesised only if allowed, from the configured payout script
    or in the minimal form; a commitment of another length than 64 digits (the node sends
    the whole 38-byte script) yields none, and then submitting sends nothing. *)
Theorem updateTemplate_replaces {J} `{JsonLaws J} {R} (call : R -> list Z -> J -> R * option J)
    cb txs w h s rpc header :
  0 <= h < 2 ^ 31 -> cb <> Some [] ->
  exists s', updateTemplate (template_json (J := J) cb txs w h) s = (inr tt, s') /\
    txs_hex_ s' = txs /\ witness_commitment_hex_ s' = Some w /\
    (forall s0, allow_synth_coinbase_ s0 = allow_synth_coinbase_ s ->
       payout_script_hex_ s0 = payout_script_hex_ s -> coinbase_tag_ s0 = coinbase_tag_ s ->
       updateTemplate (template_json (J := J) cb txs w h) s0 = (inr tt, s')) /\
    match cb with
    | Some c => coinbase_hex_ s' = c
    | None => zlen w <> 64 \/ allow_synth_coinbase_ s = false ->
        coinbase_hex_ s' = [] /\ submitHeader (J := J) call s' rpc header = (rpc, false)
    end.
Proof.
  intros Hh Hcb. eexists. split; [by apply updateTemplate_json|].
  split; [done|]. split; [done|]. split.
  { intros s0 E1 E2 E3. rewrite updateTemplate_json by done. unfold set_cached. by rewrite E1, E2, E3. }
  destruct cb as [c|]; [done|]. intros Hw.
  set (cb' := if allow_synth_coinbase_ s then _ else _).
  assert (cb' = []) as E; [|unfold submitHeader, hasCoinbase, set_cached; cbn [coinbase_hex_]; by rewrite E].
  unfold cb'. destruct Hw as [Hw|Hw]; [|by rewrite Hw].
  unfold buildMinimalWitnessCommitmentCoinbase, buildCoinbaseTx.
  rewrite (proj2 (Z.eqb_neq (zlen w) 64) Hw). cbn [negb].
  by destruct (allow_synth_coinbase_ s), (payout_script_hex_ s).
Qed.

Import Concrete.

Lemma updateTemplate_replaces_witness :
  exists s', updateTemplate (template_json (J := Jv) None [[48; 48]] (repeat 48 76) 840000)
      (setAllowSynthCoinbase GbtSubmitter_init true) = (inr tt, s') /\ coinbase_hex_ s' = [].
Proof.
  destruct (updateTemplate_replaces (J := Jv) (R := unit) (fun r _ _ => (r, None))
    None [[48; 48]] (repeat 48 76) 840000 (setAllowSynthCoinbase GbtSubmitter_init true) tt [])
    as (s' & E & _ & _ & _ & Hc); [lia|discriminate|].
  exists s'. split; [exact E|]. apply Hc. left. vm_compute. discriminate.
Defined.
