(* ===== verification/Adapters.v ===== *)
(** * Pool adapters and the pool router ([src/adapters])

    The queues of normalised work with the policy state of a Stratum connection, the
    interface a pool offers, and the router that polls several pools through it. *)

From stdpp Require Import base numbers list option strings.
From S2P Require Import Prelude Endian Targets Registry Normalizer Json GbtSubmitter.

Open Scope Z_scope.

(** ** The interface ([adapter_base.h]) *)

(** [pollNormalized] returns the adapter after the call and the item, if any. *)
Class Adapter (A : Type) := { pollNormalized : A -> A * option WorkItem }.

(** What the router relies on: polling an idle adapter changes nothing. *)
Class AdapterLaws (A : Type) `{Adapter A} := {
  poll_idle a : (pollNormalized a).2 = None -> (pollNormalized a).1 = a }.

(** ** Stratum adapter ([stratum_adapter.cc]) *)

Inductive State := kDisconnected | kConnecting | kSubscribed | kAuthorized.

Record StratumAdapter := mkStratumAdapter {
  q_ : list NormalizerResult;
  state_ : State;
  extranonce2_size_ : Z;
  extranonce1_hex_ : list Z;
  policy_share_nbits_ : Z;
  policy_vmask_ : Z;
  policy_ntime_min_ : Z;
  policy_ntime_max_ : Z;
  policy_clean_jobs_ : bool;
  force_clean_jobs_ : bool }.

Definition StratumAdapter_init : StratumAdapter :=
  mkStratumAdapter [] kDisconnected 0 [] 0 0 0 0 true false.

Definition with_q (a : StratumAdapter) (q : list NormalizerResult) : StratumAdapter :=
  mkStratumAdapter q (state_ a) (extranonce2_size_ a) (extranonce1_hex_ a) (policy_share_nbits_ a)
    (policy_vmask_ a) (policy_ntime_min_ a) (policy_ntime_max_ a) (policy_clean_jobs_ a)
    (force_clean_jobs_ a).

Definition pollNormalizedFull (a : StratumAdapter) : StratumAdapter * option NormalizerResult :=
  match q_ a with [] => (a, None) | r :: q => (with_q a q, Some r) end.

#[export] Instance stratum_Adapter : Adapter StratumAdapter := {
  pollNormalized a :=
    match q_ a with [] => (a, None) | r :: q => (with_q a q, Some (res_item r)) end }.

(** [None]: the undefined store of the target expansion. *)
Definition enqueueDummy (a : StratumAdapter) (work_id nbits : Z) : option StratumAdapter :=
  target ← compactToTargetU32LE nbits;
  let w := mkWorkItem work_id 0 536870912 0 nbits 0 (repeat 0 8) (repeat 0 8) target target
             0 0 0 0 false false false in
  Some (with_q a (q_ a ++ [mkNormalizerResult w GpuJobConst_default])).

Definition ingestJob (a : StratumAdapter) (inputs : RawJobInputs) : option StratumAdapter :=
  out ← normalizeJob inputs;
  match out with
  | None => Some a
  | Some r => Some (with_q a (q_ a ++ [r]))
  end.

Definition apply_policy (a : StratumAdapter) (i : RawJobInputs) : RawJobInputs :=
  mkRawJobInputs (in_source_id i) (in_job i) (prevhash_be i) (merkle_root_be i) (header_first64 i)
    (if negb (policy_share_nbits_ a =? 0) then policy_share_nbits_ a else share_nbits i)
    (if negb (policy_vmask_ a =? 0) then policy_vmask_ a else in_vmask i)
    (if negb (policy_ntime_min_ a =? 0) then policy_ntime_min_ a else in_ntime_min i)
    (if negb (policy_ntime_max_ a =? 0) then policy_ntime_max_ a else in_ntime_max i)
    (in_extranonce2_size i)
    (if force_clean_jobs_ a then policy_clean_jobs_ a else in_clean_jobs i).

Definition ingestJobWithPolicy (a : StratumAdapter) (inputs : RawJobInputs) : option StratumAdapter :=
  out ← normalizeJob (apply_policy a inputs);
  match out with
  | None => Some a
  | Some r => Some (with_q a (q_ a ++ [r]))
  end.

Definition with_state (a : StratumAdapter) (s : State) (en1 : list Z) (en2 : Z) : StratumAdapter :=
  mkStratumAdapter (q_ a) s en2 en1 (policy_share_nbits_ a)
    (policy_vmask_ a) (policy_ntime_min_ a) (policy_ntime_max_ a) (policy_clean_jobs_ a)
    (force_clean_jobs_ a).

Definition connect (a : StratumAdapter) : StratumAdapter :=
  with_state a kConnecting (extranonce1_hex_ a) (extranonce2_size_ a).
Definition onSubscribed (a : StratumAdapter) (en1_hex : list Z) (en2_size : Z) : StratumAdapter :=
  with_state a kSubscribed en1_hex en2_size.
Definition onAuthorizeOk (a : StratumAdapter) : StratumAdapter :=
  with_state a kAuthorized (extranonce1_hex_ a) (extranonce2_size_ a).

Definition with_policy (a : StratumAdapter) (sn vm tmin tmax : Z) (cj fc : bool) : StratumAdapter :=
  mkStratumAdapter (q_ a) (state_ a) (extranonce2_size_ a) (extranonce1_hex_ a) sn vm tmin tmax cj fc.

Definition updateVarDiff (a : StratumAdapter) (share_nbits : Z) : StratumAdapter :=
  with_policy a share_nbits (policy_vmask_ a) (policy_ntime_min_ a) (policy_ntime_max_ a)
    (policy_clean_jobs_ a) (force_clean_jobs_ a).
Definition setVersionMask (a : StratumAdapter) (vmask : Z) : StratumAdapter :=
  with_policy a (policy_share_nbits_ a) vmask (policy_ntime_min_ a) (policy_ntime_max_ a)
    (policy_clean_jobs_ a) (force_clean_jobs_ a).
Definition setNtimeCaps (a : StratumAdapter) (nmin nmax : Z) : StratumAdapter :=
  with_policy a (policy_share_nbits_ a) (policy_vmask_ a) nmin nmax
    (policy_clean_jobs_ a) (force_clean_jobs_ a).
Definition setCleanJobs (a : StratumAdapter) (flag : bool) : StratumAdapter :=
  with_policy a (policy_share_nbits_ a) (policy_vmask_ a) (policy_ntime_min_ a) (policy_ntime_max_ a)
    flag (force_clean_jobs_ a).
Definition forceCleanJobs (a : StratumAdapter) (force : bool) : StratumAdapter :=
  with_policy a (policy_share_nbits_ a) (policy_vmask_ a) (policy_ntime_min_ a) (policy_ntime_max_ a)
    (policy_clean_jobs_ a) force.

(** ** GBT adapter ([gbt_adapter.cc]) *)

Record GbtAdapter := mkGbtAdapter { gbt_q_ : list NormalizerResult; submitter_ : option GbtSubmitter }.

#[export] Instance gbt_Adapter : Adapter GbtAdapter := {
  pollNormalized a :=
    match gbt_q_ a with
    | [] => (a, None)
    | r :: q => (mkGbtAdapter q (submitter_ a), Some (res_item r))
    end }.

Definition gbt_pollNormalizedFull (a : GbtAdapter) : GbtAdapter * option NormalizerResult :=
  match gbt_q_ a with [] => (a, None) | r :: q => (mkGbtAdapter q (submitter_ a), Some r) end.

Definition ingestTemplate (a : GbtAdapter) (inputs : RawJobInputs) : option GbtAdapter :=
  out ← normalizeJob inputs;
  match out with
  | None => Some a
  | Some r => Some (mkGbtAdapter (gbt_q_ a ++ [r]) (submitter_ a))
  end.

Definition setSubmitter (a : GbtAdapter) (s : option GbtSubmitter) : GbtAdapter :=
  mkGbtAdapter (gbt_q_ a) s.

(** The RPC state [rpc] changes only when a submitter is set. *)
Definition gbt_submitShare {J R} `{Json J} (call : R -> list Z -> J -> R * option J)
    (a : GbtAdapter) (rpc : R) (header80_be : list Z) : R :=
  match submitter_ a with
  | Some sub => (submitHeader call sub rpc header80_be).1
  | None => rpc
  end.

(** A pool of either kind. *)
#[export] Instance sum_Adapter {A B} `{Adapter A, Adapter B} : Adapter (A + B) := {
  pollNormalized x :=
    match x with
    | inl a => let '(a, w) := pollNormalized a in (inl a, w)
    | inr b => let '(b, w) := pollNormalized b in (inr b, w)
    end }.

(** ** The router ([pool_router.cc])

    Adapters are shared pointers: the objects live in a store [heap], a pointer is an
    index into it or null. *)

Inductive Strategy := kFailover | kRoundRobin.

Record PoolRouter := mkPoolRouter {
  strategy_ : Strategy; adapters_ : list (option nat); rr_index_ : nat }.

Definition addAdapter (r : PoolRouter) (p : option nat) : PoolRouter :=
  mkPoolRouter (strategy_ r) (adapters_ r ++ [p]) (rr_index_ r).
Definition setStrategy (r : PoolRouter) (s : Strategy) : PoolRouter :=
  mkPoolRouter s (adapters_ r) (rr_index_ r).

Section Router.
Context {A : Type} `{Adapter A}.

(** The adapter object behind entry [i] of the vector. *)
Definition target_of (ptrs : list (option nat)) (i : nat) : option nat := p ← ptrs !! i; p.

(** Poll the entries [idxs] in turn until one has work; the entry is returned too. *)
Fixpoint poll_first (ptrs : list (option nat)) (heap : list A) (idxs : list nat) :
    list A * option (nat * WorkItem) :=
  match idxs with
  | [] => (heap, None)
  | i :: idxs =>
      match target_of ptrs i with
      | None => poll_first ptrs heap idxs
      | Some p =>
          match heap !! p with
          | None => poll_first ptrs heap idxs
          | Some a =>
              let '(a, w) := pollNormalized a in
              let heap := <[p := a]> heap in
              match w with
              | Some w => (heap, Some (i, w))
              | None => poll_first ptrs heap idxs
              end
          end
      end
  end.

Definition pollNext (r : PoolRouter) (heap : list A) : PoolRouter * list A * option WorkItem :=
  let n := length (adapters_ r) in
  match adapters_ r with
  | [] => (r, heap, None)
  | _ =>
      match strategy_ r with
      | kFailover =>
          let '(heap, res) := poll_first (adapters_ r) heap (seq 0 n) in
          (r, heap, snd <$> res)
      | kRoundRobin =>
          let idxs := map (fun i => ((rr_index_ r + i) mod n)%nat) (seq 0 n) in
          let '(heap, res) := poll_first (adapters_ r) heap idxs in
          match res with
          | Some (idx, w) =>
              (mkPoolRouter (strategy_ r) (adapters_ r) ((idx + 1) mod n), heap, Some w)
          | None =>
              (mkPoolRouter (strategy_ r) (adapters_ r) ((rr_index_ r + 1) mod n), heap, None)
          end
      end
  end.

End Router.

(** ** Credentials ([pool_profiles.cc]) *)

Inductive PoolProfile := kGeneric | kViaBTC | kF2Pool.

(** Every profile uses the same format. *)
Definition formatStratumCredentials (profile : PoolProfile) (wallet worker hint : list Z) :
    list Z * list Z :=
  let user := match worker with [] => wallet | _ => wallet ++ [46] ++ worker end in
  let pass := match hint with [] => str "x" | _ => hint end in
  match profile with
  | kViaBTC => (user, pass)
  | kF2Pool => (user, pass)
  | kGeneric => (user, pass)
  end.

(** ** Lemmas *)

#[export] Instance stratum_laws : AdapterLaws StratumAdapter.
Proof. split. intros a. cbn. by destruct (q_ a). Qed.
#[export] Instance gbt_laws : AdapterLaws GbtAdapter.
Proof. split. intros a. cbn. by destruct (gbt_q_ a). Qed.
#[export] Instance sum_laws {A B} `{AdapterLaws A, AdapterLaws B} : AdapterLaws (A + B).
Proof.
  split. intros [a|b]; cbn; [pose proof (poll_idle a)|pose proof (poll_idle b)];
    destruct (pollNormalized _); cbn in *; intros; f_equal; auto.
Qed.

Lemma ingestJobWithPolicy_eq a i : ingestJobWithPolicy a i = ingestJob a (apply_policy a i).
Proof. done. Qed.

Section RouterLemmas.
Context {A : Type} `{AdapterLaws A}.

(** Entry [i] leads to an adapter with work. *)
Definition has_work (ptrs : list (option nat)) (heap : list A) (i : nat) : Prop :=
  exists p a, target_of ptrs i = Some p /\ heap !! p = Some a /\ is_Some (pollNormalized a).2.

Lemma poll_first_spec ptrs heap idxs :
  match poll_first ptrs heap idxs with
  | (heap', None) => heap' = heap /\ Forall (fun i => ~ has_work ptrs heap i) idxs
  | (heap', Some (i, w)) =>
      exists l1 l2 p a, idxs = l1 ++ i :: l2 /\ Forall (fun j => ~ has_work ptrs heap j) l1 /\
        target_of ptrs i = Some p /\ heap !! p = Some a /\
        pollNormalized a = ((pollNormalized a).1, Some w) /\
        heap' = <[p := (pollNormalized a).1]> heap
  end.
Proof.
  induction idxs as [|i idxs IH]; [done|]. cbn [poll_first].
  assert (~ has_work ptrs heap i ->
    match poll_first ptrs heap idxs with
    | (heap', None) => heap' = heap /\ Forall (fun i => ~ has_work ptrs heap i) (i :: idxs)
    | (heap', Some (j, w)) => exists l1 l2 p a, i :: idxs = l1 ++ j :: l2 /\
        Forall (fun j => ~ has_work ptrs heap j) l1 /\ target_of ptrs j = Some p /\
        heap !! p = Some a /\ pollNormalized a = ((pollNormalized a).1, Some w) /\
        heap' = <[p := (pollNormalized a).1]> heap
    end) as Hskip.
  { intros Hn. destruct (poll_first ptrs heap idxs) as [heap' [[j w]|]].
    - destruct IH as (l1 & l2 & p & a & -> & Hl & Hrest). exists (i :: l1), l2, p, a.
      split; [done|]. split; [by constructor|done].
    - destruct IH as [-> Hl]. split; [done|by constructor]. }
  destruct (target_of ptrs i) as [p|] eqn:Ep.
  2: { apply Hskip. intros (p & a & E & _). congruence. }
  destruct (heap !! p) as [a|] eqn:Ea.
  2: { apply Hskip. intros (p' & a & E & E' & _). congruence. }
  destruct (pollNormalized a) as [a' [w|]] eqn:Ew.
  - exists [], idxs, p, a. split_and!; [done|constructor|done|done| |]; by rewrite Ew.
  - pose proof (poll_idle a) as Hi. rewrite Ew in Hi. cbn in Hi. rewrite Hi by done.
    rewrite list_insert_id by done. apply Hskip.
    intros (p' & a2 & E & E' & Hs). simplify_eq. rewrite Ew in Hs. by destruct Hs.
Qed.

End RouterLemmas.

(** The entries a round-robin call visits. *)
Lemma rr_visits rr n j : (0 < n)%nat -> (j < n)%nat ->
  exists d, (d < n)%nat /\ ((rr + d) mod n = j)%nat /\
    forall d', (d' < d)%nat -> ((rr + d') mod n <> j)%nat.
Proof.
  intros Hn Hj. exists ((j + n - rr mod n) mod n)%nat.
  pose proof (Nat.mod_upper_bound rr n ltac:(lia)) as Hr.
  assert ((rr + (j + n - rr mod n) mod n) mod n = j)%nat as E.
  { rewrite Nat.Div0.add_mod_idemp_r. rewrite (Nat.div_mod_eq rr n) at 1.
    replace (n * (rr / n) + rr mod n + (j + n - rr mod n))%nat with (j + (rr / n + 1) * n)%nat by nia.
    rewrite Nat.Div0.mod_add. by apply Nat.mod_small. }
  split; [apply Nat.mod_upper_bound; lia|]. split; [done|].
  intros d' Hd' E'. pose proof (Nat.mod_upper_bound (j + n - rr mod n) n ltac:(lia)).
  set (d := ((j + n - rr mod n) mod n)%nat) in *.
  rewrite <- (Nat.Div0.add_mod_idemp_l rr d n) in E. rewrite <- (Nat.Div0.add_mod_idemp_l rr d' n) in E'.
  set (r := (rr mod n)%nat) in *.
  destruct (Nat.lt_ge_cases (r + d) n), (Nat.lt_ge_cases (r + d') n);
    rewrite ?(Nat.mod_small (r + d)), ?(Nat.mod_small (r + d')) in * by lia; try lia.
  - rewrite (Nat.Div0.mod_eq (r + d)) in E by lia.
    assert ((r + d) / n = 1)%nat as Hq by (symmetry; apply (Nat.div_unique _ _ 1 (r + d - n)); lia).
    rewrite Hq in E. lia.
  - rewrite (Nat.Div0.mod_eq (r + d)), (Nat.Div0.mod_eq (r + d')) in * by lia.
    assert ((r + d) / n = 1)%nat as Hq by (symmetry; apply (Nat.div_unique _ _ 1 (r + d - n)); lia).
    assert ((r + d') / n = 1)%nat as Hq' by (symmetry; apply (Nat.div_unique _ _ 1 (r + d' - n)); lia).
    rewrite Hq, Hq' in *. lia.
Qed.

Lemma seq_split l1 n i (l2 : list nat) :
  seq 0 n = l1 ++ i :: l2 -> l1 = seq 0 i /\ (i < n)%nat.
Proof.
  intros E. assert (length l1 < n)%nat as Hl.
  { apply (f_equal length) in E. rewrite length_seq, length_app in E. cbn in E. lia. }
  assert (seq 0 n !! length l1 = Some i) as Hi by (rewrite E; by rewrite list_lookup_middle).
  apply lookup_seq in Hi as [Hi _]. cbn in Hi. subst i. split; [|done].
  apply (f_equal (take (length l1))) in E. rewrite take_app_length, take_seq in E.
  rewrite <- E at 1. f_equal. lia.
Qed.

Lemma map_seq_split (f : nat -> nat) n l1 i l2 :
  map f (seq 0 n) = l1 ++ i :: l2 ->
  exists d, (d < n)%nat /\ i = f d /\ l1 = map f (seq 0 d).
Proof.
  intros E. assert (map f (seq 0 n) !! length l1 = Some i) as Hi by (rewrite E; by rewrite list_lookup_middle).
  rewrite list_lookup_fmap_Some in Hi. destruct Hi as (d & -> & Hd).
  apply lookup_seq in Hd as [-> Hd]. cbn in *.
  exists (length l1). split; [done|]. split; [done|].
  apply (f_equal (take (length l1))) in E. rewrite take_app_length, firstn_map, take_seq in E.
  rewrite <- E at 1. do 2 f_equal. lia.
Qed.

Lemma Forall_map_seq (P : nat -> Prop) f n :
  Forall P (map f (seq 0 n)) -> forall d, (d < n)%nat -> P (f d).
Proof.
  intros Hl d Hd. apply (proj1 (Forall_forall _ _) Hl). apply list_elem_of_fmap_2, elem_of_seq. lia.
Qed.

Section RouterSpec.
Context {A : Type} `{AdapterLaws A}.

(** One call of the round-robin strategy. *)
Lemma round_robin_call (r : PoolRouter) (heap : list A) :
  strategy_ r = kRoundRobin -> adapters_ r <> [] ->
  let n := length (adapters_ r) in
  match pollNext r heap with
  | (r', heap', None) => heap' = heap /\ forall i, (i < n)%nat -> ~ has_work (adapters_ r) heap i
  | (r', heap', Some w) =>
      exists d p a, (d < n)%nat /\ target_of (adapters_ r) ((rr_index_ r + d) mod n) = Some p /\
        heap !! p = Some a /\ (pollNormalized a).2 = Some w /\ heap' = <[p := (pollNormalized a).1]> heap /\
        rr_index_ r' = (((rr_index_ r + d) mod n + 1) mod n)%nat /\
        (forall d', (d' < d)%nat -> ~ has_work (adapters_ r) heap ((rr_index_ r + d') mod n))
  end.
Proof.
  intros Hs Hne n. unfold pollNext. fold n. rewrite Hs.
  assert (0 < n)%nat as Hn by (unfold n; destruct (adapters_ r); [done|cbn; lia]).
  pose proof (poll_first_spec (adapters_ r) heap (map (fun i => ((rr_index_ r + i) mod n)%nat) (seq 0 n))) as P.
  destruct (adapters_ r) as [|p0 ps] eqn:Ea; [done|]. rewrite <- Ea in *.
  destruct (poll_first _ _ _) as [heap' [[i w]|]].
  - destruct P as (l1 & l2 & p & a & E & Hl & Hp & Hh & Hw & ->).
    apply map_seq_split in E as (d & Hd & -> & ->).
    exists d, p, a. split_and!; try done; [by rewrite Hw|].
    intros d' Hd'. by apply (Forall_map_seq _ _ _ Hl).
  - destruct P as [-> Hl]. split; [done|]. intros i Hi.
    destruct (rr_visits (rr_index_ r) n i Hn Hi) as (d & Hd & <- & _).
    by apply (Forall_map_seq _ _ _ Hl).
Qed.

End RouterSpec.

(** ** Properties *)

(** The failover strategy serves the first adapter in order that has work, polls it
    exactly once and leaves every other adapter and the router unchanged; it returns
    nothing only when no adapter has work. *)
Theorem failover_spec {A} `{AdapterLaws A} (r : PoolRouter) (heap : list A) :
  strategy_ r = kFailover ->
  match pollNext r heap with
  | (r', heap', None) =>
      r' = r /\ heap' = heap /\
      forall i, (i < length (adapters_ r))%nat -> ~ has_work (adapters_ r) heap i
  | (r', heap', Some w) =>
      r' = r /\ exists i p a, (i < length (adapters_ r))%nat /\ target_of (adapters_ r) i = Some p /\
        heap !! p = Some a /\ (pollNormalized a).2 = Some w /\
        heap' = <[p := (pollNormalized a).1]> heap /\
        forall j, (j < i)%nat -> ~ has_work (adapters_ r) heap j
  end.
Proof.
  intros Hs. unfold pollNext. rewrite Hs.
  destruct (adapters_ r) as [|p0 ps] eqn:Ea; [split; [done|]; split; [done|]; cbn; lia|].
  rewrite <- Ea in *. set (n := length (adapters_ r)).
  pose proof (poll_first_spec (adapters_ r) heap (seq 0 n)) as P.
  destruct (poll_first _ _ _) as [heap' [[i w]|]]; cbn [fmap option_fmap option_map snd].
  - destruct P as (l1 & l2 & p & a & E & Hl & Hp & Hh & Hw & ->).
    apply seq_split in E as [-> Hi]. split; [done|]. exists i, p, a.
    split_and!; try done; [by rewrite Hw|].
    intros j Hj. apply (proj1 (Forall_forall _ _) Hl). apply elem_of_seq. lia.
  - destruct P as [-> Hl]. split; [done|]. split; [done|].
    intros j Hj. apply (proj1 (Forall_forall _ _) Hl). apply elem_of_seq. lia.
Qed.

Definition one_item (w : WorkItem) : StratumAdapter :=
  with_q StratumAdapter_init [mkNormalizerResult w GpuJobConst_default].

Lemma failover_spec_witness :
  let r := mkPoolRouter kFailover [None; Some 0%nat; Some 1%nat] 0 in
  let '(_, heap', w) := pollNext r [StratumAdapter_init; one_item WorkItem_default] in
  w = Some WorkItem_default /\ heap' = [StratumAdapter_init; StratumAdapter_init].
Proof.
  pose proof (failover_spec (mkPoolRouter kFailover [None; Some 0%nat; Some 1%nat] 0)
    [StratumAdapter_init; one_item WorkItem_default] eq_refl) as P.
  destruct P as [_ (i & p & a & Hi & Hp & Ha & Hw & Hh & _)].
  split; [reflexivity|reflexivity].
Defined.

(** The round-robin strategy starves nobody: when an adapter [d] places after the
    rotating start has work, a call always returns an item, and either that adapter is the
    one served, or it is strictly closer to the start of the next call (so it is served
    within [d + 1] calls); a served adapter is polled once and the others are unchanged. *)
Theorem round_robin_progress {A} `{AdapterLaws A} (r : PoolRouter) (heap : list A) (d : nat) :
  strategy_ r = kRoundRobin -> (d < length (adapters_ r))%nat ->
  let n := length (adapters_ r) in
  let j := ((rr_index_ r + d) mod n)%nat in
  has_work (adapters_ r) heap j ->
  exists r' heap' w e p a, pollNext r heap = (r', heap', Some w) /\ (e <= d)%nat /\
    target_of (adapters_ r) ((rr_index_ r + e) mod n) = Some p /\ heap !! p = Some a /\
    (pollNormalized a).2 = Some w /\ heap' = <[p := (pollNormalized a).1]> heap /\
    (e = d \/ ((rr_index_ r' + (d - e - 1)) mod n = j)%nat).
Proof.
  intros Hs Hd n j Hw. assert (adapters_ r <> []) as Hne by (intros E; rewrite E in Hd; cbn in Hd; lia).
  pose proof (round_robin_call r heap Hs Hne) as P. fold n in P.
  destruct (pollNext r heap) as [[r' heap'] [w|]].
  - destruct P as (e & p & a & He & Hp & Ha & Hpw & Hh & Hr & Hbefore).
    exists r', heap', w, e, p, a.
    assert (e <= d)%nat as Hle.
    { destruct (Nat.le_gt_cases e d) as [|Hgt]; [done|]. exfalso. by apply (Hbefore d Hgt). }
    split_and!; try done.
    destruct (decide (e = d)) as [|Hne']; [by left|right].
    rewrite Hr. unfold j. rewrite Nat.Div0.add_mod_idemp_l, <- Nat.add_assoc, Nat.Div0.add_mod_idemp_l.
    f_equal. lia.
  - destruct P as [_ Hno]. exfalso. apply (Hno j); [|done]. apply Nat.mod_upper_bound. lia.
Qed.

Lemma round_robin_progress_witness :
  let r := mkPoolRouter kRoundRobin [Some 0%nat; Some 1%nat] 1 in
  has_work (adapters_ r) [StratumAdapter_init; one_item WorkItem_default] 1 /\
  exists w, (pollNext r [StratumAdapter_init; one_item WorkItem_default]).2 = Some w.
Proof.
  assert (has_work [Some 0%nat; Some 1%nat] [StratumAdapter_init; one_item WorkItem_default] 1) as Hw.
  { exists 1%nat, (one_item WorkItem_default). split; [reflexivity|]. split; [reflexivity|].
    exists WorkItem_default. reflexivity. }
  split; [exact Hw|].
  destruct (round_robin_progress (mkPoolRouter kRoundRobin [Some 0%nat; Some 1%nat] 1)
    [StratumAdapter_init; one_item WorkItem_default] 0 eq_refl ltac:(cbn; lia) Hw)
    as (r' & heap' & w & e & p & a & E & _).
  exists w. exact (f_equal snd E).
Defined.

(** A job ingested with policy joins the end of the queue, after the jobs before it;
    its share target, version mask and time bounds are the policy's where the policy is
    set, the job's otherwise, and its clean flag is the policy's only when forced.  Its
    block target never depends on the policy. *)
Theorem policy_ingest a i a' :
  wf_inputs (apply_policy a i) -> ingestJobWithPolicy a i = Some a' ->
  3 <= compact_exponent (job_nbits (in_job i)) ->
  3 <= compact_exponent (share_nbits (apply_policy a i)) ->
  exists r, q_ a' = q_ a ++ [r] /\ wf_item (res_item r) /\
    target_val (share_target_le (res_item r)) =
      compact_value (if policy_share_nbits_ a =? 0 then share_nbits i else policy_share_nbits_ a) /\
    target_val (block_target_le (res_item r)) = compact_value (job_nbits (in_job i)) /\
    vmask (res_item r) = (if policy_vmask_ a =? 0 then in_vmask i else policy_vmask_ a) /\
    (policy_ntime_min_ a <> 0 -> ntime_min (res_item r) = policy_ntime_min_ a) /\
    (policy_ntime_max_ a <> 0 -> ntime_max (res_item r) = policy_ntime_max_ a) /\
    clean_jobs (res_item r) = (if force_clean_jobs_ a then policy_clean_jobs_ a else in_clean_jobs i).
Proof.
  intros Hw E Hb Hs. rewrite ingestJobWithPolicy_eq in E. unfold ingestJob in E.
  destruct (normalizeJob (apply_policy a i)) as [[r|]|] eqn:En; [|
    by apply normalizeJob_some in En as (? & ? & ? & ? & _)|done].
  cbn [mbind option_bind] in E. injection E as <-. exists r. cbn [q_ with_q].
  destruct (normalizeJob_targets _ r Hw Hb Hs En) as [Ht1 Ht2].
  destruct (normalizeJob_wf _ r Hw En) as [Hwf _].
  split; [done|]. split; [done|]. split.
  { rewrite Ht2. cbn [share_nbits apply_policy]. by destruct (policy_share_nbits_ a =? 0). }
  split; [done|].
  unfold normalizeJob in En. destruct (compactToTargetU32LE (job_nbits _)) as [tb|]; [|discriminate En].
  destruct (compactToTargetU32LE (share_nbits _)) as [ts|]; [|discriminate En]. cbn [mbind option_bind] in En. injection En as <-.
  cbn [res_item vmask ntime_min ntime_max clean_jobs apply_policy in_vmask in_ntime_min in_ntime_max in_clean_jobs].
  split; [by destruct (policy_vmask_ a =? 0)|].
  split; [intros Hz; rewrite (proj2 (Z.eqb_neq _ 0) Hz); cbn [negb]; by rewrite (proj2 (Z.eqb_neq _ 0) Hz)|].
  split; [intros Hz; rewrite (proj2 (Z.eqb_neq _ 0) Hz); cbn [negb]; by rewrite (proj2 (Z.eqb_neq _ 0) Hz)|].
  done.
Qed.

Lemma policy_ingest_witness :
  let a := setCleanJobs (updateVarDiff StratumAdapter_init 520159231) false in
  let i := mkRawJobInputs 1 (mkRawJob "p" 7 2 486604799 5) (repeat 1 32) (repeat 2 32) (repeat 3 64)
             486604799 0 0 0 4 true in
  exists a' r, ingestJobWithPolicy a i = Some a' /\ q_ a' = [r] /\
    target_val (share_target_le (res_item r)) = compact_value 520159231 /\
    clean_jobs (res_item r) = true.
Proof.
  destruct (ingestJobWithPolicy (setCleanJobs (updateVarDiff StratumAdapter_init 520159231) false)
    (mkRawJobInputs 1 (mkRawJob "p" 7 2 486604799 5) (repeat 1 32) (repeat 2 32) (repeat 3 64)
             486604799 0 0 0 4 true)) as [a'|] eqn:E; [|vm_compute in E; discriminate].
  match type of E with ingestJobWithPolicy ?a ?i = _ =>
    destruct (policy_ingest a i a') as (r & Hq & _ & Hs & _ & _ & _ & _ & Hc) end.
  - split; cbn -[in_u]; try in_range; (split; [reflexivity|in_range]).
  - exact E.
  - vm_compute. discriminate.
  - vm_compute. discriminate.
  - exists a', r. split; [exact E|]. split; [exact Hq|]. split; [exact Hs|exact Hc].
Defined.
