(* ===== verification/DeviceSha.v ===== *)
(** * SHA-256 on the device ([src/cuda/sha256d.cuh])

    The third implementation of the hash, specialised to 80-byte headers and 32-byte
    digests, and its equality with the reference. *)

From stdpp Require Import base numbers list.
From S2P Require Import Prelude Sha256.

Open Scope Z_scope.
Open Scope cxx_scope.

(** ** Definitions *)

Definition kSha256K : list Z :=
  [ 1116352408; 1899447441; 3049323471; 3921009573; 961987163; 1508970993; 2453635748; 2870763221;
    3624381080; 310598401; 607225278; 1426881987; 1925078388; 2162078206; 2614888103; 3248222580;
    3835390401; 4022224774; 264347078; 604807628; 770255983; 1249150122; 1555081692; 1996064986;
    2554220882; 2821834349; 2952996808; 3210313671; 3336571891; 3584528711; 113926993; 338241895;
    666307205; 773529912; 1294757372; 1396182291; 1695183700; 1986661051; 2177026350; 2456956037;
    2730485921; 2820302411; 3259730800; 3345764771; 3516065817; 3600352804; 4094571909; 275423344;
    430227734; 506948616; 659060556; 883997877; 958139571; 1322822218; 1537002063; 1747873779;
    1955562222; 2024104815; 2227730452; 2361852424; 2428436474; 2756734187; 3204031479; 3329325298 ].

Definition kSha256IV : list Z :=
  [1779033703; 3144134277; 1013904242; 2773480762; 1359893119; 2600822924; 528734635; 1541459225].

Definition rotr (x n : Z) : Z := (x .>> n) .| (x .<< (32 - n)).
Definition Ch (x y z : Z) : Z := (x .& y) .^ (not32 x .& z).
Definition Maj (x y z : Z) : Z := (x .& y) .^ (x .& z) .^ (y .& z).
Definition Sig0 (x : Z) : Z := rotr x 2 .^ rotr x 13 .^ rotr x 22.
Definition Sig1 (x : Z) : Z := rotr x 6 .^ rotr x 11 .^ rotr x 25.
Definition sig0 (x : Z) : Z := rotr x 7 .^ rotr x 18 .^ (x .>> 3).
Definition sig1 (x : Z) : Z := rotr x 17 .^ rotr x 19 .^ (x .>> 10).

(** One iteration of the round loop. *)
Definition dev_round (r : regs) (k w : Z) : regs :=
  let 'Regs a b c d e f g h := r in
  let t1 := h ⊞ Sig1 e ⊞ Ch e f g ⊞ k ⊞ w in
  let t2 := Sig0 a ⊞ Maj a b c in
  Regs (t1 ⊞ t2) a b c (d ⊞ t1) e f g.

Definition sha256_compress (state w0_15_be : list Z) : list Z :=
  let w := fold_left (fun w i =>
             w ++ [sig1 (rd w (i - 2)) ⊞ rd w (i - 7) ⊞ sig0 (rd w (i - 15)) ⊞ rd w (i - 16)])
             (seq 16 48) w0_15_be in
  add_regs state
    (fold_left (fun r i => dev_round r (rd kSha256K i) (rd w i)) (seq 0 64) (regs_of state)).

(** The eight bytes [(bitlen >> (56 - 8*i)) & 0xFF]. *)
Definition length_bytes (bitlen : Z) : list Z :=
  map (fun i => (bitlen .>> (56 - 8 * Z.of_nat i)) .& 255) (seq 0 8).

Definition sha256_80_be (header80 : list Z) : list Z :=
  let st := sha256_compress kSha256IV (words_of 16 header80) in
  let block := map (fun i => rd header80 (64 + i)) (seq 0 16) ++ [128] ++ repeat 0 39 ++
               length_bytes 640 in
  bytes_of (sha256_compress st (words_of 16 block)).

(** The hash of a 32-byte digest in one block, as the second half of [sha256d_80_be]
    and of the kernels' midstate paths write it. *)
Definition sha256_digest_block (t1 : list Z) : list Z :=
  bytes_of (sha256_compress kSha256IV (words_of 8 t1 ++ [2147483648] ++ repeat 0 6 ++ [256])).

Definition sha256d_80_be (header80 : list Z) : list Z :=
  let t1 := sha256_80_be header80 in
  sha256_digest_block t1.

(** ** Lemmas *)

Lemma dev_round_fips r k w : dev_round r k w = fips_round r k w.
Proof. by destruct r. Qed.

Lemma sha256_compress_fips st w : sha256_compress st w = compress st w.
Proof.
  unfold sha256_compress. rewrite compress_eq. unfold fips_schedule.
  replace kSha256K with fips_K by reflexivity.
  change sig1 with ssig1. change sig0 with ssig0.
  generalize (fold_left (fun (w : list Z) (t : nat) =>
    w ++ [ssig1 (rd w (t - 2)) ⊞ rd w (t - 7) ⊞ ssig0 (rd w (t - 15)) ⊞ rd w (t - 16)]) (seq 16 48) w).
  generalize fips_K, (regs_of st). intros k r w'. apply (f_equal (add_regs st)).
  apply fold_left_cong. intros. apply dev_round_fips.
Qed.
#[global] Opaque sha256_compress.

Lemma kSha256IV_fips : kSha256IV = fips_H0.
Proof. reflexivity. Qed.

Lemma words_of_app n m a b :
  length a = (4 * n)%nat -> words_of (n + m) (a ++ b) = words_of n a ++ words_of m b.
Proof.
  intros Hl. unfold words_of. rewrite seq_app, map_app. cbn [plus].
  assert (forall o, rd (a ++ b) (length a + o) = rd b o) as Hr.
  { intros o. rewrite rd_app_r by lia. f_equal. lia. }
  f_equal.
  - apply map_ext_in. intros i Hi. apply in_seq in Hi. unfold word_at. by rewrite !rd_app_l by lia.
  - replace (seq n m) with (map (Nat.add n) (seq 0 m))
      by (rewrite <- (Nat.add_0_r n) at 2; apply fmap_add_seq).
    rewrite map_map. apply map_ext. intros i. unfold word_at.
    replace (4 * (n + i))%nat with (length a + 4 * i)%nat by lia.
    rewrite <- !Nat.add_assoc. by rewrite !Hr.
Qed.

Lemma rd_take n a i : (i < n)%nat -> rd (take n a) i = rd a i.
Proof. intros. unfold rd. by rewrite !nth_lookup, lookup_take_lt by lia. Qed.

Lemma words_of_take n bs : words_of n (take (4 * n) bs) = words_of n bs.
Proof.
  unfold words_of. apply map_ext_in. intros i Hi. apply in_seq in Hi. unfold word_at.
  by rewrite !rd_take by lia.
Qed.

(** One block hash of a 32-byte message. *)
Lemma sha256_digest_block_fips d :
  length d = 32%nat -> sha256_digest_block d = fips_sha256 d.
Proof.
  intros Hl. unfold sha256_digest_block, fips_sha256.
  rewrite hash_with_tail by done. rewrite Hl.
  change (32 / 64)%nat with 0%nat. change (32 mod 64)%nat with 32%nat.
  rewrite decide_True by lia. rewrite Nat.mul_0_r, drop_0, absorb_0.
  rewrite sha256_compress_fips, kSha256IV_fips. f_equal. f_equal.
  by rewrite (words_of_app 8 8) by lia.
Qed.

Lemma second_block header :
  length header = 80%nat ->
  map (fun i => rd header (64 + i)) (seq 0 16) ++ [128] ++ repeat 0 39 ++ length_bytes 640
  = drop 64 header ++ 128 :: repeat 0 39 ++ be64 640.
Proof.
  intros Hl. rewrite <- (map_rd_seq_n (drop 64 header) 16) by (rewrite length_drop; lia).
  f_equal. apply map_ext. intros i. unfold rd. by rewrite !nth_lookup, lookup_drop.
Qed.

Lemma sha256_80_be_fips header :
  length header = 80%nat -> sha256_80_be header = fips_sha256 header.
Proof.
  intros Hl. unfold fips_sha256. rewrite hash_with_tail by done. rewrite Hl.
  change (80 / 64)%nat with 1%nat. change (80 mod 64)%nat with 16%nat.
  rewrite decide_True by lia. unfold sha256_80_be. rewrite second_block by done. cbv zeta.
  assert (absorb 1 fips_H0 header = sha256_compress kSha256IV (words_of 16 header)) as ->.
  { rewrite (sha256_compress_fips kSha256IV), kSha256IV_fips. rewrite absorb_S, absorb_0.
    unfold msg_block. by rewrite Nat.mul_0_r, drop_0, <- (words_of_take 16 header). }
  generalize (sha256_compress kSha256IV (words_of 16 header)). intros st.
  rewrite (sha256_compress_fips st). done.
Qed.

Lemma fips_sha256_length m : length (fips_sha256 m) = 32%nat.
Proof. unfold fips_sha256, hash_with. by rewrite bytes_of_length, absorb_length. Qed.

Lemma fips_sha256_bytes m : is_bytes (fips_sha256 m).
Proof. unfold fips_sha256, hash_with. apply bytes_of_bytes. Qed.

#[global] Opaque sha256_80_be sha256_digest_block fips_sha256.

Lemma sha256d_80_be_fips header :
  length header = 80%nat -> sha256d_80_be header = fips_sha256 (fips_sha256 header).
Proof.
  intros Hl. unfold sha256d_80_be. rewrite (sha256_80_be_fips header Hl).
  apply sha256_digest_block_fips, fips_sha256_length.
Qed.

(** ** Properties *)

(** C1: the device hash of any 80-byte header is its double SHA-256. *)
Theorem device_sha256d_correct header :
  length header = 80%nat -> sha256d_80_be header = fips_sha256 (fips_sha256 header).
Proof. apply sha256d_80_be_fips. Qed.

Lemma device_sha256d_correct_witness :
  sha256d_80_be (repeat 7 80) = fips_sha256 (fips_sha256 (repeat 7 80)).
Proof. exact (device_sha256d_correct (repeat 7 80) eq_refl). Defined.
