(* ===== verification/Device.v ===== *)
(** * The mining kernels and the device hit ring ([src/cuda/engine.cu])

    The job table, header assembly, the three kernels that search nonces, the ring they
    report hits to, and the host's drain of it (the CUDA branch of the sources).

    A launch is a sequence of thread blocks in any order; within a block the atomic
    reservations of its threads happen in any order (the parameter [merge] of a launch),
    and the reservation and the writes of one push or flush are one step.  Reads and
    writes outside the device tables are undefined: such a launch has no result. *)

From stdpp Require Import base numbers list option.
From S2P Require Import Prelude Endian Sha256 CpuVerify DeviceSha.

Open Scope Z_scope.
Open Scope cxx_scope.

(** ** Data ([engine.h]) *)

Record HitRecord := mkHit { hit_work_id : Z; hit_nonce : Z }.

Record DeviceJob := mkDeviceJob {
  version : Z; ntime : Z; nbits : Z; vmask : Z; ntime_min : Z; ntime_max : Z;
  extranonce2_size : Z; work_id : Z;
  prevhash_le : list Z; merkle_root_le : list Z;
  share_target_le : list Z; block_target_le : list Z;
  midstate_le : list Z; share_target_be : list Z }.

(** The device symbols and the host-side mirrors. *)
Record Device := mkDevice {
  g_hit_buf : option (list HitRecord); g_hit_cap : Z; g_hit_write_idx : Z;
  g_jobs : option (list DeviceJob);
  g_jobs_const : list DeviceJob; g_jobs_const_size : nat; g_num_jobs : nat;
  g_block_flush_count : Z;
  s_device_drain_offset : Z }.

Definition Device_init : Device := mkDevice None 0 0 None [] 0 0 0 0.

Definition with_ring (d : Device) (buf : option (list HitRecord)) (idx : Z) : Device :=
  mkDevice buf (g_hit_cap d) idx (g_jobs d) (g_jobs_const d) (g_jobs_const_size d) (g_num_jobs d)
    (g_block_flush_count d) (s_device_drain_offset d).

(** ** Jobs *)

Definition uploadDeviceJobs (d : Device) (jobs_host : list DeviceJob) : Device * bool :=
  let num_jobs := length jobs_host in
  if (num_jobs =? 0)%nat then (d, false)
  else
    let cnum := if (64 <? num_jobs)%nat then 64%nat else num_jobs in
    (mkDevice (g_hit_buf d) (g_hit_cap d) (g_hit_write_idx d) (Some jobs_host)
       (take cnum jobs_host ++ drop cnum (g_jobs_const d)) cnum num_jobs
       (g_block_flush_count d) (s_device_drain_offset d), true).

(** [(j < g_jobs_const_size) ? &g_jobs_const[j] : &g_jobs[j]]. *)
Definition job_at (d : Device) (j : nat) : option DeviceJob :=
  if (j <? g_jobs_const_size d)%nat then g_jobs_const d !! j
  else jobs ← g_jobs d; jobs !! j.

(** ** Header assembly *)

Definition device_ntime (J : DeviceJob) : Z :=
  let t := ntime J in
  let t := if negb (ntime_min J =? 0) && (t <? ntime_min J) then ntime_min J else t in
  if negb (ntime_max J =? 0) && (t >? ntime_max J) then ntime_max J else t.

Definition device_header (J : DeviceJob) (nonce : Z) : list Z :=
  be_bytes32 (version J) ++
  concat (map (fun w => be_bytes32 (rd (prevhash_le J) w)) (seq 0 8)) ++
  concat (map (fun w => be_bytes32 (rd (merkle_root_le J) w)) (seq 0 8)) ++
  be_bytes32 (device_ntime J) ++ be_bytes32 (nbits J) ++ be_bytes32 nonce.

Definition used_midstate (J : DeviceJob) : bool :=
  existsb (fun i => negb (rd (midstate_le J) i =? 0)) (seq 0 8).

(** The midstate path: the second block of four given words, then the digest block. *)
Definition midstate_digest (J : DeviceJob) (w0_3 : list Z) : list Z :=
  let st := map (rd (midstate_le J)) (seq 0 8) in
  let st := sha256_compress st (w0_3 ++ [2147483648] ++ repeat 0 10 ++ [640]) in
  let t1 := bytes_of st in
  sha256_digest_block t1.

Definition stub_digest (J : DeviceJob) (nonce : Z) : list Z :=
  let header := device_header J nonce in
  if used_midstate J then midstate_digest J (map (fun i => word_at header (64 + 4 * i)) (seq 0 4))
  else sha256d_80_be header.

Definition batch_digest (J : DeviceJob) (nonce : Z) : list Z :=
  if used_midstate J then
    midstate_digest J [bswap32 (rd (merkle_root_le J) 7); bswap32 (device_ntime J);
                       bswap32 (nbits J); bswap32 nonce]
  else sha256d_80_be (device_header J nonce).

(** The tail loop of the unrolled kernel. *)
Definition tail_digest (J : DeviceJob) (nonce : Z) : list Z := sha256d_80_be (device_header J nonce).

(** The 32-step comparison loop. *)
Definition device_leq (J : DeviceJob) (digest : list Z) : bool :=
  bytes_leq (map (rd digest) (seq 0 32)) (map (rd (share_target_be J)) (seq 0 32)).

(** ** The hit ring *)

Definition ring_slot (d : Device) (idx : Z) : nat :=
  Z.to_nat (if g_hit_cap d =? 0 then 0 else idx mod g_hit_cap d).

(** [atomicInc(&g_hit_write_idx, 0xFFFFFFFF)] and the two stores; [None] when there is
    no buffer to store to. *)
Definition push_hit (d : Device) (h : HitRecord) : option Device :=
  buf ← g_hit_buf d;
  let idx := g_hit_write_idx d in
  let slot := ring_slot d idx in
  if (slot <? length buf)%nat
  then Some (with_ring d (Some (<[slot := h]> buf)) (u32 (idx + 1)))
  else None.

(** ** Kernels *)

(** [kernel_mine_stub], the block and thread that do the work for job [j]. *)
Definition mine_stub_job (nonce_base : Z) (d : Device) (j : nat) : option Device :=
  match g_jobs d, g_hit_buf d with
  | Some _, Some _ =>
      if g_hit_cap d =? 0 then Some d
      else
        J ← job_at d j;
        let nonce := u32 (nonce_base + Z.of_nat j) in
        let digest := stub_digest J nonce in
        if device_leq J digest then push_hit d (mkHit (work_id J) nonce) else Some d
  | _, _ => Some d
  end.

Fixpoint foldM {A B} (f : A -> B -> option A) (a : A) (l : list B) : option A :=
  match l with [] => Some a | b :: l => a ← f a b; foldM f a l end.

(** [kernel<<<dim3(x, y), dim3(threads)>>>]: CUDA refuses a grid of more than 2^31 - 1 by
    65535 blocks and a block of more than 1024 threads.  Nothing runs then, and the
    error is not read: the functions that launch return [true]. *)
Definition launchable (x y threads : nat) : bool :=
  (Z.of_nat x <=? 2147483647) && (Z.of_nat y <=? 65535) && (Z.of_nat threads <=? 1024).

Definition launch_kernel {B} (x y threads : nat) (block : Device -> B -> option Device)
    (d : Device) (order : list B) : option Device :=
  if launchable x y threads then foldM block d order else Some d.

Definition launchMineStub (d : Device) (num_jobs : nat) (nonce_base : Z) (order : list nat) :
    option (Device * bool) :=
  if (g_num_jobs d =? 0)%nat || (num_jobs =? 0)%nat then Some (d, false)
  else d ← launch_kernel 1 num_jobs 64 (mine_stub_job nonce_base) d order; Some (d, true).

Definition launchMineWithPlan (d : Device) (num_jobs blocks_per_job threads_per_block : nat)
    (nonce_base : Z) (order : list nat) : option (Device * bool) :=
  if (g_num_jobs d =? 0)%nat || (num_jobs =? 0)%nat then Some (d, false)
  else if (blocks_per_job =? 0)%nat || (threads_per_block =? 0)%nat then Some (d, false)
  else
    d ← launch_kernel blocks_per_job num_jobs threads_per_block (mine_stub_job nonce_base) d order;
    Some (d, true).

(** The shared memory of a block: the entries of [s_hits] written so far and [s_count]. *)
Record Shared := mkShared { s_hits : list HitRecord; s_count : Z }.

Definition record_hit (st : Device * Shared) (h : HitRecord) : option (Device * Shared) :=
  let '(d, sh) := st in
  let li := s_count sh in
  if li <? 64 then Some (d, mkShared (s_hits sh ++ [h]) (u32 (s_count sh + 1)))
  else d ← push_hit d h; Some (d, mkShared (s_hits sh) (u32 (s_count sh + 1))).

(** One iteration of the flush loop; [s_hits[i]] must be inside the array. *)
Definition flush_one (start : Z) (sh : Shared) (d : Device) (i : nat) : option Device :=
  h ← s_hits sh !! i;
  buf ← g_hit_buf d;
  let slot := ring_slot d (u32 (start + Z.of_nat i)) in
  if (slot <? length buf)%nat
  then Some (with_ring d (Some (<[slot := h]> buf)) (g_hit_write_idx d)) else None.

Definition flush (d : Device) (sh : Shared) : option Device :=
  if (0 <? s_count sh) && (match g_hit_buf d with Some _ => true | None => false end) &&
     negb (g_hit_cap d =? 0)
  then
    let start := g_hit_write_idx d in
    let d := mkDevice (g_hit_buf d) (g_hit_cap d) (u32 (start + s_count sh)) (g_jobs d)
               (g_jobs_const d) (g_jobs_const_size d) (g_num_jobs d)
               (u32 (g_block_flush_count d + 1)) (s_device_drain_offset d) in
    foldM (flush_one start sh) d (seq 0 (Z.to_nat (s_count sh)))
  else Some d.

(** The nonces of one thread with the digest each is tested with. *)
Definition plain_loop (digest : DeviceJob -> Z -> list Z) (npt : nat) :
    list (nat * (DeviceJob -> Z -> list Z)) :=
  map (fun k => (k, digest)) (seq 0 npt).

(** [for (; k + UNROLL <= nonces_per_thread; k += UNROLL)] with the 32-bit sum: the
    nonces in order and [k] at the end.  [None] is a loop that is still running when the
    fuel is spent. *)
Fixpoint unroll_main (fuel unroll k npt : nat) : option (list nat * nat) :=
  match fuel with
  | O => None
  | S fuel =>
      let next := Z.to_nat (u32 (Z.of_nat k + Z.of_nat unroll)) in
      if (next <=? npt)%nat then
        '(ks, k') ← unroll_main fuel unroll next npt; Some (seq k unroll ++ ks, k')
      else Some ([], k)
  end.

(** The unrolled loop and the tail loop.  The main loop takes at most [npt] turns when its
    sums do not wrap; when they do it never ends ([unroll_never_ends]). *)
Definition unroll_loop (unroll npt : nat) : option (list (nat * (DeviceJob -> Z -> list Z))) :=
  '(ks, k) ← unroll_main (S npt) unroll 0 npt;
  Some (map (fun k => (k, batch_digest)) ks ++ map (fun k => (k, tail_digest)) (seq k (npt - k))).

(** The loop of the kernel chosen for [npt] nonces per thread. *)
Definition batch_iters (npt : nat) : option (list (nat * (DeviceJob -> Z -> list Z))) :=
  if (8 <=? npt)%nat then unroll_loop 8 npt
  else if (4 <=? npt)%nat then unroll_loop 4 npt
  else if (2 <=? npt)%nat then unroll_loop 2 npt
  else Some (plain_loop batch_digest npt).

Definition start_nonce (nonce_base : Z) (j tx bx bdim npt : nat) : Z :=
  let lane := u32 (Z.of_nat tx + Z.of_nat bx * Z.of_nat bdim) in
  u32 (nonce_base + Z.of_nat j + lane * Z.of_nat npt).

Definition thread_hits (J : DeviceJob) (start : Z) (iters : list (nat * (DeviceJob -> Z -> list Z))) :
    list HitRecord :=
  concat (map (fun '(k, digest) =>
    let nonce := u32 (start + Z.of_nat k) in
    if device_leq J (digest J nonce) then [mkHit (work_id J) nonce] else []) iters).

Record Launch := mkLaunch {
  bdim : nat; npt : nat; base : Z;
  iters : list (nat * (DeviceJob -> Z -> list Z));
  merge : list (list HitRecord) -> list HitRecord }.

(** One block [(j, bx)]. *)
Definition run_block (L : Launch) (d : Device) (blk : nat * nat) : option Device :=
  let '(j, bx) := blk in
  J ← job_at d j;
  let threads := map (fun tx => thread_hits J (start_nonce (base L) j tx bx (bdim L) (npt L)) (iters L))
                   (seq 0 (bdim L)) in
  '(d, sh) ← foldM record_hit (d, mkShared [] 0) (merge L threads);
  flush d sh.

(** [order] lists the blocks of the grid in execution order.  [None] is an access outside
    the device's arrays or a kernel that never ends. *)
Definition launchMineWithPlanBatch (d : Device) (num_jobs blocks_per_job threads_per_block : nat)
    (nonce_base : Z) (nonces_per_thread : nat)
    (order : list (nat * nat)) (merge : list (list HitRecord) -> list HitRecord) :
    option (Device * bool) :=
  if (g_num_jobs d =? 0)%nat || (num_jobs =? 0)%nat then Some (d, false)
  else if (blocks_per_job =? 0)%nat || (threads_per_block =? 0)%nat then Some (d, false)
  else
    let npt := if (nonces_per_thread =? 0)%nat then 1%nat else nonces_per_thread in
    if launchable blocks_per_job num_jobs threads_per_block then
      iters ← batch_iters npt;
      d ← foldM (run_block (mkLaunch threads_per_block npt nonce_base iters merge)) d order;
      Some (d, true)
    else Some (d, true).

(** [computeDeviceHashForJob] through [kernel_hash_one]. *)
Definition computeDeviceHashForJob (d : Device) (job_index : nat) (nonce : Z) :
    option (option (list Z)) :=
  match g_jobs d with
  | None => Some None
  | Some jobs => J ← jobs !! job_index; Some (Some (sha256d_80_be (device_header J nonce)))
  end.

Definition computeDeviceHashForHeader80 (header80_be : list Z) : list Z := sha256d_80_be header80_be.

(** ** The ring on the host side *)

Definition initDeviceHitBuffer (d : Device) (capacity : Z) (fresh : list HitRecord) : Device :=
  let capacity := if capacity =? 0 then 1 else capacity in
  mkDevice (Some fresh) capacity 0 (g_jobs d) (g_jobs_const d) (g_jobs_const_size d) (g_num_jobs d)
    (g_block_flush_count d) 0.

(** [kernel_push_hits], one hit per job, in the order [order] of the jobs. *)
Definition launchPushHitsToDeviceRing (d : Device) (work_ids : list Z) (nonce_base : Z)
    (order : list nat) : option (Device * bool) :=
  match g_hit_buf d with
  | None => Some (d, false)
  | Some _ =>
      if g_hit_cap d =? 0 then Some (d, false)
      else
        d ← launch_kernel 1 (length work_ids) 64
              (fun d j => push_hit d (mkHit (rd work_ids j) (u32 (nonce_base + Z.of_nat j)))) d order;
        Some (d, true)
  end.

(** Without a CUDA build the demo fills the records on the host. *)
Definition launchWriteHitsDemo (work_ids : list Z) (num_jobs : nat) (nonce_base : Z) : list HitRecord :=
  map (fun j => mkHit (rd work_ids j) (u32 (nonce_base + Z.of_nat j))) (seq 0 num_jobs).

Definition available_hits (write_idx offset : Z) : Z :=
  if offset <=? write_idx then write_idx - offset
  else u32 (4294967295 - offset + 1 + write_idx).

(** [cudaMemcpy] of [n] records from index [i]: [None] outside the buffer. *)
Definition copy_from (buf : list HitRecord) (i n : Z) : option (list HitRecord) :=
  if i + n <=? zlen buf then Some (take (Z.to_nat n) (drop (Z.to_nat i) buf)) else None.

Definition drainDeviceHits (d : Device) (max_out : Z) : option (Device * list HitRecord * bool) :=
  match g_hit_buf d with
  | None => Some (d, [], false)
  | Some buf =>
      if g_hit_cap d =? 0 then Some (d, [], false)
      else
        let offset := s_device_drain_offset d in
        let available := available_hits (g_hit_write_idx d) offset in
        if available =? 0 then Some (d, [], true)
        else
          let to_copy := if available >? max_out then max_out else available in
          let start := offset mod g_hit_cap d in
          let first := if to_copy <? g_hit_cap d - start then to_copy else g_hit_cap d - start in
          a ← copy_from buf start first;
          b ← (if first <? to_copy then copy_from buf 0 (to_copy - first) else Some []);
          Some (mkDevice (g_hit_buf d) (g_hit_cap d) (g_hit_write_idx d) (g_jobs d) (g_jobs_const d)
                  (g_jobs_const_size d) (g_num_jobs d) (g_block_flush_count d) (u32 (offset + to_copy)),
                a ++ b, true)
  end.

Definition readAndResetBlockFlushCount (d : Device) : Device * Z :=
  (mkDevice (g_hit_buf d) (g_hit_cap d) (g_hit_write_idx d) (g_jobs d) (g_jobs_const d)
     (g_jobs_const_size d) (g_num_jobs d) 0 (s_device_drain_offset d), g_block_flush_count d).

(** ** Well-formedness and specification *)

Definition words8 (ws : list Z) : Prop := length ws = 8%nat /\ is_words ws.

Record wf_job (J : DeviceJob) : Prop := {
  wfj_version : is_u32 (version J);
  wfj_ntime : is_u32 (ntime J);
  wfj_nbits : is_u32 (nbits J);
  wfj_min : is_u32 (ntime_min J);
  wfj_max : is_u32 (ntime_max J);
  wfj_prev : words8 (prevhash_le J);
  wfj_merkle : words8 (merkle_root_le J);
  wfj_mid : words8 (midstate_le J);
  wfj_target : length (share_target_be J) = 32%nat /\ is_bytes (share_target_be J) }.

Definition double_sha (m : list Z) : list Z := fips_sha256 (fips_sha256 m).

(** The midstate is that of the job's own header. *)
Definition midstate_of_header (J : DeviceJob) : Prop :=
  midstate_le J = absorb 1 fips_H0 (take 64 (device_header J 0)).

(** The nonces among [ns] that solve the job. *)
Definition solves (J : DeviceJob) (n : Z) : bool :=
  be_val (double_sha (device_header J n)) <=? be_val (share_target_be J).
Definition winners (J : DeviceJob) (ns : list Z) : list HitRecord :=
  map (mkHit (work_id J)) (List.filter (solves J) ns).

(** The ring as a log of all hits ever pushed: the buffer holds the last [cap]. *)
Definition holds (buf : list HitRecord) (cap : Z) (log : list HitRecord) : Prop :=
  zlen buf = cap /\ 0 < cap /\
  forall k h, log !! k = Some h -> zlen log - cap <= Z.of_nat k ->
    buf !! Z.to_nat (Z.of_nat k mod cap) = Some h.

Definition ring_inv (d : Device) (log : list HitRecord) : Prop :=
  exists buf, g_hit_buf d = Some buf /\ holds buf (g_hit_cap d) log /\ g_hit_write_idx d = zlen log.

(** The parts of the state a kernel does not write. *)
Definition same_tables (d d' : Device) : Prop :=
  g_hit_cap d' = g_hit_cap d /\ g_jobs d' = g_jobs d /\ g_jobs_const d' = g_jobs_const d /\
  g_jobs_const_size d' = g_jobs_const_size d /\ g_num_jobs d' = g_num_jobs d /\
  s_device_drain_offset d' = s_device_drain_offset d.

(** ** Lemmas on hashing *)

Lemma concat_words ws : length ws = 8%nat ->
  concat (map (fun w => be_bytes32 (rd ws w)) (seq 0 8)) = bytes_of ws.
Proof.
  intros Hl. transitivity (bytes_of (map (rd ws) (seq 0 8))).
  - unfold bytes_of. by rewrite map_map.
  - by rewrite map_rd_seq_n.
Qed.

(** The header is its twenty words. *)
Lemma device_header_words J n : wf_job J ->
  device_header J n =
  bytes_of ((version J :: prevhash_le J ++ take 7 (merkle_root_le J)) ++
            [rd (merkle_root_le J) 7; device_ntime J; nbits J; n]).
Proof.
  intros H. unfold device_header. rewrite (concat_words (prevhash_le J)) by apply H.
  rewrite (concat_words (merkle_root_le J)) by apply H.
  assert (merkle_root_le J = take 7 (merkle_root_le J) ++ [rd (merkle_root_le J) 7]) as E.
  { destruct (wfj_merkle J H) as [Hl _].
    destruct (merkle_root_le J) as [|? [|? [|? [|? [|? [|? [|? [|? [|? ?]]]]]]]]]; done. }
  rewrite E at 1. rewrite !bytes_of_app, <- !app_assoc. cbn [app].
  change (bytes_of (version J :: ?l)) with (be_bytes32 (version J) ++ bytes_of l).
  rewrite bytes_of_app, <- !app_assoc. do 3 f_equal.
Qed.

Lemma device_header_split J n : wf_job J ->
  take 64 (device_header J n) = bytes_of (version J :: prevhash_le J ++ take 7 (merkle_root_le J)) /\
  drop 64 (device_header J n) = bytes_of [rd (merkle_root_le J) 7; device_ntime J; nbits J; n].
Proof.
  intros H. rewrite (device_header_words J n H), bytes_of_app.
  assert (length (bytes_of (version J :: prevhash_le J ++ take 7 (merkle_root_le J))) = 64%nat) as Hl.
  { rewrite bytes_of_length. cbn [length]. rewrite length_app, length_take.
    destruct (wfj_prev J H) as [-> _], (wfj_merkle J H) as [-> _]. done. }
  by rewrite take_app_length', drop_app_length'.
Qed.

Lemma device_header_length J n : length (device_header J n) = 80%nat.
Proof. unfold device_header. rewrite !length_app. reflexivity. Qed.

Lemma device_ntime_range J : wf_job J -> is_u32 (device_ntime J).
Proof.
  intros H. unfold device_ntime.
  repeat match goal with |- context [if ?b then _ else _] => destruct b end; apply H.
Qed.

Lemma tail4_words J n : wf_job J -> is_u32 n ->
  is_words [rd (merkle_root_le J) 7; device_ntime J; nbits J; n].
Proof.
  intros H Hn. apply Forall_cons_2; [apply rd_word, H|]. apply Forall_cons_2; [by apply device_ntime_range|].
  apply Forall_cons_2; [apply H|]. apply Forall_cons_2; [done|constructor].
Qed.

Lemma tail_words J n : wf_job J -> is_u32 n ->
  map (fun i => word_at (device_header J n) (64 + 4 * i)) (seq 0 4)
  = [rd (merkle_root_le J) 7; device_ntime J; nbits J; n].
Proof.
  intros H Hn. destruct (device_header_split J n H) as [_ Hd].
  assert (is_words [rd (merkle_root_le J) 7; device_ntime J; nbits J; n]) as Hw.
  { by apply tail4_words. }
  rewrite <- (words_of_bytes_of [rd (merkle_root_le J) 7; device_ntime J; nbits J; n] [] 4 eq_refl Hw), app_nil_r, <- Hd.
  unfold words_of. apply map_ext. intros i. unfold word_at, rd.
  rewrite !nth_lookup, !lookup_drop, <- !Nat.add_assoc. done.
Qed.

#[local] Transparent fips_sha256.
Lemma fips_80 a t :
  length a = 64%nat -> length t = 16%nat ->
  fips_sha256 (a ++ t) =
  bytes_of (compress (absorb 1 fips_H0 a) (words_of 16 (t ++ 128 :: repeat 0 39 ++ be64 640))).
Proof.
  intros Ha Ht. unfold fips_sha256. rewrite hash_with_tail by done.
  assert (length (a ++ t) = 80%nat) as H80 by (rewrite length_app; lia). rewrite H80.
  change (80 / 64)%nat with 1%nat. change (80 mod 64)%nat with 16%nat.
  rewrite decide_True by lia. rewrite absorb_app by lia.
  by rewrite drop_app_length' by lia.
Qed.
#[local] Opaque fips_sha256.

(** The midstate path computes the double hash of the first 64 bytes and the four words. *)
Lemma midstate_digest_fips J a ws :
  length a = 64%nat -> midstate_le J = absorb 1 fips_H0 a -> length ws = 4%nat -> is_words ws ->
  midstate_digest J ws = double_sha (a ++ bytes_of ws).
Proof.
  intros Ha Hm Hl Hw. unfold midstate_digest, double_sha. cbv zeta.
  rewrite sha256_digest_block_fips.
  2: { rewrite bytes_of_length, sha256_compress_fips, compress_length. done. }
  apply (f_equal fips_sha256).
  rewrite (map_rd_seq_n (midstate_le J) 8) by (rewrite Hm; by apply absorb_length).
  rewrite Hm, (sha256_compress_fips (absorb 1 fips_H0 a)).
  rewrite (fips_80 a (bytes_of ws)) by (done || rewrite bytes_of_length; lia).
  apply (f_equal (fun w => bytes_of (compress (absorb 1 fips_H0 a) w))).
  rewrite (words_of_app 4 12) by (rewrite bytes_of_length; lia).
  rewrite <- (app_nil_r (bytes_of ws)), words_of_bytes_of by done. done.
Qed.

Lemma stub_digest_fips J n :
  wf_job J -> is_u32 n -> (used_midstate J = true -> midstate_of_header J) ->
  stub_digest J n = double_sha (device_header J n).
Proof.
  intros H Hn Hm. unfold stub_digest. cbv zeta. destruct (used_midstate J).
  - rewrite tail_words by done. destruct (device_header_split J n H) as [Ht Hd].
    specialize (Hm eq_refl). unfold midstate_of_header in Hm.
    destruct (device_header_split J 0 H) as [Ht0 _]. rewrite Ht0, <- Ht in Hm.
    rewrite (midstate_digest_fips J (take 64 (device_header J n))); [|by rewrite length_take, device_header_length|done|done|].
    + by rewrite <- Hd, take_drop.
    + by apply tail4_words.
  - apply sha256d_80_be_fips, device_header_length.
Qed.

(** The batch kernels absorb the same four words byte-swapped. *)
Lemma batch_digest_fips J n :
  wf_job J -> is_u32 n -> used_midstate J = true -> midstate_of_header J ->
  batch_digest J n = double_sha (take 64 (device_header J n) ++
                       bytes_of (map bswap32 (words_of 4 (drop 64 (device_header J n))))).
Proof.
  intros H Hn Hu Hm. unfold batch_digest. rewrite Hu.
  destruct (device_header_split J n H) as [Ht Hd].
  assert (is_words [rd (merkle_root_le J) 7; device_ntime J; nbits J; n]) as Hw.
  { by apply tail4_words. }
  rewrite Hd, <- (app_nil_r (bytes_of [rd (merkle_root_le J) 7; device_ntime J; nbits J; n])), (words_of_bytes_of [rd (merkle_root_le J) 7; device_ntime J; nbits J; n] [] 4 eq_refl Hw).
  unfold midstate_of_header in Hm. destruct (device_header_split J 0 H) as [Ht0 _].
  rewrite Ht0, <- Ht in Hm.
  apply midstate_digest_fips; [by rewrite length_take, device_header_length|done|done|].
  by apply (map_bswap32_words [_; _; _; _]).
Qed.

Lemma device_leq_val J digest :
  wf_job J -> length digest = 32%nat -> is_bytes digest ->
  device_leq J digest = (be_val digest <=? be_val (share_target_be J)).
Proof.
  intros H Hl Hb. destruct (wfj_target J H) as [Htl Htb]. unfold device_leq.
  rewrite (map_rd_seq_n digest 32), (map_rd_seq_n (share_target_be J) 32) by done.
  apply bytes_leq_val; [congruence|done..].
Qed.

(** ** Lemmas on the ring *)

Lemma same_tables_refl d : same_tables d d.
Proof. done. Qed.
Lemma same_tables_trans d1 d2 d3 : same_tables d1 d2 -> same_tables d2 d3 -> same_tables d1 d3.
Proof. unfold same_tables. intros (?&?&?&?&?&?) (?&?&?&?&?&?). split_and!; congruence. Qed.

Lemma job_at_same d d' j : same_tables d d' -> job_at d' j = job_at d j.
Proof. unfold job_at. by intros (_ & -> & -> & -> & _). Qed.

Lemma holds_push buf cap log h :
  holds buf cap log -> holds (<[Z.to_nat (zlen log mod cap) := h]> buf) cap (log ++ [h]).
Proof.
  intros (Hb & Hc & Hl). unfold holds. rewrite length_insert. split_and!; [done|done|].
  rewrite length_app. cbn [length]. intros k x Hk Hge.
  pose proof (Z.mod_pos_bound (zlen log) cap Hc) as Hm.
  apply lookup_app_Some in Hk as [Hk|[Hk1 Hk2]].
  - apply lookup_lt_Some in Hk as Hlt.
    rewrite list_lookup_insert_ne; [apply Hl; [done|lia]|].
    pose proof (Z.mod_pos_bound (Z.of_nat k) cap Hc).
    intros E. apply Z2Nat.inj in E; [|lia..].
    pose proof (Z.div_mod (zlen log) cap). pose proof (Z.div_mod (Z.of_nat k) cap).
    assert (zlen log / cap = Z.of_nat k / cap) by nia. nia.
  - destruct (k - length log)%nat eqn:E; cbn in Hk2; [|done]. injection Hk2 as ->.
    replace (Z.of_nat k) with (zlen log) by lia.
    apply list_lookup_insert_eq. lia.
Qed.

Lemma push_hit_inv d log h :
  ring_inv d log -> zlen log < 2 ^ 32 - 1 ->
  exists d', push_hit d h = Some d' /\ ring_inv d' (log ++ [h]) /\ same_tables d d'.
Proof.
  intros (buf & Hb & Hh & Hi) Hl. unfold push_hit. rewrite Hb. cbn [mbind option_bind].
  destruct Hh as (Hlen & Hc & Hlk).
  assert (ring_slot d (g_hit_write_idx d) = Z.to_nat (zlen log mod g_hit_cap d)) as Hs.
  { unfold ring_slot. rewrite (proj2 (Z.eqb_neq _ _)) by lia. by rewrite Hi. }
  rewrite Hs. pose proof (Z.mod_pos_bound (zlen log) (g_hit_cap d) Hc).
  destruct (Nat.ltb_spec (Z.to_nat (zlen log mod g_hit_cap d)) (length buf)); [|lia].
  eexists. split; [done|]. split; [|done].
  eexists. split; [done|]. split.
  - by apply holds_push.
  - cbn [g_hit_write_idx with_ring]. rewrite Hi, u32_small by (unfold in_u; lia).
    rewrite length_app. cbn [length]. lia.
Qed.

(** The flush loop stores the local hits after the log. *)
Lemma flush_loop hits cnt m : forall i d buf log,
  g_hit_buf d = Some buf -> holds buf (g_hit_cap d) (log ++ take i hits) ->
  (i + m <= length hits)%nat -> zlen log + zlen hits < 2 ^ 32 ->
  exists d' buf', foldM (flush_one (zlen log) (mkShared hits cnt)) d (seq i m) = Some d' /\
    g_hit_buf d' = Some buf' /\ holds buf' (g_hit_cap d) (log ++ take (i + m) hits) /\
    g_hit_write_idx d' = g_hit_write_idx d /\ same_tables d d'.
Proof.
  induction m as [|m IH]; intros i d buf log Hb Hh Hi Hl; cbn [seq foldM].
  - exists d, buf. rewrite Nat.add_0_r. done.
  - unfold flush_one at 2. cbn [s_hits].
    destruct (lookup_lt_is_Some_2 hits i) as [h Eh]; [lia|]. rewrite Eh, Hb. cbn [mbind option_bind].
    pose proof Hh as (Hlen & Hc & _).
    assert (zlen (log ++ take i hits) = zlen log + Z.of_nat i) as Hz.
    { rewrite length_app, length_take. lia. }
    assert (ring_slot d (u32 (zlen log + Z.of_nat i))
            = Z.to_nat (zlen (log ++ take i hits) mod g_hit_cap d)) as Hs.
    { unfold ring_slot. rewrite (proj2 (Z.eqb_neq _ _)) by lia.
      rewrite u32_small by (unfold in_u; lia). by rewrite Hz. }
    rewrite Hs. pose proof (Z.mod_pos_bound (zlen (log ++ take i hits)) (g_hit_cap d) Hc).
    destruct (Nat.ltb_spec (Z.to_nat (zlen (log ++ take i hits) mod g_hit_cap d)) (length buf)); [|lia].
    assert (holds (<[Z.to_nat (zlen (log ++ take i hits) mod g_hit_cap d) := h]> buf) (g_hit_cap d)
              (log ++ take (S i) hits)) as Hh'.
    { rewrite (take_S_r _ _ _ Eh), app_assoc. by apply holds_push. }
    edestruct (IH (S i) (with_ring d (Some (<[Z.to_nat (zlen (log ++ take i hits) mod g_hit_cap d) := h]> buf))
                     (g_hit_write_idx d))) as (d' & buf' & E & Hb' & Hh2 & Hw' & Hs');
      [reflexivity|exact Hh'|lia|done|].
    exists d', buf'. split; [exact E|]. split; [done|].
    replace (i + S m)%nat with (S i + m)%nat by lia. split; [done|]. split; [done|].
    eapply same_tables_trans; [|exact Hs']. done.
Qed.

Lemma record_hits_small hits : forall d sh,
  zlen (s_hits sh) = s_count sh -> zlen (s_hits sh) + zlen hits <= 64 ->
  foldM record_hit (d, sh) hits = Some (d, mkShared (s_hits sh ++ hits) (s_count sh + zlen hits)).
Proof.
  induction hits as [|h hits IH]; intros d sh Hc Hl; cbn [foldM].
  - rewrite app_nil_r, Z.add_0_r. by destruct sh.
  - cbn [length] in Hl. unfold record_hit. destruct (Z.ltb_spec (s_count sh) 64); [|lia].
    cbn [mbind option_bind]. rewrite u32_small by (unfold in_u; lia). fold record_hit.
    rewrite IH; cbn [s_hits s_count]; rewrite ?length_app; cbn [length]; [|lia..].
    rewrite <- app_assoc. cbn [app]. do 3 f_equal. lia.
Qed.

(** A flush of at most 64 hits extends the log by them. *)
Lemma flush_inv d log hits :
  ring_inv d log -> zlen log + zlen hits < 2 ^ 32 ->
  exists d', flush d (mkShared hits (zlen hits)) = Some d' /\ ring_inv d' (log ++ hits) /\
    same_tables d d'.
Proof.
  intros (buf & Hb & Hh & Hi) Hl. unfold flush. cbn [s_count s_hits]. rewrite Hb.
  pose proof Hh as (_ & Hc & _).
  rewrite (proj2 (Z.eqb_neq (g_hit_cap d) 0)) by lia. rewrite andb_true_r. cbn [negb]. rewrite andb_true_r.
  destruct (Z.ltb_spec 0 (zlen hits)).
  - rewrite Nat2Z.id, Hi, <- Hb.
    set (d1 := mkDevice _ _ _ _ _ _ _ _ _).
    destruct (flush_loop hits (zlen hits) (length hits) 0 d1 buf log) as (d' & buf' & E & Hb' & Hh' & Hw & Hs);
      [done|by rewrite app_nil_r|lia|done|].
    exists d'. split; [exact E|]. split; [|eapply same_tables_trans; [|exact Hs]; done].
    exists buf'. split; [done|]. cbn [plus] in Hh'. rewrite take_ge in Hh' by lia.
    destruct Hs as (Hcap & _). rewrite Hcap. split; [done|]. rewrite Hw. cbn [g_hit_write_idx d1].
    rewrite u32_small by (unfold in_u; lia). rewrite length_app. lia.
  - assert (hits = []) as -> by (destruct hits; [done|cbn in *; lia]).
    exists d. rewrite app_nil_r. split; [done|]. split; [|done]. by exists buf.
Qed.

(** *** Blocks and launches *)

Definition block_threads (L : Launch) (J : DeviceJob) (blk : nat * nat) : list (list HitRecord) :=
  map (fun tx => thread_hits J (start_nonce (base L) blk.1 tx blk.2 (bdim L) (npt L)) (iters L))
      (seq 0 (bdim L)).

Definition block_hits (L : Launch) (jobs : list DeviceJob) (blk : nat * nat) : list HitRecord :=
  match jobs !! blk.1 with Some J => merge L (block_threads L J blk) | None => [] end.

(** The uploaded table is what the kernels read. *)
Definition table_is (d : Device) (jobs : list DeviceJob) : Prop :=
  forall j, (j < length jobs)%nat -> job_at d j = jobs !! j.

Lemma upload_table d jobs :
  (0 < length jobs)%nat ->
  exists d', uploadDeviceJobs d jobs = (d', true) /\ table_is d' jobs /\ g_num_jobs d' = length jobs.
Proof.
  intros Hl. unfold uploadDeviceJobs.
  destruct (Nat.eqb_spec (length jobs) 0); [lia|]. eexists. split; [done|]. split; [|done].
  intros j Hj. unfold job_at. cbn [g_jobs_const_size g_jobs_const g_jobs].
  set (c := if (64 <? length jobs)%nat then 64%nat else length jobs).
  assert (c <= length jobs)%nat as Hc by (unfold c; destruct (Nat.ltb_spec 64 (length jobs)); lia).
  destruct (Nat.ltb_spec j c); [|done].
  rewrite lookup_app_l by (rewrite length_take; lia). by rewrite lookup_take_lt by lia.
Qed.

Lemma run_block_inv L d jobs log blk :
  table_is d jobs -> (blk.1 < length jobs)%nat -> ring_inv d log ->
  zlen (block_hits L jobs blk) <= 64 -> zlen log + zlen (block_hits L jobs blk) < 2 ^ 32 ->
  exists d', run_block L d blk = Some d' /\ ring_inv d' (log ++ block_hits L jobs blk) /\
    same_tables d d'.
Proof.
  intros Ht Hj Hr H64 Hl. destruct blk as [j bx]. unfold run_block, block_hits in *. cbn [fst snd] in *.
  rewrite (Ht j Hj). destruct (jobs !! j) as [J|] eqn:E; [|by apply lookup_ge_None in E; lia].
  cbn [mbind option_bind]. fold (block_threads L J (j, bx)).
  change (map _ (seq 0 (bdim L))) with (block_threads L J (j, bx)).
  rewrite (record_hits_small _ d (mkShared [] 0)) by (cbn; lia || done). cbn [mbind option_bind s_hits s_count app].
  rewrite Z.add_0_l. by apply flush_inv.
Qed.

Lemma run_blocks_inv L jobs order : forall d log,
  table_is d jobs -> Forall (fun b => (b.1 < length jobs)%nat) order -> ring_inv d log ->
  Forall (fun b => zlen (block_hits L jobs b) <= 64) order ->
  zlen log + zlen (concat (map (block_hits L jobs) order)) < 2 ^ 32 ->
  exists d', foldM (run_block L) d order = Some d' /\
    ring_inv d' (log ++ concat (map (block_hits L jobs) order)) /\ same_tables d d'.
Proof.
  induction order as [|b order IH]; intros d log Ht Hj Hr H64 Hl; cbn [foldM map concat].
  - exists d. by rewrite app_nil_r.
  - cbn [map concat] in Hl. rewrite length_app in Hl.
    inversion_clear Hj as [|? ? Hjb Hjs]. inversion_clear H64 as [|? ? Hb Hbs].
    destruct (run_block_inv L d jobs log b) as (d1 & E & Hr1 & Hs1); [done..|lia|].
    rewrite E. cbn [mbind option_bind].
    destruct (IH d1 (log ++ block_hits L jobs b)) as (d' & E' & Hr' & Hs'); try done.
    + intros j Hjl. rewrite (job_at_same d d1) by done. by apply Ht.
    + rewrite length_app. lia.
    + exists d'. split; [done|]. rewrite app_assoc. split; [done|]. by eapply same_tables_trans.
Qed.

(** *** The nonces of a launch *)

(** Without a wrap-around the loop ends after at most [npt] turns. *)
Lemma unroll_main_spec fuel unroll k npt :
  (0 < unroll)%nat -> (k <= npt)%nat -> (npt - k < fuel)%nat ->
  Z.of_nat npt + Z.of_nat unroll < 2 ^ 32 ->
  exists k', unroll_main fuel unroll k npt = Some (seq k (k' - k), k') /\ (k <= k' <= npt)%nat.
Proof.
  intros Hu Hk Hf Hw. revert k Hk Hf. induction fuel as [|fuel IH]; intros k Hk Hf; [lia|]. cbn [unroll_main].
  rewrite u32_small by (unfold in_u; lia). rewrite <- Nat2Z.inj_add, Nat2Z.id.
  destruct (Nat.leb_spec (k + unroll) npt).
  - destruct (IH (k + unroll)%nat) as (k' & -> & Hb); [lia..|]. exists k'. cbn [mbind option_bind].
    split; [|lia]. rewrite <- seq_app. do 3 f_equal. lia.
  - exists k. rewrite Nat.sub_diag. split; [done|lia].
Qed.

(** From [2 ^ 32 - 8] nonces per thread on, [k + UNROLL] wraps to zero before it exceeds
    them: no fuel is enough. *)
Lemma unroll_never_ends npt q fuel :
  2 ^ 32 - 8 <= Z.of_nat npt -> Z.of_nat (q * 8) < 2 ^ 32 -> unroll_main fuel 8 (q * 8) npt = None.
Proof.
  intros Hn. revert q. induction fuel as [|fuel IH]; intros q Hq; [done|]. cbn [unroll_main].
  change (Z.of_nat 8) with 8. destruct (decide (Z.of_nat (q * 8) + 8 = 2 ^ 32)) as [E|E].
  - rewrite E. change (Z.to_nat (u32 (2 ^ 32))) with (0 * 8)%nat. by rewrite (IH 0%nat).
  - rewrite u32_small by (unfold in_u; lia).
    replace (Z.to_nat (Z.of_nat (q * 8) + 8)) with (S q * 8)%nat by lia.
    destruct (Nat.leb_spec (S q * 8) npt); [|lia]. rewrite IH by lia. done.
Qed.

Definition covers (iters : list (nat * (DeviceJob -> Z -> list Z))) (npt : nat) : Prop :=
  map fst iters = seq 0 npt /\
  Forall (fun p => p.2 = batch_digest \/ p.2 = tail_digest) iters.

Lemma plain_covers npt : covers (plain_loop batch_digest npt) npt.
Proof.
  unfold covers, plain_loop. rewrite map_map, map_id. split; [done|].
  apply Forall_map, Forall_forall. intros k _. by left.
Qed.

Lemma unroll_covers unroll npt :
  (0 < unroll)%nat -> Z.of_nat npt + Z.of_nat unroll < 2 ^ 32 ->
  exists iters, unroll_loop unroll npt = Some iters /\ covers iters npt.
Proof.
  intros Hu Hw. unfold unroll_loop.
  destruct (unroll_main_spec (S npt) unroll 0 npt) as (k' & -> & Hb); [lia..|done|].
  cbn [mbind option_bind]. eexists. split; [done|]. rewrite Nat.sub_0_r. split.
  - rewrite map_app, !map_map, !map_id, <- seq_app. f_equal. lia.
  - apply Forall_app. split; apply Forall_map, Forall_forall; intros k _; [by left|by right].
Qed.

(** The kernels of a launch end, except from [2 ^ 32 - 8] nonces per thread on. *)
Lemma batch_iters_covers npt :
  Z.of_nat npt < 2 ^ 32 - 8 -> exists iters, batch_iters npt = Some iters /\ covers iters npt.
Proof.
  intros Hn. unfold batch_iters.
  repeat match goal with |- context [if ?b then _ else _] => destruct b end;
    try (apply unroll_covers; lia). eexists. split; [done|]. apply plain_covers.
Qed.

Lemma batch_iters_never npt : 2 ^ 32 - 8 <= Z.of_nat npt -> batch_iters npt = None.
Proof.
  intros Hn. unfold batch_iters. rewrite (proj2 (Nat.leb_le 8 npt)) by lia. unfold unroll_loop.
  by rewrite (unroll_never_ends npt 0).
Qed.

Lemma seq_blocks s m n : concat (map (fun i => seq (s + i * m) m) (seq 0 n)) = seq s (n * m).
Proof.
  revert s. induction n as [|n IH]; intros s; [done|]. cbn [seq map concat].
  rewrite <- seq_shift, map_map.
  rewrite (map_ext _ (fun i => seq ((s + m) + i * m) m)) by (intros i; f_equal; lia).
  rewrite IH. cbn [Nat.mul]. rewrite Nat.add_0_r. by rewrite <- seq_app.
Qed.

Lemma winners_app J a b : winners J (a ++ b) = winners J a ++ winners J b.
Proof. unfold winners. by rewrite List.filter_app, map_app. Qed.

Lemma winners_concat J ls : winners J (concat ls) = concat (map (winners J) ls).
Proof. induction ls as [|l ls IH]; [done|]. cbn [concat map]. by rewrite winners_app, IH. Qed.

Lemma no_midstate_digests J n :
  used_midstate J = false -> batch_digest J n = double_sha (device_header J n).
Proof.
  intros Hu. unfold batch_digest. rewrite Hu. apply sha256d_80_be_fips, device_header_length.
Qed.

Lemma tail_digest_fips J n : tail_digest J n = double_sha (device_header J n).
Proof. apply sha256d_80_be_fips, device_header_length. Qed.

Lemma thread_hits_winners J start iters npt :
  wf_job J -> used_midstate J = false -> covers iters npt ->
  thread_hits J start iters = winners J (map (fun k => u32 (start + Z.of_nat k)) (seq 0 npt)).
Proof.
  intros HJ Hu [Hk Hd]. rewrite <- Hk. clear Hk. unfold thread_hits.
  induction Hd as [|[k dg] iters Hdg _ IH]; [done|]. cbn [map concat fst snd] in *. rewrite IH.
  assert (dg J (u32 (start + Z.of_nat k)) = double_sha (device_header J (u32 (start + Z.of_nat k)))) as ->.
  { destruct Hdg as [->| ->]; [by apply no_midstate_digests|apply tail_digest_fips]. }
  rewrite device_leq_val by (done || apply fips_sha256_length || apply fips_sha256_bytes).
  unfold winners. cbn [List.filter]. unfold solves at 2.
  by destruct (be_val (double_sha _) <=? be_val (share_target_be J)).
Qed.

(** The nonces of block [bx] of job [j] are contiguous. *)
Definition launch_nonce (L : Launch) (j n : nat) : Z := u32 (base L + Z.of_nat j + Z.of_nat n).

Lemma start_nonce_eq L j tx bx k :
  u32 (start_nonce (base L) j tx bx (bdim L) (npt L) + Z.of_nat k)
  = launch_nonce L j (bx * (bdim L * npt L) + tx * npt L + k).
Proof.
  unfold launch_nonce, start_nonce, u32. rewrite Zplus_mod_idemp_l.
  rewrite <- (Zplus_mod_idemp_l (_ + _ * _)), <- (Zplus_mod_idemp_r (_ mod _ * _)).
  rewrite Zmult_mod_idemp_l, Zplus_mod_idemp_r, Zplus_mod_idemp_l. f_equal. lia.
Qed.

Lemma map_seq_shift {A} (f : nat -> A) s n :
  map f (seq s n) = map (fun k => f (s + k)%nat) (seq 0 n).
Proof.
  transitivity (map f (map (Nat.add s) (seq 0 n))); [|apply map_map].
  f_equal. rewrite <- (Nat.add_0_r s) at 1. symmetry. apply fmap_add_seq.
Qed.

Lemma block_threads_winners L J j bx :
  wf_job J -> used_midstate J = false -> covers (iters L) (npt L) ->
  concat (block_threads L J (j, bx))
  = winners J (map (launch_nonce L j) (seq (bx * (bdim L * npt L)) (bdim L * npt L))).
Proof.
  intros HJ Hu Hc. unfold block_threads. cbn [fst snd].
  rewrite <- (seq_blocks _ (npt L) (bdim L)), concat_map, winners_concat, !map_map.
  f_equal. apply map_ext. intros tx.
  rewrite (thread_hits_winners J _ _ (npt L)) by done. f_equal.
  rewrite (map_seq_shift (launch_nonce L j)). apply map_ext. intros k. by rewrite start_nonce_eq.
Qed.

Lemma concat_map_prod {A B C} (f : A * B -> list C) l m :
  concat (map f (list_prod l m)) = concat (map (fun a => concat (map (fun b => f (a, b)) m)) l).
Proof.
  induction l as [|a l IH]; [done|]. cbn [list_prod map concat].
  by rewrite map_app, concat_app, IH, map_map.
Qed.

Lemma concat_map_perm {A B} (f g : A -> list B) l :
  Forall (fun a => f a ≡ₚ g a) l -> concat (map f l) ≡ₚ concat (map g l).
Proof. induction 1 as [|a l Ha _ IH]; [done|]. cbn. by rewrite Ha, IH. Qed.

Lemma concat_perm_mono {A} (l l' : list (list A)) : l ≡ₚ l' -> concat l ≡ₚ concat l'.
Proof.
  induction 1 as [|x l l' _ IH|x y l|l1 l2 l3 _ IH1 _ IH2]; cbn; [done|by rewrite IH| |by etrans].
  by rewrite !(assoc_L (++)), (Permutation_app_comm y x).
Qed.

(** The solutions of job [j] among the nonces of a launch. *)
Definition job_winners (L : Launch) (jobs : list DeviceJob) (nonces_per_job j : nat) : list HitRecord :=
  match jobs !! j with
  | Some J => winners J (map (launch_nonce L j) (seq 0 nonces_per_job))
  | None => []
  end.

Lemma launch_hits_perm L jobs num_jobs blocks order :
  Forall (fun J => wf_job J /\ used_midstate J = false) jobs ->
  covers (iters L) (npt L) -> (forall ls, merge L ls ≡ₚ concat ls) ->
  order ≡ₚ list_prod (seq 0 num_jobs) (seq 0 blocks) ->
  concat (map (block_hits L jobs) order)
  ≡ₚ concat (map (job_winners L jobs (blocks * (bdim L * npt L))) (seq 0 num_jobs)).
Proof.
  intros HJ Hc Hm Ho.
  assert (map (block_hits L jobs) order ≡ₚ map (block_hits L jobs) (list_prod (seq 0 num_jobs) (seq 0 blocks)))
    as Hp by by apply Permutation_map.
  rewrite (concat_perm_mono _ _ Hp), concat_map_prod. apply concat_map_perm, Forall_forall.
  intros j _. unfold job_winners, block_hits. cbn [fst].
  destruct (jobs !! j) as [J|] eqn:E.
  - assert (wf_job J /\ used_midstate J = false) as [HwJ Hu].
    { apply (proj1 (List.Forall_forall _ _) HJ). by eapply list_elem_of_In, list_elem_of_lookup_2. }
    rewrite <- (seq_blocks 0 (bdim L * npt L) blocks), concat_map, winners_concat, !map_map.
    apply concat_map_perm, Forall_forall. intros bx _.
    by rewrite Hm, block_threads_winners.
  - clear. induction (seq 0 blocks); done.
Qed.

Lemma launch_nonces_distinct L j n : Z.of_nat n <= 2 ^ 32 -> NoDup (map (launch_nonce L j) (seq 0 n)).
Proof.
  intros Hn. apply (NoDup_fmap_2_strong (launch_nonce L j)); [|apply NoDup_seq].
  intros x y Hx Hy E. apply elem_of_seq in Hx, Hy. unfold launch_nonce, u32 in E.
  assert ((Z.of_nat x - Z.of_nat y) mod 2 ^ 32 = 0) as Hd.
  { replace (Z.of_nat x - Z.of_nat y)
      with ((base L + Z.of_nat j + Z.of_nat x) - (base L + Z.of_nat j + Z.of_nat y)) by lia.
    by rewrite Zminus_mod, E, Z.sub_diag. }
  apply Z.mod_divide in Hd as [q Hq]; [|lia]. nia.
Qed.

(** *** Draining *)

Lemma holds_lookup buf cap log o i :
  holds buf cap log -> (o + i < length log)%nat -> zlen log - Z.of_nat o <= cap ->
  buf !! Z.to_nat ((Z.of_nat o + Z.of_nat i) mod cap) = log !! (o + i)%nat.
Proof.
  intros (_ & Hc & Hl) Hi Ho. destruct (lookup_lt_is_Some_2 log (o + i)) as [h E]; [done|].
  rewrite E. rewrite <- (Hl _ _ E) by lia. do 2 f_equal. lia.
Qed.

(** A segment of at most [cap] entries read with wrap-around. *)
Lemma ring_segment buf cap log o n :
  holds buf cap log -> (o + n <= length log)%nat -> zlen log - Z.of_nat o <= cap ->
  let start := Z.of_nat o mod cap in
  let first := if Z.of_nat n <? cap - start then Z.of_nat n else cap - start in
  exists a b, copy_from buf start first = Some a /\
    (if first <? Z.of_nat n then copy_from buf 0 (Z.of_nat n - first) else Some []) = Some b /\
    a ++ b = take n (drop o log).
Proof.
  intros Hh Hn Ho start first. pose proof Hh as (Hlen & Hc & _).
  assert (0 <= start < cap) as Hs by (unfold start; apply Z.mod_pos_bound; lia).
  assert (0 <= first <= Z.of_nat n /\ first <= cap - start /\
          (first < Z.of_nat n -> first = cap - start)) as (Hf1 & Hf2 & Hf3).
  { unfold first. destruct (Z.ltb_spec (Z.of_nat n) (cap - start)); lia. }
  assert (Z.of_nat n <= cap) as Hnc by lia.
  exists (take (Z.to_nat first) (drop (Z.to_nat start) buf)),
         (take (Z.to_nat (Z.of_nat n - first)) buf).
  split; [unfold copy_from; destruct (Z.leb_spec (start + first) (zlen buf)); [done|lia]|].
  split.
  { destruct (Z.ltb_spec first (Z.of_nat n)).
    - unfold copy_from. destruct (Z.leb_spec (0 + (Z.of_nat n - first)) (zlen buf)); [|lia].
      by rewrite drop_0.
    - replace (Z.of_nat n - first) with 0 by lia. by rewrite take_0. }
  assert (Hval : forall i, (i < n)%nat ->
    buf !! (if (Z.of_nat i <? first)%Z then Z.to_nat start + i else i - Z.to_nat first)%nat = log !! (o + i)%nat).
  { intros i Hi. rewrite <- (holds_lookup buf cap log o i) by (done || lia). f_equal.
    rewrite <- Zplus_mod_idemp_l. fold start.
    destruct (Z.ltb_spec (Z.of_nat i) first).
    - rewrite Z.mod_small by lia. lia.
    - rewrite <- (Z.mod_add _ (-1)), Z.mod_small by lia. lia. }
  apply list_eq. intros i.
  destruct (decide (i < n)%nat) as [Hi|Hi].
  - rewrite (lookup_take_lt _ n) by done. rewrite lookup_drop, <- Hval by done.
    assert (length (take (Z.to_nat first) (drop (Z.to_nat start) buf)) = Z.to_nat first) as Hla
      by (rewrite length_take, length_drop; lia).
    destruct (Z.ltb_spec (Z.of_nat i) first).
    + rewrite lookup_app_l by lia. rewrite lookup_take_lt by lia. by rewrite lookup_drop.
    + rewrite lookup_app_r by lia. rewrite Hla, lookup_take_lt by lia. done.
  - rewrite !lookup_ge_None_2; [done|rewrite length_take; lia|].
    rewrite length_app, !length_take, length_drop. lia.
Qed.

Lemma available_hits_eq w o : 0 <= o <= w -> available_hits w o = w - o.
Proof. intros. unfold available_hits. destruct (Z.leb_spec o w); lia. Qed.

(** ** Properties *)

(** The launch of [launchMineWithPlanBatch]. *)
Definition batch_launch (threads nonces_per_thread : nat) (nonce_base : Z)
    (merge : list (list HitRecord) -> list HitRecord) : Launch :=
  let npt := if (nonces_per_thread =? 0)%nat then 1%nat else nonces_per_thread in
  mkLaunch threads npt nonce_base (default [] (batch_iters npt)) merge.

Lemma batch_launch_covers threads n nonce_base merge :
  Z.of_nat n < 2 ^ 32 - 8 ->
  let L := batch_launch threads n nonce_base merge in
  batch_iters (npt L) = Some (iters L) /\ covers (iters L) (npt L).
Proof.
  intros Hn L. unfold L, batch_launch. cbn [npt iters].
  destruct (batch_iters_covers (if (n =? 0)%nat then 1%nat else n)) as (it & -> & Hc);
    [destruct (n =? 0)%nat; lia|done].
Qed.

(** A launch outside CUDA's limits or with too many nonces per thread. *)
Lemma batch_launch_refused d num_jobs blocks threads nonce_base n order merge :
  launchable blocks num_jobs threads = false ->
  exists ok, launchMineWithPlanBatch d num_jobs blocks threads nonce_base n order merge = Some (d, ok).
Proof. intros E. unfold launchMineWithPlanBatch. rewrite E. repeat case_match; by eexists. Qed.

Lemma batch_launch_hangs d num_jobs blocks threads nonce_base n order merge :
  (0 < g_num_jobs d)%nat -> (0 < num_jobs)%nat -> (0 < blocks)%nat -> (0 < threads)%nat ->
  launchable blocks num_jobs threads = true -> 2 ^ 32 - 8 <= Z.of_nat n ->
  launchMineWithPlanBatch d num_jobs blocks threads nonce_base n order merge = None.
Proof.
  intros H1 H2 H3 H4 E Hn. unfold launchMineWithPlanBatch.
  rewrite E, !(proj2 (Nat.eqb_neq _ 0)) by lia. cbn [orb]. by rewrite batch_iters_never.
Qed.


Definition easy_job : DeviceJob :=
  mkDeviceJob 2 100 486604799 0 0 0 4 7 (repeat 1 8) (repeat 2 8) (repeat 0 8) (repeat 0 8)
    (repeat 0 8) (repeat 255 32).

Definition easy_device : Device := initDeviceHitBuffer Device_init 4 (repeat (mkHit 0 0) 4).

Lemma easy_job_wf : wf_job easy_job.
Proof. split; try in_range; (split; [reflexivity|in_range]). Qed.

Lemma easy_device_ring : ring_inv easy_device [].
Proof.
  exists (repeat (mkHit 0 0) 4). split; [done|]. split; [|done]. split; [done|]. split; [done|].
  intros k h Hk. by rewrite lookup_nil in Hk.
Qed.


Lemma drain_spec d log o max_out :
  ring_inv d log -> s_device_drain_offset d = Z.of_nat o -> (o <= length log)%nat ->
  zlen log < 2 ^ 32 -> zlen log - Z.of_nat o <= g_hit_cap d -> 0 <= max_out ->
  exists d' out, drainDeviceHits d max_out = Some (d', out, true) /\
    out = take (Z.to_nat max_out) (drop o log) /\ ring_inv d' log /\
    s_device_drain_offset d' = Z.of_nat (o + length out).
Proof.
  intros (buf & Hb & Hh & Hi) Hoff Ho Hl Hcap Hmax. pose proof Hh as (Hlen & Hc & _).
  unfold drainDeviceHits. rewrite Hb, (proj2 (Z.eqb_neq (g_hit_cap d) 0)), Hoff, Hi by lia.
  rewrite available_hits_eq by lia.
  destruct (Z.eqb_spec (zlen log - Z.of_nat o) 0) as [Hz|Hz].
  - exists d, []. rewrite (drop_ge log) by lia. rewrite take_nil. split_and!; [done|done| |].
    + by exists buf.
    + rewrite Hoff. cbn [length]. f_equal. lia.
  - set (n := Z.to_nat (Z.min max_out (zlen log - Z.of_nat o))).
    assert ((if zlen log - Z.of_nat o >? max_out then max_out else zlen log - Z.of_nat o) = Z.of_nat n) as ->.
    { unfold n. destruct (Z.gtb_spec (zlen log - Z.of_nat o) max_out); lia. }
    destruct (ring_segment buf (g_hit_cap d) log o n) as (a & b & Ea & Eb & Eab); [done|unfold n; lia|done|].
    cbv zeta in Ea, Eb. rewrite Ea. cbn [mbind option_bind]. rewrite Eb. cbn [mbind option_bind].
    eexists _, _. split; [done|]. rewrite Eab. split_and!.
    + unfold n. apply list_eq. intros i.
      destruct (decide (Z.of_nat i < max_out)).
      * rewrite (lookup_take_lt _ (Z.to_nat max_out)) by lia.
        destruct (decide (Z.of_nat i < zlen log - Z.of_nat o)).
        -- by rewrite lookup_take_lt by lia.
        -- rewrite !lookup_ge_None_2; [done|rewrite length_drop; lia|].
           rewrite length_take, length_drop. lia.
      * rewrite !lookup_ge_None_2; [done|rewrite length_take; lia|rewrite length_take; lia].
    + exists buf. split; [done|]. split; [done|done].
    + cbn [s_device_drain_offset]. rewrite length_take, length_drop.
      rewrite u32_small by (unfold in_u, n; lia). unfold n. lia.
Qed.

(** The ring is a queue as long as no more than its capacity is outstanding: a drain
    returns the oldest undrained hits in order, as many as asked for, without gaps or
    repetition, and moves the read position past them. *)
Theorem drain_is_fifo d log o max_out :
  ring_inv d log -> s_device_drain_offset d = Z.of_nat o -> (o <= length log)%nat ->
  zlen log < 2 ^ 32 -> zlen log - Z.of_nat o <= g_hit_cap d -> 0 <= max_out ->
  exists d' out, drainDeviceHits d max_out = Some (d', out, true) /\
    out = take (Z.to_nat max_out) (drop o log) /\ ring_inv d' log /\
    s_device_drain_offset d' = Z.of_nat (o + length out).
Proof. apply drain_spec. Qed.

Lemma drain_is_fifo_witness :
  exists d1, push_hit easy_device (mkHit 5 6) = Some d1 /\
    exists d' out, drainDeviceHits d1 8 = Some (d', out, true) /\ out = [mkHit 5 6].
Proof.
  destruct (push_hit_inv easy_device [] (mkHit 5 6) easy_device_ring ltac:(reflexivity))
    as (d1 & E & Hr & Hs).
  exists d1. split; [exact E|].
  destruct (drain_is_fifo d1 [mkHit 5 6] 0 8) as (d' & out & Ed & Eo & _).
  - exact Hr.
  - destruct Hs as (_ & _ & _ & _ & _ & ->). reflexivity.
  - cbn. lia.
  - reflexivity.
  - destruct Hs as (-> & _). vm_compute. discriminate.
  - lia.
  - exists d', out. split; [exact Ed|exact Eo].
Defined.

(** Beyond the capacity the drain repeats newer hits in place of the lost ones. *)
Example drain_overrun :
  let d := initDeviceHitBuffer Device_init 1 [mkHit 0 0] in
  (d ← push_hit d (mkHit 1 1); d ← push_hit d (mkHit 2 2);
   '(_, out, _) ← drainDeviceHits d 8; Some out) = Some [mkHit 2 2; mkHit 2 2].
Proof. reflexivity. Qed.

(** The stub kernel hashes the header it assembles: for a well-formed job whose
    midstate is absent or that of its own first 64 header bytes, the digest tested is the
    double SHA-256 of the assembled 80 bytes, and the comparison with the target decides
    the proof of work. *)
Theorem stub_kernel_correct J n :
  wf_job J -> is_u32 n -> (used_midstate J = true -> midstate_of_header J) ->
  length (device_header J n) = 80%nat /\
  stub_digest J n = double_sha (device_header J n) /\
  device_leq J (stub_digest J n) = solves J n.
Proof.
  intros H Hn Hm. rewrite stub_digest_fips by done. split; [apply device_header_length|].
  split; [done|].
  by rewrite device_leq_val by (done || apply fips_sha256_length || apply fips_sha256_bytes).
Qed.

Lemma stub_kernel_correct_witness :
  device_leq easy_job (stub_digest easy_job 3) = solves easy_job 3.
Proof.
  apply (stub_kernel_correct easy_job 3 easy_job_wf); [in_range|]. vm_compute. discriminate.
Defined.

(** With a midstate the batch kernels hash another message: the first 64 header bytes
    followed by the last four header words with their bytes reversed.  On a concrete job
    with a correct midstate the batch digest differs from that of the stub kernel and from
    that of the unrolled kernel's own tail loop for the same nonce. *)
Theorem batch_midstate_swaps_tail J n :
  wf_job J -> is_u32 n -> used_midstate J = true -> midstate_of_header J ->
  batch_digest J n = double_sha (take 64 (device_header J n) ++
                       bytes_of (map bswap32 (words_of 4 (drop 64 (device_header J n))))) /\
  exists J' m, wf_job J' /\ midstate_of_header J' /\
    batch_digest J' m <> stub_digest J' m /\ batch_digest J' m <> tail_digest J' m.
Proof.
  intros H Hn Hu Hm. split; [by apply batch_digest_fips|].
  set (ms := absorb 1 fips_H0 (take 64 (device_header easy_job 0))).
  exists (mkDeviceJob 2 100 486604799 0 0 0 4 7 (repeat 1 8) (repeat 2 8) (repeat 0 8) (repeat 0 8)
           ms (repeat 255 32)), 5.
  split; [|split; [reflexivity|]].
  - split; try in_range; (split; [reflexivity|try in_range]).
  - split; vm_compute; discriminate.
Qed.

Lemma batch_midstate_swaps_tail_witness :
  let J := mkDeviceJob 2 100 486604799 0 0 0 4 7 (repeat 1 8) (repeat 2 8) (repeat 0 8) (repeat 0 8)
             (absorb 1 fips_H0 (take 64 (device_header easy_job 0))) (repeat 255 32) in
  batch_digest J 5 = double_sha (take 64 (device_header J 5) ++
                       bytes_of (map bswap32 (words_of 4 (drop 64 (device_header J 5))))).
Proof.
  refine (proj1 (batch_midstate_swaps_tail
    (mkDeviceJob 2 100 486604799 0 0 0 4 7 (repeat 1 8) (repeat 2 8) (repeat 0 8) (repeat 0 8)
       (absorb 1 fips_H0 (take 64 (device_header easy_job 0))) (repeat 255 32)) 5 _ _ _ _)).
  - split; try in_range; (split; [reflexivity|try in_range]).
  - in_range.
  - vm_compute. reflexivity.
  - reflexivity.
Defined.
