(* ===== verification/DeviceTypes.v ===== *)
(** * Hit records stay within their widths

    Whatever the schedule and however many hits: every record in the ring, and so every
    record drained, has a 64-bit identifier and a 32-bit nonce. *)

From stdpp Require Import base numbers list option.
From S2P Require Import Prelude Device.

Open Scope Z_scope.


Definition typed_hit (h : HitRecord) : Prop := is_u64 (hit_work_id h) /\ is_u32 (hit_nonce h).

Definition typed_hits (d : Device) : Prop := forall buf, g_hit_buf d = Some buf -> Forall typed_hit buf.

Definition typed_jobs (d : Device) : Prop := forall j J, job_at d j = Some J -> is_u64 (work_id J).

(** What every kernel keeps. *)
Definition typed (d : Device) : Prop := typed_hits d /\ typed_jobs d.

Lemma foldM_inv {A B} (P : A -> Prop) (f : A -> B -> option A) l : forall a a',
  (forall a b a', P a -> b ∈ l -> f a b = Some a' -> P a') -> P a -> foldM f a l = Some a' -> P a'.
Proof.
  induction l as [|b l IH]; intros a a' Hf Ha E; cbn [foldM] in E; [by injection E as <-|].
  destruct (f a b) as [a1|] eqn:E1; [|done]. cbn in E.
  apply (IH a1 a'); [|eapply Hf; [exact Ha|by left|done]|done]. intros x y z Hx Hy. apply Hf; [done|by right].
Qed.

Lemma typed_same d d' : same_tables d d' -> typed_jobs d -> typed_jobs d'.
Proof. intros Hs Ht j J E. rewrite (job_at_same _ _ _ Hs) in E. by apply (Ht j J). Qed.

Lemma typed_store d buf slot h idx :
  typed d -> typed_hit h -> g_hit_buf d = Some buf -> typed (with_ring d (Some (<[slot := h]> buf)) idx).
Proof.
  intros [Hh Hj] Ht Hb. split; [|exact (typed_same d _ ltac:(done) Hj)].
  intros b [= <-]. by apply Forall_insert; [apply Hh|].
Qed.

Lemma push_hit_typed d h d' : typed d -> typed_hit h -> push_hit d h = Some d' -> typed d'.
Proof.
  intros Hd Ht. unfold push_hit. destruct (g_hit_buf d) as [buf|] eqn:Hb; [|done]. cbn [mbind option_bind].
  case_match; [|discriminate]. intros [= <-]. by apply typed_store.
Qed.

Lemma flush_typed d sh d' : typed d -> Forall typed_hit (s_hits sh) -> flush d sh = Some d' -> typed d'.
Proof.
  intros Hd Hs. unfold flush. case_match; [|by intros [= <-]].
  apply (foldM_inv typed); [|split; [apply Hd|exact (typed_same d _ ltac:(done) (proj2 Hd))]].
  intros a i a' Ha _. unfold flush_one. destruct (s_hits sh !! i) as [h|] eqn:Eh; [|done].
  cbn [mbind option_bind]. destruct (g_hit_buf a) as [buf|] eqn:Hb; [|done]. cbn [mbind option_bind].
  destruct (_ <? _)%nat; [|done]. intros [= <-]. apply typed_store; [done| |done]. rewrite Forall_lookup in Hs. by apply (Hs i).
Qed.

Lemma record_hits_typed d sh hits d' sh' :
  typed d -> Forall typed_hit (s_hits sh) -> Forall typed_hit hits ->
  foldM record_hit (d, sh) hits = Some (d', sh') -> typed d' /\ Forall typed_hit (s_hits sh').
Proof.
  intros Hd Hs Hh. rewrite list.Forall_forall in Hh.
  apply (foldM_inv (fun p => typed p.1 /\ Forall typed_hit (s_hits p.2))); [|done].
  intros [a sa] h [a' sa'] [Ha Hsa] Hin. cbn [fst snd] in *. unfold record_hit. case_match.
  - intros [= <- <-]. split; [done|]. apply Forall_app. split; [done|]. constructor; [by apply Hh|done].
  - destruct (push_hit a h) as [a1|] eqn:E; [|done]. intros [= <- <-]. split; [|done].
    eapply push_hit_typed; [exact Ha|by apply Hh|exact E].
Qed.

Lemma thread_hits_typed J start iters : is_u64 (work_id J) -> Forall typed_hit (thread_hits J start iters).
Proof.
  intros HJ. unfold thread_hits. apply Forall_concat, Forall_map, list.Forall_forall. intros [k digest] _. cbn.
  case_match; constructor; [|done]. split; [done|apply u32_range].
Qed.

Definition merges (merge : list (list HitRecord) -> list HitRecord) : Prop := forall ls, merge ls ≡ₚ concat ls.

Lemma run_block_typed L d blk d' : merges (merge L) -> typed d -> run_block L d blk = Some d' -> typed d'.
Proof.
  intros Hm Hd. destruct blk as [j bx]. unfold run_block.
  destruct (job_at d j) as [J|] eqn:EJ; [|done]. cbn [mbind option_bind].
  destruct (foldM record_hit _ _) as [[d1 sh]|] eqn:E; [|done]. cbn [mbind option_bind].
  apply record_hits_typed in E as [Hd1 Hs]; [by apply flush_typed|done|done|].
  rewrite (Hm _). apply Forall_concat, Forall_map, list.Forall_forall. intros tx _. apply thread_hits_typed, (proj2 Hd j), EJ.
Qed.

Lemma mine_stub_typed base d j d' : typed d -> mine_stub_job base d j = Some d' -> typed d'.
Proof.
  intros Hd. unfold mine_stub_job. destruct (g_jobs d), (g_hit_buf d); try by intros [= <-].
  case_match; [by intros [= <-]|]. destruct (job_at d j) as [J|] eqn:EJ; [|done]. cbn [mbind option_bind].
  case_match; [|by intros [= <-]]. apply push_hit_typed; [done|]. split; [by apply (proj2 Hd j)|apply u32_range].
Qed.

Lemma launch_kernel_typed {B} x y t (block : Device -> B -> option Device) d order d' :
  (forall a b a', typed a -> block a b = Some a' -> typed a') ->
  typed d -> launch_kernel x y t block d order = Some d' -> typed d'.
Proof.
  intros Hb Hd. unfold launch_kernel. case_match; [|by intros [= <-]].
  apply foldM_inv; [|done]. intros a blk a' Ha _. by apply Hb.
Qed.

Lemma launch_batch_typed d n b t base npt order merge d' ok :
  merges merge -> typed d -> launchMineWithPlanBatch d n b t base npt order merge = Some (d', ok) -> typed d'.
Proof.
  intros Hm Hd. unfold launchMineWithPlanBatch. do 2 (case_match; [by intros [= <- _]|]).
  destruct (launchable _ _ _); [|by intros [= <- _]].
  destruct (batch_iters _) as [iters|]; [|done]. cbn [mbind option_bind].
  destruct (foldM _ d order) as [d1|] eqn:E; [|done]. intros [= <- _].
  revert E. apply foldM_inv; [|done]. intros a blk a' Ha _. by apply run_block_typed.
Qed.

Lemma launch_stub_typed d n base order d' ok :
  typed d -> launchMineStub d n base order = Some (d', ok) -> typed d'.
Proof.
  intros Hd. unfold launchMineStub. case_match; [by intros [= <- _]|].
  destruct (launch_kernel _ _ _ _ d order) as [d1|] eqn:E; [|done]. intros [= <- _].
  revert E. by apply launch_kernel_typed; [apply mine_stub_typed|].
Qed.

Lemma launch_plan_typed d n b t base order d' ok :
  typed d -> launchMineWithPlan d n b t base order = Some (d', ok) -> typed d'.
Proof.
  intros Hd. unfold launchMineWithPlan. do 2 (case_match; [by intros [= <- _]|]).
  destruct (launch_kernel _ _ _ _ d order) as [d1|] eqn:E; [|done]. intros [= <- _].
  revert E. by apply launch_kernel_typed; [apply mine_stub_typed|].
Qed.

(** An upload replaces every entry the kernels can read. *)
Lemma upload_typed d jobs :
  typed_hits d -> jobs <> [] -> Forall (fun J => is_u64 (work_id J)) jobs -> typed (uploadDeviceJobs d jobs).1.
Proof.
  intros Hh Hne Hj. unfold uploadDeviceJobs.
  destruct (Nat.eqb_spec (length jobs) 0) as [E|E]; [by destruct jobs|].
  split; [exact Hh|]. intros j J. unfold job_at. cbn [fst g_jobs_const_size g_jobs_const g_jobs].
  set (c := if (64 <? length jobs)%nat then 64%nat else length jobs).
  assert (c <= length jobs)%nat as Hc by (unfold c; destruct (Nat.ltb_spec 64 (length jobs)); lia).
  rewrite list.Forall_forall in Hj. destruct (Nat.ltb_spec j c).
  - rewrite lookup_app_l by (rewrite length_take; lia). rewrite lookup_take_lt by lia.
    intros EJ. by apply Hj, (list_elem_of_lookup_2 _ j).
  - cbn [mbind option_bind]. intros EJ. by apply Hj, (list_elem_of_lookup_2 _ j).
Qed.

Lemma copy_from_typed buf i n l : Forall typed_hit buf -> copy_from buf i n = Some l -> Forall typed_hit l.
Proof. unfold copy_from. case_match; [|done]. intros Hb [= <-]. by apply Forall_take, Forall_drop. Qed.

Lemma drain_typed d max d' hits ok :
  typed_hits d -> drainDeviceHits d max = Some (d', hits, ok) -> typed_hits d' /\ Forall typed_hit hits.
Proof.
  intros Hd. unfold drainDeviceHits. destruct (g_hit_buf d) as [buf|] eqn:Hb; [|by intros [= <- <- _]].
  destruct (g_hit_cap d =? 0); [by intros [= <- <- _]|]. cbv zeta.
  destruct (available_hits _ _ =? 0); [by intros [= <- <- _]|].
  specialize (Hd buf Hb). destruct (copy_from buf (s_device_drain_offset d mod g_hit_cap d) _) as [a|] eqn:Ea; [|done].
  cbn [mbind option_bind].
  match goal with |- context [if ?c then copy_from buf 0 ?n else Some []] =>
    assert (forall l, (if c then copy_from buf 0 n else Some []) = Some l -> Forall typed_hit l) as Hl;
      [destruct c; [intros l; by apply copy_from_typed|by intros l [= <-]]
      |set (b := if c then copy_from buf 0 n else Some []) in *]
  end.
  destruct b as [l|]; [|done]. intros [= <- <- _]. split.
  - by intros b' [= <-].
  - apply Forall_app. split; [by eapply copy_from_typed|by apply Hl].
Qed.
