(* ===== verification/HitRing.v ===== *)
(** * The host-side hit ring (src/cuda/hit_ring.h)

    [HitRingBuffer] is the bounded queue between the device drain and the submit path.
    Its operations on the circular buffer are shown to implement a bounded queue that
    forgets its oldest element when it is full. *)

From stdpp Require Import base numbers list option.
From S2P Require Import Prelude Device.

Open Scope Z_scope.

(** ** Definitions *)

Record HitRingBuffer := mkRing {
  capacity_ : nat; buffer_ : list HitRecord; head_ : nat; tail_ : nat; size_ : nat }.

Definition HitRing_init (capacity : nat) : HitRingBuffer :=
  mkRing capacity (repeat (mkHit 0 0) capacity) 0 0 0.

(** Writing outside the vector and a remainder by zero are undefined ([None]). *)
Definition push (r : HitRingBuffer) (hit : HitRecord) : option (HitRingBuffer * bool) :=
  let overwrote := (size_ r =? capacity_ r)%nat in
  if (tail_ r <? length (buffer_ r))%nat then
    let buf := <[tail_ r := hit]> (buffer_ r) in
    let tl := ((tail_ r + 1) mod capacity_ r)%nat in
    Some (if overwrote
          then mkRing (capacity_ r) buf ((head_ r + 1) mod capacity_ r) tl (size_ r)
          else mkRing (capacity_ r) buf (head_ r) tl (S (size_ r)), overwrote)
  else None.

Definition tryPop (r : HitRingBuffer) : option (HitRingBuffer * option HitRecord) :=
  if (size_ r =? 0)%nat then Some (r, None)
  else
    out ← buffer_ r !! head_ r;
    Some (mkRing (capacity_ r) (buffer_ r) ((head_ r + 1) mod capacity_ r) (tail_ r) (size_ r - 1),
          Some out).

Definition size (r : HitRingBuffer) : nat := size_ r.
Definition empty (r : HitRingBuffer) : bool := (size r =? 0)%nat.

(** A caller's calls, each made under the ring's own lock. *)
Inductive ring_call := CPush (h : HitRecord) | CPop | CSize.
Inductive ring_result := RPush (overwrote : bool) | RPop (out : option HitRecord) | RSize (n : nat).

Definition ring_step (r : HitRingBuffer) (c : ring_call) : option (HitRingBuffer * ring_result) :=
  match c with
  | CPush h => '(r, b) ← push r h; Some (r, RPush b)
  | CPop => '(r, o) ← tryPop r; Some (r, RPop o)
  | CSize => Some (r, RSize (size r))
  end.

Fixpoint ring_run (r : HitRingBuffer) (l : list ring_call) : option (HitRingBuffer * list ring_result) :=
  match l with
  | [] => Some (r, [])
  | c :: l =>
      '(r, o) ← ring_step r c;
      '(r, os) ← ring_run r l;
      Some (r, o :: os)
  end.

(** ** Specification: a bounded queue *)

Definition queue_step (cap : nat) (q : list HitRecord) (c : ring_call) :
    list HitRecord * ring_result :=
  match c with
  | CPush h => if decide (length q = cap) then (drop 1 (q ++ [h]), RPush true)
               else (q ++ [h], RPush false)
  | CPop => (drop 1 q, RPop (head q))
  | CSize => (q, RSize (length q))
  end.

Fixpoint queue_run (cap : nat) (q : list HitRecord) (l : list ring_call) :
    list HitRecord * list ring_result :=
  match l with
  | [] => (q, [])
  | c :: l =>
      let '(q, o) := queue_step cap q c in
      let '(q, os) := queue_run cap q l in
      (q, o :: os)
  end.

(** ** The refinement relation *)

(** The queue reads the buffer circularly from the head. *)
Record represents (cap : nat) (r : HitRingBuffer) (q : list HitRecord) : Prop := {
  rep_pos : (0 < cap)%nat;
  rep_cap : capacity_ r = cap;
  rep_buf : length (buffer_ r) = cap;
  rep_head : (head_ r < cap)%nat;
  rep_size : size_ r = length q;
  rep_bound : (length q <= cap)%nat;
  rep_tail : tail_ r = ((head_ r + length q) mod cap)%nat;
  rep_items : forall i, (i < length q)%nat -> buffer_ r !! ((head_ r + i) mod cap)%nat = q !! i }.

(** Two offsets of a circle that meet are equal. *)
Lemma circle_inj cap h i j :
  (i < cap)%nat -> (j < cap)%nat -> ((h + i) mod cap = (h + j) mod cap)%nat -> i = j.
Proof.
  intros Hi Hj E.
  pose proof (Nat.div_mod_eq (h + i) cap). pose proof (Nat.div_mod_eq (h + j) cap).
  destruct (Nat.lt_trichotomy ((h + i) / cap) ((h + j) / cap)) as [?|[?|?]]; nia.
Qed.

Lemma circle_shift cap h i :
  (0 < cap)%nat -> ((((h + 1) mod cap) + i) mod cap = (h + S i) mod cap)%nat.
Proof. intros H. rewrite Nat.Div0.add_mod_idemp_l. f_equal. lia. Qed.

Lemma circle_full cap h : ((h + cap) mod cap = h mod cap)%nat.
Proof. replace (h + cap)%nat with (h + 1 * cap)%nat by lia. apply Nat.Div0.mod_add. Qed.

Lemma circle_wrap cap h : (h < cap)%nat -> ((h + cap) mod cap = h)%nat.
Proof. intros H. rewrite circle_full. by apply Nat.mod_small. Qed.

Lemma init_represents cap : (0 < cap)%nat -> represents cap (HitRing_init cap) [].
Proof.
  intros H. split; cbn; try done; try lia; rewrite ?repeat_length; try done.
  rewrite Nat.mod_small; lia.
Qed.

Lemma pop_represents cap r x q :
  represents cap r (x :: q) ->
  tryPop r = Some (mkRing (capacity_ r) (buffer_ r) ((head_ r + 1) mod capacity_ r) (tail_ r)
                     (size_ r - 1), Some x) /\
  represents cap (mkRing (capacity_ r) (buffer_ r) ((head_ r + 1) mod capacity_ r) (tail_ r)
                    (size_ r - 1)) q.
Proof.
  intros [Hp Hc Hb Hh Hs Hl Ht Hi]. unfold tryPop. rewrite Hs. cbn [length] in *.
  assert (buffer_ r !! head_ r = Some x) as Hx.
  { specialize (Hi 0%nat ltac:(lia)). rewrite Nat.add_0_r, Nat.mod_small in Hi by lia. done. }
  rewrite Hx. split; [done|]. rewrite Hc.
  split; cbn; try done; try lia.
  - apply Nat.mod_upper_bound. lia.
  - rewrite circle_shift by done. done.
  - intros i Hi'. rewrite circle_shift by done. by rewrite (Hi (S i)) by lia.
Qed.

Lemma push_represents cap r q h :
  represents cap r q -> (length q < cap)%nat ->
  exists r', push r h = Some (r', false) /\ represents cap r' (q ++ [h]).
Proof.
  intros [Hp Hc Hb Hh Hs Hl Ht Hi] Hlt. unfold push.
  assert (tail_ r < cap)%nat by (rewrite Ht; apply Nat.mod_upper_bound; lia).
  rewrite (proj2 (Nat.ltb_lt _ _)) by lia. rewrite (proj2 (Nat.eqb_neq _ _)) by lia.
  eexists. split; [done|]. split; cbn; rewrite ?length_app, ?length_insert; cbn; try done; try lia.
  - rewrite Ht, Hc, Nat.Div0.add_mod_idemp_l. f_equal. lia.
  - intros i Hi'. destruct (decide (i = length q)) as [->|].
    + rewrite <- Ht, list_lookup_insert_eq by lia. by rewrite lookup_app_r, Nat.sub_diag.
    + rewrite list_lookup_insert_ne; [rewrite Hi, lookup_app_l by lia; done|].
      rewrite Ht. intros E. apply circle_inj in E; lia.
Qed.

Lemma push_full_represents cap r x q h :
  represents cap r (x :: q) -> length (x :: q) = cap ->
  exists r', push r h = Some (r', true) /\ represents cap r' (q ++ [h]).
Proof.
  intros [Hp Hc Hb Hh Hs Hl Ht Hi] Hf. unfold push. cbn [length] in *.
  assert (tail_ r = head_ r) as Et by (rewrite Ht, Hf; by apply circle_wrap).
  rewrite Et, (proj2 (Nat.ltb_lt _ _)) by lia. rewrite (proj2 (Nat.eqb_eq _ _)) by lia.
  rewrite Hc. eexists. split; [done|].
  split; cbn; rewrite ?length_app, ?length_insert; cbn; try done; try lia.
  - apply Nat.mod_upper_bound. lia.
  - rewrite Nat.Div0.add_mod_idemp_l.
    replace (head_ r + 1 + (length q + 1))%nat with (head_ r + 1 + cap)%nat by lia.
    by rewrite circle_full.
  - intros i Hi'. rewrite circle_shift by done. destruct (decide (i = length q)) as [->|].
    + rewrite Hf, circle_wrap, list_lookup_insert_eq by lia. by rewrite lookup_app_r, Nat.sub_diag.
    + rewrite list_lookup_insert_ne; [rewrite (Hi (S i)), lookup_app_l by lia; done|].
      intros E. assert ((head_ r + 0) mod cap = (head_ r + S i) mod cap)%nat as E'.
      { rewrite <- E, Nat.add_0_r. by apply Nat.mod_small. }
      apply circle_inj in E'; lia.
Qed.

Lemma ring_step_refines cap r q c :
  represents cap r q ->
  exists r', ring_step r c = Some (r', (queue_step cap q c).2) /\
             represents cap r' (queue_step cap q c).1.
Proof.
  intros H. pose proof (rep_pos _ _ _ H). destruct c as [h| |]; cbn [queue_step ring_step].
  - destruct (decide (length q = cap)) as [E|E].
    + destruct q as [|x q]; [cbn in E; lia|].
      destruct (push_full_represents cap r x q h H E) as (r' & -> & Hr).
      by exists r'.
    + destruct (push_represents cap r q h H) as (r' & -> & Hr).
      { pose proof (rep_bound _ _ _ H). lia. }
      by exists r'.
  - destruct q as [|x q].
    + exists r. unfold tryPop. by rewrite (rep_size _ _ _ H).
    + destruct (pop_represents cap r x q H) as [-> Hr]. by eexists.
  - exists r. unfold size. by rewrite (rep_size _ _ _ H).
Qed.

(** ** Theorems *)

(** C23: HitRingBuffer implements a bounded queue: from a ring of positive capacity every
    sequence of calls returns, with the results of the queue that forgets its oldest
    element on a push when full and reports it; no access is out of bounds. *)
Theorem ring_refines_queue cap l :
  (0 < cap)%nat ->
  exists r, ring_run (HitRing_init cap) l = Some (r, (queue_run cap [] l).2) /\
            represents cap r (queue_run cap [] l).1.
Proof.
  intros H. pose proof (init_represents cap H) as Hr. revert Hr.
  generalize (HitRing_init cap) as r, (@nil HitRecord) as q.
  induction l as [|c l IH]; intros r q Hr; cbn [ring_run queue_run]; [by exists r|].
  destruct (ring_step_refines cap r q c Hr) as (r1 & -> & H1).
  destruct (queue_step cap q c) as [q1 o1]. cbn in H1 |- *.
  destruct (IH r1 q1 H1) as (r2 & -> & H2).
  destruct (queue_run cap q1 l) as [q2 o2]. by exists r2.
Qed.

Lemma ring_refines_queue_witness :
  exists r, ring_run (HitRing_init 2) [CPush (mkHit 1 1); CPush (mkHit 2 2); CPush (mkHit 3 3); CPop; CSize]
  = Some (r, [RPush false; RPush false; RPush true; RPop (Some (mkHit 2 2)); RSize 1]).
Proof.
  destruct (ring_refines_queue 2
    [CPush (mkHit 1 1); CPush (mkHit 2 2); CPush (mkHit 3 3); CPop; CSize]) as (r & E & _); [lia|].
  exists r. exact E.
Defined.

(** A ring of capacity 0 has no defined push. *)
Example ring_capacity_zero h : push (HitRing_init 0) h = None.
Proof. reflexivity. Qed.
