(* ===== verification/LaunchPlan.v ===== *)
(** * Launch geometry and tuning (src/cuda/launch_plan.h, auto_tune.h, auto_tune.cpp)

    The grid the runner asks the device for, the controller that keeps a batch inside its
    time budget, and the tuning profile kept on disk. *)

From stdpp Require Import base numbers list option gmap strings.
From S2P Require Import Prelude FileSys Json.

Open Scope Z_scope.

(** ** Launch plan *)

Record MultiJobLaunchPlan := mkPlan {
  blocks_per_job : Z; threads_per_block : Z; num_jobs : Z }.

Definition clampThreadsPerBlock (requested : Z) : Z :=
  let kMin := 64 in
  let kMax := 1024 in
  if requested <? kMin then kMin else if kMax <? requested then kMax else requested.

(** The loop [while (tpb > desired && tpb >= 64) tpb >>= 1]. *)
Fixpoint halve_tpb (fuel : nat) (tpb desired : Z) : option Z :=
  if (desired <? tpb) && (64 <=? tpb) then
    match fuel with O => None | S fuel => halve_tpb fuel (tpb .>> 1)%cxx desired end
  else Some tpb.

(** Four turns suffice from 256; [None] would be a loop still running. *)
Definition computeLaunchPlan (jobs desired_threads_per_job : Z) : option MultiJobLaunchPlan :=
  if (jobs =? 0) || (desired_threads_per_job =? 0) then Some (mkPlan 0 0 jobs)
  else
    tpb ← halve_tpb 4 256 desired_threads_per_job;
    let tpb := clampThreadsPerBlock tpb in
    let blocks := u64 (u64 (desired_threads_per_job + tpb) - 1) / tpb in
    let blocks := if blocks =? 0 then 1 else blocks in
    let blocks := if 4294967295 <? blocks then 4294967295 else blocks in
    Some (mkPlan (u32 blocks) tpb jobs).

(** ** Micro-batch controller *)

Record AutoTuneInputs := mkTuneIn {
  observedMsPerBatch : Z; maxMsPerBatch : Z; currentMicroBatch : Z }.

Record AutoTuneDecision := mkTuneOut {
  nextMicroBatch : Z; increased : bool; decreased : bool }.

Definition autoTuneMicroBatch (i : AutoTuneInputs) : AutoTuneDecision :=
  let cur := currentMicroBatch i in
  if observedMsPerBatch i =? 0 then mkTuneOut cur false false
  else if u32 (observedMsPerBatch i * 5) <? u32 (maxMsPerBatch i * 4) then
    let next := u64 (cur * 2) in
    let next := if 1000000 <? next then 1000000 else next in
    let next := u32 next in
    mkTuneOut next (negb (next =? cur)) false
  else if maxMsPerBatch i <? observedMsPerBatch i then
    let next := if 1 <? cur then cur / 2 else 1 in
    mkTuneOut next false (negb (next =? cur))
  else mkTuneOut cur false false.

(** ** Tuning profile *)

Record TuningProfile := mkProfile { prof_threads_per_block : Z; prof_nonces_per_thread : Z }.

Definition TuningProfile_default : TuningProfile := mkProfile 256 1.

Section Profile.
Context {J : Type} `{Json J}.

Definition pathFor (device_name : string) : string :=
  String.append (String.append "logs/" device_name) ".tuning.json".

(** The state is the caller's profile, [None] for a null pointer; a value that does not
    convert stops the load after the fields before it have been stored. *)
Definition loadTuningProfile (fs : FS) (device_name : string) : M (option TuningProfile) bool :=
  out ← getS;
  match out, fs !! pathFor device_name with
  | Some p, Some bytes =>
      match parse_stream bytes with
      | None => mret false
      | Some j =>
          mcatch
            (tpb ← lift (value (get_uint 32) j "threads_per_block" (prof_threads_per_block p));
             _ ← modify (fun _ => Some (mkProfile tpb (prof_nonces_per_thread p)));
             npt ← lift (value (get_uint 32) j "nonces_per_thread" (prof_nonces_per_thread p));
             _ ← modify (fun _ => Some (mkProfile tpb npt));
             mret true)
            (mret false)
      end
  | _, _ => mret false
  end.

Definition profile_json (p : TuningProfile) : J :=
  jobject [("threads_per_block"%string, jnumber (prof_threads_per_block p));
           ("nonces_per_thread"%string, jnumber (prof_nonces_per_thread p))].

Definition saveTuningProfile (env : Env) (fs : FS) (device_name : string) (p : TuningProfile) : FS * bool :=
  if can_write env (pathFor device_name)
  then (<[pathFor device_name := dump (profile_json p)]> fs, true)
  else (fs, false).

End Profile.

(** ** Lemmas *)

Lemma halve_tpb_next fuel tpb desired :
  desired < tpb -> 64 <= tpb -> halve_tpb (S fuel) tpb desired = halve_tpb fuel (tpb / 2) desired.
Proof.
  intros H1 H2. cbn [halve_tpb]. rewrite (proj2 (Z.ltb_lt _ _) H1), (proj2 (Z.leb_le _ _) H2).
  cbn [andb]. by rewrite Z.shiftr_div_pow2.
Qed.

Lemma halve_tpb_end fuel tpb desired :
  tpb <= desired \/ tpb < 64 -> halve_tpb fuel tpb desired = Some tpb.
Proof.
  intros H. assert ((desired <? tpb) && (64 <=? tpb) = false) as E by lia.
  destruct fuel; cbn [halve_tpb]; by rewrite E.
Qed.

(** The loop ends within its fuel, at 256, 128, 64 or below 64, which the clamp makes 64. *)
Lemma halve_tpb_spec desired :
  0 < desired ->
  exists tpb, halve_tpb 4 256 desired = Some tpb /\
    clampThreadsPerBlock tpb =
      (if 256 <=? desired then 256 else if 128 <=? desired then 128 else 64).
Proof.
  intros H. destruct (Z.leb_spec 256 desired); [exists 256; by rewrite halve_tpb_end by lia|].
  rewrite halve_tpb_next by lia. change (256 / 2) with 128.
  destruct (Z.leb_spec 128 desired); [exists 128; by rewrite halve_tpb_end by lia|].
  rewrite halve_tpb_next by lia. change (128 / 2) with 64.
  destruct (Z.leb_spec 64 desired); [exists 64; by rewrite halve_tpb_end by lia|].
  rewrite halve_tpb_next by lia. change (64 / 2) with 32. exists 32. by rewrite halve_tpb_end by lia.
Qed.

(** ** Theorems *)

(** C33: computeLaunchPlan for a positive number of jobs and a demand whose rounding does
    not wrap returns a block of 64, 128 or 256 threads, never larger than the demand but
    for the minimum of 64, and the least number of blocks that covers the demand, capped
    at 2^32 - 1. *)
Theorem launch_plan_covers jobs desired :
  jobs <> 0 -> 0 < desired -> desired + 256 <= 2 ^ 64 ->
  exists p, computeLaunchPlan jobs desired = Some p /\ num_jobs p = jobs /\
    (threads_per_block p = 64 \/ threads_per_block p = 128 \/ threads_per_block p = 256) /\
    threads_per_block p <= Z.max 64 desired /\
    1 <= blocks_per_job p <= 2 ^ 32 - 1 /\
    (blocks_per_job p - 1) * threads_per_block p < desired /\
    (blocks_per_job p < 2 ^ 32 - 1 -> desired <= blocks_per_job p * threads_per_block p).
Proof.
  intros Hj Hd Hw. unfold computeLaunchPlan.
  rewrite (proj2 (Z.eqb_neq _ _) Hj), (proj2 (Z.eqb_neq _ _)) by lia. cbn [orb].
  destruct (halve_tpb_spec desired Hd) as (t & -> & Et). cbn [mbind option_bind].
  rewrite Et.
  set (tpb := if 256 <=? desired then 256 else if 128 <=? desired then 128 else 64).
  assert ((tpb = 64 \/ tpb = 128 \/ tpb = 256) /\ tpb <= Z.max 64 desired) as [Ht Hle].
  { unfold tpb. repeat case_match; lia. }
  clearbody tpb.
  assert (u64 (u64 (desired + tpb) - 1) / tpb = (desired - 1) / tpb + 1) as ->.
  { destruct (decide (desired + tpb = 2 ^ 64)) as [E|E].
    - rewrite E. replace (desired - 1) with (2 ^ 64 - 1 - tpb) by lia.
      destruct Ht as [-> | [-> | ->]]; reflexivity.
    - rewrite (u64_small (desired + tpb)), u64_small by (unfold in_u; lia).
      replace (desired + tpb - 1) with (desired - 1 + 1 * tpb) by ring.
      rewrite Z.div_add by lia. done. }
  set (q := (desired - 1) / tpb).
  assert (0 <= q /\ q * tpb < desired <= (q + 1) * tpb) as [Hq Hb].
  { unfold q. destruct Ht as [-> | [-> | ->]]; Z.to_euclidean_division_equations; lia. }
  clearbody q. rewrite (proj2 (Z.eqb_neq (q + 1) 0)) by lia.
  eexists. split; [done|]. cbn [num_jobs threads_per_block blocks_per_job].
  destruct (Z.ltb_spec 4294967295 (q + 1)); rewrite u32_small by (unfold in_u; lia);
    repeat split; try done; try lia; nia.
Qed.

Lemma launch_plan_covers_witness :
  exists p, computeLaunchPlan 3 1000 = Some p /\ 1000 <= blocks_per_job p * threads_per_block p.
Proof.
  destruct (launch_plan_covers 3 1000) as (p & E & _ & _ & _ & _ & _ & Hc); [lia..|].
  exists p. split; [exact E|]. apply Hc. injection E as <-. reflexivity.
Defined.

(** A demand within 255 of 2^64 wraps to a single block. *)
Example launch_plan_wraps :
  computeLaunchPlan 1 (2 ^ 64 - 1) = Some (mkPlan 1 256 1).
Proof. reflexivity. Qed.

(** The controller's "increase" shrinks a batch above its limit. *)
Example tune_increase_shrinks :
  autoTuneMicroBatch (mkTuneIn 1 16 1500000) = mkTuneOut 1000000 true false.
Proof. reflexivity. Qed.

Section Loop.
(** A batch whose time grows linearly with its size. *)
Context (c budget : Z) (Hc : 0 < c) (Hfit : c <= budget)
  (Hb : budget * 4 < 2 ^ 32) (Hlimit : c * 1000000 * 5 < 2 ^ 32).

Definition tune_step (m : Z) : Z := nextMicroBatch (autoTuneMicroBatch (mkTuneIn (c * m) budget m)).

Definition sized (m : Z) : Prop := 1 <= m <= 1000000.

Lemma tune_step_cases m :
  sized m -> sized (tune_step m) /\
  ((5 * (c * m) < 4 * budget /\ tune_step m = Z.min (2 * m) 1000000) \/
   (budget < c * m /\ tune_step m = m / 2) \/
   (4 * budget <= 5 * (c * m) /\ c * m <= budget /\ tune_step m = m)).
Proof.
  unfold sized. intros Hm. assert (c * m * 5 <= c * 1000000 * 5) by nia.
  assert (budget < c * m -> 2 <= m) by nia.
  unfold tune_step, autoTuneMicroBatch. cbn [observedMsPerBatch maxMsPerBatch currentMicroBatch].
  rewrite (proj2 (Z.eqb_neq (c * m) 0)) by nia.
  rewrite (u32_small (c * m * 5)), (u32_small (budget * 4)) by (unfold in_u; nia).
  destruct (Z.ltb_spec (c * m * 5) (budget * 4)); cbn [nextMicroBatch].
  { rewrite u64_small by (unfold in_u; lia).
    destruct (Z.ltb_spec 1000000 (m * 2)); rewrite u32_small by (unfold in_u; lia);
      (split; [lia|]; left; lia). }
  destruct (Z.ltb_spec budget (c * m)); cbn [nextMicroBatch].
  - rewrite (proj2 (Z.ltb_lt 1 m)) by lia.
    split; [Z.to_euclidean_division_equations; lia|]. right. left. done.
  - split; [lia|]. right. right. split; [lia|]. done.
Qed.

Lemma halved_cost m : 0 <= m -> 2 * (c * (m / 2)) <= c * m.
Proof. intros. pose proof (Z.mul_div_le m 2 ltac:(lia)). nia. Qed.

Definition settled (m : Z) : Prop := sized m /\ 5 * (c * m) < 8 * budget.

Lemma settled_step m : settled m -> settled (tune_step m) /\ (budget < c * m -> c * tune_step m <= budget).
Proof.
  intros [Hm Hs]. destruct (tune_step_cases m Hm) as (Hm' & Hcase). unfold settled.
  assert (c * Z.min (2 * m) 1000000 <= 2 * (c * m)) by (unfold sized in Hm; nia).
  pose proof (halved_cost m ltac:(unfold sized in Hm; lia)) as Hh.
  assert (5 * (c * tune_step m) < 8 * budget /\ (budget < c * m -> c * tune_step m <= budget))
    as [? ?]; [|done].
  destruct Hcase as [(? & ->)|[(? & ->)|(? & ? & ->)]]; lia.
Qed.

Lemma settles k m : sized m -> m <= 2 ^ Z.of_nat k -> settled (Nat.iter k tune_step m).
Proof.
  revert m. induction k as [|k IH]; intros m Hm Hk.
  { unfold settled, sized in *. cbn. split; [lia|]. assert (m = 1) as -> by (cbn in Hk; lia). lia. }
  rewrite Nat.iter_succ_r.
  destruct (tune_step_cases m Hm) as (Hm' & [(Hu & E)|[(Ho & E)|(? & ? & E)]]).
  - assert (settled m) as Hs by (split; [done|lia]).
    clear IH Hk. induction k as [|k IHk]; [by apply settled_step|]. rewrite Nat.iter_succ. by apply settled_step.
  - apply IH; [done|]. rewrite E. rewrite Nat2Z.inj_succ, Z.pow_succ_r in Hk by lia.
    apply Z.div_le_upper_bound; lia.
  - assert (settled m) as Hs by (split; [done|lia]).
    clear IH Hk. induction k as [|k IHk]; [by apply settled_step|]. rewrite Nat.iter_succ. by apply settled_step.
Qed.

Lemma settled_iter n m : settled m -> settled (Nat.iter n tune_step m).
Proof. intros H. induction n as [|n IH]; [done|]. rewrite Nat.iter_succ. by apply settled_step. Qed.

(** C36: the micro-batch controller settles.  When a batch of size m takes c*m milliseconds,
    c within the budget and no product beyond 32 bits, after 20 decisions from any size up
    to the limit every batch takes less than 1.6 times the budget, and a batch over budget
    is followed by one within it. *)
Theorem tune_settles m n :
  1 <= m <= 1000000 -> (20 <= n)%nat ->
  let at_ k := Nat.iter k tune_step m in
  1 <= at_ n <= 1000000 /\ 5 * (c * at_ n) < 8 * budget /\
  (budget < c * at_ n -> c * at_ (S n) <= budget).
Proof.
  intros Hm Hn at_. assert (settled (at_ n)) as Hs.
  { unfold at_. replace n with ((n - 20) + 20)%nat by lia. rewrite Nat.iter_add.
    apply settled_iter, settles; [done|]. change (2 ^ Z.of_nat 20) with 1048576. unfold sized in *. lia. }
  split; [apply Hs|]. split; [apply Hs|]. unfold at_. rewrite Nat.iter_succ. by apply settled_step.
Qed.

End Loop.

Lemma tune_settles_witness :
  let at_ k := Nat.iter k (tune_step 3 16) 900000 in
  5 * (3 * at_ 20%nat) < 8 * 16.
Proof.
  refine (proj1 (proj2 (tune_settles 3 16 _ _ _ _ 900000 20 _ _))); lia.
Defined.

Section ProfileLaws.
Context {J : Type} `{JsonLaws J}.

(** A saved tuning profile is the one loaded back, whatever the caller's profile held
    before; a load from a missing file leaves it alone. *)
Theorem tuning_roundtrip env fs dev p old :
  can_write env (pathFor dev) = true ->
  is_u32 (prof_threads_per_block p) -> is_u32 (prof_nonces_per_thread p) ->
  let '(fs', ok) := saveTuningProfile env fs dev p in
  ok = true /\
  loadTuningProfile fs' dev (Some old) = (inr true, Some p) /\
  (fs !! pathFor dev = None -> loadTuningProfile fs dev (Some old) = (inr false, Some old)).
Proof.
  intros Hw Ht Hn. unfold saveTuningProfile. rewrite Hw. split; [done|]. split.
  - unfold loadTuningProfile, mbind, M_bind, getS. rewrite lookup_insert_eq, parse_stream_dump
      by (apply encodable_object; [reflexivity|]; repeat constructor; by apply encodable_u32).
    unfold mcatch, lift, modify, profile_json.
    rewrite !(value_jobject _ _ "threads_per_block" _ (jnumber (prof_threads_per_block p))) by done.
    rewrite !(value_jobject _ _ "nonces_per_thread" _ (jnumber (prof_nonces_per_thread p))) by done.
    rewrite !get_uint_jnumber by done. by destruct p.
  - intros E. unfold loadTuningProfile, mbind, M_bind, getS. by rewrite E.
Qed.

End ProfileLaws.

Import Concrete.

Lemma tuning_roundtrip_witness :
  let env := mkEnv (fun _ => true) (fun _ _ => true) (fun _ _ => true) in
  loadTuningProfile (J := Concrete.Jv) (saveTuningProfile (J := Concrete.Jv) env ∅ "cuda0" (mkProfile 512 4)).1
    "cuda0" (Some TuningProfile_default) = (inr true, Some (mkProfile 512 4)).
Proof.
  exact (proj1 (proj2 (tuning_roundtrip (mkEnv (fun _ => true) (fun _ _ => true) (fun _ _ => true))
    ∅ "cuda0" (mkProfile 512 4) TuningProfile_default eq_refl
    ltac:(in_range) ltac:(in_range)))).
Defined.
