(* ===== verification/DeviceDiag.v ===== *)
(** * Device diagnostics ([src/cuda/engine.cu])

    What happens to a block with more hits than its local buffer holds, the per-SM flush
    counters and the gauges made of them, the launches without work, the demo that writes
    one hit per job, and the end of the hit buffer: the host's pointer is reset, the
    device's is not. *)

From stdpp Require Import base numbers list option.
From S2P Require Import Prelude LaunchPlan Device.

Open Scope Z_scope.

(** ** Definitions *)

(** [kernel_multi_noop] has no effect; the answer is whether it was launched. *)
Definition launchMultiJobStub (num_jobs desired_threads_per_job : Z) : option bool :=
  plan ← computeLaunchPlan num_jobs desired_threads_per_job;
  Some (negb ((LaunchPlan.num_jobs plan =? 0) || (blocks_per_job plan =? 0) || (threads_per_block plan =? 0))).

Record LaunchParams := mkLaunchParams { blocks : Z; lp_threads_per_block : Z }.

(** [kernel_noop] has no effect either; whether it was launched. *)
Definition launchStub (params : LaunchParams) : bool :=
  negb ((blocks params =? 0) || (lp_threads_per_block params =? 0)).

(** One block of [kernel_write_hits]; [None] outside the two arrays. *)
Definition kernel_write_hits (work_ids : list Z) (num_jobs nonce_base : Z) (out : list HitRecord) (j : nat) :
    option (list HitRecord) :=
  if num_jobs <=? Z.of_nat j then Some out
  else
    w ← work_ids !! j;
    if (j <? length out)%nat then Some (<[j := mkHit w (u32 (nonce_base + Z.of_nat j))]> out) else None.

(** The demo in the CUDA build: [fresh] is what the device buffer holds at first, [order]
    the order of the blocks.  Nothing is written for no jobs. *)
Definition launchWriteHitsDemo_cuda (work_ids : list Z) (num_jobs nonce_base : Z) (fresh : list HitRecord)
    (order : list nat) : option (list HitRecord * bool) :=
  if num_jobs =? 0 then Some ([], false)
  else hits ← foldM (kernel_write_hits work_ids num_jobs nonce_base) fresh order; Some (hits, true).

(** *** The end of the hit buffer *)

(** The device with the host's mirror: [live] is whether [s_device_hit_buf] is set. *)
Record Engine := mkEngine { dev : Device; live : bool }.

Definition initDeviceHitBuffer_engine (e : Engine) (capacity : Z) (fresh : list HitRecord) : Engine :=
  mkEngine (initDeviceHitBuffer (dev e) capacity fresh) true.

(** The device symbol keeps the pointer of the freed buffer: it points to no record. *)
Definition freeDeviceHitBuffer (e : Engine) : Engine :=
  if live e then
    let d := dev e in
    mkEngine (mkDevice (Some []) (g_hit_cap d) (g_hit_write_idx d) (g_jobs d) (g_jobs_const d)
      (g_jobs_const_size d) (g_num_jobs d) (g_block_flush_count d) (s_device_drain_offset d)) false
  else e.

Definition drain_engine (e : Engine) (max_out : Z) : option (Engine * list HitRecord * bool) :=
  if live e then '(d, hits, ok) ← drainDeviceHits (dev e) max_out; Some (mkEngine d true, hits, ok)
  else Some (e, [], false).

Definition push_engine (e : Engine) (work_ids : list Z) (nonce_base : Z) (order : list nat) : option (Engine * bool) :=
  if live e then '(d, ok) ← launchPushHitsToDeviceRing (dev e) work_ids nonce_base order; Some (mkEngine d true, ok)
  else Some (e, false).

Definition mine_engine (e : Engine) (num_jobs : nat) (nonce_base : Z) (order : list nat) : option (Engine * bool) :=
  '(d, ok) ← launchMineStub (dev e) num_jobs nonce_base order; Some (mkEngine d (live e), ok).

(** [g_sm_flush_counts], 128 counters; a block on multiprocessor [smid] counts its flush. *)
Definition sm_count_flush (counts : list Z) (smid : Z) : list Z :=
  alter (fun c => u32 (c + 1)) (Z.to_nat (smid mod 128)) counts.

(** [out] is the caller's array, of at least [sm_count] entries; the counters restart. *)
Definition readAndResetSmFlushCounts (counts : list Z) (sm_count : Z) (out : list Z) : list Z * list Z :=
  let n := Z.to_nat (Z.min sm_count 128) in
  (repeat 0 128, take n counts ++ drop n out).

(** The two gauges of the main loop. *)
Definition flush_gauges (smc : list Z) : Z * Z :=
  fold_left (fun '(sum, mx) v => (u64 (sum + v), if v >? mx then v else mx)) smc (0, 0).

(** ** A block with too many hits *)

Lemma foldM_stuck {A B} (f : A -> B -> option A) b l : (forall a, f a b = None) -> b ∈ l ->
  forall a, foldM f a l = None.
Proof.
  intros Hf. induction 1 as [l|b x l _ IH]; intros a; cbn [foldM]; [by rewrite Hf|].
  destruct (f a x); [apply IH; done|done].
Qed.

(** What the hits of a block leave: the counter passes 64, the buffer does not. *)
Lemma record_hits_count hits : forall d sh d' sh',
  foldM record_hit (d, sh) hits = Some (d', sh') ->
  0 <= s_count sh -> s_count sh + zlen hits < 2 ^ 32 -> zlen (s_hits sh) = Z.min 64 (s_count sh) ->
  s_count sh' = s_count sh + zlen hits /\ zlen (s_hits sh') = Z.min 64 (s_count sh') /\
    (is_Some (g_hit_buf d) -> is_Some (g_hit_buf d')) /\ g_hit_cap d' = g_hit_cap d.
Proof.
  induction hits as [|h hits IH]; intros d sh d' sh' E H0 Hl Hs; cbn [foldM] in E.
  - injection E as <- <-. cbn. rewrite Z.add_0_r. done.
  - cbn [length] in Hl.
    assert (exists d1 hs, record_hit (d, sh) h = Some (d1, mkShared hs (s_count sh + 1)) /\
    zlen hs = Z.min 64 (s_count sh + 1) /\
    (is_Some (g_hit_buf d) -> is_Some (g_hit_buf d1)) /\ g_hit_cap d1 = g_hit_cap d) as (d1 & hs & E1 & Hhs & Hb & Hc).
    { unfold record_hit in *. rewrite u32_small in * by (unfold in_u; lia).
      destruct (Z.ltb_spec (s_count sh) 64).
      - exists d, (s_hits sh ++ [h]). split; [done|]. split; [rewrite length_app; cbn; lia|done].
      - unfold push_hit in *. destruct (g_hit_buf d) as [buf|] eqn:Eb; [|done].
        cbn [mbind option_bind] in *. destruct (ring_slot d _ <? length buf)%nat; [|done].
        eexists _, _. split; [done|]. split; [lia|]. done. }
    rewrite E1 in E. cbn [mbind option_bind] in E.
    destruct (IH _ _ _ _ E) as (Ec & El & Eb & Ecap); cbn [s_count s_hits]; [lia..|].
    cbn [s_count] in Ec. split; [cbn [length]; lia|]. split; [done|]. split; [auto|congruence].
Qed.

(** A block that finds more than 64 solutions while a ring is present reads past its local
    buffer in the flush: the loop runs to the counter, which keeps counting the hits that
    went straight to the ring. *)
Theorem flush_overrun L d J blk :
  job_at d blk.1 = Some J -> is_Some (g_hit_buf d) -> g_hit_cap d <> 0 ->
  64 < zlen (merge L (block_threads L J blk)) < 2 ^ 32 ->
  run_block L d blk = None.
Proof.
  destruct blk as [j bx]. intros Hj Hb Hc Hl. unfold run_block. cbn [fst] in Hj. rewrite Hj.
  cbn [mbind option_bind]. change (map _ (seq 0 (bdim L))) with (block_threads L J (j, bx)).
  destruct (foldM record_hit _ _) as [[d1 sh]|] eqn:E; [|done]. cbn [mbind option_bind].
  destruct (record_hits_count _ _ _ _ _ E) as (Ec & El & Eb & Ecap); cbn [s_count s_hits length]; [lia..|].
  cbn [s_count] in Ec. apply Eb in Hb as [buf Hb]. unfold flush. rewrite Hb, Ecap.
  rewrite (proj2 (Z.ltb_lt _ _)) by lia. rewrite (proj2 (Z.eqb_neq _ _) Hc). cbn [andb negb].
  apply (foldM_stuck _ 64%nat); [|apply elem_of_seq; lia].
  intros d2. unfold flush_one. rewrite lookup_ge_None_2 by lia. done.
Qed.

(** ** Flush counters *)

Definition sum_list (l : list Z) : Z := fold_right Z.add 0 l.

Lemma sum_list_app a b : sum_list (a ++ b) = sum_list a + sum_list b.
Proof. induction a as [|x a IH]; cbn; [done|]. fold (sum_list (a ++ b)) (sum_list a). lia. Qed.

Lemma sum_list_nonneg l : Forall (Z.le 0) l -> 0 <= sum_list l.
Proof. induction 1; cbn; [done|]. fold (sum_list l). lia. Qed.

Lemma sum_list_zero l : Forall (eq 0) l -> sum_list l = 0.
Proof. induction 1 as [|x l <- _ IH]; [done|exact IH]. Qed.

Lemma alter_sum l i : (i < length l)%nat -> sum_list (alter (fun c => c + 1) i l) = sum_list l + 1.
Proof.
  revert i. induction l as [|x l IH]; intros i Hi; cbn in Hi; [lia|]. destruct i as [|i]; cbn.
  - fold (sum_list l). lia.
  - fold (sum_list l) (sum_list (alter (fun c => c + 1) i l)). rewrite IH; lia.
Qed.

Lemma sum_lookup l i x : Forall (Z.le 0) l -> l !! i = Some x -> x <= sum_list l.
Proof.
  intros Hl. revert i. induction Hl as [|y l Hy Hl IH]; intros i E; [done|]. cbn. fold (sum_list l).
  pose proof (sum_list_nonneg l Hl). destruct i as [|i]; [injection E as <-; lia|]. specialize (IH _ E). lia.
Qed.

(** Counts that have not wrapped. *)
Lemma sm_flushes smids : forall counts,
  Forall (Z.le 0) counts -> length counts = 128%nat ->
  sum_list counts + zlen smids < 2 ^ 32 ->
  let counts' := fold_left sm_count_flush smids counts in
  Forall (Z.le 0) counts' /\ length counts' = 128%nat /\ sum_list counts' = sum_list counts + zlen smids /\
    forall n, (forall s, s ∈ smids -> Z.to_nat (s mod 128) < n)%nat -> drop n counts' = drop n counts.
Proof.
  induction smids as [|s smids IH]; intros counts Hp Hl Hs counts'; cbn [fold_left length] in *.
  - unfold counts'. rewrite Z.add_0_r. done.
  - assert (Z.to_nat (s mod 128) < 128)%nat as Hi by (pose proof (Z.mod_pos_bound s 128); lia).
    set (i := Z.to_nat (s mod 128)) in *.
    assert (sm_count_flush counts s = alter (fun c => c + 1) i counts) as E.
    { unfold sm_count_flush. fold i. apply list_alter_ext; [|done]. intros x Ex.
      pose proof (sum_lookup _ _ _ Hp Ex). rewrite list.Forall_forall in Hp.
      specialize (Hp x (list_elem_of_lookup_2 _ _ _ Ex)). apply u32_small. unfold in_u. lia. }
    unfold counts'. rewrite E. destruct (IH (alter (fun c => c + 1) i counts)) as (Hp' & Hl' & Hs' & Hd).
    + apply Forall_alter; [done|]. intros x _ Hx. lia.
    + by rewrite length_alter.
    + rewrite alter_sum by lia. lia.
    + split; [done|]. split; [done|]. split; [rewrite Hs', alter_sum by lia; lia|].
      intros n Hn. rewrite Hd by (intros t Ht; apply Hn; by right).
      apply list_eq. intros k. rewrite !lookup_drop, list_lookup_alter_ne; [done|].
      specialize (Hn s ltac:(by left)). fold i in Hn. lia.
Qed.

Lemma flush_gauges_sum smc a m :
  0 <= a -> Forall (Z.le 0) smc -> a + sum_list smc < 2 ^ 64 ->
  (fold_left (fun '(sum, mx) v => (u64 (sum + v), if v >? mx then v else mx)) smc (a, m)).1 = a + sum_list smc.
Proof.
  intros Ha Hp. revert a m Ha. induction Hp as [|v smc Hv Hp IH]; intros a m Ha Hs; cbn in *; [lia|].
  fold (sum_list smc) in *. pose proof (sum_list_nonneg smc Hp).
  rewrite u64_small by (unfold in_u; lia). rewrite IH; lia.
Qed.

(** The gauge summed over the multiprocessors is the number of flushes since the last
    reading, the value of the per-block counter, on a device of at most 128
    multiprocessors. *)
Theorem flush_gauge_counts sm_count smids out :
  0 <= sm_count <= 128 -> length out = Z.to_nat sm_count -> zlen smids < 2 ^ 32 ->
  Forall (fun s => 0 <= s < sm_count) smids ->
  (flush_gauges (readAndResetSmFlushCounts (fold_left sm_count_flush smids (repeat 0 128)) sm_count out).2).1
  = zlen smids.
Proof.
  intros Hn Ho Hl Hs. destruct (sm_flushes smids (repeat 0 128)) as (Hp & Hlen & Hsum & Hd).
  { by repeat constructor. } { done. } { cbn. lia. }
  set (counts := fold_left sm_count_flush smids (repeat 0 128)) in *. clearbody counts.
  unfold readAndResetSmFlushCounts. cbn [snd]. rewrite Z.min_l by lia.
  rewrite (drop_ge out) by lia. rewrite app_nil_r.
  assert (sum_list (take (Z.to_nat sm_count) counts) = zlen smids) as E.
  { rewrite <- (take_drop (Z.to_nat sm_count) counts), sum_list_app, Hd in Hsum.
    - assert (sum_list (drop (Z.to_nat sm_count) (repeat 0 128)) = 0) as Hz.
      { apply sum_list_zero, Forall_drop. by repeat constructor. }
      rewrite Hz in Hsum. cbn in Hsum. lia.
    - intros s Hin. rewrite list.Forall_forall in Hs. specialize (Hs s Hin).
      rewrite Z.mod_small by lia. lia. }
  unfold flush_gauges. rewrite flush_gauges_sum, E; [lia|done|by apply Forall_take|lia].
Qed.

(** ** The demo *)

Lemma write_hits_spec work_ids n base order : forall fresh,
  (forall j, j ∈ order -> j < n)%nat -> length work_ids = n -> length fresh = n ->
  exists out, foldM (kernel_write_hits work_ids (Z.of_nat n) base) fresh order = Some out /\ length out = n /\
    (forall j, j ∈ order -> out !! j = Some (mkHit (rd work_ids j) (u32 (base + Z.of_nat j)))) /\
    (forall j, j ∉ order -> out !! j = fresh !! j).
Proof.
  induction order as [|j order IH]; intros fresh Ho Hw Hf; cbn [foldM].
  - exists fresh. split; [done|]. split; [done|]. split; [by intros j ?%not_elem_of_nil|done].
  - specialize (Ho j) as Hj. specialize (Hj ltac:(by left)).
    destruct (work_ids !! j) as [w|] eqn:Ew; [|apply lookup_ge_None in Ew; lia].
    assert (rd work_ids j = w) as Er by (unfold rd; by rewrite nth_lookup, Ew).
    assert (kernel_write_hits work_ids (Z.of_nat n) base fresh j =
            Some (<[j := mkHit w (u32 (base + Z.of_nat j))]> fresh)) as ->.
    { unfold kernel_write_hits. rewrite (proj2 (Z.leb_gt _ _)), Ew by lia. cbn [mbind option_bind].
      by rewrite (proj2 (Nat.ltb_lt _ _)) by lia. }
    cbn [mbind option_bind].
    edestruct (IH (<[j := mkHit w (u32 (base + Z.of_nat j))]> fresh)) as (out & E & Hl & Hin & Hout).
    { intros k Hk. apply Ho. by right. } { done. } { by rewrite length_insert. }
    exists out. split; [exact E|]. split; [done|]. split.
    + intros k Hk. destruct (decide (k ∈ order)) as [Hk'|Hk']; [by apply Hin|].
      apply elem_of_cons in Hk as [->|]; [|done]. rewrite Hout, list_lookup_insert_eq by (done || lia). by rewrite Er.
    + intros k [Hne Hk]%not_elem_of_cons. rewrite Hout by done. by apply list_lookup_insert_ne.
Qed.

(** Whatever the order of its blocks and the contents of the buffer, the demo of the CUDA
    build returns the hits of the build without CUDA. *)
Theorem write_hits_builds_agree work_ids base fresh order :
  work_ids <> [] -> length fresh = length work_ids -> order ≡ₚ seq 0 (length work_ids) ->
  launchWriteHitsDemo_cuda work_ids (zlen work_ids) base fresh order =
  Some (launchWriteHitsDemo work_ids (length work_ids) base, true).
Proof.
  intros Hne Hf Ho. unfold launchWriteHitsDemo_cuda.
  rewrite (proj2 (Z.eqb_neq _ _)) by (destruct work_ids; [done|cbn; lia]).
  assert (forall j, j ∈ order <-> (j < length work_ids)%nat) as Hin by (intros j; rewrite Ho, elem_of_seq; lia).
  destruct (write_hits_spec work_ids (length work_ids) base order fresh) as (out & -> & Hl & Hout & _);
    [intros j; apply Hin|done..|]. cbn [mbind option_bind]. do 2 f_equal.
  apply list_eq. intros j. unfold launchWriteHitsDemo.
  destruct (decide (j < length work_ids)%nat) as [Hj|Hj].
  - rewrite Hout by (by apply Hin). by rewrite list_lookup_fmap, lookup_seq_lt.
  - rewrite !lookup_ge_None_2; [done|rewrite length_fmap, length_seq; lia|lia].
Qed.

(** ** After the buffer is freed *)

(** The host sees no buffer: it drains nothing and pushes nothing.  The device still sees
    one: a launch that finds a solution writes to the freed memory, until a new buffer is
    made. *)
Theorem freed_buffer_still_used e work_ids base order max_out J :
  live e = true -> is_Some (g_jobs (dev e)) -> g_hit_cap (dev e) <> 0 -> (0 < g_num_jobs (dev e))%nat ->
  job_at (dev e) 0 = Some J -> device_leq J (stub_digest J (u32 base)) = true ->
  let e' := freeDeviceHitBuffer e in
  drain_engine e' max_out = Some (e', [], false) /\ push_engine e' work_ids base order = Some (e', false) /\
  mine_engine e' 1 base [0%nat] = None /\
  forall fresh cap, 0 < cap -> zlen fresh = cap ->
    is_Some (mine_engine (initDeviceHitBuffer_engine e' cap fresh) 1 base [0%nat]).
Proof.
  intros Hl [jobs Hg] Hc Hn HJ Hs e'. unfold e', freeDeviceHitBuffer. rewrite Hl.
  destruct e as [d l]. cbn [dev live] in *.
  assert (forall d', g_jobs d' = g_jobs d -> g_jobs_const d' = g_jobs_const d ->
    g_jobs_const_size d' = g_jobs_const_size d -> job_at d' 0 = Some J) as Hj.
  { intros d' E1 E2 E3. unfold job_at in *. by rewrite E1, E2, E3. }
  assert (forall d' buf, g_jobs d' = g_jobs d -> g_jobs_const d' = g_jobs_const d ->
    g_jobs_const_size d' = g_jobs_const_size d -> g_num_jobs d' = g_num_jobs d -> g_hit_cap d' <> 0 -> g_hit_buf d' = Some buf ->
    launchMineStub d' 1 base [0%nat] = (d2 ← push_hit d' (mkHit (work_id J) (u32 base)); Some (d2, true))) as Hm.
  { intros d' buf E1 E2 E3 E4 E5 E6. unfold launchMineStub. rewrite E4, (proj2 (Nat.eqb_neq _ _)) by lia.
    cbn [orb Nat.eqb]. unfold launch_kernel. cbn [foldM]. change (launchable 1 1 64) with true. cbn iota. unfold mine_stub_job. rewrite E1, Hg, E6, (proj2 (Z.eqb_neq _ _) E5), (Hj d') by done.
    cbn [mbind option_bind]. rewrite Z.add_0_r, Hs. by destruct (push_hit _ _). }
  split; [done|]. split; [done|]. split.
  - unfold mine_engine. cbn [dev]. rewrite (Hm _ []) by done. unfold push_hit. cbn [g_hit_buf mbind option_bind length].
    by rewrite (proj2 (Nat.ltb_ge _ _)) by lia.
  - intros fresh cap Hcap Hfresh. unfold mine_engine. cbn [dev initDeviceHitBuffer_engine].
    unfold initDeviceHitBuffer. rewrite (proj2 (Z.eqb_neq _ _)) by lia.
    rewrite (Hm _ fresh) by (cbn [g_hit_cap]; done || lia). unfold push_hit. cbn [g_hit_buf g_hit_write_idx mbind option_bind].
    unfold ring_slot. cbn [g_hit_cap]. rewrite (proj2 (Z.eqb_neq _ _)) by lia.
    rewrite Z.mod_0_l, (proj2 (Nat.ltb_lt _ _)) by lia. by eexists.
Qed.

Lemma freed_buffer_still_used_witness :
  let e := mkEngine (uploadDeviceJobs easy_device [easy_job]).1 true in
  mine_engine (freeDeviceHitBuffer e) 1 0 [0%nat] = None.
Proof.
  intros e. destruct (freed_buffer_still_used e [] 0 [] 64 easy_job) as (_ & _ & E & _).
  - reflexivity.
  - by eexists.
  - discriminate.
  - cbn. lia.
  - reflexivity.
  - vm_compute. reflexivity.
  - exact E.
Defined.

Lemma write_hits_builds_agree_witness :
  launchWriteHitsDemo_cuda [5; 6] 2 7 (repeat (mkHit 0 0) 2) [1; 0]%nat = Some ([mkHit 5 7; mkHit 6 8], true).
Proof.
  apply (write_hits_builds_agree [5; 6] 7 (repeat (mkHit 0 0) 2) [1; 0]%nat); [discriminate|reflexivity|].
  apply Permutation_swap.
Defined.
