(* ===== verification/Net.v ===== *)
(** * Sockets, the Stratum client and the RPC client ([src/net])

    [ISocket] is the interface the clients are written against (net/socket.h); its
    implementations are system calls.  The Stratum client's line protocol and the
    JSON-RPC-over-HTTP client are proved against the interface's laws. *)

From stdpp Require Import base numbers list option gmap strings pretty.
From S2P Require Import Prelude FileSys Json.

Open Scope Z_scope.

(** ** The socket interface ([socket.h]) *)

(** [sock_recv k cap] returns the code and the bytes stored: positive = bytes read,
    0 = closed, -1 = error, -2 = timeout.  Timeouts are the environment's. *)
Class ISocket (K : Type) := {
  sock_connect : K -> list Z -> Z -> K * bool;
  sock_send : K -> list Z -> K * Z;
  sock_recv : K -> nat -> K * Z * list Z;
  sock_close : K -> K }.

(** What the peer does next; the end of the list is an orderly close. *)
Inductive event := EData (bs : list Z) | ETimeout | EError.

Definition recv_step (es : list event) (cap : nat) : Z * list Z * list event :=
  match es with
  | [] => (0, [], [])
  | ETimeout :: es => (-2, [], es)
  | EError :: es => (-1, [], es)
  | EData bs :: es =>
      (zlen (take cap bs), take cap bs, match drop cap bs with [] => es | bs => EData bs :: es end)
  end.

(** The most bytes one call transfers, as the system documents it. *)
Definition max_rw : Z := 2147479552.

(** What the clients rely on.  A successful connect on a fresh socket leads to what
    some server under the address offers; on a connected socket a send takes a prefix of what it is given and reports its length, or
    fails, and a receive delivers the peer's bytes in order. *)
Class SocketLaws (K : Type) `{ISocket K} := {
  fresh : K -> Prop;
  up : K -> Prop;
  written : K -> list Z;
  stream : K -> list event;
  peer : K -> list Z -> Z -> list event -> Prop;
  connect_law k h p k' :
    fresh k -> sock_connect k h p = (k', true) -> up k' /\ written k' = [] /\ peer k h p (stream k');
  send_law k d k' n :
    up k -> d <> [] -> sock_send k d = (k', n) ->
    up k' /\ stream k' = stream k /\
    ((n <= 0 /\ written k' = written k) \/
     (0 < n <= zlen d /\ written k' = written k ++ take (Z.to_nat n) d));
  recv_law k cap k' r bs :
    up k -> (0 < cap)%nat -> Z.of_nat cap <= max_rw -> sock_recv k cap = (k', r, bs) ->
    up k' /\ written k' = written k /\ recv_step (stream k) cap = (r, bs, stream k') }.

(** The loop [while (remaining > 0) { sent = send(data, remaining); ... }] of both clients.
    Every turn sends a byte at least, so the length is fuel enough; a socket that reports
    more than it was given is undefined ([None]). *)
Fixpoint send_all {K} `{ISocket K} (fuel : nat) (k : K) (data : list Z) : option (K * bool) :=
  match data with
  | [] => Some (k, true)
  | _ =>
      match fuel with
      | O => None
      | S fuel =>
          let '(k, sent) := sock_send k data in
          if sent <=? 0 then Some (k, false)
          else if zlen data <? sent then None
          else send_all fuel k (drop (Z.to_nat sent) data)
      end
  end.

(** ** Stratum client ([stratum_client.cc]) *)

Inductive RecvStatus := kLine | kTimeout | kClosed.

Record StratumClient (K : Type) := mkClient {
  host_ : list Z; port_ : Z; cl_username_ : list Z; cl_password_ : list Z; use_tls_ : bool;
  sock_ : option K }.
Arguments mkClient {K}. Arguments host_ {K}. Arguments port_ {K}. Arguments cl_username_ {K}.
Arguments cl_password_ {K}. Arguments use_tls_ {K}. Arguments sock_ {K}.

Section Stratum.
Context {K J : Type} `{ISocket K, Json J}.
(** The platform's factories; only the TLS one may return null. *)
Context (MakePlainSocket : K) (MakeTlsSocket : option K).

Definition set_sock (c : StratumClient K) (s : option K) : StratumClient K :=
  mkClient (host_ c) (port_ c) (cl_username_ c) (cl_password_ c) (use_tls_ c) s.

Definition connect (c : StratumClient K) : StratumClient K * bool :=
  match (if use_tls_ c then MakeTlsSocket else Some MakePlainSocket) with
  | None => (set_sock c None, false)
  | Some k => let '(k, ok) := sock_connect k (host_ c) (port_ c) in (set_sock c (Some k), ok)
  end.

Definition close (c : StratumClient K) : StratumClient K := set_sock c None.

(** [None] is a socket that breaks its interface. *)
Definition sendJson (c : StratumClient K) (j : J) : option (throws (StratumClient K * bool)) :=
  match sock_ c with
  | None => Some (inr (c, false))
  | Some k =>
      match dump_text j with
      | inl e => Some (inl e)
      | inr text =>
          let line := text ++ [13; 10] in
          '(k, ok) ← send_all (length line) k line;
          Some (inr (set_sock c (Some k), ok))
      end
  end.

Definition request (i : Z) (method : list Z) (params : list J) : J :=
  jobject [("id"%string, jnumber i); ("method"%string, jstring method); ("params"%string, jarray params)].

Definition sendSubscribe (c : StratumClient K) : option (throws (StratumClient K * bool)) :=
  sendJson c (request 1 (str "mining.subscribe") [jstring (str "MyCustomBTCMiner/0.1")]).

Definition sendAuthorize (c : StratumClient K) : option (throws (StratumClient K * bool)) :=
  sendJson c (request 2 (str "mining.authorize") [jstring (cl_username_ c); jstring (cl_password_ c)]).

Definition sendSubmit (c : StratumClient K) (worker_name job_id extranonce2_hex ntime_hex nonce_hex : list Z) :
    option (throws (StratumClient K * bool)) :=
  sendJson c (request 3 (str "mining.submit")
    [jstring worker_name; jstring job_id; jstring extranonce2_hex; jstring ntime_hex; jstring nonce_hex]).

(** One byte per turn; [None] is a loop still running. *)
Fixpoint recv_loop (fuel : nat) (k : K) (line : list Z) : option (K * RecvStatus * list Z) :=
  match fuel with
  | O => None
  | S fuel =>
      let '(k, recvd, bs) := sock_recv k 1 in
      if recvd <=? 0 then
        if recvd =? -2 then Some (k, kTimeout, [])
        else match line with [] => Some (k, kClosed, []) | _ => Some (k, kLine, line) end
      else
        match bs with
        | [] => None
        | ch :: _ => if ch =? 10 then Some (k, kLine, line) else recv_loop fuel k (line ++ [ch])
        end
  end.

Definition recvLine (fuel : nat) (c : StratumClient K) : option (StratumClient K * RecvStatus * list Z) :=
  match sock_ c with
  | None => Some (c, kClosed, [])
  | Some k => '(k, st, line) ← recv_loop fuel k []; Some (set_sock c (Some k), st, line)
  end.

End Stratum.

(** ** Base64 of the credentials ([rpc_client.cc:67-76]) *)

Definition b64 : list Z := str "ABCDEFGHIJKLMNOPQRSTUVWXYZabcdefghijklmnopqrstuvwxyz0123456789+/".
Definition b64_at (x : Z) : Z := rd b64 (Z.to_nat (x .& 63)%cxx).

(** [while (valb >= 0) { push; valb -= 6; }]: valb is at most 7 here, two turns. *)
Fixpoint b64_emit (fuel : nat) (val valb : Z) (enc : list Z) : list Z * Z :=
  match fuel with
  | O => (enc, valb)
  | S fuel =>
      if 0 <=? valb then b64_emit fuel val (valb - 6) (enc ++ [b64_at (val .>> valb)%cxx])
      else (enc, valb)
  end.

Definition b64_step (st : list Z * Z * Z) (c : Z) : list Z * Z * Z :=
  let '(enc, val, valb) := st in
  let val := add32 (shl32 val 8) c in
  let '(enc, valb) := b64_emit 2 val (valb + 8) enc in
  (enc, val, valb).

(** [while (enc.size() % 4) enc.push_back('=')]. *)
Fixpoint b64_pad (fuel : nat) (enc : list Z) : list Z :=
  match fuel with
  | O => enc
  | S fuel => if (length enc mod 4 =? 0)%nat then enc else b64_pad fuel (enc ++ [61])
  end.

Definition b64_encode (up : list Z) : list Z :=
  let '(enc, val, valb) := fold_left b64_step up ([], 0, -6) in
  let enc := if -6 <? valb then enc ++ [b64_at (shl32 val 8 .>> (valb + 8))%cxx] else enc in
  b64_pad 3 enc.

(** ** RPC client ([rpc_client.cc]) *)

Record RpcClient := mkRpc {
  url_ : list Z; username_ : list Z; password_ : list Z; cookie_path_ : string; last_error_ : list Z }.

Definition RpcClient_new (url : list Z) : RpcClient := mkRpc url [] [] "" [].
Definition setBasicAuth (c : RpcClient) (username password : list Z) : RpcClient :=
  mkRpc (url_ c) username password (cookie_path_ c) (last_error_ c).
Definition setCookieAuthFile (c : RpcClient) (path : string) : RpcClient :=
  mkRpc (url_ c) (username_ c) (password_ c) path (last_error_ c).
Definition set_error (c : RpcClient) (e : list Z) : RpcClient :=
  mkRpc (url_ c) (username_ c) (password_ c) (cookie_path_ c) e.

(** The POSIX branch; [home] is the environment variable HOME. *)
Definition detectDefaultCookiePath (home : option string) : string :=
  match home with None => "" | Some h => String.append h "/.bitcoin/.cookie" end.

(** [s.find(pat)], and the text after it. *)
Fixpoint starts (pat s : list Z) : bool :=
  match pat, s with
  | [], _ => true
  | p :: pat, c :: s => (p =? c) && starts pat s
  | _ :: _, [] => false
  end.
Fixpoint find_sub (pat s : list Z) : option nat :=
  if starts pat s then Some 0%nat
  else match s with [] => None | _ :: s => i ← find_sub pat s; Some (S i) end.

Definition ensureCookie (fs : FS) (home : option string) (c : RpcClient) : RpcClient * bool :=
  match username_ c with
  | _ :: _ => (c, true)
  | [] =>
      let path := if String.eqb (cookie_path_ c) "" then detectDefaultCookiePath home else cookie_path_ c in
      match fs !! path with
      | None => (set_error c (str "cookie_not_found"), false)
      | Some bytes =>
          let content := default [] (head (lines bytes)) in
          match find_sub (str ":") content with
          | None => (set_error c (str "invalid_cookie"), false)
          | Some pos => (setBasicAuth c (take pos content) (drop (pos + 1) content), true)
          end
      end
  end.

(** The regular expression of the URL matched against the whole string: http or https,
    "://", a non-empty host without '/' and ':', an optional ':' with digits, and the rest
    as the path.  A dot matches no line terminator.  The greedy match is the only one. *)
Fixpoint span (p : Z -> bool) (s : list Z) : list Z * list Z :=
  match s with
  | [] => ([], [])
  | c :: r => if p c then let '(a, b) := span p r in (c :: a, b) else ([], s)
  end.
Definition is_digit (c : Z) : bool := (48 <=? c) && (c <=? 57).

Definition match_scheme (s : list Z) : option (bool * list Z) :=
  if starts (str "http://") s then Some (false, drop 7 s)
  else if starts (str "https://") s then Some (true, drop 8 s)
  else None.

Definition match_url (s : list Z) : option (bool * list Z * option (list Z) * list Z) :=
  '(https, s) ← match_scheme s;
  let '(host, s) := span (fun c => negb ((c =? 47) || (c =? 58))) s in
  match host with
  | [] => None
  | _ =>
      let '(port, path) :=
        match s with
        | 58 :: r => match span is_digit r with
                     | ([], _) => (None, s)
                     | (ds, r) => (Some ds, r)
                     end
        | _ => (None, s)
        end in
      if forallb (fun c => negb ((c =? 10) || (c =? 13))) path
      then Some (https, host, port, path) else None
  end.

(** [std::stoi] of a string of decimal digits. *)
Definition stoi (ds : list Z) : throws Z :=
  let v := fold_left (fun a d => a * 10 + (d - 48)) ds 0 in
  if v <? 2 ^ 31 then inr v else inl out_of_range.

Definition port_of (https : bool) (port : option (list Z)) : throws Z :=
  match port with
  | Some ds => v ← stoi ds; mret (u16 v)
  | None => mret (if https then 443 else 80)
  end.

Definition crlf : list Z := [13; 10].

Definition auth_header (c : RpcClient) : list Z :=
  match username_ c with
  | [] => []
  | u => str "Authorization: Basic " ++ b64_encode (u ++ str ":" ++ password_ c) ++ crlf
  end.

Definition request_text (c : RpcClient) (host path body : list Z) : list Z :=
  str "POST " ++ path ++ str " HTTP/1.1" ++ crlf ++
  str "Host: " ++ host ++ crlf ++
  str "User-Agent: MyCustomBTCMiner/0.1" ++ crlf ++
  str "Content-Type: application/json" ++ crlf ++
  auth_header c ++
  str "Content-Length: " ++ str (pretty (length body)) ++ crlf ++
  str "Connection: close" ++ crlf ++ crlf ++ body.

Section Rpc.
Context {K J : Type} `{ISocket K, Json J}.
Context (make_socket : bool -> option K).

(** [uint8_t buf[4096]]. *)
Definition buf_size : nat := 4096.

(** The receive loop; a timeout tries again.  The inner [None] is a receive error. *)
Fixpoint recv_all (fuel : nat) (k : K) (resp : list Z) : option (K * option (list Z)) :=
  match fuel with
  | O => None
  | S fuel =>
      let '(k, r, bs) := sock_recv k buf_size in
      if r =? 0 then Some (k, Some resp)
      else if r <? 0 then
        if r =? -2 then recv_all fuel k resp else Some (k, None)
      else recv_all fuel k (resp ++ bs)
  end.

(** The client, the socket at the end of the exchange, and the body.  The outer [None] is
    a response that has not ended within the fuel. *)
Definition httpPostJson (fuel : nat) (c : RpcClient) (body : list Z) :
    option (RpcClient * option K * throws (option (list Z))) :=
  match match_url (url_ c) with
  | None => Some (set_error c (str "bad_url"), None, inr None)
  | Some (https, host, port, path) =>
      match port_of https port with
      | inl e => Some (c, None, inl e)
      | inr port =>
          let path := match path with [] => str "/" | _ => path end in
          match make_socket https with
          | None => Some (set_error c (str "connect_failed"), None, inr None)
          | Some k =>
              let '(k, ok) := sock_connect k host port in
              if negb ok then Some (set_error c (str "connect_failed"), Some k, inr None)
              else
                let req := request_text c host path body in
                '(k, sent) ← send_all (length req) k req;
                if negb sent then Some (set_error c (str "send_failed"), Some k, inr None)
                else
                  '(k, resp) ← recv_all fuel k [];
                  match resp with
                  | None => Some (set_error c (str "recv_failed"), Some k, inr None)
                  | Some resp =>
                      match find_sub (crlf ++ crlf) resp with
                      | None => Some (set_error c (str "bad_http"), Some k, inr None)
                      | Some pos => Some (c, Some k, inr (Some (drop (pos + 4) resp)))
                      end
                  end
          end
      end
  end.

Definition call_json (method : list Z) (params : J) : J :=
  jobject [("id"%string, jnumber 1); ("jsonrpc"%string, jstring (str "1.0"));
                 ("method"%string, jstring method); ("params"%string, params)].

(** The tail of [call]: the result of a response text.  The error that is dumped has been
    parsed. *)
Definition call_result (c : RpcClient) (text : list Z) : RpcClient * throws (option J) :=
  match parse text with
  | None => (set_error c (str "bad_json"), inr None)
  | Some resp =>
      if negb (contains resp "error") then (c, inr None)
      else match idx resp "error" with
           | inl e => (c, inl e)
           | inr err =>
               if negb (is_null err) then (set_error c (dump err), inr None)
               else if negb (contains resp "result") then (set_error c (str "no_result"), inr None)
               else match idx resp "result" with
                    | inl e => (c, inl e)
                    | inr r => (c, inr (Some r))
                    end
           end
  end.

Definition call (fuel : nat) (fs : FS) (home : option string) (c : RpcClient)
    (method : list Z) (params : J) : option (RpcClient * option K * throws (option J)) :=
  let '(c, ok) := ensureCookie fs home c in
  if negb ok && (match username_ c with [] => true | _ => false end) then Some (c, None, inr None)
  else
    match dump_text (call_json method params) with
    | inl e => Some (c, None, inl e)
    | inr body =>
        '(c, k, r) ← httpPostJson fuel c body;
        match r with
        | inl e => Some (c, k, inl e)
        | inr None => Some (c, k, inr None)
        | inr (Some text) => let '(c, r) := call_result c text in Some (c, k, r)
        end
    end.

End Rpc.

(** ** Sending *)

(** The socket takes the whole of [d], piece by piece. *)
Inductive takes_all {K} `{ISocket K} : K -> list Z -> Prop :=
  | takes_nil k : takes_all k []
  | takes_send k d k' n :
      d <> [] -> sock_send k d = (k', n) -> 0 < n -> takes_all k' (drop (Z.to_nat n) d) -> takes_all k d.

Section SendLaws.
Context {K : Type} `{SocketLaws K}.

Lemma send_all_spec fuel k data :
  up k -> (length data <= fuel)%nat ->
  exists k' ok n, send_all fuel k data = Some (k', ok) /\ up k' /\ stream k' = stream k /\
    written k' = written k ++ take n data /\ (ok = true -> n = length data).
Proof.
  revert k data. induction fuel as [|fuel IH]; intros k [|b data] Hu Hl; cbn [length] in Hl;
    try lia; try (exists k, true, 0%nat; by rewrite app_nil_r).
  cbn [send_all]. destruct (sock_send k (b :: data)) as [k1 sent] eqn:E.
  destruct (send_law k (b :: data) k1 sent Hu ltac:(done) E) as (Hu1 & Hs & [[Hn Hw]|[Hn Hw]]).
  { rewrite (proj2 (Z.leb_le _ _) Hn). exists k1, false, 0%nat. by rewrite take_0, app_nil_r. }
  rewrite (proj2 (Z.leb_gt _ _)), (proj2 (Z.ltb_ge _ _)) by lia.
  destruct (IH k1 (drop (Z.to_nat sent) (b :: data)) Hu1) as (k2 & ok & n & -> & Hu2 & Hs2 & Hw2 & Hok).
  { rewrite length_drop. cbn [length] in *. lia. }
  exists k2, ok, (Z.to_nat sent + n)%nat. split; [done|]. split; [done|]. split; [congruence|]. split.
  - rewrite Hw2, Hw, <- app_assoc. f_equal. apply take_take_drop.
  - intros Ho. rewrite Hok, length_drop by done. cbn [length] in *. lia.
Qed.

(** The loop succeeds exactly when the socket takes everything. *)
Lemma send_all_takes fuel k data k' ok :
  up k -> (length data <= fuel)%nat -> send_all fuel k data = Some (k', ok) -> (ok = true <-> takes_all k data).
Proof.
  revert k data. induction fuel as [|fuel IH]; intros k [|b data] Hu Hl; cbn [length] in Hl; try lia;
    try (intros [= _ <-]; by split; [constructor|]).
  cbn [send_all]. destruct (sock_send k (b :: data)) as [k1 sent] eqn:E.
  destruct (send_law k (b :: data) k1 sent Hu ltac:(done) E) as (Hu1 & _ & Hn).
  destruct (Z.leb_spec sent 0) as [Hs|Hs].
  - intros [= _ <-]. split; [done|]. inversion 1 as [|? ? k2 n _ E2 Hpos]; subst. rewrite E in E2. injection E2 as <- <-. lia.
  - destruct (zlen (b :: data) <? sent); [done|]. intros E1.
    apply IH in E1; [|done|rewrite length_drop; cbn [length]; lia]. rewrite E1. split.
    + by apply (takes_send _ _ k1 sent).
    + inversion 1 as [|? ? k2 n _ E2 Hpos Ha]; subst. rewrite E in E2. by injection E2 as <- <-.
Qed.

(** A socket that never refuses takes everything. *)
Lemma takes_all_steady k data :
  (forall k d, up k -> d <> [] -> 0 < (sock_send k d).2) -> up k -> takes_all k data.
Proof.
  intros Hs Hu. destruct (send_all_spec (length data) k data Hu ltac:(done)) as (k' & ok & n & E & _).
  apply (send_all_takes (length data) k data k' ok Hu ltac:(done) E). clear n. revert k data Hu k' ok E.
  assert (forall fuel k data k' ok, up k -> send_all fuel k data = Some (k', ok) -> ok = true) as A; [|by eauto].
  induction fuel as [|fuel IH]; intros k [|b data] k' ok Hu; cbn [send_all]; try by intros [= _ <-].
  pose proof (Hs k (b :: data) Hu ltac:(done)) as Hp. destruct (sock_send k (b :: data)) as [k1 sent] eqn:E. cbn [snd] in Hp.
  destruct (send_law k (b :: data) k1 sent Hu ltac:(done) E) as (Hu1 & _).
  rewrite (proj2 (Z.leb_gt _ _)) by lia. destruct (_ <? _); [done|]. by apply IH.
Qed.

End SendLaws.

(** ** Receiving lines *)

(** The bytes available before the next interruption, and what follows them. *)
Fixpoint avail (es : list event) : list Z * list event :=
  match es with
  | EData bs :: es => let '(a, r) := avail es in (bs ++ a, r)
  | _ => ([], es)
  end.

(** A peer never delivers an empty chunk. *)
Definition live (e : event) : Prop := match e with EData [] => False | _ => True end.

Lemma recv_step_byte es b a rest :
  Forall live es -> avail es = (b :: a, rest) ->
  exists es', recv_step es 1 = (1, [b], es') /\ avail es' = (a, rest) /\ Forall live es'.
Proof.
  intros Hl E. destruct es as [|[[|x bs]| |] es]; try done; inversion_clear Hl as [|? ? Hx Hr]; [done|].
  cbn [avail] in E. destruct (avail es) as [a' r'] eqn:Ea. injection E as -> <- <-.
  cbn [recv_step take drop]. destruct bs as [|y bs].
  - exists es. by rewrite Ea.
  - exists (EData (y :: bs) :: es). cbn [avail]. rewrite Ea. split; [done|]. split; [done|]. by constructor.
Qed.

Lemma avail_none es rest :
  Forall live es -> avail es = ([], rest) -> es = rest /\ ~ (exists bs r, rest = EData bs :: r).
Proof.
  intros Hl E. destruct es as [|[[|x bs]| |] es]; try inversion_clear Hl as [|? ? Hx Hr]; try done.
  - cbn in E. injection E as <-. split; [done|]. by intros (? & ? & ?).
  - cbn in E. by destruct (avail es).
  - cbn in E. injection E as <-. split; [done|]. by intros (? & ? & ?).
  - cbn in E. injection E as <-. split; [done|]. by intros (? & ? & ?).
Qed.

(** The status and line of a stream that is interrupted before a newline. *)
Definition cut_short (line : list Z) (rest : list event) : RecvStatus * list Z :=
  match rest with
  | ETimeout :: _ => (kTimeout, [])
  | _ => match line with [] => (kClosed, []) | _ => (kLine, line) end
  end.

Section RecvLaws.
Context {K : Type} `{SocketLaws K}.

Lemma recv_loop_byte fuel k acc b a rest :
  up k -> Forall live (stream k) -> avail (stream k) = (b :: a, rest) ->
  exists k', recv_loop (S fuel) k acc =
      (if b =? 10 then Some (k', kLine, acc) else recv_loop fuel k' (acc ++ [b])) /\
    up k' /\ Forall live (stream k') /\ avail (stream k') = (a, rest) /\ written k' = written k.
Proof.
  intros Hu Hl Ha. destruct (recv_step_byte _ _ _ _ Hl Ha) as (es & Es & Ha' & Hl').
  cbn [recv_loop]. destruct (sock_recv k 1) as [[k1 r] bs] eqn:E.
  destruct (recv_law k 1 k1 r bs Hu ltac:(lia) ltac:(done) E) as (Hu1 & Hw & Hr). rewrite Es in Hr.
  injection Hr as <- <- ->. exists k1. by split_and!.
Qed.

Lemma recv_loop_line fuel k acc line tl rest :
  up k -> Forall live (stream k) -> avail (stream k) = (line ++ 10 :: tl, rest) -> 10 ∉ line ->
  (length line < fuel)%nat ->
  exists k', recv_loop fuel k acc = Some (k', kLine, acc ++ line) /\
    up k' /\ Forall live (stream k') /\ avail (stream k') = (tl, rest) /\ written k' = written k.
Proof.
  revert k acc fuel. induction line as [|b line IH]; intros k acc fuel Hu Hl Ha Hn Hf;
    (destruct fuel as [|fuel]; [cbn in Hf; lia|]); cbn [app] in Ha;
    destruct (recv_loop_byte fuel k acc _ _ _ Hu Hl Ha) as (k1 & -> & Hu1 & Hl1 & Ha1 & Hw1).
  - exists k1. by rewrite app_nil_r.
  - apply not_elem_of_cons in Hn as [Hb Hn]. rewrite (proj2 (Z.eqb_neq b 10)) by done.
    destruct (IH k1 (acc ++ [b]) fuel Hu1 Hl1 Ha1 Hn) as (k' & -> & Hu' & Hl' & Ha' & Hw'); [cbn in Hf; lia|].
    exists k'. rewrite <- app_assoc, Hw', Hw1. done.
Qed.

Lemma recv_loop_cut fuel k acc bs rest :
  up k -> Forall live (stream k) -> avail (stream k) = (bs, rest) -> 10 ∉ bs ->
  (length bs < fuel)%nat ->
  exists k', recv_loop fuel k acc = Some (k', (cut_short (acc ++ bs) rest).1, (cut_short (acc ++ bs) rest).2) /\
    up k' /\ stream k' = tail rest /\ written k' = written k.
Proof.
  revert k acc fuel. induction bs as [|b bs IH]; intros k acc fuel Hu Hl Ha Hn Hf;
    (destruct fuel as [|fuel]; [cbn in Hf; lia|]).
  - apply avail_none in Ha as [<- Hd]; [|done]. rewrite app_nil_r.
    cbn [recv_loop]. destruct (sock_recv k 1) as [[k1 r] bs] eqn:E.
    destruct (recv_law k 1 k1 r bs Hu ltac:(lia) ltac:(done) E) as (Hu1 & Hw & Hr). exists k1.
    destruct (stream k) as [|[d| |] es]; cbn [recv_step] in Hr; [|destruct Hd; eauto| |];
      injection Hr as <- <- Hst; cbn; by destruct acc.
  - destruct (recv_loop_byte fuel k acc _ _ _ Hu Hl Ha) as (k1 & -> & Hu1 & Hl1 & Ha1 & Hw1).
    apply not_elem_of_cons in Hn as [Hb Hn]. rewrite (proj2 (Z.eqb_neq b 10)) by done.
    destruct (IH k1 (acc ++ [b]) fuel Hu1 Hl1 Ha1 Hn) as (k' & -> & Hu' & Hs' & Hw'); [cbn in Hf; lia|].
    exists k'. rewrite <- app_assoc, Hw', Hw1. done.
Qed.

End RecvLaws.

(** ** The line protocol *)

Section Lines.
Context {K J : Type} `{SocketLaws K, Json J}.

(** SendJson on a connected client always returns or throws.  It throws exactly when the
    document has a string that is not UTF-8; otherwise it writes the document's text and
    the line ending, all of it exactly when it reports success, and otherwise a prefix. *)
Theorem sendJson_delivers (c : StratumClient K) k (j : J) :
  sock_ c = Some k -> up k ->
  if encodable j then
    exists k' ok, sendJson c j = Some (inr (set_sock c (Some k'), ok)) /\ stream k' = stream k /\
      exists n, written k' = written k ++ take n (dump j ++ [13; 10]) /\
        (ok = true -> written k' = written k ++ dump j ++ [13; 10])
  else sendJson c j = Some (inl type_error).
Proof.
  intros Hk Hu. unfold sendJson, dump_text. rewrite Hk. destruct (encodable j); [|done].
  destruct (send_all_spec (length (dump j ++ [13; 10])) k (dump j ++ [13; 10]) Hu ltac:(lia))
    as (k' & ok & n & -> & _ & Hs & Hw & Hok).
  exists k', ok. split; [done|]. split; [done|]. exists n. split; [done|].
  intros Ho. rewrite Hw, (Hok Ho). by rewrite firstn_all.
Qed.

(** C29: recvLine returns the text before the next newline, without it, and leaves what
    follows for the next call.  When the peer stops before a newline, a close or an error
    gives the partial line as a line, and a timeout discards it: the bytes are consumed
    and the next call starts in the middle of the line. *)
Theorem recvLine_spec fuel (c : StratumClient K) k bs rest :
  sock_ c = Some k -> up k -> Forall live (stream k) -> avail (stream k) = (bs, rest) ->
  (length bs < fuel)%nat ->
  (forall line tl, bs = line ++ 10 :: tl -> 10 ∉ line ->
     exists k', recvLine fuel c = Some (set_sock c (Some k'), kLine, line) /\
       up k' /\ Forall live (stream k') /\ avail (stream k') = (tl, rest)) /\
  (10 ∉ bs ->
     exists k', recvLine fuel c = Some (set_sock c (Some k'), (cut_short bs rest).1, (cut_short bs rest).2) /\
       up k' /\ stream k' = tail rest).
Proof.
  intros Hk Hu Hl Ha Hf. unfold recvLine. rewrite Hk. split.
  - intros line tl -> Hn. rewrite length_app in Hf.
    destruct (recv_loop_line fuel k [] line tl rest Hu Hl Ha Hn ltac:(lia)) as (k' & -> & ? & ? & ? & _).
    by exists k'.
  - intros Hn. destruct (recv_loop_cut fuel k [] bs rest Hu Hl Ha Hn Hf) as (k' & -> & ? & ? & _).
    by exists k'.
Qed.

End Lines.

(** *** A scripted socket

    It sends at most [sc_chunk + 1] bytes at a time and plays a list of events. *)

Record Script := mkScript { sc_out : list Z; sc_in : list event; sc_chunk : nat }.

#[export] Instance script_socket : ISocket Script := {
  sock_connect k _ _ := (mkScript [] (sc_in k) (sc_chunk k), true);
  sock_send k d :=
    let n := Nat.min (S (sc_chunk k)) (length d) in
    (mkScript (sc_out k ++ take n d) (sc_in k) (sc_chunk k), Z.of_nat n);
  sock_recv k cap :=
    let '(r, bs, es) := recv_step (sc_in k) cap in
    (mkScript (sc_out k) es (sc_chunk k), r, bs);
  sock_close k := k }.

#[export] Instance script_laws : SocketLaws Script.
Proof.
  refine {| fresh := fun _ => True; up := fun _ => True; written := sc_out; stream := sc_in; peer := fun k _ _ es => es = sc_in k |}.
  - intros k h p k' _ E. by injection E as <-.
  - intros k d k' n _ Hd E. cbn in E. injection E as <- <-. split; [done|]. split; [done|]. right.
    cbn [sc_out]. destruct d as [|b d]; [done|]. cbn [length]. rewrite Nat2Z.id. split; [lia|done].
  - intros k cap k' r bs _ Hc _ E. cbn in E. destruct (recv_step (sc_in k) cap) as [[r' bs'] es].
    by injection E as <- <- <-.
Defined.

Lemma script_takes_all (k : Script) data : takes_all k data.
Proof.
  apply takes_all_steady; [|exact I]. intros k' d _ Hd. cbn [sock_send script_socket snd]. destruct d; [done|]. cbn [length]. lia.
Qed.

Import Concrete.

Definition pool_client (k : Script) : StratumClient Script :=
  mkClient (str "pool") 3333 (str "u") (str "x") false (Some k).

Lemma sendJson_delivers_witness :
  exists k' ok, sendJson (pool_client (mkScript [] [] 3)) (JBool true) = Some (inr (pool_client k', ok)) /\
    exists n, written k' = [] ++ take n (dump (JBool true) ++ [13; 10]).
Proof.
  destruct (sendJson_delivers (pool_client (mkScript [] [] 3)) (mkScript [] [] 3) (JBool true) eq_refl ltac:(exact I))
    as (k' & ok & E & _ & n & Hn & _).
  exists k', ok. split; [exact E|]. exists n. exact Hn.
Defined.

Lemma recvLine_spec_witness :
  let k := mkScript [] [EData (str "ab"); ETimeout; EData (str "c" ++ [10])] 3 in
  exists k', recvLine 9 (pool_client k) = Some (pool_client k', kTimeout, []) /\
    sc_in k' = [EData (str "c" ++ [10])].
Proof.
  intros k.
  destruct (recvLine_spec 9 (pool_client k) k (str "ab") [ETimeout; EData (str "c" ++ [10])]) as [_ H].
  - reflexivity.
  - exact I.
  - repeat constructor.
  - reflexivity.
  - cbn. lia.
  - destruct H as (k' & E & _ & Hs); [change (str "ab") with [97; 98]; rewrite !elem_of_cons, elem_of_nil; lia|].
    exists k'. split; [exact E|exact Hs].
Defined.

(** ** Base64 *)

Definition b64_char (x : Z) : Z := rd b64 (Z.to_nat x).

(** RFC 4648: three bytes are four characters; the last group is padded with '='. *)
Fixpoint base64 (l : list Z) : list Z :=
  match l with
  | a :: b :: c :: l =>
      b64_char (a / 4) :: b64_char (a mod 4 * 16 + b / 16) ::
      b64_char (b mod 16 * 4 + c / 64) :: b64_char (c mod 64) :: base64 l
  | [a; b] => [b64_char (a / 4); b64_char (a mod 4 * 16 + b / 16); b64_char (b mod 16 * 4); 61]
  | [a] => [b64_char (a / 4); b64_char (a mod 4 * 16); 61; 61]
  | [] => []
  end.

Lemma b64_at_val x s : 0 <= x -> 0 <= s -> b64_at (x .>> s)%cxx = b64_char (x / 2 ^ s mod 64).
Proof.
  intros Hx Hs. unfold b64_at, b64_char. do 2 f_equal.
  change 63 with (2 ^ 6 - 1). rewrite land_ones_mod, Z.shiftr_div_pow2 by lia. done.
Qed.

(** The accumulator after a byte, up to the 16 bits that are read. *)
Lemma b64_acc val c :
  is_u8 c -> 0 <= add32 (shl32 val 8) c /\
  add32 (shl32 val 8) c mod 2 ^ 16 = val mod 2 ^ 8 * 2 ^ 8 + c.
Proof.
  intros Hc. unfold add32. rewrite shl32_mul by lia. unfold u32, in_u in *.
  Z.to_euclidean_division_equations. lia.
Qed.

Lemma b64_read v w s :
  0 <= s <= 10 -> v mod 2 ^ 16 = w -> v / 2 ^ s mod 64 = w / 2 ^ s mod 64.
Proof.
  intros Hs <-. assert (s = 0 \/ s = 1 \/ s = 2 \/ s = 3 \/ s = 4 \/ s = 5 \/ s = 6 \/ s = 7 \/ s = 8 \/ s = 9 \/ s = 10) as H by lia.
  repeat destruct H as [->|H]; try subst s; Z.to_euclidean_division_equations; lia.
Qed.

(** One byte in each of the three positions of a group. *)
Lemma b64_first enc v a :
  is_u8 a -> exists v', b64_step (enc, v, -6) a = (enc ++ [b64_char (a / 4)], v', -4) /\
    0 <= v' /\ v' mod 2 ^ 8 = a.
Proof.
  intros Ha. destruct (b64_acc v a Ha) as [Hp Hm]. eexists. split.
  - change (b64_step (enc, v, -6) a) with
      (enc ++ [b64_at (add32 (shl32 v 8) a .>> 2)%cxx], add32 (shl32 v 8) a, -4).
    rewrite b64_at_val, (b64_read _ _ 2 ltac:(lia) Hm) by lia. do 5 f_equal.
    unfold in_u in Ha. Z.to_euclidean_division_equations. lia.
  - split; [done|]. unfold in_u in Ha. Z.to_euclidean_division_equations. lia.
Qed.

Lemma b64_second enc v a b :
  is_u8 a -> is_u8 b -> v mod 2 ^ 8 = a ->
  exists v', b64_step (enc, v, -4) b = (enc ++ [b64_char (a mod 4 * 16 + b / 16)], v', -2) /\
    0 <= v' /\ v' mod 2 ^ 8 = b.
Proof.
  intros Ha Hb Hv. destruct (b64_acc v b Hb) as [Hp Hm]. eexists. split.
  - change (b64_step (enc, v, -4) b) with
      (enc ++ [b64_at (add32 (shl32 v 8) b .>> 4)%cxx], add32 (shl32 v 8) b, -2).
    rewrite b64_at_val, (b64_read _ _ 4 ltac:(lia) Hm), Hv by lia. do 5 f_equal.
    unfold in_u in *. clear - Ha Hb. Z.to_euclidean_division_equations. lia.
  - split; [done|]. unfold in_u in Hb. Z.to_euclidean_division_equations. lia.
Qed.

Lemma b64_third enc v b c :
  is_u8 b -> is_u8 c -> v mod 2 ^ 8 = b ->
  exists v', b64_step (enc, v, -2) c =
    (enc ++ [b64_char (b mod 16 * 4 + c / 64); b64_char (c mod 64)], v', -6).
Proof.
  intros Hb Hc Hv. destruct (b64_acc v c Hc) as [Hp Hm]. eexists.
  change (b64_step (enc, v, -2) c) with
    ((enc ++ [b64_at (add32 (shl32 v 8) c .>> 6)%cxx]) ++ [b64_at (add32 (shl32 v 8) c .>> 0)%cxx],
     add32 (shl32 v 8) c, -6).
  rewrite !b64_at_val, (b64_read _ _ 6 ltac:(lia) Hm), (b64_read _ _ 0 ltac:(lia) Hm), Hv, <- app_assoc by lia.
  assert ((b * 2 ^ 8 + c) / 2 ^ 6 mod 64 = b mod 16 * 4 + c / 64) as ->.
  { unfold in_u in *. clear - Hb Hc. Z.to_euclidean_division_equations. lia. }
  assert ((b * 2 ^ 8 + c) / 2 ^ 0 mod 64 = c mod 64) as ->; [|done].
  unfold in_u in *. clear - Hb Hc. Z.to_euclidean_division_equations. lia.
Qed.

(** The bits left over after the loop. *)
Lemma b64_rest v x s :
  is_u8 x -> v mod 2 ^ 8 = x -> s = 2 \/ s = 4 ->
  b64_at (shl32 v 8 .>> (8 - s))%cxx = b64_char (x mod 2 ^ (6 - s) * 2 ^ s).
Proof.
  intros Hx Hv Hs. rewrite b64_at_val; [|apply u32_range|lia]. f_equal.
  rewrite shl32_mul by lia. unfold u32, in_u in *.
  destruct Hs as [-> | ->];
    [change (8 - 2) with 6; change (6 - 2) with 4|change (8 - 4) with 4; change (6 - 4) with 2];
    clear - Hx Hv; Z.to_euclidean_division_equations; lia.
Qed.

Lemma b64_pad_stop n enc : (length enc mod 4 = 0)%nat -> b64_pad n enc = enc.
Proof. intros H. destruct n; cbn [b64_pad]; [done|]. by rewrite H. Qed.

Lemma b64_pad_more n enc :
  (length enc mod 4 <> 0)%nat -> b64_pad (S n) enc = b64_pad n (enc ++ [61]).
Proof. intros H. cbn [b64_pad]. by rewrite (proj2 (Nat.eqb_neq _ 0) H). Qed.

Definition b64_finish (st : list Z * Z * Z) : list Z :=
  let '(enc, val, valb) := st in
  b64_pad 3 (if -6 <? valb then enc ++ [b64_at (shl32 val 8 .>> (valb + 8))%cxx] else enc).

(** Lengths modulo 4. *)
Ltac len_mod :=
  rewrite ?length_app; cbn [length];
  match goal with
  | _ : (?n mod 4 = 0)%nat |- context [(?m mod 4)%nat] =>
      pose proof (Nat.div_mod_eq n 4); pose proof (Nat.div_mod_eq m 4);
      pose proof (Nat.mod_upper_bound m 4 ltac:(lia)); lia
  end.

Lemma b64_fold l : is_bytes l -> forall enc v,
  (length enc mod 4 = 0)%nat -> b64_finish (fold_left b64_step l (enc, v, -6)) = enc ++ base64 l.
Proof.
  induction l as [l IH] using (induction_ltof1 _ (@length Z)). unfold ltof in IH.
  intros Hl enc v He.
  destruct l as [|a [|b [|c l]]]; cbn [fold_left base64].
  - rewrite app_nil_r. cbn [b64_finish Z.ltb Z.compare]. by apply b64_pad_stop.
  - inversion_clear Hl as [|? ? Ha _]. destruct (b64_first enc v a Ha) as (v1 & -> & Hp & Hv).
    unfold b64_finish. change (-6 <? -4) with true. cbn match.
    change (-4 + 8) with (8 - 4). rewrite (b64_rest v1 a 4 Ha Hv) by lia.
    rewrite 2!b64_pad_more, b64_pad_stop, <- !app_assoc by
      len_mod. done.
  - inversion_clear Hl as [|? ? Ha Hl']. inversion_clear Hl' as [|? ? Hb _].
    destruct (b64_first enc v a Ha) as (v1 & -> & Hp & Hv).
    destruct (b64_second (enc ++ [b64_char (a / 4)]) v1 a b Ha Hb Hv) as (v2 & -> & Hp2 & Hv2).
    unfold b64_finish. change (-6 <? -2) with true. cbn match.
    change (-2 + 8) with (8 - 2). rewrite (b64_rest v2 b 2 Hb Hv2) by lia.
    rewrite b64_pad_more, b64_pad_stop, <- !app_assoc by
      len_mod. done.
  - inversion_clear Hl as [|? ? Ha Hl']. inversion_clear Hl' as [|? ? Hb Hl2].
    inversion_clear Hl2 as [|? ? Hc Hl3].
    destruct (b64_first enc v a Ha) as (v1 & -> & Hp & Hv).
    destruct (b64_second (enc ++ [b64_char (a / 4)]) v1 a b Ha Hb Hv) as (v2 & -> & Hp2 & Hv2).
    destruct (b64_third ((enc ++ [b64_char (a / 4)]) ++ [b64_char (a mod 4 * 16 + b / 16)]) v2 b c Hb Hc Hv2)
      as (v3 & ->).
    rewrite IH; [|cbn; lia|done|].
    + by rewrite <- !app_assoc.
    + len_mod.
Qed.

Lemma b64_encode_base64 l : is_bytes l -> b64_encode l = base64 l.
Proof.
  intros H. pose proof (b64_fold l H [] 0 eq_refl) as E. cbn [app] in E. rewrite <- E.
  unfold b64_encode, b64_finish. by destruct (fold_left b64_step l ([], 0, -6)) as [[? ?] ?].
Qed.

(** The inverse, for the theorem. *)
Fixpoint index_of (x : Z) (l : list Z) : option Z :=
  match l with [] => None | y :: l => if x =? y then Some 0 else i ← index_of x l; Some (i + 1) end.
Definition b64_digit (x : Z) : option Z := index_of x b64.

Fixpoint base64_decode (s : list Z) : option (list Z) :=
  match s with
  | [] => Some []
  | w :: x :: y :: z :: s =>
      w ← b64_digit w; x ← b64_digit x;
      if (y =? 61) && (z =? 61) && (match s with [] => true | _ => false end) then Some [w * 4 + x / 16]
      else
        y ← b64_digit y;
        if (z =? 61) && (match s with [] => true | _ => false end)
        then Some [w * 4 + x / 16; x mod 16 * 16 + y / 4]
        else
          z ← b64_digit z; l ← base64_decode s;
          Some (w * 4 + x / 16 :: x mod 16 * 16 + y / 4 :: y mod 4 * 64 + z :: l)
  | _ => None
  end.

Lemma b64_digit_char x : 0 <= x < 64 -> b64_digit (b64_char x) = Some x /\ b64_char x <> 61.
Proof.
  intros H.
  assert (forallb (fun i => bool_decide (b64_digit (b64_char (Z.of_nat i)) = Some (Z.of_nat i)) &&
                     negb (b64_char (Z.of_nat i) =? 61)) (seq 0 64) = true) as A by (vm_compute; reflexivity).
  rewrite forallb_forall in A. specialize (A (Z.to_nat x)).
  rewrite Z2Nat.id, andb_true_iff, bool_decide_eq_true, negb_true_iff, Z.eqb_neq in A by lia.
  apply A. apply in_seq. lia.
Qed.

Lemma base64_decode_encode l : is_bytes l -> base64_decode (base64 l) = Some l.
Proof.
  induction l as [l IH] using (induction_ltof1 _ (@length Z)). unfold ltof in IH. intros Hl.
  destruct l as [|a [|b [|c l]]]; cbn [base64]; [done|..];
    inversion_clear Hl as [|? ? Ha Hl1]; try (inversion_clear Hl1 as [|? ? Hb Hl2]);
    try (inversion_clear Hl2 as [|? ? Hc Hl3]); unfold in_u in *; cbn [base64_decode].
  - rewrite (proj1 (b64_digit_char (a / 4) ltac:(Z.to_euclidean_division_equations; lia))).
    rewrite (proj1 (b64_digit_char (a mod 4 * 16) ltac:(Z.to_euclidean_division_equations; lia))).
    cbn. do 2 f_equal. Z.to_euclidean_division_equations; lia.
  - rewrite (proj1 (b64_digit_char (a / 4) ltac:(Z.to_euclidean_division_equations; lia))).
    rewrite (proj1 (b64_digit_char (a mod 4 * 16 + b / 16) ltac:(Z.to_euclidean_division_equations; lia))).
    destruct (b64_digit_char (b mod 16 * 4) ltac:(Z.to_euclidean_division_equations; lia)) as [-> Hne].
    rewrite (proj2 (Z.eqb_neq _ _) Hne). cbn.
    do 2 f_equal; [|f_equal]; Z.to_euclidean_division_equations; lia.
  - rewrite (proj1 (b64_digit_char (a / 4) ltac:(Z.to_euclidean_division_equations; lia))).
    rewrite (proj1 (b64_digit_char (a mod 4 * 16 + b / 16) ltac:(Z.to_euclidean_division_equations; lia))).
    destruct (b64_digit_char (b mod 16 * 4 + c / 64) ltac:(Z.to_euclidean_division_equations; lia)) as [-> Hne].
    destruct (b64_digit_char (c mod 64) ltac:(Z.to_euclidean_division_equations; lia)) as [-> Hne2].
    rewrite (proj2 (Z.eqb_neq _ _) Hne), (proj2 (Z.eqb_neq _ _) Hne2). cbn [andb mbind option_bind].
    rewrite IH by (cbn; lia || done). cbn.
    do 2 f_equal; [|f_equal; [|f_equal]]; Z.to_euclidean_division_equations; lia.
Qed.

(** The credentials of the Authorization header are base64 as RFC 4648 defines it, for
    every byte string: four characters for three bytes, padded, and decoding gives the
    bytes back.  The unsigned accumulator wraps without losing a bit that is used. *)
Theorem base64_correct l :
  is_bytes l -> b64_encode l = base64 l /\ base64_decode (b64_encode l) = Some l.
Proof. intros H. rewrite b64_encode_base64 by done. split; [done|]. by apply base64_decode_encode. Qed.

Lemma base64_correct_witness :
  b64_encode (str "user:pw") = str "dXNlcjpwdw==" /\
  base64_decode (b64_encode (str "user:pw")) = Some (str "user:pw").
Proof.
  split; [reflexivity|]. apply (base64_correct (str "user:pw")). in_range.
Defined.

(** ** The RPC exchange *)

Fixpoint all_data (es : list event) : list Z :=
  match es with
  | [] => []
  | EData bs :: es => bs ++ all_data es
  | _ :: es => all_data es
  end.

Fixpoint weight (es : list event) : nat :=
  match es with
  | [] => 0
  | EData bs :: es => S (length bs) + weight es
  | _ :: es => S (weight es)
  end.

Lemma buf_pos : (0 < buf_size)%nat.
Proof. apply Nat.lt_0_succ. Qed.

Lemma buf_small : Z.of_nat buf_size <= max_rw.
Proof. vm_compute. discriminate. Qed.

Definition clean (e : event) : Prop := live e /\ e <> EError.

Lemma recv_step_chunk es cap r bs es' :
  (0 < cap)%nat -> Forall clean es -> recv_step es cap = (r, bs, es') ->
  (es = [] /\ r = 0) \/
  (Forall clean es' /\ (weight es' < weight es)%nat /\ all_data es = bs ++ all_data es' /\
   (0 < r \/ (r = -2 /\ bs = []))).
Proof.
  intros Hc Hl E. destruct es as [|[d| |] es]; cbn [recv_step] in E; [by left; injection E| | |];
    right; inversion_clear Hl as [|? ? [Hx Hx'] Hr]; [| |done].
  - injection E as <- <- <-. destruct d as [|b d]; [done|].
    assert (0 < zlen (take cap (b :: d))) by (rewrite length_take; cbn [length]; lia).
    pose proof (take_drop cap (b :: d)) as Et. pose proof (length_drop (b :: d) cap) as El.
    cbn [all_data weight]. destruct (drop cap (b :: d)) as [|y d'].
    + rewrite app_nil_r in Et. rewrite Et. split; [done|]. split; [lia|]. split; [done|left; cbn [length]; lia].
    + split; [by constructor|]. cbn [weight all_data length] in *. split; [lia|].
      split; [by rewrite app_assoc, Et|lia].
  - injection E as <- <- <-. split; [done|]. cbn [weight all_data]. split; [lia|]. by auto.
Qed.

Lemma find_sub_first pat a b :
  pat <> [] -> (forall i, (i < length a)%nat -> starts pat (drop i (a ++ pat ++ b)) = false) ->
  find_sub pat (a ++ pat ++ b) = Some (length a).
Proof.
  intros Hp. induction a as [|x a IH]; intros H.
  - cbn [app length]. assert (starts pat (pat ++ b) = true) as E.
    { clear. induction pat as [|p pat IH]; [done|]. cbn. by rewrite Z.eqb_refl. }
    unfold find_sub. destruct (pat ++ b); by rewrite E.
  - pose proof (H 0%nat ltac:(cbn; lia)) as H0. rewrite drop_0 in H0. cbn [app find_sub] in *.
    rewrite H0, IH; [done|]. intros i Hi. apply (H (S i)). cbn. lia.
Qed.

Section Exchange.
Context {K J : Type} `{SocketLaws K, JsonLaws J}.

Lemma takes_all_dec (k : K) d : up k -> takes_all k d \/ ~ takes_all k d.
Proof.
  intros Hu. destruct (send_all_spec (length d) k d Hu ltac:(done)) as (k' & ok & n & E & _).
  pose proof (send_all_takes (length d) k d k' ok Hu ltac:(done) E) as Ha.
  destruct ok; [left; by apply Ha|right; by intros ?%Ha].
Qed.

Lemma connect_up k host p : fresh k -> (sock_connect k host p).2 = true -> up (sock_connect k host p).1.
Proof.
  intros Hf Hc. destruct (sock_connect k host p) as [k1 ok] eqn:E. cbn in Hc. subst ok.
  by apply (connect_law k host p k1 Hf E).
Qed.

Lemma recv_all_spec fuel k resp :
  up k -> Forall clean (stream k) -> (weight (stream k) < fuel)%nat ->
  exists k', recv_all fuel k resp = Some (k', Some (resp ++ all_data (stream k))) /\
    written k' = written k.
Proof.
  revert k resp. induction fuel as [|fuel IH]; intros k resp Hu Hl Hf; [lia|]. cbn [recv_all].
  destruct (sock_recv k buf_size) as [[k1 r] bs] eqn:E.
  destruct (recv_law k buf_size k1 r bs Hu buf_pos buf_small E) as (Hu1 & Hw & Hr).
  destruct (recv_step_chunk _ _ _ _ _ buf_pos Hl Hr) as [[He ->]|(Hl' & Hw' & Ha & Hb)].
  { exists k1. by rewrite He, app_nil_r. }
  rewrite Ha. destruct Hb as [Hb|[-> ->]].
  - rewrite (proj2 (Z.eqb_neq r 0)), (proj2 (Z.ltb_ge r 0)) by lia.
    destruct (IH k1 (resp ++ bs) Hu1 Hl' ltac:(lia)) as (k' & -> & Hk). exists k'.
    rewrite <- app_assoc, Hk, Hw. done.
  - destruct (IH k1 resp Hu1 Hl' ltac:(lia)) as (k' & Ek & Hk). exists k'.
    cbn [Z.eqb Z.ltb Z.compare Pos.eqb]. rewrite Ek, Hk, Hw. done.
Qed.

(** A response text: some head without an empty line, the empty line, and the body. *)
Definition http_response (head body text : list Z) : Prop :=
  text = head ++ (crlf ++ crlf) ++ body /\
  forall i, (i < length head)%nat -> starts (crlf ++ crlf) (drop i text) = false.

Definition the_path (path : list Z) : list Z := match path with [] => str "/" | _ => path end.

Lemma httpPostJson_spec (mk : bool -> option K) fuel c body https host port path p k head text out :
  match_url (url_ c) = Some (https, host, port, path) -> port_of https port = inr p ->
  mk https = Some k -> fresh k -> (sock_connect k host p).2 = true ->
  (forall es, peer k host p es -> Forall clean es /\ (weight es < fuel)%nat /\ all_data es = text) ->
  http_response head out text ->
  let req := request_text c host (the_path path) body in
  let k1 := (sock_connect k host p).1 in
  exists c' k' r, httpPostJson mk fuel c body = Some (c', Some k', inr r) /\
    (takes_all k1 req -> r = Some out /\ c' = c /\ written k' = req) /\
    (~ takes_all k1 req -> r = None /\ last_error_ c' = str "send_failed").
Proof.
  intros Hu Hp Hm Hfr Hc Hpe [Htext Hh] req k1. unfold httpPostJson. rewrite Hu, Hp, Hm.
  unfold k1. clear k1. destruct (sock_connect k host p) as [k1 ok] eqn:E. cbn in Hc. subst ok. cbn [negb fst].
  destruct (connect_law k host p k1 Hfr E) as (Hu1 & Hw1 & Hs1).
  destruct (Hpe _ Hs1) as (Hl & Hf & Ht). subst text.
  change (match path with [] => _ | _ => _ end) with (the_path path).
  fold req.
  destruct (send_all_spec (length req) k1 req Hu1 ltac:(lia)) as (k2 & sent & n & Es & Hu2 & Hs2 & Hw2 & Hok).
  pose proof (send_all_takes (length req) k1 req k2 sent Hu1 ltac:(lia) Es) as Ha. rewrite Es.
  cbn [mbind option_bind]. destruct sent; cbn [negb].
  2: { eexists _, k2, _. split; [done|]. split; [|done]. by intros Hacc%Ha. }
  destruct (recv_all_spec fuel k2 [] Hu2) as (k3 & -> & Hw3); [by rewrite Hs2..|].
  cbn [mbind option_bind app]. rewrite Hs2, Ht, (find_sub_first (crlf ++ crlf) head out) by done.
  eexists _, k3, _. split; [done|]. split; [|intros []; by apply Ha]. intros _. split; [|split; [done|]].
  - rewrite (drop_app_ge _ _ (length head + 4)) by lia.
    replace (length head + 4 - length head)%nat with 4%nat by lia. done.
  - rewrite Hw3, Hw2, (Hok eq_refl), firstn_all, Hw1. done.
Qed.

(** C26: a JSON-RPC call against a reachable server that answers, in any chunks and with
    any timeouts between them, with an HTTP response whose body is a JSON object with a
    null error and a result: when the socket takes the whole request, the call returns that
    result after the server was sent the request line, the headers with the base64
    credentials, and the JSON-RPC document; when it refuses a part of it, the call
    returns nothing and reports [send_failed]. *)
Theorem rpc_call_roundtrip (mk : bool -> option K) fuel fs home c method params
    https host port path p k head text fields (result : J) :
  username_ c <> [] ->
  match_url (url_ c) = Some (https, host, port, path) -> port_of https port = inr p ->
  mk https = Some k -> fresh k -> (sock_connect k host p).2 = true ->
  (forall es, peer k host p es -> Forall clean es /\ (weight es < fuel)%nat /\ all_data es = text) ->
  encodable (call_json method params) = true -> encodable (jobject fields) = true ->
  http_response head (dump (jobject fields)) text ->
  assoc fields "error" = Some jnull -> assoc fields "result" = Some result ->
  let req := request_text c host (the_path path) (dump (call_json method params)) in
  let k1 := (sock_connect k host p).1 in
  exists c' k' r, call mk fuel fs home c method params = Some (c', Some k', inr r) /\
    (takes_all k1 req -> r = Some result /\ written k' = req) /\
    (~ takes_all k1 req -> r = None /\ last_error_ c' = str "send_failed").
Proof.
  intros Hn Hu Hp Hm Hfr Hc Hpe Heb Hen Hh He Hr req k1. unfold call.
  assert (ensureCookie fs home c = (c, true)) as -> by (unfold ensureCookie; by destruct (username_ c)).
  cbn [negb andb]. rewrite dump_text_ok by done.
  destruct (httpPostJson_spec mk fuel c (dump (call_json method params)) _ _ _ _ _ _ _ _ _ Hu Hp Hm Hfr Hc Hpe Hh)
    as (c' & k' & r & -> & Hacc & Href); cbn [mbind option_bind].
  destruct (takes_all_dec _ req (connect_up k host p Hfr Hc)) as [Ha|Ha].
  - destruct (Hacc Ha) as (-> & -> & Hw).
    unfold call_result. rewrite parse_dump by done. rewrite !contains_jobject, !bool_decide_true by (by eexists).
    cbn [negb]. rewrite (idx_jobject _ _ _ He), is_null_jnull. cbn [negb].
    rewrite (idx_jobject _ _ _ Hr). eexists _, k', _. split; [done|]. by split.
  - destruct (Href Ha) as [-> Herr]. eexists _, k', _. split; [done|]. by split.
Qed.

End Exchange.

Definition node_reply : list Z :=
  str "HTTP/1.1 200 OK" ++ crlf ++ crlf ++
  dump (JObj [("result"%string, JNum 7); ("error"%string, JNull)]).

Lemma rpc_call_roundtrip_witness :
  let k := mkScript [] [EData (take 5 node_reply); ETimeout; EData (drop 5 node_reply)] 100 in
  exists c' k',
    call (J := Jv) (fun _ => Some k) 3000 ∅ None
      (mkRpc (str "http://127.0.0.1:8332") (str "user") (str "pw") "" []) (str "getblockcount") JNull
    = Some (c', Some k', inr (Some (JNum 7))).
Proof.
  intros k.
  destruct (rpc_call_roundtrip (fun _ => Some k) 3000 ∅ None
    (mkRpc (str "http://127.0.0.1:8332") (str "user") (str "pw") "" []) (str "getblockcount") JNull
    false (str "127.0.0.1") (Some (str "8332")) [] 8332 k (str "HTTP/1.1 200 OK") node_reply
    [("result"%string, JNum 7); ("error"%string, JNull)] (JNum 7))
    as (c' & k' & r & E & Hr & _).
  - discriminate.
  - reflexivity.
  - reflexivity.
  - reflexivity.
  - exact I.
  - reflexivity.
  - intros es ->. split; [repeat constructor; discriminate|].
    split; [apply Nat.ltb_lt; vm_compute; reflexivity|reflexivity].
  - reflexivity.
  - reflexivity.
  - split; [reflexivity|]. intros i Hi. change (i < 15)%nat in Hi.
    do 15 (destruct i as [|i]; [reflexivity|]). lia.
  - reflexivity.
  - reflexivity.
  - exists c', k'. destruct Hr as [-> _]; [|exact E]. apply script_takes_all.
Defined.
