(* ===== verification/Sockets.v ===== *)
(** * The POSIX socket ([src/net/socket_posix.cc])

    The system calls are a parameter, class [Sys]; [SysLaws] states what the manual pages
    promise of them.  The plain socket is written against the calls and shown to satisfy
    [SocketLaws], so that every theorem of the clients holds over it. *)

From stdpp Require Import base numbers list option gmap strings pretty.
From S2P Require Import Prelude FileSys Json Net.

Open Scope Z_scope.

(** ** System calls *)

(** [K] is the state of the operating system and [A] an address of a resolution.  A
    [select] watches one descriptor and reports its result and whether the descriptor is
    in the returned set; [sys_connect] returns its result and [errno]. *)
Class Sys (K A : Type) := {
  sys_getaddrinfo : K -> list Z -> list Z -> K * option (list A);
  sys_socket : K -> A -> K * Z;
  sys_getfl : K -> Z -> Z;
  sys_setfl : K -> Z -> Z -> K * Z;
  sys_connect : K -> Z -> A -> K * Z * Z;
  sys_select : K -> Z -> bool -> Z * Z -> K * Z * bool;
  sys_so_error : K -> Z -> K * Z;
  sys_send : K -> Z -> list Z -> K * Z;
  sys_recv : K -> Z -> nat -> K * Z * list Z;
  sys_close : K -> Z -> K }.

Definition O_NONBLOCK : Z := 2048.
Definition EINPROGRESS : Z := 115.
Definition FD_SETSIZE : Z := 1024.

(** A stream socket: unconnected, connecting, refused, or connected, with the bytes sent
    and what is still to be received. *)
Inductive conn (A : Type) :=
  | Idle | Pending (a : A) | Refused | Open (sent : list Z) (inbox : list event).
Arguments Idle {A}. Arguments Pending {A}. Arguments Refused {A}. Arguments Open {A}.

Class SysLaws (K A : Type) `{Sys K A} := {
  (** The network: which addresses a name and a port resolve to and what may be received
      from each; it does not change during a call. *)
  World : Type;
  world : K -> World;
  resolves : World -> list Z -> list Z -> A -> Prop;
  offers : World -> A -> list event -> Prop;
  (** The open descriptors. *)
  descr : K -> gmap Z (conn A);
  getaddrinfo_law k h p :
    let '(k', r) := sys_getaddrinfo k h p in
    world k' = world k /\ descr k' = descr k /\ (forall l, r = Some l -> Forall (resolves (world k) h p) l);
  (** The limit RLIMIT_NOFILE: one more than the largest descriptor of the process.  It is
      assumed to be within what a descriptor set holds, as the usual limit of 1024 is; the
      sources do not check this, and [FD_SET] of a larger descriptor is undefined. *)
  nofile : Z;
  nofile_law : nofile <= FD_SETSIZE;
  (** A descriptor not in use. *)
  socket_law k a :
    let '(k', fd) := sys_socket k a in
    world k' = world k /\
    ((fd < 0 /\ descr k' = descr k) \/
     (0 <= fd < nofile /\ descr k !! fd = None /\ descr k' = <[fd := Idle]> (descr k)));
  setfl_law k fd fl : let k' := (sys_setfl k fd fl).1 in world k' = world k /\ descr k' = descr k;
  connect_sys_law k fd a :
    descr k !! fd = Some Idle ->
    let '(k', c, e) := sys_connect k fd a in
    world k' = world k /\
    ((c = 0 /\ exists es, offers (world k) a es /\ descr k' = <[fd := Open [] es]> (descr k)) \/
     (c = -1 /\ e = EINPROGRESS /\ descr k' = <[fd := Pending a]> (descr k)) \/
     (c = -1 /\ e <> EINPROGRESS /\ descr k' = <[fd := Refused]> (descr k)));
  (** A pending connection becomes writable when the attempt has ended, either way. *)
  select_write_law k fd tv s :
    descr k !! fd = Some s ->
    let '(k', r, set) := sys_select k fd true tv in
    world k' = world k /\ exists s', descr k' = <[fd := s']> (descr k) /\
    match s with
    | Pending a =>
        if (0 <? r) && set then s' = Refused \/ exists es, s' = Open [] es /\ offers (world k) a es
        else s' = s
    | _ => s' = s
    end;
  so_error_law k fd s :
    descr k !! fd = Some s ->
    let '(k', v) := sys_so_error k fd in
    world k' = world k /\ descr k' = descr k /\ (s = Refused -> v <> 0);
  send_sys_law k fd s es d :
    descr k !! fd = Some (Open s es) -> d <> [] ->
    let '(k', n) := sys_send k fd d in
    world k' = world k /\ n <= max_rw /\
    ((n <= 0 /\ descr k' = descr k) \/
     (0 < n <= zlen d /\ descr k' = <[fd := Open (s ++ take (Z.to_nat n) d) es]> (descr k)));
  (** Readable: data, the peer's close, or an error to report; otherwise the time is up. *)
  select_read_law k fd tv s es :
    descr k !! fd = Some (Open s es) ->
    let '(k', r, set) := sys_select k fd false tv in
    world k' = world k /\
    match es with
    | ETimeout :: es' => r = 0 /\ descr k' = <[fd := Open s es']> (descr k)
    | EError :: es' =>
        (r < 0 /\ descr k' = <[fd := Open s es']> (descr k)) \/ (0 < r /\ descr k' = descr k)
    | _ => 0 < r /\ descr k' = descr k
    end;
  recv_sys_law k fd s es cap :
    descr k !! fd = Some (Open s es) -> head es <> Some ETimeout -> (0 < cap)%nat ->
    let '(k', r, bs) := sys_recv k fd cap in
    world k' = world k /\
    descr k' = <[fd := Open s (recv_step es cap).2]> (descr k) /\
    (if r <? 0 then -1 else r, bs) = (recv_step es cap).1;
  close_sys_law k fd :
    world (sys_close k fd) = world k /\ descr (sys_close k fd) = delete fd (descr k) }.

(** ** The plain socket *)

Record PlainSocketPosix (K : Type) := mkPosix { kernel : K; sock_ : Z }.
Arguments mkPosix {K}. Arguments kernel {K}. Arguments sock_ {K}.

Section Posix.
Context {K A : Type} `{Sys K A}.

Definition set_nonblock (k : K) (fd : Z) (nb : bool) : K * Z :=
  let flags := sys_getfl k fd in
  if flags <? 0 then (k, -1)
  else sys_setfl k fd (if nb then Z.lor flags O_NONBLOCK else Z.land flags (Z.lnot O_NONBLOCK)).

(** The division and remainder of C round towards zero. *)
Definition timeval (timeout_ms : Z) : Z * Z := (Z.quot timeout_ms 1000, Z.rem timeout_ms 1000 * 1000).

(** The attempt on one address: whether the descriptor is connected. *)
Definition try_address (k : K) (fd : Z) (p : A) (timeout_ms : Z) : K * bool :=
  let '(k, c, errno) := sys_connect k fd p in
  if c =? 0 then (k, true)
  else if errno =? EINPROGRESS then
    let '(k, r, set) := sys_select k fd true (timeval timeout_ms) in
    if (0 <? r) && set then
      let '(k, so_error) := sys_so_error k fd in (k, so_error =? 0)
    else (k, false)
  else (k, false).

(** The loop over the addresses: the descriptor to keep, if any. *)
Fixpoint dial (k : K) (res : list A) (timeout_ms : Z) : K * option Z :=
  match res with
  | [] => (k, None)
  | p :: res =>
      let '(k, fd) := sys_socket k p in
      if fd <? 0 then dial k res timeout_ms
      else
        let k := (set_nonblock k fd true).1 in
        let '(k, ok) := try_address k fd p timeout_ms in
        let k := (set_nonblock k fd false).1 in
        if ok then (k, Some fd) else dial (sys_close k fd) res timeout_ms
  end.

(** [snprintf("%u", port)]. *)
Definition port_text (port : Z) : list Z := str (pretty port).

Definition connect (o : PlainSocketPosix K) (host : list Z) (port timeout_ms : Z) : PlainSocketPosix K * bool :=
  let '(k, res) := sys_getaddrinfo (kernel o) host (port_text port) in
  match res with
  | None => (mkPosix k (sock_ o), false)
  | Some res =>
      let '(k, fd) := dial k res timeout_ms in
      let s := default (sock_ o) fd in
      (mkPosix k s, 0 <=? s)
  end.

Definition send (o : PlainSocketPosix K) (data : list Z) : PlainSocketPosix K * Z :=
  if sock_ o <? 0 then (o, -1)
  else
    let '(k, r) := sys_send (kernel o) (sock_ o) data in
    (mkPosix k (sock_ o), if r <? 0 then -1 else i32 r).

Definition recv (o : PlainSocketPosix K) (out_cap : nat) (timeout_ms : Z) : PlainSocketPosix K * Z * list Z :=
  if sock_ o <? 0 then (o, -1, [])
  else
    let '(k, rsel, _) := sys_select (kernel o) (sock_ o) false (timeval timeout_ms) in
    if rsel =? 0 then (mkPosix k (sock_ o), -2, [])
    else if rsel <? 0 then (mkPosix k (sock_ o), -1, [])
    else
      let '(k, r, bs) := sys_recv k (sock_ o) out_cap in
      (mkPosix k (sock_ o), if r =? 0 then 0 else if r <? 0 then -1 else i32 r, bs).

Definition close (o : PlainSocketPosix K) : PlainSocketPosix K :=
  if 0 <=? sock_ o then mkPosix (sys_close (kernel o) (sock_ o)) (-1) else o.

Definition MakePlainSocket (k : K) : PlainSocketPosix K := mkPosix k (-1).

(** Without OpenSSL there is no secure socket. *)
Definition MakeTlsSocket : option (PlainSocketPosix K) := None.

(** The clients' timeouts: [net/stratum_client.cc] and [net/rpc_client.cc] give the
    connect timeout, and both receive with 5000 ms. *)
Definition plain_socket (connect_ms : Z) : ISocket (PlainSocketPosix K) := {|
  sock_connect o h p := connect o h p connect_ms;
  sock_send := send;
  sock_recv o cap := recv o cap 5000;
  sock_close := close |}.

End Posix.

(** ** The connection *)

Section PosixLaws.
Context {K A : Type} `{SysLaws K A}.

Lemma set_nonblock_frame k fd nb :
  world (set_nonblock k fd nb).1 = world k /\ descr (set_nonblock k fd nb).1 = descr k.
Proof. unfold set_nonblock. destruct (sys_getfl k fd <? 0); [done|apply setfl_law]. Qed.

Lemma try_address_spec k fd p t :
  descr k !! fd = Some Idle ->
  let '(k', ok) := try_address k fd p t in
  world k' = world k /\ exists s, descr k' = <[fd := s]> (descr k) /\
    (ok = true -> exists es, s = Open [] es /\ offers (world k) p es).
Proof.
  intros Hd. unfold try_address. pose proof (connect_sys_law k fd p Hd) as Hc.
  destruct (sys_connect k fd p) as [[k1 c] e].
  destruct Hc as (Hw & [(-> & es & Ho & He)|[(-> & -> & He)|(-> & Hn & He)]]).
  - cbn. split; [done|]. exists (Open [] es). split; [done|]. intros _. by exists es.
  - cbn [Z.eqb EINPROGRESS Pos.eqb].
    pose proof (select_write_law k1 fd (timeval t) (Pending p)) as Hs.
    rewrite He, lookup_insert_eq, Hw in Hs. specialize (Hs eq_refl).
    destruct (sys_select k1 fd true (timeval t)) as [[k2 r] set].
    destruct Hs as (Hw2 & s & He2 & Hs). rewrite insert_insert_eq in He2.
    destruct ((0 <? r) && set); [|split; [done|]; by exists s].
    pose proof (so_error_law k2 fd s) as Hv. rewrite He2, lookup_insert_eq in Hv.
    specialize (Hv eq_refl). destruct (sys_so_error k2 fd) as [k3 v]. destruct Hv as (Hw3 & He3 & Hv).
    rewrite Hw3, He3. split; [done|]. exists s. split; [done|]. intros Hz%Z.eqb_eq.
    destruct Hs as [->|(es & -> & Ho)]; [by destruct Hv|by exists es].
  - rewrite (proj2 (Z.eqb_neq _ _) Hn). cbn. split; [done|]. by exists Refused.
Qed.

Lemma dial_spec k res t :
  let '(k', r) := dial k res t in
  world k' = world k /\
  match r with
  | None => descr k' = descr k
  | Some fd => 0 <= fd < nofile /\ descr k !! fd = None /\
      exists p es, p ∈ res /\ offers (world k) p es /\ descr k' = <[fd := Open [] es]> (descr k)
  end.
Proof.
  revert k. induction res as [|p res IH]; intros k; [done|]. cbn [dial].
  assert (Hnext : forall k1, world k1 = world k -> descr k1 = descr k ->
    let '(k', r) := dial k1 res t in world k' = world k /\
    match r with
    | None => descr k' = descr k
    | Some fd => 0 <= fd < nofile /\ descr k !! fd = None /\
        exists q es, q ∈ p :: res /\ offers (world k) q es /\ descr k' = <[fd := Open [] es]> (descr k)
    end).
  { intros k1 Hw Hd. specialize (IH k1). destruct (dial k1 res t) as [k' [fd|]]; rewrite Hw, Hd in IH; [|done].
    destruct IH as (? & ? & ? & q & es & ? & ? & ?). split; [done|]. split; [done|]. split; [done|].
    exists q, es. split; [by constructor|done]. }
  pose proof (socket_law k p) as Hs. destruct (sys_socket k p) as [k1 fd].
  destruct Hs as (Hw & [[Hn Hd]|(Hr & Hf & Hd)]); [rewrite (proj2 (Z.ltb_lt _ _) Hn); by apply Hnext|].
  rewrite (proj2 (Z.ltb_ge _ _)) by lia.
  destruct (set_nonblock_frame k1 fd true) as [Hw2 Hd2]. set (k2 := (set_nonblock k1 fd true).1) in *. clearbody k2.
  pose proof (try_address_spec k2 fd p t) as Ht. rewrite Hd2, Hd, lookup_insert_eq, Hw2, Hw in Ht.
  specialize (Ht eq_refl). destruct (try_address k2 fd p t) as [k3 ok]. destruct Ht as (Hw3 & s & Hd3 & Hok).
  rewrite insert_insert_eq in Hd3. destruct (set_nonblock_frame k3 fd false) as [Hw4 Hd4].
  set (k4 := (set_nonblock k3 fd false).1) in *. clearbody k4. destruct ok.
  - destruct (Hok eq_refl) as (es & -> & Ho). split; [congruence|]. split; [done|]. split; [done|].
    exists p, es. split; [constructor|]. split; [done|congruence].
  - destruct (close_sys_law k4 fd) as [Hw5 Hd5]. apply Hnext; [congruence|].
    rewrite Hd5, Hd4, Hd3, delete_insert_eq. by apply delete_id.
Qed.

(** The events a connection to a host may offer. *)
Definition reachable (o : PlainSocketPosix K) (host : list Z) (port : Z) (es : list event) : Prop :=
  exists a, resolves (world (kernel o)) host (port_text port) a /\ offers (world (kernel o)) a es.

(** C27: a connect opens one descriptor and keeps it, connected to an address the host resolves
    to, and succeeds; or it leaves the table of descriptors and the object as they were,
    every descriptor of a failed or refused attempt being closed.  It then fails when the
    name does not resolve; but when every address was tried and none connected, it
    reports whether the object held a descriptor before, so on a connected object a
    failed attempt is reported as a success. *)
Theorem posix_connect_descriptors (o : PlainSocketPosix K) host port t :
  let '(o', ok) := connect o host port t in
  let '(k1, addresses) := sys_getaddrinfo (kernel o) host (port_text port) in
  match addresses with
  | None => sock_ o' = sock_ o /\ descr (kernel o') = descr (kernel o) /\ ok = false
  | Some res =>
      match (dial k1 res t).2 with
      | Some fd => sock_ o' = fd /\ ok = true /\ 0 <= fd < FD_SETSIZE /\ descr (kernel o) !! fd = None /\
          exists es, reachable o host port es /\ descr (kernel o') = <[fd := Open [] es]> (descr (kernel o))
      | None => sock_ o' = sock_ o /\ descr (kernel o') = descr (kernel o) /\ ok = (0 <=? sock_ o)
      end
  end.
Proof.
  unfold connect. pose proof (getaddrinfo_law (kernel o) host (port_text port)) as Hg.
  destruct (sys_getaddrinfo (kernel o) host (port_text port)) as [k1 [res|]];
    destruct Hg as (Hw & Hd & Hres); [|done].
  pose proof (dial_spec k1 res t) as Hdial. destruct (dial k1 res t) as [k2 [fd|]]; cbn.
  - destruct Hdial as (_ & Hr & Hf & p & es & Hp & Ho & He). rewrite Hd, ?Hw in *.
    pose proof nofile_law. split; [done|]. split; [apply Z.leb_le; lia|]. split; [lia|].
    split; [done|]. exists es. split; [|done].
    exists p. split; [|done]. by apply (proj1 (Forall_forall _ res)); [apply Hres|].
  - destruct Hdial as [_ He]. split; [done|]. split; [congruence|done].
Qed.

(** *** The interface *)

Definition posix_up (o : PlainSocketPosix K) : Prop :=
  0 <= sock_ o /\ exists s es, descr (kernel o) !! sock_ o = Some (Open s es).
Definition posix_written (o : PlainSocketPosix K) : list Z :=
  match descr (kernel o) !! sock_ o with Some (Open s _) => s | _ => [] end.
Definition posix_stream (o : PlainSocketPosix K) : list event :=
  match descr (kernel o) !! sock_ o with Some (Open _ es) => es | _ => [] end.

Lemma posix_views k fd m s es :
  0 <= fd -> descr k = <[fd := Open s es]> m ->
  posix_up (mkPosix k fd) /\ posix_written (mkPosix k fd) = s /\ posix_stream (mkPosix k fd) = es.
Proof.
  intros Hf Hd. unfold posix_up, posix_written, posix_stream. cbn. rewrite Hd, lookup_insert_eq.
  split; [|done]. split; [done|]. by eexists _, _.
Qed.

(** The conclusions of [SocketLaws], call by call. *)
Lemma posix_send_law (o : PlainSocketPosix K) d o' n :
  posix_up o -> d <> [] -> send o d = (o', n) ->
  posix_up o' /\ posix_stream o' = posix_stream o /\
  ((n <= 0 /\ posix_written o' = posix_written o) \/
   (0 < n <= zlen d /\ posix_written o' = posix_written o ++ take (Z.to_nat n) d)).
Proof.
  destruct o as [k fd]. intros (Hf & s & es & Hd) Hne. unfold send. cbn [sock_ kernel] in *.
  rewrite (proj2 (Z.ltb_ge _ _)) by lia. pose proof (send_sys_law k fd s es d Hd Hne) as Hs.
  destruct (sys_send k fd d) as [k1 r]. destruct Hs as (_ & Hm & Hs). intros [= <- <-].
  assert (posix_written (mkPosix k fd) = s /\ posix_stream (mkPosix k fd) = es) as [Ews Est].
  { unfold posix_written, posix_stream. cbn. by rewrite Hd. }
  rewrite Ews, Est. destruct Hs as [[Hr He]|[Hr He]].
  - destruct (posix_views k1 fd (descr k) s es Hf) as (? & ? & ?).
    { by rewrite He, insert_id. }
    split; [done|]. split; [done|]. left. split; [|done]. destruct (Z.ltb_spec r 0); [lia|].
    assert (r = 0) as -> by lia. done.
  - destruct (posix_views k1 fd _ _ _ Hf He) as (? & ? & ?). rewrite (proj2 (Z.ltb_ge _ _)) by lia.
    replace (i32 r) with r by (unfold i32, max_rw in *; rewrite Z.mod_small; lia). by auto.
Qed.

Lemma recv_step_bound es cap : (recv_step es cap).1.1 <= Z.of_nat cap.
Proof. destruct es as [|[bs| |] es]; cbn; [lia|rewrite length_take; lia|lia..]. Qed.

(** The read of a descriptor that [select] reports ready. *)
Lemma posix_read k fd s es cap o' r bs :
  0 <= fd -> descr k !! fd = Some (Open s es) -> head es <> Some ETimeout ->
  (0 < cap)%nat -> Z.of_nat cap <= max_rw ->
  (let '(k2, r, bs) := sys_recv k fd cap in
   (mkPosix k2 fd, if r =? 0 then 0 else if r <? 0 then -1 else i32 r, bs)) = (o', r, bs) ->
  posix_up o' /\ posix_written o' = s /\ recv_step es cap = (r, bs, posix_stream o').
Proof.
  intros Hf Hd Hh Hc Hm. pose proof (recv_sys_law k fd s es cap Hd Hh Hc) as Hv.
  destruct (sys_recv k fd cap) as [[k2 r2] bs2]. destruct Hv as (_ & He2 & Hv). intros [= <- <- <-].
  destruct (posix_views k2 fd _ _ _ Hf He2) as (? & ? & ->). split; [done|]. split; [done|].
  pose proof (recv_step_bound es cap) as Hb. destruct (recv_step es cap) as [[r3 bs3] es3]. cbn in *.
  injection Hv as Hv <-. f_equal. f_equal. rewrite <- Hv in *.
  destruct (Z.eqb_spec r2 0) as [->|]; [done|]. destruct (Z.ltb_spec r2 0); [done|].
  unfold i32, max_rw in *. rewrite Z.mod_small; lia.
Qed.

Lemma posix_recv_law (o : PlainSocketPosix K) cap t o' r bs :
  posix_up o -> (0 < cap)%nat -> Z.of_nat cap <= max_rw -> recv o cap t = (o', r, bs) ->
  posix_up o' /\ posix_written o' = posix_written o /\ recv_step (posix_stream o) cap = (r, bs, posix_stream o').
Proof.
  destruct o as [k fd]. intros (Hf & s & es & Hd) Hc Hm. unfold recv. cbn [sock_ kernel] in *.
  rewrite (proj2 (Z.ltb_ge _ _)) by lia.
  assert (posix_written (mkPosix k fd) = s /\ posix_stream (mkPosix k fd) = es) as [-> ->].
  { unfold posix_written, posix_stream. cbn. by rewrite Hd. }
  pose proof (select_read_law k fd (timeval t) s es Hd) as Hs.
  destruct (sys_select k fd false (timeval t)) as [[k1 rsel] set]. destruct Hs as [_ Hs].
  destruct es as [|[d| |] es']; try (destruct Hs as [Hr He];
    rewrite (proj2 (Z.eqb_neq rsel 0)), (proj2 (Z.ltb_ge rsel 0)) by lia;
    by apply (posix_read k1 fd s _ cap _ _ _ Hf); rewrite ?He).
  - destruct Hs as [-> He]. cbn. intros [= <- <- <-]. destruct (posix_views k1 fd _ _ _ Hf He) as (? & ? & ->). done.
  - destruct Hs as [[Hr He]|[Hr He]].
    + rewrite (proj2 (Z.eqb_neq rsel 0)), (proj2 (Z.ltb_lt rsel 0)) by lia. intros [= <- <- <-].
      destruct (posix_views k1 fd _ _ _ Hf He) as (? & ? & ->). done.
    + rewrite (proj2 (Z.eqb_neq rsel 0)), (proj2 (Z.ltb_ge rsel 0)) by lia.
      by apply (posix_read k1 fd s _ cap _ _ _ Hf); rewrite ?He.
Qed.

Lemma posix_connect_law (o : PlainSocketPosix K) host port t o' :
  sock_ o < 0 -> connect o host port t = (o', true) ->
  posix_up o' /\ posix_written o' = [] /\ reachable o host port (posix_stream o').
Proof.
  intros Hf E. unfold connect in E.
  pose proof (getaddrinfo_law (kernel o) host (port_text port)) as Hg.
  destruct (sys_getaddrinfo (kernel o) host (port_text port)) as [k1 [res|]];
    destruct Hg as (Hw & Hd & Hres); [|done].
  pose proof (dial_spec k1 res t) as Hdial. destruct (dial k1 res t) as [k2 [fd|]]; cbn in E; injection E as <- Ek.
  - destruct Hdial as (_ & Hr & _ & p & es & Hp & Ho & He).
    destruct (posix_views k2 fd _ _ _ ltac:(lia) He) as (? & ? & ->). rewrite Hw in Ho.
    split; [done|]. split; [done|]. exists p. split; [|done].
    by apply (proj1 (Forall_forall _ res)); [apply Hres|].
  - apply Z.leb_le in Ek. lia.
Qed.

(** The plain socket keeps what the clients rely on. *)
Definition posix_laws (ms : Z) : @SocketLaws (PlainSocketPosix K) (plain_socket ms).
Proof.
  refine {| fresh o := sock_ o < 0; up := posix_up; written := posix_written; stream := posix_stream;
    peer := reachable |}.
  - intros o h p. exact (posix_connect_law o h p ms).
  - exact posix_send_law.
  - intros o cap. exact (posix_recv_law o cap 5000).
Defined.

End PosixLaws.

(** ** A simulated kernel

    Addresses are numbers; every name resolves to all of [sim_hosts].  Connections are
    never immediate, and an address without a server refuses.  A send takes at most a
    thousand bytes. *)

Record Sim := mkSim {
  sim_hosts : list (Z * option (list event));
  sim_fds : gmap Z (conn Z);
  sim_ctxs : gset Z;            (* TLS contexts and the descriptors of TLS connections *)
  sim_ssls : gmap Z Z }.

Definition sim_offer (hs : list (Z * option (list event))) (a : Z) : option (list event) :=
  p ← find (fun p => p.1 =? a) hs; p.2.

Definition sim_free (m : gmap Z (conn Z)) : Z :=
  default (-1) (find (fun fd => bool_decide (m !! fd = None)) (seqZ 3 1021)).

Definition sim_set (k : Sim) (m : gmap Z (conn Z)) : Sim := mkSim (sim_hosts k) m (sim_ctxs k) (sim_ssls k).
Definition sim_put (k : Sim) (fd : Z) (s : conn Z) : Sim := sim_set k (<[fd := s]> (sim_fds k)).

Definition sim_select (k : Sim) (fd : Z) (write : bool) : Sim * Z * bool :=
  match write, sim_fds k !! fd with
  | true, Some (Pending a) =>
      (sim_put k fd (match sim_offer (sim_hosts k) a with Some es => Open [] es | None => Refused end), 1, true)
  | false, Some (Open s (ETimeout :: es)) => (sim_put k fd (Open s es), 0, false)
  | _, _ => (k, 1, true)
  end.

Definition sim_send (k : Sim) (fd : Z) (d : list Z) : Sim * Z :=
  match sim_fds k !! fd with
  | Some (Open s es) =>
      let n := Nat.min 1000 (length d) in (sim_put k fd (Open (s ++ take n d) es), Z.of_nat n)
  | _ => (k, -1)
  end.

Definition sim_recv (k : Sim) (fd : Z) (cap : nat) : Sim * Z * list Z :=
  match sim_fds k !! fd with
  | Some (Open s es) => let '(r, bs, es) := recv_step es cap in (sim_put k fd (Open s es), r, bs)
  | _ => (k, -1, [])
  end.

#[export] Instance sim_sys : Sys Sim Z := {
  sys_getaddrinfo k _ _ := (k, Some (sim_hosts k).*1);
  sys_socket k _ := let fd := sim_free (sim_fds k) in (if fd <? 0 then k else sim_put k fd Idle, fd);
  sys_getfl _ _ := 2;
  sys_setfl k _ _ := (k, 0);
  sys_connect k fd a :=
    match sim_fds k !! fd with
    | Some Idle => (sim_put k fd (Pending a), -1, EINPROGRESS)
    | _ => (k, -1, 9)
    end;
  sys_select k fd w _ := sim_select k fd w;
  sys_so_error k fd := (k, match sim_fds k !! fd with Some Refused => 111 | _ => 0 end);
  sys_send := sim_send;
  sys_recv := sim_recv;
  sys_close k fd := sim_set k (delete fd (sim_fds k)) }.

Lemma sim_free_spec m : sim_free m = -1 \/ (3 <= sim_free m < 1024 /\ m !! sim_free m = None).
Proof.
  unfold sim_free. destruct (find _ _) as [fd|] eqn:E; [|by left]. right. cbn.
  apply find_some in E as [Hin%list_elem_of_In%elem_of_seqZ Hb%bool_decide_eq_true]. split; [lia|done].
Qed.

#[export] Instance sim_laws : SysLaws Sim Z.
Proof.
  refine {| World := list (Z * option (list event)); world := sim_hosts;
    resolves hs _ _ a := a ∈ hs.*1; offers hs a es := sim_offer hs a = Some es; descr := sim_fds; nofile := 1024 |}.
  - intros k h p. cbn. split; [done|]. split; [done|]. intros l [= <-]. by apply Forall_forall.
  - done.
  - intros k a. cbn -[Z.ltb]. destruct (sim_free_spec (sim_fds k)) as [->|[Hr Hn]]; [cbn; auto with lia|].
    destruct (Z.ltb_spec (sim_free (sim_fds k)) 0); [lia|]. cbn. split; [done|]. right. split; [lia|done].
  - done.
  - intros k fd a Hd. cbn. rewrite Hd. split; [done|]. by right; left.
  - intros k fd tv s Hd. cbn. unfold sim_select. rewrite Hd.
    destruct s as [|a| |]; try (split; [done|]; eexists; split; [symmetry; by apply insert_id|done]).
    cbn. split; [done|]. eexists. split; [done|]. cbn. destruct (sim_offer _ a) as [es|]; [right; by exists es|by left].
  - intros k fd s Hd. cbn. rewrite Hd. split; [done|]. split; [done|]. by intros ->.
  - intros k fd s es d Hd Hne. cbn [sys_send sim_sys world descr]. unfold sim_send. rewrite Hd. cbn [sim_put sim_set sim_hosts sim_fds]. split; [done|].
    destruct d as [|x d]; [done|]. cbn [length]. set (n := Nat.min 1000 (S (length d))).
    assert (0 < n <= 1000 /\ n <= S (length d))%nat as Hn by (subst n; lia). clearbody n.
    split; [unfold max_rw; lia|]. right.
    split; [lia|]. by rewrite Nat2Z.id.
  - intros k fd tv s es Hd. cbn. unfold sim_select. rewrite Hd. destruct es as [|[| |] es]; cbn; auto with lia.
  - intros k fd s es cap Hd Hh Hc. cbn. unfold sim_recv. rewrite Hd.
    destruct es as [|[bs| |] es]; cbn; try done. rewrite (proj2 (Z.ltb_ge _ _)) by lia. done.
  - done.
Defined.

(** Two addresses, the first of which refuses. *)
Definition two_hosts : Sim := mkSim [(1, None); (2, Some [EData (str "hi")])] ∅ ∅ ∅.

Example posix_second_address :
  let '(o, ok) := connect (MakePlainSocket two_hosts) (str "pool") 3333 5000 in
  ok = true /\ sock_ o = 3 /\ sim_fds (kernel o) = {[3 := Open [] [EData (str "hi")]]}.
Proof. vm_compute. done. Qed.

(** A connected object reports success when every address refuses. *)
Example posix_connect_reports_old_socket :
  let k := mkSim [(1, None)] {[3 := Open [] []]} ∅ ∅ in
  connect (mkPosix k 3) (str "pool") 3333 5000 = (mkPosix k 3, true).
Proof. vm_compute. done. Qed.

Lemma posix_connect_descriptors_witness :
  (let '(o, ok) := connect (MakePlainSocket two_hosts) (str "pool") 3333 5000 in
   ok = true /\ exists es, sim_fds (kernel o) = {[3 := Open [] es]}) /\
  (let k := mkSim [(1, None)] {[3 := Open [] []]} ∅ ∅ in
   let '(o, ok) := connect (mkPosix k 3) (str "pool") 3333 5000 in
   ok = true /\ sim_fds (kernel o) = {[3 := Open [] []]}).
Proof.
  split.
  - pose proof (posix_connect_descriptors (MakePlainSocket two_hosts) (str "pool") 3333 5000) as H.
    destruct (connect (MakePlainSocket two_hosts) (str "pool") 3333 5000) as [o ok].
    vm_compute in H |- *. destruct H as (_ & Hok & _ & _ & es & _ & Hd).
    split; [exact Hok|]. exists es. exact Hd.
  - intros k. pose proof (posix_connect_descriptors (mkPosix k 3) (str "pool") 3333 5000) as H.
    destruct (connect (mkPosix k 3) (str "pool") 3333 5000) as [o ok].
    destruct H as (_ & Hd & Hok). split; [exact Hok|exact Hd].
Defined.
