(* ===== verification/SocketsWin.v ===== *)
(** * The Windows socket ([src/net/socket_win.cc])

    The Winsock calls are a parameter, class [Winsock], with their documented behaviour in
    [WinLaws].  The class differs from the POSIX one in its error codes, in keeping the
    time-out in the socket's options, and in what a failed connect reports. *)

From stdpp Require Import base numbers list option gmap strings.
From S2P Require Import Prelude FileSys Json Net Sockets.

Open Scope Z_scope.

(** ** Winsock *)

(** [ws_connect] and [ws_recv] also give [WSAGetLastError]; no socket is
    [INVALID_SOCKET]. *)
Class Winsock (K A : Type) := {
  WSAStartup : K -> K * Z;
  ws_getaddrinfo : K -> list Z -> list Z -> K * option (list A);
  ws_socket : K -> A -> K * option Z;
  ws_nonblock : K -> Z -> bool -> K;
  ws_connect : K -> Z -> A -> K * Z * Z;
  ws_select_write : K -> Z -> Z * Z -> K * Z * bool;
  ws_so_error : K -> Z -> K * Z;
  ws_rcvtimeo : K -> Z -> Z -> K;
  ws_sndtimeo : K -> Z -> Z -> K;
  ws_send : K -> Z -> list Z -> K * Z;
  ws_recv : K -> Z -> nat -> K * Z * list Z * Z;
  closesocket : K -> Z -> K }.

Definition WSAEINVAL : Z := 10022.
Definition WSAEWOULDBLOCK : Z := 10035.
Definition WSAEINPROGRESS : Z := 10036.
Definition WSAETIMEDOUT : Z := 10060.
Definition SOCKET_ERROR : Z := -1.

Definition in_progress (err : Z) : bool :=
  (err =? WSAEWOULDBLOCK) || (err =? WSAEINPROGRESS) || (err =? WSAEINVAL).

(** Only the calls that open, connect, move data or close change a socket. *)
Class WinLaws (K A : Type) `{Winsock K A} := {
  ws_resolves : list Z -> list Z -> A -> Prop;
  ws_offers : A -> list event -> Prop;
  handles : K -> gmap Z (conn A);
  startup_frame k : handles (WSAStartup k).1 = handles k;
  ws_getaddrinfo_law k h p :
    let '(k', r) := ws_getaddrinfo k h p in
    handles k' = handles k /\ (forall l, r = Some l -> Forall (ws_resolves h p) l);
  ws_socket_law k a :
    let '(k', s) := ws_socket k a in
    match s with
    | None => handles k' = handles k
    | Some s => handles k !! s = None /\ handles k' = <[s := Idle]> (handles k)
    end;
  nonblock_frame k s b : handles (ws_nonblock k s b) = handles k;
  ws_connect_law k s a :
    handles k !! s = Some Idle ->
    let '(k', c, e) := ws_connect k s a in
    (c = 0 /\ exists es, ws_offers a es /\ handles k' = <[s := Open [] es]> (handles k)) \/
    (c <> 0 /\ in_progress e = true /\ handles k' = <[s := Pending a]> (handles k)) \/
    (c <> 0 /\ in_progress e = false /\ handles k' = <[s := Refused]> (handles k));
  ws_select_law k s tv a :
    handles k !! s = Some (Pending a) ->
    let '(k', r, set) := ws_select_write k s tv in
    exists c, handles k' = <[s := c]> (handles k) /\
    if (0 <? r) && set then c = Refused \/ exists es, c = Open [] es /\ ws_offers a es else True;
  ws_so_error_law k s c :
    handles k !! s = Some c ->
    let '(k', v) := ws_so_error k s in handles k' = handles k /\ (c = Refused -> v <> 0);
  rcvtimeo_frame k s t : handles (ws_rcvtimeo k s t) = handles k;
  sndtimeo_frame k s t : handles (ws_sndtimeo k s t) = handles k;
  ws_send_law k s out es d :
    handles k !! s = Some (Open out es) -> d <> [] ->
    let '(k', n) := ws_send k s d in
    (n <= 0 /\ handles k' = handles k) \/
    (0 < n <= zlen d /\ handles k' = <[s := Open (out ++ take (Z.to_nat n) d) es]> (handles k));
  (** Time passing without data is the error WSAETIMEDOUT. *)
  ws_recv_law k s out es cap :
    handles k !! s = Some (Open out es) -> (0 < cap)%nat ->
    let '(k', r, bs, e) := ws_recv k s cap in
    let '(r', bs', es') := recv_step es cap in
    bs = bs' /\ handles k' = <[s := Open out es']> (handles k) /\
    (if r' <? 0 then r = SOCKET_ERROR /\ (e = WSAETIMEDOUT <-> r' = -2) else r = r');
  closesocket_law k s : handles (closesocket k s) = delete s (handles k) }.

(** ** The socket *)

(** [wsa] is the static pair of [InitWSA]: whether it ran, and its result. *)
Record PlainSocketWin (K : Type) := mkWin { win_kernel : K; wsa : option bool; win_sock_ : option Z }.
Arguments mkWin {K}. Arguments win_kernel {K}. Arguments wsa {K}. Arguments win_sock_ {K}.

Section Win.
Context {K A : Type} `{Winsock K A}.

Definition InitWSA (k : K) (st : option bool) : K * option bool * bool :=
  match st with
  | Some ok => (k, Some ok, ok)
  | None => let '(k, r) := WSAStartup k in (k, Some (r =? 0), r =? 0)
  end.

Definition try_address (k : K) (s : Z) (p : A) (timeout_ms : Z) : K * bool :=
  let '(k, c, err) := ws_connect k s p in
  if c =? 0 then (k, true)
  else if in_progress err then
    let '(k, r, set) := ws_select_write k s (timeval timeout_ms) in
    if (0 <? r) && set then let '(k, so_error) := ws_so_error k s in (k, so_error =? 0) else (k, false)
  else (k, false).

Fixpoint dial (k : K) (result : list A) (timeout_ms : Z) : K * option Z :=
  match result with
  | [] => (k, None)
  | p :: result =>
      match ws_socket k p with
      | (k, None) => dial k result timeout_ms
      | (k, Some s) =>
          let k := ws_nonblock k s true in
          let '(k, ok) := try_address k s p timeout_ms in
          let k := ws_nonblock k s false in
          if ok then (k, Some s) else dial (closesocket k s) result timeout_ms
      end
  end.

Definition connect (o : PlainSocketWin K) (host : list Z) (port timeout_ms : Z) : PlainSocketWin K * bool :=
  let '(k, st, ok) := InitWSA (win_kernel o) (wsa o) in
  if negb ok then (mkWin k st (win_sock_ o), false)
  else
    let '(k, result) := ws_getaddrinfo k host (port_text port) in
    match result with
    | None => (mkWin k st (win_sock_ o), false)
    | Some result =>
        let '(k, s) := dial k result timeout_ms in
        match s with
        | None => (mkWin k st (win_sock_ o), false)
        | Some s =>
            let k := ws_rcvtimeo k s (u32 timeout_ms) in
            let k := ws_sndtimeo k s (u32 timeout_ms) in
            (mkWin k st (Some s), true)
        end
    end.

Definition send (o : PlainSocketWin K) (data : list Z) : PlainSocketWin K * Z :=
  match win_sock_ o with
  | None => (o, -1)
  | Some s => let '(k, sent) := ws_send (win_kernel o) s data in (mkWin k (wsa o) (Some s), sent)
  end.

(** The time-out argument is not used. *)
Definition recv (o : PlainSocketWin K) (out_cap : nat) (timeout_ms : Z) : PlainSocketWin K * Z * list Z :=
  match win_sock_ o with
  | None => (o, -1, [])
  | Some s =>
      let '(k, r, bs, err) := ws_recv (win_kernel o) s out_cap in
      (mkWin k (wsa o) (Some s),
       if r =? 0 then 0
       else if r =? SOCKET_ERROR then if err =? WSAETIMEDOUT then -2 else -1
       else r, bs)
  end.

Definition close (o : PlainSocketWin K) : PlainSocketWin K :=
  match win_sock_ o with
  | Some s => mkWin (closesocket (win_kernel o) s) (wsa o) None
  | None => o
  end.

Definition MakePlainSocket (k : K) (st : option bool) : PlainSocketWin K := mkWin k st None.

Definition win_socket (connect_ms : Z) : ISocket (PlainSocketWin K) := {|
  sock_connect o h p := connect o h p connect_ms;
  sock_send := send;
  sock_recv o cap := recv o cap 5000;
  sock_close := close |}.

End Win.

(** ** Theorems *)

Section WinTheorems.
Context {K A : Type} `{WinLaws K A}.

Lemma win_try_address_spec k s p t :
  handles k !! s = Some Idle ->
  let '(k', ok) := try_address k s p t in
  exists c, handles k' = <[s := c]> (handles k) /\ (ok = true -> exists es, c = Open [] es /\ ws_offers p es).
Proof.
  intros Hd. unfold try_address. pose proof (ws_connect_law k s p Hd) as Hc.
  destruct (ws_connect k s p) as [[k1 c] e].
  destruct Hc as [(-> & es & Ho & He)|[(Hn & Hp & He)|(Hn & Hp & He)]].
  - cbn. exists (Open [] es). split; [done|]. intros _. by exists es.
  - rewrite (proj2 (Z.eqb_neq _ _) Hn), Hp.
    pose proof (ws_select_law k1 s (timeval t) p) as Hs. rewrite He, lookup_insert_eq in Hs. specialize (Hs eq_refl).
    destruct (ws_select_write k1 s (timeval t)) as [[k2 r] set]. destruct Hs as (c2 & He2 & Hs).
    rewrite insert_insert_eq in He2. destruct ((0 <? r) && set); [|by exists c2].
    pose proof (ws_so_error_law k2 s c2) as Hv. rewrite He2, lookup_insert_eq in Hv. specialize (Hv eq_refl).
    destruct (ws_so_error k2 s) as [k3 v]. destruct Hv as [He3 Hv]. exists c2. split; [congruence|].
    intros Hz%Z.eqb_eq. destruct Hs as [->|(es & -> & Ho)]; [by destruct Hv|by exists es].
  - rewrite (proj2 (Z.eqb_neq _ _) Hn), Hp. by exists Refused.
Qed.

Lemma win_dial_spec k res t :
  let '(k', r) := dial k res t in
  match r with
  | None => handles k' = handles k
  | Some s => handles k !! s = None /\
      exists p es, p ∈ res /\ ws_offers p es /\ handles k' = <[s := Open [] es]> (handles k)
  end.
Proof.
  revert k. induction res as [|p res IH]; intros k; [done|]. cbn [dial].
  assert (Hnext : forall k1, handles k1 = handles k ->
    let '(k', r) := dial k1 res t in
    match r with
    | None => handles k' = handles k
    | Some s => handles k !! s = None /\
        exists q es, q ∈ p :: res /\ ws_offers q es /\ handles k' = <[s := Open [] es]> (handles k)
    end).
  { intros k1 Hd. specialize (IH k1). destruct (dial k1 res t) as [k' [s|]]; rewrite Hd in IH; [|done].
    destruct IH as (? & q & es & ? & ? & ?). split; [done|]. exists q, es. split; [by constructor|done]. }
  pose proof (ws_socket_law k p) as Hs. destruct (ws_socket k p) as [k1 [s|]]; [|by apply Hnext].
  destruct Hs as [Hf Hd]. pose proof (nonblock_frame k1 s true) as Hd2.
  set (k2 := ws_nonblock k1 s true) in *. clearbody k2.
  pose proof (win_try_address_spec k2 s p t) as Ht. rewrite Hd2, Hd, lookup_insert_eq in Ht. specialize (Ht eq_refl).
  destruct (try_address k2 s p t) as [k3 ok]. destruct Ht as (c & Hd3 & Hok). rewrite insert_insert_eq in Hd3.
  pose proof (nonblock_frame k3 s false) as Hd4. set (k4 := ws_nonblock k3 s false) in *. clearbody k4. destruct ok.
  - destruct (Hok eq_refl) as (es & -> & Ho). split; [done|]. exists p, es. split; [constructor|]. split; [done|congruence].
  - apply Hnext. rewrite closesocket_law, Hd4, Hd3, delete_insert_eq. by apply delete_id.
Qed.

Definition win_reachable (host : list Z) (port : Z) (es : list event) : Prop :=
  exists a, ws_resolves host (port_text port) a /\ ws_offers a es.

(** A connect that succeeds has opened one socket, the member, connected to an address the
    host resolves to; one that fails, on a connected object too, leaves the table of
    sockets and the member as they were.  So on a connected object a successful one
    forgets the old socket without closing it. *)
Theorem win_connect_handles (o : PlainSocketWin K) host port t :
  let '(o', ok) := connect o host port t in
  if ok then exists s es, win_sock_ o' = Some s /\ handles (win_kernel o) !! s = None /\
    win_reachable host port es /\ handles (win_kernel o') = <[s := Open [] es]> (handles (win_kernel o))
  else win_sock_ o' = win_sock_ o /\ handles (win_kernel o') = handles (win_kernel o).
Proof.
  unfold connect.
  assert (exists k1 st ok, InitWSA (win_kernel o) (wsa o) = (k1, st, ok) /\ handles k1 = handles (win_kernel o))
    as (k1 & st & ok & -> & H1).
  { unfold InitWSA. pose proof (startup_frame (win_kernel o)) as Hs. destruct (wsa o) as [b|]; [by eexists _, _, _|].
    destruct (WSAStartup (win_kernel o)) as [k1 r]. by eexists _, _, _. }
  destruct ok; [|done]. cbn [negb]. pose proof (ws_getaddrinfo_law k1 host (port_text port)) as Hg.
  destruct (ws_getaddrinfo k1 host (port_text port)) as [k2 [res|]]; destruct Hg as [H2 Hres]; [|cbn; split; [done|congruence]].
  pose proof (win_dial_spec k2 res t) as Hd. destruct (dial k2 res t) as [k3 [s|]]; cbn; [|split; [done|congruence]].
  destruct Hd as (Hf & p & es & Hp & Ho & H3). exists s, es. split; [done|]. split; [congruence|].
  split; [|rewrite sndtimeo_frame, rcvtimeo_frame; congruence].
  exists p. split; [|done]. specialize (Hres res eq_refl). rewrite list.Forall_forall in Hres. by apply Hres.
Qed.

(** *** The interface *)

Definition win_conn (o : PlainSocketWin K) : option (conn A) := s ← win_sock_ o; handles (win_kernel o) !! s.
Definition win_up (o : PlainSocketWin K) : Prop := exists s es, win_conn o = Some (Open s es).
Definition win_written (o : PlainSocketWin K) : list Z := match win_conn o with Some (Open s _) => s | _ => [] end.
Definition win_stream (o : PlainSocketWin K) : list event := match win_conn o with Some (Open _ es) => es | _ => [] end.

Lemma win_views o out es :
  win_conn o = Some (Open out es) -> win_up o /\ win_written o = out /\ win_stream o = es.
Proof. intros E. unfold win_up, win_written, win_stream. rewrite E. split; [by eexists _, _|done]. Qed.

Lemma win_send_law o d o' n :
  win_up o -> d <> [] -> send o d = (o', n) ->
  win_up o' /\ win_stream o' = win_stream o /\
  ((n <= 0 /\ win_written o' = win_written o) \/
   (0 < n <= zlen d /\ win_written o' = win_written o ++ take (Z.to_nat n) d)).
Proof.
  intros (out & es & E) Hne. destruct (win_views o out es E) as (_ & -> & ->).
  destruct o as [k st [s|]]; [|done]. unfold send. cbn in *.
  pose proof (ws_send_law k s out es d E Hne) as Hs. destruct (ws_send k s d) as [k1 m]. intros [= <- <-].
  destruct Hs as [[Hm He]|[Hm He]].
  - destruct (win_views (mkWin k1 st (Some s)) out es) as (? & -> & ->); [cbn; by rewrite He|]. by auto.
  - destruct (win_views (mkWin k1 st (Some s)) (out ++ take (Z.to_nat m) d) es) as (? & -> & ->);
      [cbn; by rewrite He, lookup_insert_eq|]. by auto.
Qed.

Lemma recv_step_codes es cap :
  let '(r, _, _) := recv_step es cap in 0 <= r \/ r = -1 \/ r = -2.
Proof. destruct es as [|[bs| |] es]; cbn; lia. Qed.

Lemma win_recv_law o cap t o' r bs :
  win_up o -> (0 < cap)%nat -> recv o cap t = (o', r, bs) ->
  win_up o' /\ win_written o' = win_written o /\ recv_step (win_stream o) cap = (r, bs, win_stream o').
Proof.
  intros (out & es & E) Hc. destruct (win_views o out es E) as (_ & -> & ->).
  destruct o as [k st [s|]]; [|done]. unfold recv. cbn in *.
  pose proof (ws_recv_law k s out es cap E Hc) as Hs. pose proof (recv_step_codes es cap) as Hr.
  destruct (ws_recv k s cap) as [[[k1 r1] bs1] err]. destruct (recv_step es cap) as [[r2 bs2] es2].
  destruct Hs as (-> & He & Hcode). intros [= <- <- <-].
  destruct (win_views (mkWin k1 st (Some s)) out es2) as (? & -> & ->); [cbn; by rewrite He, lookup_insert_eq|].
  split; [done|]. split; [done|]. f_equal. f_equal.
  destruct (Z.ltb_spec r2 0) as [Hneg|Hpos].
  - destruct Hcode as [-> Ht]. cbn. destruct (Z.eqb_spec err WSAETIMEDOUT) as [Ee|Ee].
    + by apply Ht.
    + destruct Hr as [?|[?|?]]; [lia|done|]. by destruct Ee; apply Ht.
  - subst r1. destruct (Z.eqb_spec r2 0) as [->|]; [done|].
    destruct (Z.eqb_spec r2 SOCKET_ERROR) as [E1|]; [unfold SOCKET_ERROR in E1; lia|done].
Qed.

(** The clients' theorems hold over this socket too. *)
Definition win_laws (ms : Z) : @SocketLaws (PlainSocketWin K) (win_socket ms).
Proof.
  refine {| fresh o := win_sock_ o = None; up := win_up; written := win_written; stream := win_stream;
    peer _ h p es := win_reachable h p es |}.
  - intros o h p o' _ E. pose proof (win_connect_handles o h p ms) as Hc. cbn in E. rewrite E in Hc.
    destruct Hc as (s & es & Hs & _ & Hr & Hh).
    destruct (win_views o' [] es) as (? & -> & ->); [unfold win_conn; rewrite Hs; cbn; by rewrite Hh, lookup_insert_eq|].
    done.
  - exact win_send_law.
  - intros o cap k' r bs Hu Hc _. exact (win_recv_law o cap 5000 k' r bs Hu Hc).
Defined.

End WinTheorems.

(** ** A simulated Winsock *)

Section SimWin.
Context (hosts : list (Z * option (list event))).

Definition win_select (k : Sim) (s : Z) : Sim * Z * bool :=
  match sim_fds k !! s with
  | Some (Pending a) =>
      (sim_put k s (match sim_offer hosts a with Some es => Open [] es | None => Refused end), 1, true)
  | _ => (k, 1, true)
  end.

Definition win_recv (k : Sim) (s : Z) (cap : nat) : Sim * Z * list Z * Z :=
  match sim_fds k !! s with
  | Some (Open out es) =>
      let '(r, bs, es) := recv_step es cap in
      (sim_put k s (Open out es), if r <? 0 then SOCKET_ERROR else r, bs,
       if r =? -2 then WSAETIMEDOUT else 10054)
  | _ => (k, SOCKET_ERROR, [], 10038)
  end.

Definition sim_winsock : Winsock Sim Z := {|
  WSAStartup k := (k, 0);
  ws_getaddrinfo k _ _ := (k, Some hosts.*1);
  ws_socket k _ :=
    let s := sim_free (sim_fds k) in if s <? 0 then (k, None) else (sim_put k s Idle, Some s);
  ws_nonblock k _ _ := k;
  ws_connect k s a :=
    match sim_fds k !! s with
    | Some Idle => (sim_put k s (Pending a), SOCKET_ERROR, WSAEWOULDBLOCK)
    | _ => (k, SOCKET_ERROR, 10038)
    end;
  ws_select_write k s _ := win_select k s;
  ws_so_error k s := (k, match sim_fds k !! s with Some Refused => 10061 | _ => 0 end);
  ws_rcvtimeo k _ _ := k;
  ws_sndtimeo k _ _ := k;
  ws_send := sim_send;
  ws_recv := win_recv;
  closesocket k s := sim_set k (delete s (sim_fds k)) |}.

Definition sim_win_laws : @WinLaws Sim Z sim_winsock.
Proof.
  refine {| ws_resolves _ _ a := a ∈ hosts.*1; ws_offers a es := sim_offer hosts a = Some es; handles := sim_fds |}.
  - done.
  - intros k h p. cbn. split; [done|]. intros l [= <-]. by apply list.Forall_forall.
  - intros k a. cbn -[Z.ltb]. destruct (sim_free_spec (sim_fds k)) as [->|[Hr Hn]]; [done|].
    rewrite (proj2 (Z.ltb_ge _ _)) by lia. done.
  - done.
  - intros k s a Hd. cbn. rewrite Hd. right. by left.
  - intros k s tv a Hd. cbn. unfold win_select. rewrite Hd. eexists. split; [done|]. cbn.
    destruct (sim_offer hosts a) as [es|]; [right; by exists es|by left].
  - intros k s c Hd. cbn. rewrite Hd. split; [done|]. by intros ->.
  - done.
  - done.
  - intros k s out es d Hd Hne. cbn [ws_send sim_winsock]. unfold sim_send. rewrite Hd. cbn [sim_put sim_set sim_fds].
    right. destruct d as [|x d]; [done|]. cbn [length]. set (n := Nat.min 1000 (S (length d))).
    assert (0 < n <= S (length d))%nat as Hn by (subst n; lia). clearbody n. split; [lia|]. by rewrite Nat2Z.id.
  - intros k s out es cap Hd Hc. cbn [ws_recv sim_winsock]. unfold win_recv. rewrite Hd.
    pose proof (recv_step_codes es cap) as Hr. destruct (recv_step es cap) as [[r bs] es'].
    split; [done|]. split; [done|]. destruct (Z.ltb_spec r 0); [|done]. split; [done|].
    destruct (Z.eqb_spec r (-2)) as [->|]; [done|]. split; [intros E; discriminate E|lia].
  - done.
Defined.

End SimWin.

(** The second address is reached, and a failed connect on the connected object reports
    the failure, unlike the POSIX class. *)
Example win_second_address :
  let '(o, ok) := connect (H := sim_winsock [(1, None); (2, Some [])])
                    (MakePlainSocket (mkSim [] ∅ ∅ ∅) None) (str "pool") 3333 5000 in
  ok = true /\ win_sock_ o = Some 3 /\
  (connect (H := sim_winsock [(1, None)]) o (str "pool") 3333 5000).2 = false.
Proof. vm_compute. done. Qed.
