(* ===== verification/Tls.v ===== *)
(** * The TLS socket ([src/net/socket_openssl.cc])

    The two branches of the conditional compilation differ only in the helpers at the top
    of the file.  They are the class [Tcp], with an instance for each branch: [posix_tcp]
    over the system calls of [Sockets] and [win_tcp] over the Winsock calls of
    [SocketsWin].  OpenSSL is a parameter, class [Ssl].  The theorems are about resources:
    the descriptor, the context and the connection object; they are proved against
    [TcpLaws], which both instances discharge. *)

From stdpp Require Import base numbers list option gmap strings.
From S2P Require Import Prelude FileSys Json Net Sockets SocketsWin.

Open Scope Z_scope.

(** ** OpenSSL *)

(** Contexts and connections are pointers; a constructor may return null. *)
Class Ssl (K : Type) := {
  SSL_CTX_new : K -> K * option Z;
  SSL_CTX_set_options : K -> Z -> Z -> K;
  SSL_CTX_free : K -> Z -> K;
  SSL_new : K -> Z -> K * option Z;
  SSL_free : K -> Z -> K;
  SSL_set_tlsext_host_name : K -> Z -> list Z -> K;
  SSL_set1_host : K -> Z -> list Z -> K;
  SSL_set_fd : K -> Z -> Z -> K;
  SSL_connect : K -> Z -> K * Z;
  SSL_get_error : K -> Z -> Z -> Z;
  SSL_write : K -> Z -> list Z -> K * Z;
  SSL_read : K -> Z -> nat -> K * Z * list Z;
  SSL_shutdown : K -> Z -> K }.

Definition SSL_ERROR_WANT_READ : Z := 2.
Definition SSL_ERROR_WANT_WRITE : Z := 3.
Definition SSL_OP_NO_COMPRESSION : Z := 131072.

(** What OpenSSL and the system own for the process: open descriptors, contexts and
    connection objects. *)
Record resources := mkRes { r_fds : gset Z; r_ctxs : gset Z; r_ssls : gset Z }.

Definition with_fd (fd : Z) (r : resources) : resources := mkRes ({[fd]} ∪ r_fds r) (r_ctxs r) (r_ssls r).
Definition with_ctx (c : Z) (r : resources) : resources := mkRes (r_fds r) ({[c]} ∪ r_ctxs r) (r_ssls r).
Definition with_ssl (s : Z) (r : resources) : resources := mkRes (r_fds r) (r_ctxs r) ({[s]} ∪ r_ssls r).
Definition without_fd (fd : Z) (r : resources) : resources := mkRes (r_fds r ∖ {[fd]}) (r_ctxs r) (r_ssls r).
Definition without_ctx (c : Z) (r : resources) : resources := mkRes (r_fds r) (r_ctxs r ∖ {[c]}) (r_ssls r).
Definition without_ssl (s : Z) (r : resources) : resources := mkRes (r_fds r) (r_ctxs r) (r_ssls r ∖ {[s]}).

(** Only the constructors and destructors change what is owned. *)
Class SslLaws (K : Type) `{Ssl K} := {
  owned : K -> resources;
  owned_CTX_new k :
    let '(k', c) := SSL_CTX_new k in
    match c with
    | None => owned k' = owned k
    | Some c => (c ∉ r_ctxs (owned k)) /\ owned k' = with_ctx c (owned k)
    end;
  owned_set_options k c o : owned (SSL_CTX_set_options k c o) = owned k;
  owned_CTX_free k c : owned (SSL_CTX_free k c) = without_ctx c (owned k);
  owned_new k c :
    let '(k', s) := SSL_new k c in
    match s with
    | None => owned k' = owned k
    | Some s => (s ∉ r_ssls (owned k)) /\ owned k' = with_ssl s (owned k)
    end;
  owned_free k s : owned (SSL_free k s) = without_ssl s (owned k);
  owned_tlsext k s h : owned (SSL_set_tlsext_host_name k s h) = owned k;
  owned_host k s h : owned (SSL_set1_host k s h) = owned k;
  owned_set_fd k s fd : owned (SSL_set_fd k s fd) = owned k;
  owned_ssl_connect k s : owned (SSL_connect k s).1 = owned k;
  owned_shutdown k s : owned (SSL_shutdown k s) = owned k }.

(** ** The helpers of the two branches *)

(** [tcp_socket] is given the loop's [fd] and returns it as the iteration leaves it, with
    whether the iteration is skipped.  [tcp_init] has the static pair of [InitWSA]. *)
Class Tcp (K A : Type) := {
  tcp_init : K -> option bool -> K * option bool * bool;
  tcp_getaddrinfo : K -> list Z -> list Z -> K * option (list A);
  tcp_socket : K -> A -> Z -> K * Z * bool;
  tcp_nonblock : K -> Z -> bool -> K;
  tcp_connect : K -> Z -> A -> K * Z;
  tcp_wait : K -> Z -> bool -> Z -> K * bool;
  tcp_close : K -> Z -> K }.

Class TcpLaws (K A : Type) `{SslLaws K, !Tcp K A} := {
  owned_init k w : owned (tcp_init k w).1.1 = owned k;
  owned_getaddrinfo k h p : owned (tcp_getaddrinfo k h p).1 = owned k;
  owned_socket k (a : A) fd :
    let '(k', fd', skip) := tcp_socket k a fd in
    if skip : bool then owned k' = owned k /\ (fd < 0 -> fd' < 0)
    else 0 <= fd' /\ (fd' ∉ r_fds (owned k)) /\ owned k' = with_fd fd' (owned k);
  owned_nonblock k fd nb : owned (tcp_nonblock k fd nb) = owned k;
  owned_connect k fd (a : A) : owned (tcp_connect k fd a).1 = owned k;
  owned_wait k fd w t : owned (tcp_wait k fd w t).1 = owned k;
  owned_close k fd : owned (tcp_close k fd) = without_fd fd (owned k) }.

Section Posix.
Context {K A : Type} `{Sys K A}.

Definition wait_fd (k : K) (fd : Z) (write : bool) (timeout_ms : Z) : K * bool :=
  let '(k, r, _) := sys_select k fd write (timeval timeout_ms) in (k, 0 <? r).

(** [set_nonblock] repeats the one of [socket_posix.cc]; nobody reads its result. *)
Definition posix_tcp : Tcp K A := {|
  tcp_init k w := (k, w, true);
  tcp_getaddrinfo := sys_getaddrinfo;
  tcp_socket k p _ := let '(k, fd) := sys_socket k p in (k, fd, fd <? 0);
  tcp_nonblock k fd nb := (set_nonblock k fd nb).1;
  tcp_connect k fd p := (sys_connect k fd p).1;
  tcp_wait := wait_fd;
  tcp_close := sys_close |}.

End Posix.

(** [select] with one set, as the Windows helper calls it: with no set of exceptions. *)
Class WinSelect (K : Type) := ws_select : K -> Z -> bool -> Z * Z -> K * Z.

Section Windows.
Context {K A : Type} `{Winsock K A, WinSelect K}.

Definition wait_fd_win (k : K) (fd : Z) (write : bool) (timeout_ms : Z) : K * bool :=
  let '(k, r) := ws_select k fd write (timeval timeout_ms) in (k, 0 <? r).

(** A socket is kept in an [int]. *)
Definition socket_win (k : K) (p : A) (fd : Z) : K * Z * bool :=
  match ws_socket k p with
  | (k, None) => (k, fd, true)
  | (k, Some s) => (k, i32 s, false)
  end.

(** [InitWSA] repeats the one of [socket_win.cc]. *)
Definition win_tcp : Tcp K A := {|
  tcp_init := InitWSA;
  tcp_getaddrinfo := ws_getaddrinfo;
  tcp_socket := socket_win;
  tcp_nonblock := ws_nonblock;
  tcp_connect k fd p := (ws_connect k fd p).1;
  tcp_wait := wait_fd_win;
  tcp_close := closesocket |}.

End Windows.

(** ** The secure socket *)

Record TlsSocketOpenSSL (K : Type) := mkTls {
  kernel : K; wsa : option bool; ctx_ : option Z; ssl_ : option Z; fd_ : Z }.
Arguments mkTls {K}. Arguments kernel {K}. Arguments wsa {K}.
Arguments ctx_ {K}. Arguments ssl_ {K}. Arguments fd_ {K}.

Section Tls.
Context {K A : Type} `{Tcp K A, Ssl K}.

(** The loop over the addresses: the descriptor, negative when there is none. *)
Fixpoint dial (k : K) (res : list A) (timeout_ms fd : Z) : K * Z :=
  match res with
  | [] => (k, fd)
  | p :: res =>
      let '(k, fd, skip) := tcp_socket k p fd in
      if skip : bool then dial k res timeout_ms fd
      else
        let k := tcp_nonblock k fd true in
        let '(k, c) := tcp_connect k fd p in
        let '(k, ok) := if c =? 0 then (k, true) else tcp_wait k fd true timeout_ms in
        if ok : bool then (tcp_nonblock k fd false, fd) else dial (tcp_close k fd) res timeout_ms (-1)
  end.

(** The members are null or live here. *)
Definition cleanup_fd (k : K) (c s : Z) (fd : Z) : K := tcp_close (SSL_CTX_free (SSL_free k s) c) fd.

(** The handshake; [None] is a loop still running. *)
Fixpoint handshake (fuel : nat) (k : K) (s fd timeout_ms : Z) : option (K * bool) :=
  match fuel with
  | O => None
  | S fuel =>
      let '(k, r) := SSL_connect k s in
      if r =? 1 then Some (k, true)
      else
        let e := SSL_get_error k s r in
        if e =? SSL_ERROR_WANT_READ then
          let '(k, ok) := tcp_wait k fd false timeout_ms in
          if ok then handshake fuel k s fd timeout_ms else Some (k, false)
        else if e =? SSL_ERROR_WANT_WRITE then
          let '(k, ok) := tcp_wait k fd true timeout_ms in
          if ok then handshake fuel k s fd timeout_ms else Some (k, false)
        else Some (k, false)
  end.

Definition connect (fuel : nat) (o : TlsSocketOpenSSL K) (host : list Z) (port timeout_ms : Z) :
    option (TlsSocketOpenSSL K * bool) :=
  let '(k, st, up) := tcp_init (kernel o) (wsa o) in
  if negb up then Some (mkTls k st (ctx_ o) (ssl_ o) (fd_ o), false) else
  let '(k, res) := tcp_getaddrinfo k host (port_text port) in
  match res with
  | None => Some (mkTls k st (ctx_ o) (ssl_ o) (fd_ o), false)
  | Some res =>
      let '(k, fd) := dial k res timeout_ms (-1) in
      if fd <? 0 then Some (mkTls k st (ctx_ o) (ssl_ o) (fd_ o), false)
      else
        let '(k, ctx) := SSL_CTX_new k in
        match ctx with
        | None => Some (mkTls (tcp_close k fd) st None (ssl_ o) (fd_ o), false)
        | Some c =>
            let k := SSL_CTX_set_options k c SSL_OP_NO_COMPRESSION in
            let '(k, ssl) := SSL_new k c in
            match ssl with
            | None => Some (mkTls (tcp_close (SSL_CTX_free k c) fd) st None None (fd_ o), false)
            | Some s =>
                let k := SSL_set_tlsext_host_name k s host in
                let k := SSL_set1_host k s host in
                let k := SSL_set_fd k s fd in
                let k := tcp_nonblock k fd true in
                '(k, ok) ← handshake fuel k s fd timeout_ms;
                if ok : bool then Some (mkTls (tcp_nonblock k fd false) st (Some c) (Some s) fd, true)
                else Some (mkTls (cleanup_fd k c s fd) st None None (fd_ o), false)
            end
        end
  end.

Definition send (o : TlsSocketOpenSSL K) (data : list Z) : TlsSocketOpenSSL K * Z :=
  match ssl_ o with
  | None => (o, -1)
  | Some s =>
      let '(k, r) := SSL_write (kernel o) s data in
      (mkTls k (wsa o) (ctx_ o) (ssl_ o) (fd_ o), if r <=? 0 then -1 else r)
  end.

(** The time-out is not used. *)
Definition recv (o : TlsSocketOpenSSL K) (cap : nat) (timeout_ms : Z) : TlsSocketOpenSSL K * Z * list Z :=
  match ssl_ o with
  | None => (o, -1, [])
  | Some s =>
      let '(k, r, bs) := SSL_read (kernel o) s cap in
      let o := mkTls k (wsa o) (ctx_ o) (ssl_ o) (fd_ o) in
      if 0 <? r then (o, r, bs)
      else
        let e := SSL_get_error k s r in
        if (e =? SSL_ERROR_WANT_READ) || (e =? SSL_ERROR_WANT_WRITE) then (o, -2, [])
        else (o, if r =? 0 then 0 else -1, [])
  end.

Definition close (o : TlsSocketOpenSSL K) : TlsSocketOpenSSL K :=
  let k := match ssl_ o with Some s => SSL_free (SSL_shutdown (kernel o) s) s | None => kernel o end in
  let k := match ctx_ o with Some c => SSL_CTX_free k c | None => k end in
  if 0 <=? fd_ o then mkTls (tcp_close k (fd_ o)) (wsa o) None None (-1) else mkTls k (wsa o) None None (fd_ o).

Definition MakeTlsSocket (k : K) (st : option bool) : option (TlsSocketOpenSSL K) := Some (mkTls k st None None (-1)).

End Tls.

(** ** Resources *)

Section TlsLaws.
Context {K A : Type} `{TcpLaws K A}.

Lemma res_eq r : mkRes (r_fds r) (r_ctxs r) (r_ssls r) = r.
Proof. by destruct r. Qed.

Lemma close_opened fd r : fd ∉ r_fds r -> without_fd fd (with_fd fd r) = r.
Proof. intros Hf. rewrite <- (res_eq r) at 2. unfold without_fd, with_fd. cbn. f_equal. set_solver. Qed.

Lemma free_ctx c r : c ∉ r_ctxs r -> without_ctx c (with_ctx c r) = r.
Proof. intros Hf. rewrite <- (res_eq r) at 2. unfold without_ctx, with_ctx. cbn. f_equal. set_solver. Qed.

Lemma free_ssl s r : s ∉ r_ssls r -> without_ssl s (with_ssl s r) = r.
Proof. intros Hf. rewrite <- (res_eq r) at 2. unfold without_ssl, with_ssl. cbn. f_equal. set_solver. Qed.

(** One descriptor at most is left open, the one returned. *)
Lemma dial_owned k res t fd0 :
  fd0 < 0 ->
  let '(k', fd) := dial k res t fd0 in
  (fd < 0 /\ owned k' = owned k) \/
  (0 <= fd /\ (fd ∉ r_fds (owned k)) /\ owned k' = with_fd fd (owned k)).
Proof.
  revert k fd0. induction res as [|p res IH]; intros k fd0 Hfd0; [by left|]. cbn [dial].
  pose proof (owned_socket k p fd0) as Hs. destruct (tcp_socket k p fd0) as [[k1 fd] skip].
  destruct skip; [destruct Hs as [Hd Hn]; rewrite <- Hd; by apply IH, Hn|]. destruct Hs as (Hr & Hf & Hd).
  pose proof (owned_connect (tcp_nonblock k1 fd true) fd p) as Hc. rewrite owned_nonblock in Hc.
  destruct (tcp_connect (tcp_nonblock k1 fd true) fd p) as [k2 c]. cbn in Hc.
  assert (exists k3 ok, (if c =? 0 then (k2, true) else tcp_wait k2 fd true t) = (k3, ok) /\ owned k3 = owned k1)
    as (k3 & ok & -> & H3).
  { destruct (c =? 0); [by exists k2, true|]. pose proof (owned_wait k2 fd true t) as Hw.
    destruct (tcp_wait k2 fd true t) as [k3 ok]. exists k3, ok. split; [done|]. cbn in Hw. congruence. }
  destruct ok; [right; by rewrite owned_nonblock, H3|].
  specialize (IH (tcp_close k3 fd) (-1) ltac:(lia)). rewrite owned_close, H3, Hd, close_opened in IH by done. exact IH.
Qed.

Lemma handshake_owned fuel k s fd t k' ok :
  handshake fuel k s fd t = Some (k', ok) -> owned k' = owned k.
Proof.
  revert k. induction fuel as [|fuel IH]; intros k; [done|]. cbn [handshake].
  pose proof (owned_ssl_connect k s) as Hc. destruct (SSL_connect k s) as [k1 r]. cbn in Hc. rewrite <- Hc.
  assert (Hwait : forall w, (let '(k2, ok) := tcp_wait k1 fd w t in
    if ok then handshake fuel k2 s fd t else Some (k2, false)) = Some (k', ok) -> owned k' = owned k1).
  { intros w. pose proof (owned_wait k1 fd w t) as Hw. destruct (tcp_wait k1 fd w t) as [k2 ok2]. cbn in Hw.
    destruct ok2; [|by intros [= <- _]]. intros E. by rewrite (IH _ E). }
  destruct (r =? 1); [by intros [= <- _]|].
  destruct (SSL_get_error k1 s r =? SSL_ERROR_WANT_READ); [apply Hwait|].
  destruct (SSL_get_error k1 s r =? SSL_ERROR_WANT_WRITE); [apply Hwait|]. by intros [= <- _].
Qed.

Lemma connect_owned fuel k st host port t o' ok :
  connect fuel (mkTls k st None None (-1)) host port t = Some (o', ok) ->
  if ok then
    (exists c s, ctx_ o' = Some c /\ ssl_ o' = Some s /\ 0 <= fd_ o' /\
       owned (kernel o') = with_ssl s (with_ctx c (with_fd (fd_ o') (owned k)))) /\
    owned (kernel (close o')) = owned k
  else ctx_ o' = None /\ ssl_ o' = None /\ fd_ o' = -1 /\ owned (kernel o') = owned k.
Proof.
  unfold connect. cbn [kernel wsa ctx_ ssl_ fd_].
  pose proof (owned_init k st) as Hi. destruct (tcp_init k st) as [[k0 st'] up]. cbn in Hi.
  destruct up; [|by intros [= <- <-]]. cbn [negb].
  pose proof (owned_getaddrinfo k0 host (port_text port)) as Hg. rewrite Hi in Hg.
  destruct (tcp_getaddrinfo k0 host (port_text port)) as [k1 [res|]]; cbn in Hg; [|by intros [= <- <-]].
  pose proof (dial_owned k1 res t (-1) ltac:(lia)) as Hd. destruct (dial k1 res t (-1)) as [k2 fd]. rewrite Hg in Hd.
  destruct Hd as [[Hn Hd]|(Hr & Hf & Hd)].
  { rewrite (proj2 (Z.ltb_lt _ _) Hn). by intros [= <- <-]. }
  rewrite (proj2 (Z.ltb_ge fd 0)) by lia. pose proof (owned_CTX_new k2) as Hc.
  destruct (SSL_CTX_new k2) as [k3 [c|]].
  2:{ intros [= <- <-]. cbn. rewrite owned_close, Hc, Hd, close_opened by done. done. }
  destruct Hc as [Hcf Hc]. pose proof (owned_new (SSL_CTX_set_options k3 c SSL_OP_NO_COMPRESSION) c) as Hs.
  rewrite owned_set_options, Hc, Hd in Hs. rewrite Hd in Hcf.
  destruct (SSL_new _ c) as [k4 [s|]].
  2:{ intros [= <- <-]. cbn. rewrite owned_close, owned_CTX_free, Hs, free_ctx, close_opened by done. done. }
  destruct Hs as [Hsf Hs]. destruct (handshake _ _ _ _ _) as [[k5 hs]|] eqn:Eh; [|done].
  apply handshake_owned in Eh. rewrite owned_nonblock, owned_set_fd, owned_host, owned_tlsext, Hs in Eh.
  cbn [mbind option_bind]. destruct hs; intros [= <- <-]; cbn [ctx_ ssl_ fd_ wsa kernel].
  - split.
    + exists c, s. by rewrite owned_nonblock.
    + unfold close. cbn [ctx_ ssl_ fd_ wsa kernel]. rewrite (proj2 (Z.leb_le 0 fd)) by lia. cbn.
      rewrite owned_close, owned_CTX_free, owned_free, owned_shutdown, owned_nonblock, Eh,
        free_ssl, free_ctx, close_opened by done. done.
  - unfold cleanup_fd. rewrite owned_close, owned_CTX_free, owned_free, Eh, free_ssl, free_ctx, close_opened by done. done.
Qed.

(** The peer's part of a handshake is finite: every attempt that still wants to read or
    write leaves fewer to come, waiting adds none, and there are fewer than [fuel]. *)
Record finite_handshake (rounds : K -> nat) (fuel : nat) : Prop := {
  fh_fuel k : (rounds k < fuel)%nat;
  fh_wait k fd w t : (rounds (tcp_wait k fd w t).1 <= rounds k)%nat;
  fh_connect k s : let '(k', r) := SSL_connect k s in
    r = 1 \/ (rounds k' < rounds k)%nat \/
    (SSL_get_error k' s r <> SSL_ERROR_WANT_READ /\ SSL_get_error k' s r <> SSL_ERROR_WANT_WRITE) }.

Lemma handshake_ends rounds fuel0 fuel k s fd t :
  finite_handshake rounds fuel0 -> (rounds k < fuel)%nat -> exists k' ok, handshake fuel k s fd t = Some (k', ok).
Proof.
  intros [_ Hsel Hc]. revert k. induction fuel as [|fuel IH]; intros k Hr; [lia|]. cbn [handshake].
  specialize (Hc k s). destruct (SSL_connect k s) as [k1 r].
  destruct (Z.eqb_spec r 1) as [|Hr1]; [by eexists _, _|].
  assert (Hwait : forall w, (rounds k1 < rounds k)%nat -> exists k' ok, (let '(k2, ok) := tcp_wait k1 fd w t in
    if ok then handshake fuel k2 s fd t else Some (k2, false)) = Some (k', ok)).
  { intros w Hl. specialize (Hsel k1 fd w t). destruct (tcp_wait k1 fd w t) as [k2 ok]. cbn in Hsel.
    destruct ok; [apply IH; lia|by eexists _, _]. }
  destruct (Z.eqb_spec (SSL_get_error k1 s r) SSL_ERROR_WANT_READ) as [E1|_];
    [apply Hwait; by destruct Hc as [?|[?|[? _]]]|].
  destruct (Z.eqb_spec (SSL_get_error k1 s r) SSL_ERROR_WANT_WRITE) as [E1|_];
    [apply Hwait; by destruct Hc as [?|[?|[_ ?]]]|by eexists _, _].
Qed.

(** C28: with a finite handshake a secure connect returns.  One that fails, at whatever
    stage, owns what it owned before: the descriptor, the context and the connection
    object are released; one that succeeds has added exactly one of each, the members of
    the object, and closing it releases them. *)
Theorem tls_connect_resources rounds fuel k st host port t :
  finite_handshake rounds fuel ->
  exists o' ok, connect fuel (mkTls k st None None (-1)) host port t = Some (o', ok) /\
  if ok : bool then
    (exists c s, ctx_ o' = Some c /\ ssl_ o' = Some s /\ 0 <= fd_ o' /\
       owned (kernel o') = with_ssl s (with_ctx c (with_fd (fd_ o') (owned k)))) /\
    owned (kernel (close o')) = owned k
  else ctx_ o' = None /\ ssl_ o' = None /\ fd_ o' = -1 /\ owned (kernel o') = owned k.
Proof.
  intros Hf. assert (exists o' ok, connect fuel (mkTls k st None None (-1)) host port t = Some (o', ok)) as (o' & ok & E).
  { unfold connect. cbn [kernel wsa ctx_ ssl_ fd_].
    destruct (tcp_init k st) as [[k0 st'] []]; [|by eexists _, _].
    destruct (tcp_getaddrinfo _ _ _) as [k1 [res|]]; [|by eexists _, _].
    destruct (dial k1 res t (-1)) as [k2 fd]. destruct (fd <? 0); [by eexists _, _|].
    destruct (SSL_CTX_new k2) as [k3 [c|]]; [|by eexists _, _].
    destruct (SSL_new _ c) as [k4 [s|]]; [|by eexists _, _].
    edestruct (handshake_ends rounds fuel fuel) as (k5 & hs & ->); [done|apply Hf|].
    cbn [mbind option_bind]. destruct hs; by eexists _, _. }
  exists o', ok. split; [exact E|]. by eapply connect_owned.
Qed.

End TlsLaws.

(** ** The two branches keep the laws

    What the system owns changes in the calls that open and close a descriptor only. *)

Class SysOwned (K A : Type) `{SslLaws K, !Sys K A} := {
  so_getaddrinfo k h p : owned (sys_getaddrinfo k h p).1 = owned k;
  so_socket k (a : A) :
    let '(k', fd) := sys_socket k a in
    (fd < 0 /\ owned k' = owned k) \/ (0 <= fd /\ (fd ∉ r_fds (owned k)) /\ owned k' = with_fd fd (owned k));
  so_setfl k fd fl : owned (sys_setfl k fd fl).1 = owned k;
  so_connect k fd a : owned (sys_connect k fd a).1.1 = owned k;
  so_select k fd w tv : owned (sys_select k fd w tv).1.1 = owned k;
  so_close k fd : owned (sys_close k fd) = without_fd fd (owned k) }.

#[export] Instance posix_tcp_laws {K A} `{SysOwned K A} : TcpLaws (Tcp0 := posix_tcp) K A.
Proof.
  constructor; cbn.
  - done.
  - intros. apply so_getaddrinfo.
  - intros k a fd. pose proof (so_socket k a) as Hs. destruct (sys_socket k a) as [k' fd'].
    destruct Hs as [[Hn Hd]|(Hr & Hs)].
    + rewrite (proj2 (Z.ltb_lt _ _) Hn). done.
    + rewrite (proj2 (Z.ltb_ge _ _)) by lia. done.
  - intros k fd nb. unfold set_nonblock. destruct (sys_getfl k fd <? 0); [done|apply so_setfl].
  - intros. apply so_connect.
  - intros k fd w t. unfold wait_fd. pose proof (so_select k fd w (timeval t)) as E.
    by destruct (sys_select k fd w (timeval t)) as [[k1 r] set].
  - intros. apply so_close.
Qed.

(** Handles have 32 significant bits and are small. *)
Class WinOwned (K A : Type) `{SslLaws K, !Winsock K A, !WinSelect K} := {
  wo_startup k : owned (WSAStartup k).1 = owned k;
  wo_getaddrinfo k h p : owned (ws_getaddrinfo k h p).1 = owned k;
  wo_socket k (a : A) :
    let '(k', s) := ws_socket k a in
    match s with
    | None => owned k' = owned k
    | Some s => 0 <= s < 2 ^ 31 /\ (s ∉ r_fds (owned k)) /\ owned k' = with_fd s (owned k)
    end;
  wo_nonblock k s nb : owned (ws_nonblock k s nb) = owned k;
  wo_connect k s a : owned (ws_connect k s a).1.1 = owned k;
  wo_select k s w tv : owned (ws_select k s w tv).1 = owned k;
  wo_close k s : owned (closesocket k s) = without_fd s (owned k) }.

#[export] Instance win_tcp_laws {K A} `{WinOwned K A} : TcpLaws (Tcp0 := win_tcp) K A.
Proof.
  constructor; cbn.
  - intros k [ok|]; cbn; [done|]. pose proof (wo_startup k) as E. by destruct (WSAStartup k).
  - intros. apply wo_getaddrinfo.
  - intros k a fd. unfold socket_win. pose proof (wo_socket k a) as Hs.
    destruct (ws_socket k a) as [k' [s|]]; [|done]. destruct Hs as [Hr Hs]. rewrite i32_small by lia.
    split; [lia|done].
  - intros. apply wo_nonblock.
  - intros. apply wo_connect.
  - intros k fd w t. unfold wait_fd_win. pose proof (wo_select k fd w (timeval t)) as E.
    by destruct (ws_select k fd w (timeval t)).
  - intros. apply wo_close.
Qed.

(** ** The simulated kernel with TLS

    A handshake succeeds when the descriptor is connected.  The connection objects record
    their descriptor. *)

Definition sim_new_ptr (used : gset Z) : Z := base.fresh used.

Definition sim_tls (k : Sim) (cs : gset Z) (ss : gmap Z Z) : Sim := mkSim (sim_hosts k) (sim_fds k) cs ss.

Definition sim_ssl_fd (k : Sim) (s : Z) : Z := default (-1) (sim_ssls k !! s).

#[export] Instance sim_ssl : Ssl Sim := {
  SSL_CTX_new k := let c := sim_new_ptr (sim_ctxs k) in (sim_tls k ({[c]} ∪ sim_ctxs k) (sim_ssls k), Some c);
  SSL_CTX_set_options k _ _ := k;
  SSL_CTX_free k c := sim_tls k (sim_ctxs k ∖ {[c]}) (sim_ssls k);
  SSL_new k _ := let s := sim_new_ptr (dom (sim_ssls k)) in (sim_tls k (sim_ctxs k) (<[s := -1]> (sim_ssls k)), Some s);
  SSL_free k s := sim_tls k (sim_ctxs k) (delete s (sim_ssls k));
  SSL_set_tlsext_host_name k _ _ := k;
  SSL_set1_host k _ _ := k;
  SSL_set_fd k s fd :=
    sim_tls k (sim_ctxs k) (match sim_ssls k !! s with Some _ => <[s := fd]> (sim_ssls k) | None => sim_ssls k end);
  SSL_connect k s := (k, match sim_fds k !! sim_ssl_fd k s with Some (Open _ _) => 1 | _ => -1 end);
  SSL_get_error _ _ _ := 5;
  SSL_write k s d := sim_send k (sim_ssl_fd k s) d;
  SSL_read k s cap := sim_recv k (sim_ssl_fd k s) cap;
  SSL_shutdown k _ := k }.

Definition sim_owned (k : Sim) : resources := mkRes (dom (sim_fds k)) (sim_ctxs k) (dom (sim_ssls k)).

#[export] Instance sim_ssl_laws : SslLaws Sim.
Proof.
  refine {| owned := sim_owned |}; try (intros; reflexivity).
  - intros k. cbn. split; [apply is_fresh|done].
  - intros k c. cbn. split; [apply is_fresh|]. unfold sim_owned, with_ssl. cbn. f_equal. apply dom_insert_L.
  - intros k s. cbn. unfold sim_owned, without_ssl. cbn. f_equal. apply dom_delete_L.
  - intros k s h. cbn. unfold sim_owned. cbn. f_equal. destruct (sim_ssls k !! s) eqn:E; [|done].
    apply dom_insert_lookup_L. done.
Defined.

Lemma sim_owned_put k fd s : is_Some (sim_fds k !! fd) -> sim_owned (sim_put k fd s) = sim_owned k.
Proof. intros Hs. unfold sim_owned. cbn. f_equal. by apply dom_insert_lookup_L. Qed.

Lemma sim_owned_new k fd s : sim_owned (sim_put k fd s) = with_fd fd (sim_owned k).
Proof. unfold sim_owned, with_fd. cbn. f_equal. apply dom_insert_L. Qed.

Lemma sim_owned_delete k fd : sim_owned (sim_set k (delete fd (sim_fds k))) = without_fd fd (sim_owned k).
Proof. unfold sim_owned, without_fd. cbn. f_equal. apply dom_delete_L. Qed.

#[export] Instance sim_sys_owned : SysOwned Sim Z.
Proof.
  constructor; try (intros; reflexivity).
  - intros k a. cbn -[Z.ltb]. destruct (sim_free_spec (sim_fds k)) as [->|[Hr Hn]]; [cbn; auto with lia|].
    destruct (Z.ltb_spec (sim_free (sim_fds k)) 0); [lia|]. right. split; [lia|].
    split; [by apply not_elem_of_dom|apply sim_owned_new].
  - intros k fd a. cbn. destruct (sim_fds k !! fd) as [[]|] eqn:E; try done. by apply sim_owned_put.
  - intros k fd w tv. cbn. unfold sim_select.
    destruct w, (sim_fds k !! fd) as [[|a| |s [|[d| |] es]]|] eqn:E; try done; by apply sim_owned_put.
  - intros k fd. apply sim_owned_delete.
Qed.

(** Without a set of exceptions [select] never reports a refused connection. *)
Definition sim_ws_select (hosts : list (Z * option (list event))) : WinSelect Sim := fun k s w _ =>
  match w, sim_fds k !! s with
  | true, Some (Pending a) =>
      match sim_offer hosts a with Some es => (sim_put k s (Open [] es), 1) | None => (sim_put k s Refused, 0) end
  | false, Some (Open s' (ETimeout :: es)) => (sim_put k s (Open s' es), 0)
  | _, _ => (k, 1)
  end.

#[local] Instance sim_win_owned hosts :
  WinOwned (Winsock0 := sim_winsock hosts) (WinSelect0 := sim_ws_select hosts) Sim Z.
Proof.
  constructor; try (intros; reflexivity).
  - intros k a. cbn -[Z.ltb Z.pow]. destruct (sim_free_spec (sim_fds k)) as [->|[Hr Hn]]; [done|].
    rewrite (proj2 (Z.ltb_ge _ _)) by lia. split; [lia|]. split; [by apply not_elem_of_dom|apply sim_owned_new].
  - intros k s a. cbn. destruct (sim_fds k !! s) as [[]|] eqn:E; try done. by apply sim_owned_put.
  - intros k s w tv. cbn. unfold ws_select, sim_ws_select.
    destruct w, (sim_fds k !! s) as [[|a| |s' [|[d| |] es]]|] eqn:E; try done; try by apply sim_owned_put.
    destruct (sim_offer hosts a); by apply sim_owned_put.
  - intros k fd. apply sim_owned_delete.
Qed.

#[local] Existing Instance posix_tcp.

Lemma sim_finite fuel : (0 < fuel)%nat -> finite_handshake (fun _ : Sim => 0%nat) fuel.
Proof. intros Hf. split; [done|done|]. intros k s. cbn. right. right. done. Qed.

Lemma tls_connect_resources_witness :
  exists o ok, connect 5 (mkTls (mkSim [(2, Some [])] ∅ ∅ ∅) None None None (-1)) (str "pool") 443 5000 = Some (o, ok) /\
    ok = true /\ sim_owned (kernel (close o)) = mkRes ∅ ∅ ∅.
Proof.
  destruct (tls_connect_resources (fun _ => 0%nat) 5 (mkSim [(2, Some [])] ∅ ∅ ∅) None (str "pool") 443 5000) as (o & ok & E & H).
  - apply sim_finite. lia.
  - exists o, ok. split; [exact E|].
    assert (ok = true) as Hok.
    { assert (option_map snd (connect 5 (mkTls (mkSim [(2, Some [])] ∅ ∅ ∅) None None None (-1)) (str "pool") 443 5000) = Some true) as Ec
        by (vm_compute; reflexivity).
      rewrite E in Ec. by injection Ec. }
    split; [exact Hok|]. rewrite Hok in H. exact (proj2 H).
Defined.

(** The time-out bounds each wait, not the handshake: with a peer that is always readable
    and never finishes, no amount of fuel ends the loop. *)
Definition stuck_ssl : Ssl Sim := {|
  SSL_CTX_new := SSL_CTX_new; SSL_CTX_set_options := SSL_CTX_set_options; SSL_CTX_free := SSL_CTX_free;
  SSL_new := SSL_new; SSL_free := SSL_free; SSL_set_tlsext_host_name := SSL_set_tlsext_host_name;
  SSL_set1_host := SSL_set1_host; SSL_set_fd := SSL_set_fd;
  SSL_connect k _ := (k, -1); SSL_get_error _ _ _ := SSL_ERROR_WANT_READ;
  SSL_write := SSL_write; SSL_read := SSL_read; SSL_shutdown := SSL_shutdown |}.

Lemma handshake_unbounded k s fd t fuel :
  sim_fds k !! fd = Some (Open [] []) -> handshake (H0 := stuck_ssl) fuel k s fd t = None.
Proof.
  intros Hf. induction fuel as [|fuel IH]; [done|]. cbn -[sim_select]. unfold wait_fd. cbn -[sim_select].
  unfold sim_select. rewrite Hf. cbn. exact IH.
Qed.

(** The POSIX branch does not ask whether the connection was refused: with a refused first address
    the second one, which the plain socket reaches, is never tried. *)
Example tls_refused_address_taken :
  (exists o, connect 5 (mkTls two_hosts None None None (-1)) (str "pool") 443 5000 = Some (o, false)) /\
  (Sockets.connect (Sockets.MakePlainSocket two_hosts) (str "pool") 443 5000).2 = true.
Proof. split; [vm_compute; by eexists|by vm_compute]. Qed.

(** The Windows branch does: its [select] does not report the refused address. *)
Example tls_win_second_address :
  let hosts := [(1, None); (2, Some [])] in
  exists o, connect (H := win_tcp (H := sim_winsock hosts) (H0 := sim_ws_select hosts)) 5
    (mkTls two_hosts None None None (-1)) (str "pool") 443 5000 = Some (o, true) /\ wsa o = Some true.
Proof. vm_compute. by eexists. Qed.
