(* ===== verification/StratumRunner.v ===== *)
(** * The Stratum session ([src/adapters/stratum_runner.cc], [stratum_submitter.h])

    The loop that keeps a pool connection: every message of the pool, the reconnect
    policy, and the submission of shares, over the line client of [Net.v] and the adapter
    of [Adapters.v]. *)

From stdpp Require Import base numbers list option strings.
From S2P Require Import Prelude Endian Targets Sha256 CpuVerify Midstate Merkle Registry Normalizer Json Hex Text Adapters Net.

Open Scope Z_scope.

(** ** State *)

(** [adapter_] is the adapter behind the runner's pointer.  [last_submit_sent_] is the
    clock reading in milliseconds, 0 when unset.  [reported] lists the calls made to the
    acceptance callback, newest last. *)
Record StratumRunner := mkRunner {
  adapter_ : StratumAdapter;
  last_job_id_ : list Z; r_extranonce1_ : list Z; r_extranonce2_size_ : Z;
  consecutive_connect_failures_ : Z; consecutive_quick_disconnects_ : Z;
  accepted_submits_ : Z; rejected_submits_ : Z; avg_submit_ms_ : Z;
  last_submit_sent_ : Z; has_callback : bool; reported : list (Z * Z);
  pending_work_id_ : Z; pending_nonce_ : Z }.

Definition StratumRunner_init (a : StratumAdapter) (cb : bool) : StratumRunner :=
  mkRunner a [] [] 0 0 0 0 0 0 0 cb [] 0 0.

Definition set_adapter (f : StratumAdapter -> StratumAdapter) (r : StratumRunner) : StratumRunner :=
  mkRunner (f (adapter_ r)) (last_job_id_ r) (r_extranonce1_ r) (r_extranonce2_size_ r)
    (consecutive_connect_failures_ r) (consecutive_quick_disconnects_ r)
    (accepted_submits_ r) (rejected_submits_ r) (avg_submit_ms_ r)
    (last_submit_sent_ r) (has_callback r) (reported r) (pending_work_id_ r) (pending_nonce_ r).
Definition set_job (job en1 : list Z) (en2 : Z) (r : StratumRunner) : StratumRunner :=
  mkRunner (adapter_ r) job en1 en2
    (consecutive_connect_failures_ r) (consecutive_quick_disconnects_ r)
    (accepted_submits_ r) (rejected_submits_ r) (avg_submit_ms_ r)
    (last_submit_sent_ r) (has_callback r) (reported r) (pending_work_id_ r) (pending_nonce_ r).
Definition set_health (cf qd : Z) (r : StratumRunner) : StratumRunner :=
  mkRunner (adapter_ r) (last_job_id_ r) (r_extranonce1_ r) (r_extranonce2_size_ r) cf qd
    (accepted_submits_ r) (rejected_submits_ r) (avg_submit_ms_ r)
    (last_submit_sent_ r) (has_callback r) (reported r) (pending_work_id_ r) (pending_nonce_ r).
Definition set_submits (acc rej avg sent : Z) (rep : list (Z * Z)) (r : StratumRunner) : StratumRunner :=
  mkRunner (adapter_ r) (last_job_id_ r) (r_extranonce1_ r) (r_extranonce2_size_ r)
    (consecutive_connect_failures_ r) (consecutive_quick_disconnects_ r) acc rej avg sent
    (has_callback r) rep (pending_work_id_ r) (pending_nonce_ r).

Definition setPendingSubmit (wid n : Z) (r : StratumRunner) : StratumRunner :=
  mkRunner (adapter_ r) (last_job_id_ r) (r_extranonce1_ r) (r_extranonce2_size_ r)
    (consecutive_connect_failures_ r) (consecutive_quick_disconnects_ r)
    (accepted_submits_ r) (rejected_submits_ r) (avg_submit_ms_ r)
    (last_submit_sent_ r) (has_callback r) (reported r) wid n.

Definition resetCounters (r : StratumRunner) : StratumRunner := set_health 0 0 r.

(** ** Messages *)

(** A placeholder in the source: the difficulty is ignored. *)
Definition compactFromDifficulty : Z := 520159231.

Abbreviation R := (M StratumRunner).

Section Messages.
Context {J : Type} `{Json J}.
(** [std::hash<std::string>]. *)
Context (hash : list Z -> Z).

Definition on_subscribe (j : J) : R unit :=
  mcatch
    (res ← lift (jfield j "result");
     en1 ← lift (x ← jat res 1; get_string x);
     _ ← modify (fun r => set_job (last_job_id_ r) en1 (r_extranonce2_size_ r) r);
     en2 ← lift (x ← jat res 2; get_int 32 x);
     _ ← modify (fun r => set_job (last_job_id_ r) (r_extranonce1_ r) (u8 en2) r);
     modify (fun r => set_adapter (fun a => onSubscribed a (r_extranonce1_ r) (r_extranonce2_size_ r)) r))
    (mret tt).

Definition on_configure (j : J) : R unit :=
  mcatch
    (res ← lift (jfield j "result");
     on ← lift (if contains res "version-rolling"
                then x ← jfield res "version-rolling"; get_bool x else mret false);
     if on : bool then
       mask_hex ← lift (value get_string res "version-rolling.mask" (str "00000000"));
       mask ← lift (catch (v ← stoul16 mask_hex; mret (u32 v)) (mret 0));
       modify (set_adapter (fun a => setVersionMask a mask))
     else mret tt)
    (mret tt).

(** The moving average of the submit latency, at clock reading [now]; when no submit is
    being timed nothing changes.  [ok] is set for an accepted share. *)
Definition ewma_ms (prev ms : Z) : Z := if prev =? 0 then ms else Z.quot (i32 (prev * 7 + ms)) 8.

Definition settle_submit (now : Z) (ok : bool) (r : StratumRunner) : StratumRunner :=
  if last_submit_sent_ r =? 0 then r
  else
    set_submits (accepted_submits_ r) (rejected_submits_ r)
      (ewma_ms (avg_submit_ms_ r) (i32 (now - last_submit_sent_ r))) 0
      (if ok && has_callback r then reported r ++ [(pending_work_id_ r, pending_nonce_ r)] else reported r) r.

Definition count_submit (ok : bool) (r : StratumRunner) : StratumRunner :=
  set_submits (if ok then i32 (accepted_submits_ r + 1) else accepted_submits_ r)
    (if ok then rejected_submits_ r else i32 (rejected_submits_ r + 1))
    (avg_submit_ms_ r) (last_submit_sent_ r) (reported r) r.

(** The code and message of an error are only logged; their conversions are guarded. *)
Definition on_submit_result (now : Z) (j : J) : R unit :=
  mcatch
    (if contains j "result" then
       ok ← lift (x ← jfield j "result"; get_bool x);
       _ ← modify (count_submit ok);
       modify (settle_submit now ok)
     else
       err ← lift (if contains j "error" then e ← jfield j "error"; mret (negb (is_null e)) else mret false);
       if err : bool then
         _ ← modify (count_submit false);
         modify (settle_submit now false)
       else mret tt)
    (mret tt).

Definition on_set_difficulty (j : J) : R unit :=
  mcatch
    (ok ← lift (p ← jfield j "params"; x ← jat p 0; mret (is_number x));
     if ok : bool then modify (set_adapter (fun a => updateVarDiff a compactFromDifficulty))
     else lift (inl type_error))
    (mret tt).

(** [try { for (mb : params[4]) push_back(mb.get<string>()) } catch (...) {}]: the
    strings before the first element that is not one. *)
Fixpoint strings_prefix (l : list J) : throws (list (list Z)) :=
  match l with
  | [] => mret []
  | x :: l =>
      match get_string x with
      | inl undefined_behaviour => inl undefined_behaviour
      | inl _ => mret []
      | inr s => r ← strings_prefix l; mret (s :: r)
      end
  end.

Definition get_at (params : J) (n : nat) : throws (list Z) := x ← jat params n; get_string x.
Definition get_hex32 (params : J) (n : nat) : throws Z :=
  s ← get_at params n; v ← stoul16 s; mret (u32 v).

(** The job fields of a notification, its coinbase and its Merkle root. *)
Definition notify_inputs (params : J) (job_id en1 : list Z) (en2_size : Z) : throws RawJobInputs :=
  version ← get_hex32 params 8;
  nbits ← get_hex32 params 9;
  ntime ← get_hex32 params 10;
  prevhash_hex ← get_at params 1;
  coinb1_hex ← get_at params 2;
  coinb2_hex ← get_at params 3;
  merkle_branch_hex ← (x ← jat params 4; strings_prefix (elements x));
  prevhash ← hexToBytes prevhash_hex (repeat 0 32);
  coinb1 ← scan_bytes coinb1_hex (length coinb1_hex / 2);
  coinb2 ← scan_bytes coinb2_hex (length coinb2_hex / 2);
  let coinbase := assembleCoinbaseTx (mkCoinbaseParts coinb1 coinb2 false (repeat 0 32))
                    en1 (repeat 0 (Z.to_nat en2_size)) in
  let h1 := sha256 coinbase in
  let h2 := sha256 h1 in
  let coinbase_txid_be := map (fun i => rd h2 (31 - i)) (seq 0 32) in
  branch ← mapM (fun h => scan_bytes h 32) merkle_branch_hex;
  match compute_merkle_root_be (coinbase_txid_be :: branch) with
  | None => inl undefined_behaviour
  | Some mr =>
      clean ← catch (x ← jat params 7; get_bool x) (mret false);
      mret (mkRawJobInputs 0 (mkRawJob "stratum" (hash job_id) version nbits ntime) prevhash mr
        (le_bytes 4 version ++ prevhash ++ take 28 mr) 0 0 ntime (u32 (ntime + 2)) en2_size clean)
  end.

Definition on_notify (j : J) : R unit :=
  mcatch
    (params ← lift (jfield j "params");
     job_id ← lift (get_at params 0);
     _ ← modify (fun r => set_job job_id (r_extranonce1_ r) (r_extranonce2_size_ r) r);
     r ← getS;
     inp ← lift (notify_inputs params job_id (r_extranonce1_ r) (r_extranonce2_size_ r));
     _ ← modify (set_adapter (fun a => setCleanJobs a (in_clean_jobs inp)));
     r ← getS;
     match ingestJobWithPolicy (adapter_ r) inp with
     | None => lift (inl undefined_behaviour)
     | Some a => modify (set_adapter (fun _ => a))
     end)
    (mret tt).

(** The body of the receive loop; an exception that leaves it ends the thread. *)
Definition response_id (j : J) (n : Z) : throws bool :=
  if contains j "result" then x ← jfield j "id"; mret (json_eq_int x n) else mret false.

Definition handle_json (now : Z) (j : J) : R unit :=
  b ← lift (response_id j 1);
  if b : bool then on_subscribe j
  else
    b ← lift (response_id j 2);
    if b : bool then mret tt
    else
      b ← lift (response_id j 100);
      if b : bool then on_configure j
      else
        b ← lift (if contains j "id" then x ← jfield j "id"; mret (json_eq_int x 3) else mret false);
        if b : bool then on_submit_result now j
        else if contains j "method" then
          m ← lift (x ← jfield j "method"; get_string x);
          if bool_decide (m = str "mining.set_difficulty") then on_set_difficulty j
          else if bool_decide (m = str "mining.notify") then on_notify j
          else mret tt
        else mret tt.

Definition handle_line (now : Z) (line : list Z) : R unit :=
  match parse line with None => mret tt | Some j => handle_json now j end.

End Messages.

(** ** The connection loop *)

Section Loop.
Context {K J : Type} `{ISocket K, Json J}.
Context (hash : list Z -> Z).

Definition configure_request : J :=
  jobject
    [("id"%string, jnumber 100);
     ("method"%string, jstring (str "mining.configure"));
     ("params"%string,
       jarray [jarray [jstring (str "version-rolling")];
               jobject [("version-rolling.mask"%string, jstring (str "ffffffff"))]])].

(** The inner loop; [turns] is the number of times the stop flag is read as unset.  The
    outer [None] is a line longer than [line_fuel]. *)
Fixpoint receive_loop (line_fuel turns : nat) (now : Z) (c : StratumClient K) (r : StratumRunner) :
    option (StratumClient K * (throws unit * StratumRunner)) :=
  match turns with
  | O => Some (c, (inr tt, r))
  | S turns =>
      '(c, status, line) ← recvLine line_fuel c;
      match status with
      | kTimeout => receive_loop line_fuel turns now c r
      | kClosed => Some (c, (inr tt, r))
      | kLine =>
          match handle_line hash now line r with
          | (inl e, r) => Some (c, (inl e, r))
          | (inr _, r) => receive_loop line_fuel turns now c r
          end
      end
  end.

(** The result of a send is not read; an exception leaves the thread. *)
Definition and_then (sent : option (throws (StratumClient K * bool))) (c : StratumClient K) (r : StratumRunner)
    (next : StratumClient K -> option (StratumClient K * (throws unit * StratumRunner))) :
    option (StratumClient K * (throws unit * StratumRunner)) :=
  sent ← sent;
  match sent with inl e => Some (c, (inl e, r)) | inr (c, _) => next c end.

(** What follows a successful connect, up to the sleep before the next attempt. *)
Definition session (line_fuel turns : nat) (now : Z) (c : StratumClient K) (r : StratumRunner) :
    option (StratumClient K * (throws unit * StratumRunner)) :=
  let r := set_health 0 (consecutive_quick_disconnects_ r) r in
  and_then (sendSubscribe c) c r (fun c =>
  and_then (sendAuthorize c) c r (fun c =>
  sent ← sendJson c configure_request;
  let c := match sent with inl _ => c | inr (c, _) => c end in
  let r := set_adapter Adapters.connect r in
  '(c, (res, r)) ← receive_loop line_fuel turns now c r;
  match res with
  | inl e => Some (c, (inl e, r))
  | inr _ =>
      Some (Net.close c,
            (inr tt, set_health (consecutive_connect_failures_ r)
                       (i32 (consecutive_quick_disconnects_ r + 1)) r))
  end)).

Definition backoff_s (attempt : Z) : Z := Z.min 30 (Z.shiftl 1 (Z.min attempt 4)).

(** The outer loop: one element of [conns] per turn, the sockets the factories make in it;
    the stop flag is seen when they run out.  The result lists the sleeps in seconds. *)
Fixpoint runLoop (conns : list (K * option K)) (line_fuel turns : nat) (now attempt : Z)
    (c : StratumClient K) (r : StratumRunner) : option (list Z * (throws unit * StratumRunner)) :=
  match conns with
  | [] => Some ([], (inr tt, r))
  | (plain, tls) :: conns =>
      let '(c, ok) := Net.connect plain tls c in
      if negb ok then
        let r := set_health (i32 (consecutive_connect_failures_ r + 1)) (consecutive_quick_disconnects_ r) r in
        '(sl, res) ← runLoop conns line_fuel turns now (attempt + 1) c r;
        Some (backoff_s attempt :: sl, res)
      else
        '(c, (res, r)) ← session line_fuel turns now c r;
        match res with
        | inl e => Some ([], (inl e, r))
        | inr _ => '(sl, res) ← runLoop conns line_fuel turns now 0 c r; Some (2 :: sl, res)
        end
  end.

(** ** Submission *)

(** The result, or the exception, and the object afterwards. *)
Definition submitShare (c : option (StratumClient K)) (r : StratumRunner)
    (extranonce2_hex ntime_hex nonce_hex : list Z) :
    option (throws bool * (option (StratumClient K) * StratumRunner)) :=
  match c with
  | None => Some (inr false, (None, r))
  | Some c =>
      match last_job_id_ r with
      | [] => Some (inr false, (Some c, r))
      | job =>
          sent ← sendSubmit c (cl_username_ c) job extranonce2_hex ntime_hex nonce_hex;
          Some (match sent with
                | inl e => (inl e, (Some c, r))
                | inr (c, ok) => (inr ok, (Some c, r))
                end)
      end
  end.

(** [StratumSubmitter]: the runner pointer is null or the runner above. *)
Definition submitShareHex (run : option (option (StratumClient K) * StratumRunner))
    (extranonce2_hex ntime_hex nonce_hex : list Z) :
    option (throws bool * option (option (StratumClient K) * StratumRunner)) :=
  match run with
  | None => Some (inr false, None)
  | Some (c, r) => '(ok, run) ← submitShare c r extranonce2_hex ntime_hex nonce_hex; Some (ok, Some run)
  end.

Definition toHex8 (header80_be : list Z) (o : nat) : list Z := bytesToHex (take 4 (drop o header80_be)).

Definition submitFromHeader (run : option (option (StratumClient K) * StratumRunner))
    (header80_be extranonce2_hex : list Z) :
    option (throws bool * option (option (StratumClient K) * StratumRunner)) :=
  match run with
  | None => Some (inr false, None)
  | Some (c, r) =>
      '(ok, run) ← submitShare c r extranonce2_hex (toHex8 header80_be 68) (toHex8 header80_be 76);
      Some (ok, Some run)
  end.

(** A submission leaves the runner as it was. *)
Lemma submitShare_runner c r en2 nt nonce ok c' r' :
  submitShare c r en2 nt nonce = Some (ok, (c', r')) -> r' = r.
Proof.
  unfold submitShare. destruct c as [c|]; [|by intros [= _ _ <-]].
  destruct (last_job_id_ r); [by intros [= _ _ <-]|].
  destruct (sendSubmit _ _ _ _ _ _) as [[e|[c1 sent]]|]; intros E; [by injection E as _ _ <-..|done].
Qed.

End Loop.

(** ** Notifications *)

Lemma rev_by_index (h : list Z) : length h = 32%nat -> map (fun i => rd h (31 - i)) (seq 0 32) = rev h.
Proof.
  intros Hl. do 32 (destruct h as [|? h]; [discriminate Hl|]). by destruct h.
Qed.

(** A notification with the field positions the source reads. *)
Record notice (J : Type) := mkNotice {
  n_id : list Z; n_prev : list Z; n_coinb1 : list Z; n_coinb2 : list Z;
  n_branch : list (list Z); n_p5 : J; n_p6 : J; n_clean : bool;
  n_version : Z; n_nbits : Z; n_ntime : Z }.
Arguments mkNotice {J}. Arguments n_id {J}. Arguments n_prev {J}. Arguments n_coinb1 {J}.
Arguments n_coinb2 {J}. Arguments n_branch {J}. Arguments n_p5 {J}. Arguments n_p6 {J}.
Arguments n_clean {J}. Arguments n_version {J}. Arguments n_nbits {J}. Arguments n_ntime {J}.

Record wf_notice {J} (n : notice J) : Prop := {
  wfn_prev : length (n_prev n) = 32%nat /\ is_bytes (n_prev n);
  wfn_coinb1 : is_bytes (n_coinb1 n);
  wfn_coinb2 : is_bytes (n_coinb2 n);
  wfn_branch : Forall (fun b => length b = 32%nat /\ is_bytes b) (n_branch n);
  wfn_version : is_u32 (n_version n);
  wfn_nbits : is_u32 (n_nbits n);
  wfn_ntime : is_u32 (n_ntime n) }.

(** The Merkle root of a coinbase and a branch taken as a list of identifiers. *)
Definition notice_root {J} (n : notice J) (en1 : list Z) (en2_size : Z) : list Z :=
  let coinbase := n_coinb1 n ++ en1 ++ repeat 0 (Z.to_nat en2_size) ++ n_coinb2 n in
  merkle_spec (rev (sha256 (sha256 coinbase)) :: n_branch n).

Definition notice_inputs {J} (hash : list Z -> Z) (n : notice J) (en1 : list Z) (en2_size : Z) : RawJobInputs :=
  let root := notice_root n en1 en2_size in
  mkRawJobInputs 0 (mkRawJob "stratum" (hash (n_id n)) (n_version n) (n_nbits n) (n_ntime n))
    (n_prev n) root (le_bytes 4 (n_version n) ++ n_prev n ++ take 28 root) 0 0
    (n_ntime n) (u32 (n_ntime n + 2)) en2_size (n_clean n).

Section Notify.
Context {J : Type} `{JsonLaws J}.
Context (hash : list Z -> Z).

Definition hex_field (bs : list Z) : J := jstring (bytesToHex bs).
Definition word_field (w : Z) : J := hex_field (be_bytes32 w).

Definition notify_params (n : notice J) : J :=
  jarray [jstring (n_id n); hex_field (n_prev n); hex_field (n_coinb1 n); hex_field (n_coinb2 n);
          jarray (map hex_field (n_branch n)); n_p5 n; n_p6 n; jbool (n_clean n);
          word_field (n_version n); word_field (n_nbits n); word_field (n_ntime n)].

Definition method_message (m : list Z) (params : J) : J :=
  jobject [("id"%string, jnull); ("method"%string, jstring m); ("params"%string, params)].

(** A server's message reaches the handler of its method. *)
Lemma handle_method now m params r :
  encodable (method_message m params) = true ->
  handle_line hash now (dump (method_message m params)) r =
  (if bool_decide (m = str "mining.set_difficulty") then on_set_difficulty (method_message m params) r
   else if bool_decide (m = str "mining.notify") then on_notify hash (method_message m params) r
   else (inr tt, r)).
Proof.
  intros He. assert (contains (method_message m params) "result" = false /\
          contains (method_message m params) "id" = true /\
          contains (method_message m params) "method" = true) as (E1 & E2 & E3).
  { unfold method_message. rewrite !contains_jobject.
    split; [apply bool_decide_false; by intros [? ?]|]. split; apply bool_decide_true; by eexists. }
  assert (jfield (method_message m params) "id" = inr jnull /\
          jfield (method_message m params) "method" = inr (jstring m)) as [E4 E5]
    by (split; by apply jfield_jobject).
  unfold handle_line. rewrite parse_dump by done. unfold handle_json, response_id.
  rewrite E1, E2, E3, E4, E5. unfold mbind, M_bind, lift, mret, throws_ret, throws_bind.
  rewrite json_eq_int_jnull, get_string_jstring. by repeat case_bool_decide.
Qed.

Lemma get_at_string l k s : l !! k = Some (jstring s) -> get_at (jarray l) k = inr s.
Proof. intros E. unfold get_at. rewrite jat_jarray, E. cbn. apply get_string_jstring. Qed.

Lemma get_hex32_word l k w : l !! k = Some (word_field w) -> is_u32 w -> get_hex32 (jarray l) k = inr w.
Proof.
  intros E Hw. unfold get_hex32. rewrite (get_at_string _ _ _ E). cbn [mbind throws_bind].
  rewrite stoul16_hex_word by done. cbn. by rewrite u32_small.
Qed.

Lemma get_hex32_bool l k b : l !! k = Some (jbool b) -> get_hex32 (jarray l) k = inl type_error.
Proof. intros E. unfold get_hex32, get_at. rewrite jat_jarray, E. cbn. by rewrite get_string_jbool. Qed.

Lemma strings_prefix_fields l : strings_prefix (map hex_field l) = inr (map bytesToHex l).
Proof.
  induction l as [|b l IH]; [done|]. cbn [map strings_prefix].
  unfold hex_field at 1. by rewrite get_string_jstring, IH.
Qed.

Lemma scan_branch l :
  Forall (fun b => length b = 32%nat /\ is_bytes b) l ->
  mapM (fun h => scan_bytes h 32) (map bytesToHex l) = inr l.
Proof.
  induction 1 as [|b l [Hl Hb] _ IH]; [done|]. cbn [map mapM].
  rewrite scan_bytes_hex, <- Hl, firstn_all by (done || lia). cbn [mbind throws_bind].
  rewrite Hl, IH. done.
Qed.

Lemma scan_whole bs : is_bytes bs -> scan_bytes (bytesToHex bs) (length (bytesToHex bs) / 2) = inr bs.
Proof.
  intros Hb. rewrite bytesToHex_length, Nat.mul_comm, Nat.div_mul by done.
  by rewrite scan_bytes_hex, firstn_all by done.
Qed.

Lemma notify_inputs_eq (n : notice J) en1 en2 :
  wf_notice n ->
  notify_inputs hash (notify_params n) (n_id n) en1 en2 = inr (notice_inputs hash n en1 en2).
Proof.
  intros []. unfold notify_inputs, notify_params.
  rewrite (get_hex32_word _ 8 (n_version n)), (get_hex32_word _ 9 (n_nbits n)),
    (get_hex32_word _ 10 (n_ntime n)) by done.
  rewrite (get_at_string _ 1 (bytesToHex (n_prev n))), (get_at_string _ 2 (bytesToHex (n_coinb1 n))),
    (get_at_string _ 3 (bytesToHex (n_coinb2 n))) by done.
  rewrite !jat_jarray. cbn [lookup list_lookup default from_option id mbind throws_bind].
  rewrite elements_jarray, strings_prefix_fields. cbn [mbind throws_bind].
  rewrite hexToBytes_hex by (try apply wfn_prev0; rewrite repeat_length; apply wfn_prev0).
  cbn [mbind throws_bind]. rewrite !scan_whole by done. cbn [mbind throws_bind].
  rewrite scan_branch by done. cbn [mbind throws_bind].
  rewrite rev_by_index by apply sha256_length. rewrite compute_merkle_root_spec, get_bool_jbool. done.
Qed.

End Notify.

Section NotifyTheorems.
Context {J : Type} `{JsonLaws J}.
Context (hash : list Z -> Z).

(** The message handler on its parameters: the job identifier is stored first. *)
Lemma on_notify_eq m l id r :
  l !! 0%nat = Some (jstring id) ->
  on_notify hash (method_message m (jarray l)) r =
  (let r1 := set_job id (r_extranonce1_ r) (r_extranonce2_size_ r) r in
   match notify_inputs hash (jarray l) id (r_extranonce1_ r) (r_extranonce2_size_ r) with
   | inl undefined_behaviour => (inl undefined_behaviour, r1)
   | inl _ => (inr tt, r1)
   | inr inp =>
       let r2 := set_adapter (fun a => setCleanJobs a (in_clean_jobs inp)) r1 in
       match ingestJobWithPolicy (adapter_ r2) inp with
       | None => (inl undefined_behaviour, r2)
       | Some a => (inr tt, set_adapter (fun _ => a) r2)
       end
   end).
Proof.
  intros Hl. unfold on_notify, mcatch, mbind, M_bind, lift, modify, getS, mret, M_ret.
  assert (jfield (method_message m (jarray l)) "params" = inr (jarray l)) as -> by by apply jfield_jobject.
  rewrite (get_at_string l 0 id Hl).
  cbn [r_extranonce1_ r_extranonce2_size_ set_job].
  destruct (notify_inputs _ _ _ _ _) as [[]|inp]; try reflexivity. cbv zeta.
  by destruct (ingestJobWithPolicy _ inp).
Qed.

(** A notification in the field order the source expects becomes one queued job: the
    line leaves the session running, the job identifier is remembered, and the adapter's
    queue gains the normalisation, under the adapter's policy, of a job with the fields
    of the notification and the Merkle root of the assembled coinbase and the branch. *)
Theorem notify_queues_job (n : notice J) now r :
  wf_notice n -> 3 <= compact_exponent (n_nbits n) ->
  is_u32 (policy_share_nbits_ (adapter_ r)) ->
  policy_share_nbits_ (adapter_ r) = 0 \/ 3 <= compact_exponent (policy_share_nbits_ (adapter_ r)) ->
  encodable (method_message (str "mining.notify") (notify_params n)) = true ->
  exists r' res,
    handle_line hash now (dump (method_message (str "mining.notify") (notify_params n))) r = (inr tt, r') /\
    last_job_id_ r' = n_id n /\
    q_ (adapter_ r') = q_ (adapter_ r) ++ [res] /\
    normalizeJob (apply_policy (setCleanJobs (adapter_ r) (n_clean n))
      (notice_inputs hash n (r_extranonce1_ r) (r_extranonce2_size_ r))) = Some (Some res) /\
    work_id (res_item res) = hash (n_id n) /\ ntime (res_item res) = n_ntime n.
Proof.
  intros Hn Hb Hsu Hs He. rewrite handle_method, bool_decide_false, bool_decide_true by done.
  unfold notify_params. rewrite (on_notify_eq _ _ (n_id n)) by done.
  fold (notify_params n). rewrite notify_inputs_eq by done. cbv zeta.
  set (inp := notice_inputs hash n _ _).
  set (a := adapter_ (set_adapter _ _)).
  unfold ingestJobWithPolicy.
  destruct (compact_value_ok (n_nbits n) (wfn_nbits n Hn) Hb) as (tb & Eb & _).
  assert (exists ts, compactToTargetU32LE (share_nbits (apply_policy a inp)) = Some ts) as [ts Ets].
  { cbn [share_nbits apply_policy]. change (policy_share_nbits_ a) with (policy_share_nbits_ (adapter_ r)).
    destruct Hs as [-> | Hs]; [by eexists|].
    destruct (compact_value_ok _ Hsu Hs) as (ts & Et & _). exists ts.
    destruct (Z.eqb_spec (policy_share_nbits_ (adapter_ r)) 0) as [E|]; [|done]. rewrite E in Hs. exfalso. by apply Hs. }
  assert (exists res, normalizeJob (apply_policy a inp) = Some (Some res) /\
    work_id (res_item res) = hash (n_id n) /\ ntime (res_item res) = n_ntime n) as (res & En & Hw & Ht).
  { unfold normalizeJob. change (job_nbits (in_job (apply_policy a inp))) with (n_nbits n).
    rewrite Eb, Ets. by eexists. }
  rewrite En. cbn [mbind option_bind]. by eexists _, res.
Qed.

(** A notification of the Stratum protocol: job id, previous hash, two coinbase parts,
    branch, version, nbits, ntime, clean flag. *)
Definition standard_params (n : notice J) : J :=
  jarray [jstring (n_id n); hex_field (n_prev n); hex_field (n_coinb1 n); hex_field (n_coinb2 n);
          jarray (map hex_field (n_branch n)); word_field (n_version n); word_field (n_nbits n);
          word_field (n_ntime n); jbool (n_clean n)].

(** A notification in the field order of the Stratum protocol never becomes a job: its
    ninth parameter, the clean flag, is read as the version, the conversion throws, and
    only the job identifier changes. *)
Theorem standard_notify_dropped (n : notice J) now r :
  encodable (method_message (str "mining.notify") (standard_params n)) = true ->
  handle_line hash now (dump (method_message (str "mining.notify") (standard_params n))) r =
  (inr tt, set_job (n_id n) (r_extranonce1_ r) (r_extranonce2_size_ r) r).
Proof.
  intros He. rewrite handle_method, bool_decide_false, bool_decide_true by done.
  unfold standard_params. rewrite (on_notify_eq _ _ (n_id n)) by done.
  unfold notify_inputs. by rewrite (get_hex32_bool _ 8 (n_clean n)) by done.
Qed.

End NotifyTheorems.

(** ** Acceptance *)

Section Acceptance.
Context {J : Type} `{Json J}.
Context (hash : list Z -> Z).

(** No share is being timed, and nothing has been reported. *)
Definition untimed (r : StratumRunner) : Prop :=
  last_submit_sent_ r = 0 /\ reported r = [] /\ avg_submit_ms_ r = 0.

(** A computation that keeps a predicate on every path. *)
Definition keeps {A} (P : StratumRunner -> Prop) (m : R A) : Prop := forall r, P r -> P (m r).2.

Lemma keeps_ret {A} P (a : A) : keeps P (mret a).
Proof. by intros r. Qed.
Lemma keeps_lift {A} P (m : throws A) : keeps P (lift m).
Proof. by intros r. Qed.
Lemma keeps_getS P : keeps P getS.
Proof. by intros r. Qed.
Lemma keeps_bind {A B} P (m : R A) (f : A -> R B) : keeps P m -> (forall a, keeps P (f a)) -> keeps P (m ≫= f).
Proof.
  intros Hm Hf r Hr. specialize (Hm r Hr). unfold mbind, M_bind.
  destruct (m r) as [[e|a] r1]; [done|]. by apply Hf.
Qed.
Lemma keeps_catch {A} P (m h : R A) : keeps P m -> keeps P h -> keeps P (mcatch m h).
Proof.
  intros Hm Hh r Hr. specialize (Hm r Hr). unfold mcatch.
  destruct (m r) as [[[]|a] r1]; cbn in *; auto; by apply Hh.
Qed.
Lemma keeps_modify P f : (forall r, P r -> P (f r)) -> keeps P (modify f).
Proof. intros Hf r Hr. by apply Hf. Qed.

End Acceptance.

Section Reported.
Context {J : Type} `{Json J}.
Context (hash : list Z -> Z).

Lemma untimed_settle now ok r : untimed r -> untimed (settle_submit now ok r).
Proof. intros [E H1]. unfold settle_submit. by rewrite E. Qed.

Ltac keep := repeat first
  [ apply keeps_ret | apply keeps_lift | apply keeps_getS
  | apply keeps_catch | apply keeps_bind; [|intros]
  | apply keeps_modify; intros ? Hu; first [exact Hu | by apply untimed_settle]
  | case_match ].

Lemma handle_json_untimed now j : keeps untimed (handle_json hash now j).
Proof.
  unfold handle_json, on_subscribe, on_configure, on_submit_result, on_set_difficulty, on_notify. keep.
Qed.

Lemma handle_line_untimed now line : keeps untimed (handle_line hash now line).
Proof. unfold handle_line. destruct (parse line); [apply handle_json_untimed|apply keeps_ret]. Qed.

End Reported.

(** ** The session over a socket *)

Section SessionTheorems.
Context {K J : Type} `{SocketLaws K, JsonLaws J}.
Context (hash : list Z -> Z).

Definition text_lines (ls : list (list Z)) : list Z := concat (map (fun l => l ++ [10]) ls).

(** C24: on a connection that delivers whole lines, in any chunks, and then closes, the
    receive loop is the message handler applied to the lines in order: it stops at the
    first handler that lets an exception escape, and otherwise at the close. *)
Theorem session_handles_lines ls line_fuel turns now (c : StratumClient K) k r :
  sock_ c = Some k -> up k -> Forall live (stream k) -> avail (stream k) = (text_lines ls, []) ->
  Forall (fun l => 10 ∉ l) ls ->
  (length (text_lines ls) < line_fuel)%nat -> (length ls < turns)%nat ->
  exists c', receive_loop hash line_fuel turns now c r =
    Some (c', for_each ls (handle_line hash now) r).
Proof.
  intros Hk Hu Hl Ha Hn. revert turns c k r Hk Hu Hl Ha.
  induction Hn as [|l ls Hln Hn IH]; intros [|turns] c k r Hk Hu Hl Ha Hf Ht; cbn [length] in Ht; try lia.
  - cbn [receive_loop]. unfold recvLine. rewrite Hk.
    destruct (recv_loop_cut line_fuel k [] [] [] Hu Hl Ha) as (k' & -> & _); [by apply not_elem_of_nil|done|].
    cbn. by eexists.
  - cbn [receive_loop]. unfold recvLine. rewrite Hk.
    assert (text_lines (l :: ls) = l ++ 10 :: text_lines ls) as Et
      by (unfold text_lines; cbn [map concat]; by rewrite <- app_assoc).
    rewrite Et in Ha, Hf. rewrite length_app in Hf. cbn [length] in Hf.
    destruct (recv_loop_line line_fuel k [] l (text_lines ls) [] Hu Hl Ha Hln ltac:(lia))
      as (k' & -> & Hu' & Hl' & Ha' & _). cbn [mbind option_bind app].
    cbn [for_each]. unfold mbind, M_bind.
    destruct (handle_line hash now l r) as [[e|[]] r1] eqn:E; [by eexists|].
    apply (IH turns (set_sock c (Some k')) k'); try done; lia.
Qed.

(** An unreachable pool is retried after 1, 2, 4, 8 and then always 16 seconds: the
    n-th failure in a row sleeps for 2^(n-1) seconds, at most 16, and every failure is
    counted. *)
Theorem reconnect_backoff n line_fuel turns now (c : StratumClient K) k r :
  use_tls_ c = false -> (forall h p, (sock_connect k h p).2 = false) ->
  consecutive_connect_failures_ r = 0 -> Z.of_nat n < 2 ^ 31 ->
  exists r', runLoop hash (replicate n (k, None)) line_fuel turns now 0 c r =
    Some (map (fun i => 2 ^ Z.min (Z.of_nat i) 4) (seq 0 n), (inr tt, r')) /\
    consecutive_connect_failures_ r' = Z.of_nat n /\ adapter_ r' = adapter_ r.
Proof.
  intros Htls Hc Hr Hn.
  assert (forall n a c r, use_tls_ c = false -> 0 <= Z.of_nat a ->
    consecutive_connect_failures_ r = Z.of_nat a -> Z.of_nat (a + n) < 2 ^ 31 ->
    exists r', runLoop hash (replicate n (k, None)) line_fuel turns now (Z.of_nat a) c r =
      Some (map (fun i => 2 ^ Z.min (Z.of_nat i) 4) (seq a n), (inr tt, r')) /\
      consecutive_connect_failures_ r' = Z.of_nat (a + n) /\ adapter_ r' = adapter_ r) as A.
  { clear -Hc. induction n as [|n IH]; intros a c r Htls Ha Hr Hn; cbn [replicate runLoop seq map].
    { exists r. rewrite Nat.add_0_r. done. }
    unfold Net.connect. rewrite Htls. specialize (Hc (host_ c) (port_ c)).
    destruct (sock_connect k (host_ c) (port_ c)) as [k' ok]. cbn in Hc. subst ok. cbn [negb].
    replace (Z.of_nat a + 1) with (Z.of_nat (S a)) by lia.
    edestruct (IH (S a) (set_sock c (Some k'))
      (set_health (i32 (consecutive_connect_failures_ r + 1)) (consecutive_quick_disconnects_ r) r))
      as (r' & -> & Hf & Had); [done|lia| |lia|].
    { cbn [consecutive_connect_failures_ set_health]. unfold i32. rewrite Hr, Z.mod_small; lia. }
    exists r'. cbn [mbind option_bind]. split; [|split; [rewrite Hf; f_equal; lia|done]].
    do 3 f_equal. unfold backoff_s. rewrite Z.shiftl_mul_pow2, Z.mul_1_l by lia.
    rewrite Z.min_r; [done|]. etransitivity; [apply (Z.pow_le_mono_r 2 _ 4); lia|]. done. }
  destruct (A n 0%nat c r Htls ltac:(lia) Hr ltac:(lia)) as (r' & E & Hf & Had). by exists r'.
Qed.

(** A share submitted from a header carries that header's time and nonce words: the
    two fields sent read back as the big-endian words at offsets 68 and 76. *)
Theorem submit_fields_roundtrip header :
  length header = 80%nat -> is_bytes header ->
  stoul16 (toHex8 header 68) = inr (word_at header 68) /\
  stoul16 (toHex8 header 76) = inr (word_at header 76) /\
  (forall (c : StratumClient K) r en2, last_job_id_ r <> [] ->
     submitFromHeader (Some (Some c, r)) header en2 =
     (sent ← sendSubmit c (cl_username_ c) (last_job_id_ r) en2 (toHex8 header 68) (toHex8 header 76);
      Some (match sent with
            | inl e => (inl e, Some (Some c, r))
            | inr (c, ok) => (inr ok, Some (Some c, r))
            end))).
Proof.
  intros Hl Hb.
  assert (forall i, (i < 20)%nat -> stoul16 (toHex8 header (4 * i)) = inr (word_at header (4 * i))) as A.
  { intros i Hi. unfold toHex8. rewrite (take_drop_word 20) by (done || lia).
    assert (rd (words_of 20 header) i = word_at header (4 * i)) as <-.
    { unfold words_of, rd. rewrite nth_indep with (d' := word_at header (4 * 0))
        by (rewrite length_map, length_seq; lia).
      rewrite (map_nth (fun i => word_at header (4 * i))), seq_nth by lia. done. }
    apply stoul16_hex_word, rd_word, words_of_words, Hb. }
  split; [apply (A 17%nat); lia|]. split; [apply (A 19%nat); lia|].
  intros c r en2 Hj. unfold submitFromHeader, submitShare. destruct (last_job_id_ r); [done|].
  by destruct (sendSubmit _ _ _ _ _ _) as [[e|[c1 sent]]|].
Qed.

(** A pool's rejection with a null result, as the Stratum protocol sends it, is not
    counted: the conversion of the null throws before the counter is reached. *)
Theorem null_result_uncounted now (err : J) r :
  encodable err = true ->
  handle_line hash now
    (dump (jobject [("error"%string, err); ("id"%string, jnumber 3); ("result"%string, jnull)])) r
  = (inr tt, r).
Proof.
  intros He. unfold handle_line. rewrite parse_dump.
  2:{ apply encodable_object; [reflexivity|].
      repeat constructor; [done|apply encodable_u32; in_range|apply encodable_jnull]. }
  set (j := jobject _).
  assert (contains j "result" = true /\ contains j "id" = true) as [E1 E2]
    by (unfold j; rewrite !contains_jobject; split; apply bool_decide_true; by eexists).
  assert (jfield j "id" = inr (jnumber 3) /\ jfield j "result" = inr jnull) as [E3 E4]
    by (split; by apply jfield_jobject).
  unfold handle_json, response_id. rewrite E1, E2, E3.
  unfold mbind, M_bind, lift, mret, throws_ret, throws_bind. rewrite !json_eq_int_jnumber.
  cbn [Z.eqb Pos.eqb]. unfold on_submit_result, mcatch, mbind, M_bind, lift. rewrite E1, E4.
  unfold mbind, throws_bind. by rewrite get_bool_jnull.
Qed.

(** A message whose method is not a string ends the session's thread: the conversion
    is outside every handler's [try]. *)
Theorem bad_method_escapes now z (r : StratumRunner) :
  is_u64 z ->
  handle_line hash now (dump (jobject [("method"%string, jnumber z)])) r = (inl type_error, r).
Proof.
  intros Hz. unfold handle_line.
  rewrite parse_dump by (apply encodable_object; [reflexivity|]; repeat constructor; by apply encodable_u64).
  set (j := jobject _).
  assert (contains j "result" = false /\ contains j "id" = false /\ contains j "method" = true) as (E1 & E2 & E3).
  { unfold j. rewrite !contains_jobject. cbn -[bool_decide].
    split; [apply bool_decide_false; by intros [? ?]|].
    split; [apply bool_decide_false; by intros [? ?]|apply bool_decide_true; by eexists]. }
  assert (jfield j "method" = inr (jnumber z)) as E4 by (by apply jfield_jobject).
  unfold handle_json, response_id. rewrite E1, E2, E3, E4.
  unfold mbind, M_bind, lift, mret, throws_ret, throws_bind. by rewrite get_string_jnumber.
Qed.

End SessionTheorems.

(** ** Concrete instances *)

Import Concrete.

(** A socket that never connects. *)
#[local] Instance dead_socket : ISocket unit := {
  sock_connect k _ _ := (k, false); sock_send k _ := (k, -1);
  sock_recv k _ := (k, 0, []); sock_close k := k }.
#[local] Instance dead_laws : SocketLaws unit.
Proof.
  refine {| fresh := fun _ => True; up := fun _ => False; written := fun _ => []; stream := fun _ => []; peer := fun _ _ _ _ => True |};
    done.
Defined.

Definition sample_notice : notice Jv :=
  mkNotice (str "job1") (repeat 1 32) [1; 2] [3; 4] [repeat 5 32] JNull JNull true
    536870912 486604799 1700000000.
Definition sample_runner : StratumRunner :=
  StratumRunner_init (updateVarDiff StratumAdapter_init compactFromDifficulty) true.

Lemma notify_queues_job_witness :
  exists r' res,
    handle_line (fun _ => 7) 0
      (dump (method_message (str "mining.notify") (notify_params sample_notice))) sample_runner = (inr tt, r') /\
    q_ (adapter_ r') = [res] /\ work_id (res_item res) = 7.
Proof.
  destruct (notify_queues_job (fun _ => 7) sample_notice 0 sample_runner)
    as (r' & res & E & _ & Hq & _ & Hw & _).
  - split; cbn -[in_u]; try in_range; try (split; [reflexivity|in_range]).
    constructor; [|constructor]. split; [reflexivity|in_range].
  - vm_compute. discriminate.
  - in_range.
  - right. vm_compute. discriminate.
  - reflexivity.
  - exists r', res. split; [exact E|]. split; [exact Hq|exact Hw].
Defined.

Lemma session_handles_lines_witness :
  let c := pool_client (mkScript [] [EData (str "x" ++ [10] ++ str "y"); EData [10]] 3) in
  exists c', receive_loop (J := Jv) (fun _ => 7) 99 9 0 c sample_runner =
    Some (c', for_each [str "x"; str "y"] (handle_line (fun _ => 7) 0) sample_runner).
Proof.
  intros c. apply (session_handles_lines (fun _ => 7) [str "x"; str "y"] 99 9 0 c
    (mkScript [] [EData (str "x" ++ [10] ++ str "y"); EData [10]] 3) sample_runner).
  - reflexivity.
  - exact I.
  - repeat constructor.
  - reflexivity.
  - apply (bool_decide_unpack _). vm_compute. exact I.
  - cbn. lia.
  - cbn. lia.
Defined.

Lemma reconnect_backoff_witness :
  exists r', runLoop (J := Jv) (fun _ => 7) (replicate 6 (tt, None)) 0 0 0 0
    (mkClient (str "h") 1 [] [] false None) sample_runner =
    Some ([1; 2; 4; 8; 16; 16], (inr tt, r')).
Proof.
  destruct (reconnect_backoff (J := Jv) (fun _ => 7) 6 0 0 0
    (mkClient (str "h") 1 [] [] false None) tt sample_runner) as (r' & E & _).
  - reflexivity.
  - intros. reflexivity.
  - reflexivity.
  - lia.
  - exists r'. exact E.
Defined.

Lemma submit_fields_roundtrip_witness :
  stoul16 (toHex8 (repeat 0 68 ++ [101; 83; 241; 0] ++ repeat 7 8) 68) = inr 1700000000.
Proof.
  exact (proj1 (submit_fields_roundtrip (J := Jv) (K := Script)
    (repeat 0 68 ++ [101; 83; 241; 0] ++ repeat 7 8) eq_refl ltac:(in_range))).
Defined.

(** The Merkle root of a branch of one hash: the Stratum protocol hashes the coinbase
    digest itself with the branch, the source its byte reversal. *)
Example stratum_root_differs :
  let cb := [1; 2; 3] in let b := repeat 5 32 in
  merkle_spec [rev (sha256d cb); b] <> sha256d (sha256d cb ++ b).
Proof. vm_compute. discriminate. Qed.

(** The midstate input starts with the version in memory order, the header that is
    submitted with the version in big-endian order. *)
Example first64_version_order :
  take 4 (header_first64 (notice_inputs (fun _ => 7) sample_notice [] 0)) = [0; 0; 0; 32] /\
  be_bytes32 (n_version sample_notice) = [32; 0; 0; 0].
Proof. split; reflexivity. Qed.
