(* ===== verification/Config.v ===== *)
(** * Configuration ([src/config])

    The typed configuration and its reading from a JSON file, field by field with the
    defaults of the records.  An exception in a conversion leaves the function. *)

From stdpp Require Import base numbers list option gmap strings.
From S2P Require Import Prelude FileSys Json Hex Text.

Open Scope Z_scope.

(** ** Records ([config.h]) *)

Inductive CredMode := WalletAsUser | AccountWorker.

Record Endpoint := mkEndpoint { ep_host : list Z; ep_port : Z; ep_use_tls : bool }.
Definition Endpoint_default : Endpoint := mkEndpoint [] 0 false.

Record RpcConfig := mkRpcConfig {
  rpc_url : list Z; rpc_use_tls : bool; rpc_auth : list Z;
  rpc_username : list Z; rpc_password : list Z; rpc_cookie_path : list Z }.

Record GbtConfig := mkGbtConfig {
  gbt_poll_ms : Z; gbt_rules : list (list Z); gbt_cb_tag : list Z;
  gbt_allow_synth_coinbase : bool; gbt_payout_script_hex : list Z }.

Record PolicyCfg := mkPolicyCfg {
  pol_force_clean_jobs : bool; pol_clean_jobs_default : bool;
  pol_version_mask : option Z; pol_ntime_min : option Z; pol_ntime_max : option Z;
  pol_share_nbits : option Z }.
Definition PolicyCfg_default : PolicyCfg := mkPolicyCfg false true None None None None.

Record PoolEntry := mkPoolEntry {
  pool_name : list Z; pool_profile : list Z; pool_cred_mode : CredMode; pool_weight : Z;
  pool_wallet : list Z; pool_account : list Z; pool_worker : list Z; pool_password : list Z;
  pool_endpoints : list Endpoint; pool_rpc : option RpcConfig; pool_gbt : option GbtConfig;
  pool_policy : PolicyCfg }.

Record SchedulerCfg := mkSchedulerCfg { latency_penalty_ms : Z; max_weight : Z }.
Definition SchedulerCfg_default : SchedulerCfg := mkSchedulerCfg 1500 4.

Record MetricsCfg := mkMetricsCfg {
  enable_file : bool; file_path : list Z; dump_interval_ms : Z; enable_http : bool;
  http_host : list Z; http_port : Z; file_max_bytes : Z; file_rotate_interval_sec : Z }.
Definition MetricsCfg_default : MetricsCfg :=
  mkMetricsCfg false (str "logs/metrics.jsonl") 2000 false (str "127.0.0.1") 8080 (10 * 1024 * 1024) 0.

Record TlsCfg := mkTlsCfg { tls_verify : bool; tls_ca_file : list Z; tls_use_schannel : bool }.
Definition TlsCfg_default : TlsCfg := mkTlsCfg true [] false.

Record CudaCfg := mkCudaCfg {
  hit_ring_capacity : Z; desired_threads_per_job : Z; nonces_per_thread : Z; budget_ms : Z }.
Definition CudaCfg_default : CudaCfg := mkCudaCfg 1024 256 1 16.

Record OutboxCfg := mkOutboxCfg {
  outbox_path : list Z; outbox_max_bytes : Z; outbox_rotate_on_start : bool;
  outbox_rotate_interval_sec : Z }.
Definition OutboxCfg_default : OutboxCfg := mkOutboxCfg (str "logs/outbox.bin") (10 * 1024 * 1024) false 0.

Record LedgerCfg := mkLedgerCfg {
  ledger_path : list Z; ledger_max_bytes : Z; ledger_rotate_interval_sec : Z }.
Definition LedgerCfg_default : LedgerCfg := mkLedgerCfg (str "runner.jsonl") (10 * 1024 * 1024) 0.

Record AppConfig := mkAppConfig {
  log_level : Z; pools : list PoolEntry; scheduler : SchedulerCfg; metrics : MetricsCfg;
  tls : TlsCfg; cuda : CudaCfg; outbox : OutboxCfg; ledger : LedgerCfg }.
Definition AppConfig_default : AppConfig :=
  mkAppConfig 2 [] SchedulerCfg_default MetricsCfg_default TlsCfg_default CudaCfg_default
    OutboxCfg_default LedgerCfg_default.

(** ** Loading ([config.cc]) *)

Definition parseCredMode (s : list Z) : CredMode :=
  if bool_decide (s = str "account_worker") then AccountWorker else WalletAsUser.

Section Load.
Context {J : Type} `{Json J}.

(** [if (j.contains(k)) field = j[k].get<T>()]. *)
Definition field {A} (get : J -> throws A) (j : J) (k : string) (d : A) : throws A :=
  if contains j k then v ← idx j k; get v else mret d.

(** [if (j.contains(k) && j[k].is_object())], and the same for an array. *)
Definition block {A} (kind : J -> bool) (load : J -> throws A) (j : J) (k : string) (d : A) : throws A :=
  if contains j k then v ← idx j k; if kind v then load v else mret d else mret d.

Definition get_port (j : J) : throws Z := v ← get_int 32 j; mret (u16 v).

(** [try { x = stoul(j.get<string>(), nullptr, 16); } catch (...) {}]. *)
Definition get_hex_opt (j : J) : throws (option Z) :=
  catch (s ← get_string j; v ← stoul16 s; mret (Some (u32 v))) (mret None).

Definition load_scheduler (s : J) : throws SchedulerCfg :=
  lat ← field (get_int 32) s "latency_penalty_ms" 1500;
  mw ← field (get_int 32) s "max_weight" 4;
  mret (mkSchedulerCfg lat mw).

Definition load_metrics (m : J) : throws MetricsCfg :=
  let d := MetricsCfg_default in
  ef ← field get_bool m "enable_file" (enable_file d);
  fp ← field get_string m "file_path" (file_path d);
  di ← field (get_int 32) m "dump_interval_ms" (dump_interval_ms d);
  eh ← field get_bool m "enable_http" (enable_http d);
  hh ← field get_string m "http_host" (http_host d);
  hp ← field get_port m "http_port" (http_port d);
  mb ← field (get_uint 64) m "file_max_bytes" (file_max_bytes d);
  ri ← field (get_uint 64) m "file_rotate_interval_sec" (file_rotate_interval_sec d);
  mret (mkMetricsCfg ef fp di eh hh hp mb ri).

Definition load_cuda (c : J) : throws CudaCfg :=
  hr ← field (get_int 32) c "hit_ring_capacity" 1024;
  dt ← field (get_int 32) c "desired_threads_per_job" 256;
  np ← field (get_int 32) c "nonces_per_thread" 1;
  bm ← field (get_int 32) c "budget_ms" 16;
  mret (mkCudaCfg hr dt np bm).

Definition load_tls (t : J) : throws TlsCfg :=
  v ← field get_bool t "verify" true;
  ca ← field get_string t "ca_file" [];
  us ← field get_bool t "use_schannel" false;
  mret (mkTlsCfg v ca us).

Definition load_outbox (o : J) : throws OutboxCfg :=
  p ← field get_string o "path" (outbox_path OutboxCfg_default);
  mb ← field (get_uint 64) o "max_bytes" (outbox_max_bytes OutboxCfg_default);
  rs ← field get_bool o "rotate_on_start" false;
  ri ← field (get_uint 64) o "rotate_interval_sec" 0;
  mret (mkOutboxCfg p mb rs ri).

Definition load_ledger (l : J) : throws LedgerCfg :=
  p ← field get_string l "path" (ledger_path LedgerCfg_default);
  mb ← field (get_uint 64) l "max_bytes" (ledger_max_bytes LedgerCfg_default);
  ri ← field (get_uint 64) l "rotate_interval_sec" 0;
  mret (mkLedgerCfg p mb ri).

Definition load_endpoint (ep : J) : throws Endpoint :=
  h ← field get_string ep "host" [];
  p ← field get_port ep "port" 0;
  t ← field get_bool ep "use_tls" false;
  mret (mkEndpoint h p t).

Definition load_rpc (r : J) : throws (option RpcConfig) :=
  url ← field get_string r "url" [];
  t ← field get_bool r "use_tls" false;
  auth ← field get_string r "auth" [];
  u ← field get_string r "username" [];
  p ← field get_string r "password" [];
  cp ← field get_string r "cookie_path" [];
  mret (Some (mkRpcConfig url t auth u p cp)).

Definition load_gbt (g : J) : throws (option GbtConfig) :=
  poll ← field (get_int 32) g "poll_ms" 2000;
  rules ← block is_array (fun a => mapM get_string (elements a)) g "rules" [];
  tag ← field get_string g "cb_tag" [];
  syn ← field get_bool g "allow_synth_coinbase" false;
  pay ← field get_string g "payout_script_hex" [];
  mret (Some (mkGbtConfig poll rules tag syn pay)).

Definition load_policy (po : J) : throws PolicyCfg :=
  fc ← field get_bool po "force_clean_jobs" false;
  cd ← field get_bool po "clean_jobs_default" true;
  vm ← field get_hex_opt po "version_mask" None;
  tmin ← field get_hex_opt po "ntime_min" None;
  tmax ← field get_hex_opt po "ntime_max" None;
  sn ← field get_hex_opt po "share_nbits" None;
  mret (mkPolicyCfg fc cd vm tmin tmax sn).

Definition load_pool (p : J) : throws PoolEntry :=
  name ← field get_string p "name" [];
  profile ← field get_string p "profile" [];
  cm ← field (fun j => s ← get_string j; mret (parseCredMode s)) p "cred_mode" WalletAsUser;
  weight ← field (get_int 32) p "weight" 1;
  wallet ← field get_string p "wallet" [];
  account ← field get_string p "account" [];
  worker ← field get_string p "worker" [];
  password ← field get_string p "password" [];
  endpoints ← block is_array (fun a => mapM load_endpoint (elements a)) p "endpoints" [];
  rpc ← block is_object load_rpc p "rpc" None;
  gbt ← block is_object load_gbt p "gbt" None;
  policy ← block is_object load_policy p "policy" PolicyCfg_default;
  mret (mkPoolEntry name profile cm weight wallet account worker password endpoints rpc gbt policy).

Definition load_config (j : J) : throws AppConfig :=
  ll ← field (get_int 32) j "log_level" 2;
  sc ← block is_object load_scheduler j "scheduler" SchedulerCfg_default;
  me ← block is_object load_metrics j "metrics" MetricsCfg_default;
  cu ← block is_object load_cuda j "cuda" CudaCfg_default;
  tl ← block is_object load_tls j "tls" TlsCfg_default;
  ob ← block is_object load_outbox j "outbox" OutboxCfg_default;
  le ← block is_object load_ledger j "ledger" LedgerCfg_default;
  po ← block is_array (fun a => mapM load_pool (elements a)) j "pools" [];
  mret (mkAppConfig ll po sc me tl cu ob le).

Definition loadFromJsonFile (fs : FS) (path : string) : throws AppConfig :=
  match fs !! path with
  | None => mret AppConfig_default
  | Some bytes =>
      match parse_stream bytes with
      | None => mret AppConfig_default
      | Some j => load_config j
      end
  end.

End Load.

Definition loadDefault : AppConfig :=
  mkAppConfig 2
    [mkPoolEntry (str "dummy") (str "generic") WalletAsUser 1 (str "bc1qexample") [] (str "w") (str "x")
       [mkEndpoint (str "localhost") 3333 false] None None PolicyCfg_default]
    SchedulerCfg_default MetricsCfg_default TlsCfg_default CudaCfg_default
    OutboxCfg_default LedgerCfg_default.

(** ** Writing a configuration

    The document of a configuration, for the round trip: an absent optional is a null. *)

Section Write.
Context {J : Type} `{Json J}.

Definition hex_json (o : option Z) : J :=
  match o with Some w => jstring (bytesToHex (be_bytes32 w)) | None => jnull end.

Definition endpoint_json (e : Endpoint) : J :=
  jobject [("host"%string, jstring (ep_host e)); ("port"%string, jnumber (ep_port e));
           ("use_tls"%string, jbool (ep_use_tls e))].

Definition rpc_json (o : option RpcConfig) : J :=
  match o with
  | None => jnull
  | Some r =>
      jobject [("url"%string, jstring (rpc_url r)); ("use_tls"%string, jbool (rpc_use_tls r));
               ("auth"%string, jstring (rpc_auth r)); ("username"%string, jstring (rpc_username r));
               ("password"%string, jstring (rpc_password r)); ("cookie_path"%string, jstring (rpc_cookie_path r))]
  end.

Definition gbt_json (o : option GbtConfig) : J :=
  match o with
  | None => jnull
  | Some g =>
      jobject [("poll_ms"%string, jnumber (gbt_poll_ms g)); ("rules"%string, jarray (map jstring (gbt_rules g)));
               ("cb_tag"%string, jstring (gbt_cb_tag g));
               ("allow_synth_coinbase"%string, jbool (gbt_allow_synth_coinbase g));
               ("payout_script_hex"%string, jstring (gbt_payout_script_hex g))]
  end.

Definition policy_json (p : PolicyCfg) : J :=
  jobject [("force_clean_jobs"%string, jbool (pol_force_clean_jobs p));
           ("clean_jobs_default"%string, jbool (pol_clean_jobs_default p));
           ("version_mask"%string, hex_json (pol_version_mask p));
           ("ntime_min"%string, hex_json (pol_ntime_min p));
           ("ntime_max"%string, hex_json (pol_ntime_max p));
           ("share_nbits"%string, hex_json (pol_share_nbits p))].

Definition cred_text (c : CredMode) : list Z :=
  match c with WalletAsUser => str "wallet_as_user" | AccountWorker => str "account_worker" end.

Definition pool_json (p : PoolEntry) : J :=
  jobject [("name"%string, jstring (pool_name p)); ("profile"%string, jstring (pool_profile p));
           ("cred_mode"%string, jstring (cred_text (pool_cred_mode p)));
           ("weight"%string, jnumber (pool_weight p)); ("wallet"%string, jstring (pool_wallet p));
           ("account"%string, jstring (pool_account p)); ("worker"%string, jstring (pool_worker p));
           ("password"%string, jstring (pool_password p));
           ("endpoints"%string, jarray (map endpoint_json (pool_endpoints p)));
           ("rpc"%string, rpc_json (pool_rpc p)); ("gbt"%string, gbt_json (pool_gbt p));
           ("policy"%string, policy_json (pool_policy p))].

Definition config_json (c : AppConfig) : J :=
  jobject
    [("log_level"%string, jnumber (log_level c));
     ("scheduler"%string,
       jobject [("latency_penalty_ms"%string, jnumber (latency_penalty_ms (scheduler c)));
                ("max_weight"%string, jnumber (max_weight (scheduler c)))]);
     ("metrics"%string,
       jobject [("enable_file"%string, jbool (enable_file (metrics c)));
                ("file_path"%string, jstring (file_path (metrics c)));
                ("dump_interval_ms"%string, jnumber (dump_interval_ms (metrics c)));
                ("enable_http"%string, jbool (enable_http (metrics c)));
                ("http_host"%string, jstring (http_host (metrics c)));
                ("http_port"%string, jnumber (http_port (metrics c)));
                ("file_max_bytes"%string, jnumber (file_max_bytes (metrics c)));
                ("file_rotate_interval_sec"%string, jnumber (file_rotate_interval_sec (metrics c)))]);
     ("tls"%string,
       jobject [("verify"%string, jbool (tls_verify (tls c))); ("ca_file"%string, jstring (tls_ca_file (tls c)));
                ("use_schannel"%string, jbool (tls_use_schannel (tls c)))]);
     ("cuda"%string,
       jobject [("hit_ring_capacity"%string, jnumber (hit_ring_capacity (cuda c)));
                ("desired_threads_per_job"%string, jnumber (desired_threads_per_job (cuda c)));
                ("nonces_per_thread"%string, jnumber (nonces_per_thread (cuda c)));
                ("budget_ms"%string, jnumber (budget_ms (cuda c)))]);
     ("outbox"%string,
       jobject [("path"%string, jstring (outbox_path (outbox c)));
                ("max_bytes"%string, jnumber (outbox_max_bytes (outbox c)));
                ("rotate_on_start"%string, jbool (outbox_rotate_on_start (outbox c)));
                ("rotate_interval_sec"%string, jnumber (outbox_rotate_interval_sec (outbox c)))]);
     ("ledger"%string,
       jobject [("path"%string, jstring (ledger_path (ledger c)));
                ("max_bytes"%string, jnumber (ledger_max_bytes (ledger c)));
                ("rotate_interval_sec"%string, jnumber (ledger_rotate_interval_sec (ledger c)))]);
     ("pools"%string, jarray (map pool_json (pools c)))].

End Write.

(** ** Well-formed configurations: every number fits its C++ type *)

Definition is_i32 (x : Z) : Prop := - 2 ^ 31 <= x < 2 ^ 31.

Definition wf_opt (o : option Z) : Prop := match o with Some w => is_u32 w | None => True end.

Record wf_pool (p : PoolEntry) : Prop := {
  wfp_weight : is_i32 (pool_weight p);
  wfp_endpoints : Forall (fun e => in_u 16 (ep_port e)) (pool_endpoints p);
  wfp_gbt : match pool_gbt p with Some g => is_i32 (gbt_poll_ms g) | None => True end;
  wfp_mask : wf_opt (pol_version_mask (pool_policy p));
  wfp_ntime_min : wf_opt (pol_ntime_min (pool_policy p));
  wfp_ntime_max : wf_opt (pol_ntime_max (pool_policy p));
  wfp_nbits : wf_opt (pol_share_nbits (pool_policy p)) }.

Record wf_config (c : AppConfig) : Prop := {
  wfc_ints : Forall is_i32
    [log_level c; latency_penalty_ms (scheduler c); max_weight (scheduler c);
     dump_interval_ms (metrics c); hit_ring_capacity (cuda c); desired_threads_per_job (cuda c);
     nonces_per_thread (cuda c); budget_ms (cuda c)];
  wfc_sizes : Forall is_u64
    [file_max_bytes (metrics c); file_rotate_interval_sec (metrics c);
     outbox_max_bytes (outbox c); outbox_rotate_interval_sec (outbox c);
     ledger_max_bytes (ledger c); ledger_rotate_interval_sec (ledger c)];
  wfc_port : in_u 16 (http_port (metrics c));
  wfc_pools : Forall wf_pool (pools c) }.

(** ** Lemmas *)

Section Laws.
Context {J : Type} `{JsonLaws J}.

Lemma field_jobject {A} (get : J -> throws A) l k d v :
  assoc l k = Some v -> field get (jobject l) k d = get v.
Proof.
  intros E. unfold field. rewrite contains_jobject, bool_decide_true by (by eexists).
  by rewrite (idx_jobject l k v E).
Qed.

Lemma block_jobject {A} (kind : J -> bool) (load : J -> throws A) l k d v :
  assoc l k = Some v -> block kind load (jobject l) k d = if kind v then load v else mret d.
Proof.
  intros E. unfold block. rewrite contains_jobject, bool_decide_true by (by eexists).
  by rewrite (idx_jobject l k v E).
Qed.

Lemma get_i32 x : is_i32 x -> get_int 32 (jnumber x) = inr x.
Proof. intros Hx. apply get_int_jnumber; [lia|]. exact Hx. Qed.

Lemma get_port_jnumber x : in_u 16 x -> get_port (jnumber x) = inr x.
Proof.
  intros Hx. unfold get_port. unfold in_u in Hx. rewrite get_i32 by (unfold is_i32; lia). cbn.
  unfold u16. by rewrite Z.mod_small.
Qed.

Lemma get_hex_opt_json o : wf_opt o -> get_hex_opt (hex_json o) = inr o.
Proof.
  intros Ho. unfold get_hex_opt. destruct o as [w|]; cbn [hex_json].
  - rewrite get_string_jstring. cbn [mbind throws_bind]. rewrite stoul16_hex_word by done. cbn.
    by rewrite u32_small.
  - by rewrite get_string_jnull.
Qed.

Lemma mapM_map {A B} (f : J -> throws B) (g : A -> J) (h : A -> B) l :
  (forall a, a ∈ l -> f (g a) = inr (h a)) -> mapM f (map g l) = inr (map h l).
Proof.
  induction l as [|a l IH]; intros E; [done|]. cbn [map mapM].
  rewrite E by (by apply elem_of_cons; left). cbn [mbind throws_bind].
  rewrite IH; [done|]. intros b Hb. apply E. by apply elem_of_cons; right.
Qed.

Lemma mapM_map_id {A} (f : J -> throws A) (g : A -> J) l :
  (forall a, a ∈ l -> f (g a) = inr a) -> mapM f (map g l) = inr l.
Proof. intros E. rewrite (mapM_map f g id) by done. by rewrite map_id. Qed.

Lemma Forall_elem {A} (P : A -> Prop) l x : Forall P l -> x ∈ l -> P x.
Proof. induction 1; rewrite ?elem_of_nil, ?elem_of_cons; naive_solver. Qed.

(** Reads the fields of a known object. *)
Ltac rd_fields :=
  repeat (first [ erewrite field_jobject; [|reflexivity] | erewrite block_jobject; [|reflexivity] ];
          cbv beta);
  rewrite ?get_string_jstring, ?get_bool_jbool, ?is_object_jobject, ?is_array_jarray, ?elements_jarray;
  repeat (rewrite get_i32 by done); repeat (rewrite get_port_jnumber by done);
  repeat (rewrite get_uint_jnumber by done); repeat (rewrite get_hex_opt_json by done);
  cbn [mbind throws_bind].

Lemma load_endpoint_json e : in_u 16 (ep_port e) -> load_endpoint (endpoint_json e) = inr e.
Proof. intros He. unfold load_endpoint, endpoint_json. rd_fields. by destruct e. Qed.

Lemma load_rpc_json o :
  (if is_object (rpc_json o) then load_rpc (rpc_json o) else mret None) = inr o.
Proof.
  destruct o as [r|]; cbn [rpc_json]; [|by rewrite is_object_jnull].
  rewrite is_object_jobject. unfold load_rpc. rd_fields. by destruct r.
Qed.

Lemma load_gbt_json o :
  match o with Some g => is_i32 (gbt_poll_ms g) | None => True end ->
  (if is_object (gbt_json o) then load_gbt (gbt_json o) else mret None) = inr o.
Proof.
  intros Hg. destruct o as [g|]; cbn [gbt_json]; [|by rewrite is_object_jnull].
  rewrite is_object_jobject. unfold load_gbt. rd_fields.
  rewrite mapM_map_id by (intros; apply get_string_jstring). by destruct g.
Qed.

Lemma load_policy_json p :
  wf_opt (pol_version_mask p) -> wf_opt (pol_ntime_min p) -> wf_opt (pol_ntime_max p) ->
  wf_opt (pol_share_nbits p) -> load_policy (policy_json p) = inr p.
Proof. intros. unfold load_policy, policy_json. rd_fields. by destruct p. Qed.

Lemma parseCredMode_text c : parseCredMode (cred_text c) = c.
Proof. by destruct c. Qed.

Lemma load_pool_json p : wf_pool p -> load_pool (pool_json p) = inr p.
Proof.
  intros []. unfold load_pool, pool_json. rd_fields. rewrite parseCredMode_text.
  rewrite mapM_map_id by (intros e He; apply load_endpoint_json; exact (Forall_elem _ _ _ wfp_endpoints0 He)).
  rewrite load_rpc_json, load_gbt_json by done. unfold policy_json at 1.
  rewrite is_object_jobject, load_policy_json by done. by destruct p.
Qed.

Lemma load_config_json c : wf_config c -> load_config (config_json c) = inr c.
Proof.
  intros [Hi Hs Hp Hl]. repeat (apply Forall_cons in Hi as [? Hi]). repeat (apply Forall_cons in Hs as [? Hs]).
  unfold load_config, config_json, load_scheduler, load_metrics, load_cuda, load_tls, load_outbox, load_ledger.
  rd_fields.
  rewrite mapM_map_id by (intros p Hp'; apply load_pool_json; exact (Forall_elem _ _ _ Hl Hp')).
  destruct c as [? ? [] [] [] [] [] []]. done.
Qed.

(** C25: the configuration loader reads back every configuration whose numbers fit their
    types and whose strings are UTF-8, all blocks and every pool included, from a file
    holding its document; without the file, or with one that does not parse, it returns the defaults. *)
Theorem config_roundtrip fs path c :
  wf_config c -> encodable (config_json c) = true ->
  loadFromJsonFile (<[path := dump (config_json c)]> fs) path = inr c /\
  loadFromJsonFile (delete path fs) path = inr AppConfig_default /\
  (forall bytes, parse_stream bytes = None ->
     loadFromJsonFile (<[path := bytes]> fs) path = inr AppConfig_default).
Proof.
  intros Hc He. unfold loadFromJsonFile. rewrite lookup_insert_eq, parse_stream_dump, lookup_delete_eq by done.
  split; [by apply load_config_json|]. split; [done|]. intros bytes E. by rewrite lookup_insert_eq, E.
Qed.

(** A document with a value of the wrong type is not read as the empty configuration:
    the conversion's exception leaves the function. *)
Theorem config_type_error_escapes fs path s rest :
  encodable (jobject (("log_level"%string, jstring s) :: rest)) = true ->
  loadFromJsonFile (<[path := dump (jobject (("log_level"%string, jstring s) :: rest))]> fs) path
  = inl type_error.
Proof.
  intros He. unfold loadFromJsonFile. rewrite lookup_insert_eq, parse_stream_dump by done. unfold load_config.
  rewrite (field_jobject _ _ _ _ (jstring s)) by done. by rewrite get_int_jstring.
Qed.

End Laws.

Import Concrete.

Lemma config_roundtrip_witness :
  loadFromJsonFile (J := Jv) (<["config/pools.json" := dump (config_json loadDefault)]> ∅) "config/pools.json"
  = inr loadDefault.
Proof.
  refine (proj1 (config_roundtrip (J := Jv) ∅ "config/pools.json" loadDefault _ eq_refl)).
  split; cbn -[in_u is_i32]; try in_range; repeat constructor; try in_range; vm_compute;
    solve [exact I | discriminate | reflexivity].
Defined.
