(* ===== verification/Threads.v ===== *)
(** * The session thread and the main thread ([adapters/stratum_runner.cc],
    [net/stratum_client.cc])

    [StratumRunner.v] takes a submission and a session as whole operations.  Here they are
    taken apart into the steps between which the other thread can run: [client_] and its
    socket are shared without the lock [mu_], which protects the runner's fields only.  The
    steps are functions, so a schedule can be evaluated; alone, the main thread's steps are
    the submission of [StratumRunner.v], and the session thread's the connect and the turns
    of its receive loop. *)

From stdpp Require Import base numbers list option gmap strings.
From S2P Require Import Prelude Json Adapters Net StratumRunner.

Open Scope Z_scope.

(** ** State *)

Inductive Tid := SessionThread | MainThread.
#[export] Instance Tid_eq_dec : EqDecision Tid.
Proof. solve_decision. Defined.

Inductive Fault :=
  | NullPointer      (* a call through a null [sock_] *)
  | UseAfterFree     (* a call on a destroyed socket *)
  | Overrun.         (* a socket that reports more bytes than it was given *)

(** [objs] are the sockets that live, by address; [client] is [client_] with its [sock_]. *)
Record Shared (K : Type) := mkShared {
  objs : gmap nat K; next_addr : nat; client : option (option nat); runner : StratumRunner; mu : option Tid }.
Arguments mkShared {K}. Arguments objs {K}. Arguments next_addr {K}. Arguments client {K}.
Arguments runner {K}. Arguments mu {K}.

(** Where a thread is in [sendJson]: before the test of [sock_], at the head of the loop,
    inside [send] on the object it has loaded. *)
Inductive SendPc (J : Type) := SendTest (j : J) | SendLoop (rest : list Z) | SendCall (p : nat) (rest : list Z).
Arguments SendTest {J}. Arguments SendLoop {J}. Arguments SendCall {J}.

(** Where the session thread is in [runLoop]. *)
Inductive SessionPc (J : Type) :=
  | SStart                                            (* line 48 *)
  | SLoop                                             (* line 50 *)
  | SDial (p : nat)                                   (* line 52, inside [sock_->connect] *)
  | SHello (pc : SendPc J) (rest : list J)            (* lines 63-74 *)
  | SRecv (line : list Z)                             (* line 79, before a byte *)
  | SRecvCall (p : nat) (line : list Z)               (* line 79, inside [recv] *)
  | SLine (line : list Z)                             (* lines 85-257 *)
  | SLocked (line : list Z)                           (* lines 85-257, holding the lock *)
  | SClose                                            (* line 259 *)
  | SEnd.
Arguments SStart {J}. Arguments SLoop {J}. Arguments SDial {J}. Arguments SHello {J}. Arguments SRecv {J}.
Arguments SRecvCall {J}. Arguments SLine {J}. Arguments SLocked {J}. Arguments SClose {J}. Arguments SEnd {J}.

Record Share := mkShare { s_extranonce2 : list Z; s_ntime : list Z; s_nonce : list Z }.

(** Where the main thread is in [submitShare]; [MSend] has the job the message names. *)
Inductive MainPc (J : Type) :=
  | MIdle
  | MEnter (s : Share)                                (* line 269 *)
  | MTest (s : Share)                                 (* lines 270-271 *)
  | MSend (job : list Z) (pc : SendPc J)              (* line 272 *)
  | MThrown (e : exn).
Arguments MIdle {J}. Arguments MEnter {J}. Arguments MTest {J}. Arguments MSend {J}. Arguments MThrown {J}.

(** [conns] are the sockets the factories make, one per attempt; the stop flag is seen when
    they run out.  [todo] and [results] are the main thread's submissions. *)
Record State (K J : Type) := mkState {
  sh : Shared K; spc : SessionPc J; conns : list (option K);
  mpc : MainPc J; todo : list Share; results : list bool }.
Arguments mkState {K J}. Arguments sh {K J}. Arguments spc {K J}. Arguments conns {K J}.
Arguments mpc {K J}. Arguments todo {K J}. Arguments results {K J}.

(** ** Steps *)

Section Threads.
Context {K J : Type} `{ISocket K, Json J}.
Context (hash : list Z -> Z) (now : Z).
Context (host : list Z) (port : Z) (username password : list Z) (tls : bool).

Definition sock_ptr (s : Shared K) : option nat := default None (client s).
Definition set_objs (f : gmap nat K -> gmap nat K) (s : Shared K) : Shared K :=
  mkShared (f (objs s)) (next_addr s) (client s) (runner s) (mu s).
Definition set_runner (f : StratumRunner -> StratumRunner) (s : Shared K) : Shared K :=
  mkShared (objs s) (next_addr s) (client s) (f (runner s)) (mu s).
Definition set_mu (o : option Tid) (s : Shared K) : Shared K :=
  mkShared (objs s) (next_addr s) (client s) (runner s) o.

(** [sock_ = std::move(k)]: the socket it held is destroyed. *)
Definition assign_sock (k : option K) (s : Shared K) : Shared K :=
  let left := match sock_ptr s with Some p => delete p (objs s) | None => objs s end in
  match k with
  | Some k => mkShared (<[next_addr s := k]> left) (S (next_addr s)) (Some (Some (next_addr s))) (runner s) (mu s)
  | None => mkShared left (next_addr s) (Some None) (runner s) (mu s)
  end.

(** One step of [sendJson], on whichever thread. *)
Inductive Sent := Faulted (f : Fault) | Threw (e : exn) | Going (s : Shared K) (pc : SendPc J) | Done (s : Shared K) (ok : bool).

Definition send_step (s : Shared K) (pc : SendPc J) : Sent :=
  match pc with
  | SendTest j =>
      match sock_ptr s with
      | None => Done s false
      | Some _ => match dump_text j with inl e => Threw e | inr text => Going s (SendLoop (text ++ [13; 10])) end
      end
  | SendLoop [] => Done s true
  | SendLoop rest => match sock_ptr s with None => Faulted NullPointer | Some p => Going s (SendCall p rest) end
  | SendCall p rest =>
      match objs s !! p with
      | None => Faulted UseAfterFree
      | Some k =>
          let '(k, n) := sock_send k rest in
          let s := set_objs <[p := k]> s in
          if n <=? 0 then Done s false
          else if zlen rest <? n then Faulted Overrun
          else Going s (SendLoop (drop (Z.to_nat n) rest))
      end
  end.

Definition hello : list J :=
  [request 1 (str "mining.subscribe") [jstring (str "MyCustomBTCMiner/0.1")];
   request 2 (str "mining.authorize") [jstring username; jstring password]; configure_request].

(** The next message; after the last one [adapter_->connect()]. *)
Definition next_hello (s : Shared K) (rest : list J) : Shared K * SessionPc J :=
  match rest with
  | [] => (set_runner (set_adapter Adapters.connect) s, SRecv [])
  | j :: rest => (s, SHello (SendTest j) rest)
  end.

(** The line [recvLine] returns at the end of the stream, if any. *)
Definition cut_line (line : list Z) : SessionPc J := match line with [] => SClose | _ => SLine line end.

(** The fields under the lock. *)
Definition protected (r : StratumRunner) : list Z * list Z * Z :=
  (last_job_id_ r, r_extranonce1_ r, r_extranonce2_size_ r).

(** A message, and the next line or the end of the thread. *)
Definition handle (s : Shared K) (line : list Z) : Shared K * SessionPc J :=
  let '(res, r) := handle_line hash now line (runner s) in
  (set_runner (fun _ => r) s, match res with inl _ => SEnd | inr _ => SRecv [] end).

(** A message that leaves the fields under the lock as they were does not wait for it: the
    source takes the lock for a notification that repeats the job, so its schedules are
    among these.  The stop flag is not set while the main thread still submits.

    [None] is a thread that waits for the lock, or has ended. *)
Definition session_step (s : Shared K) (pc : SessionPc J) (cs : list (option K)) :
    option (Fault + Shared K * SessionPc J * list (option K)) :=
  let next (s : Shared K) (pc : SessionPc J) := Some (inr (s, pc, cs)) in
  match pc with
  | SStart => next (mkShared (objs s) (next_addr s) (Some None) (runner s) (mu s)) SLoop
  | SLoop =>
      match cs with
      | [] => next s SEnd
      | k :: cs =>
          let s := assign_sock k s in
          Some (inr (match sock_ptr s with
                     | Some p => (s, SDial p)
                     | None => (set_runner (fun r => set_health (i32 (consecutive_connect_failures_ r + 1))
                                                       (consecutive_quick_disconnects_ r) r) s, SLoop)
                     end, cs))
      end
  | SDial p =>
      match objs s !! p with
      | None => Some (inl UseAfterFree)
      | Some k =>
          let '(k, ok) := sock_connect k host port in
          let s := set_objs <[p := k]> s in
          if ok : bool then
            let '(s, pc) := next_hello (set_runner (fun r => set_health 0 (consecutive_quick_disconnects_ r) r) s) hello in
            next s pc
          else
            next (set_runner (fun r => set_health (i32 (consecutive_connect_failures_ r + 1))
                                         (consecutive_quick_disconnects_ r) r) s) SLoop
      end
  | SHello pc rest =>
      match send_step s pc with
      | Faulted f => Some (inl f)
      | Threw _ =>
          (* the last message is sent inside a [try] *)
          match rest with [] => let '(s, pc) := next_hello s [] in next s pc | _ => next s SEnd end
      | Going s pc => next s (SHello pc rest)
      | Done s _ => let '(s, pc) := next_hello s rest in next s pc
      end
  | SRecv line =>
      match sock_ptr s with
      | None => match line with [] => next s SClose | _ => Some (inl NullPointer) end
      | Some p => next s (SRecvCall p line)
      end
  | SRecvCall p line =>
      match objs s !! p with
      | None => Some (inl UseAfterFree)
      | Some k =>
          let '(k, r, bs) := sock_recv k 1 in
          let s := set_objs <[p := k]> s in
          if r <=? 0 then next s (if r =? -2 then SRecv [] else cut_line line)
          else match bs with
               | [] => Some (inl Overrun)
               | ch :: _ => next s (if ch =? 10 then SLine line else SRecv (line ++ [ch]))
               end
      end
  | SLine line =>
      if decide (protected (handle_line hash now line (runner s)).2 = protected (runner s)) then
        let '(s, pc) := handle s line in next s pc
      else
        match mu s with None => next (set_mu (Some SessionThread) s) (SLocked line) | Some _ => None end
  | SLocked line => let '(s, pc) := handle s line in next (set_mu None s) pc
  | SClose =>
      next (set_runner (fun r => set_health (consecutive_connect_failures_ r)
                                   (i32 (consecutive_quick_disconnects_ r + 1)) r) (assign_sock None s)) SLoop
  | SEnd => None
  end.

Definition share_request (job : list Z) (s : Share) : J :=
  request 3 (str "mining.submit")
    [jstring username; jstring job; jstring (s_extranonce2 s); jstring (s_ntime s); jstring (s_nonce s)].

(** The end of [submitShare]: the lock is released. *)
Definition main_returns (st : State K J) (s : Shared K) (ok : bool) : State K J :=
  mkState (set_mu None s) (spc st) (conns st) MIdle (todo st) (results st ++ [ok]).

Definition set_main (st : State K J) (s : Shared K) (pc : MainPc J) : State K J :=
  mkState s (spc st) (conns st) pc (todo st) (results st).

Definition main_step (st : State K J) : option (Fault + State K J) :=
  let s := sh st in
  match mpc st with
  | MIdle =>
      match todo st with
      | [] => None
      | x :: todo => Some (inr (mkState s (spc st) (conns st) (MEnter x) todo (results st)))
      end
  | MEnter x =>
      match mu s with None => Some (inr (set_main st (set_mu (Some MainThread) s) (MTest x))) | Some _ => None end
  | MTest x =>
      Some (inr (match client s, last_job_id_ (runner s) with
                 | None, _ => main_returns st s false
                 | Some _, [] => main_returns st s false
                 | Some _, job => set_main st s (MSend job (SendTest (share_request job x)))
                 end))
  | MSend job pc =>
      Some (match send_step s pc with
            | Faulted f => inl f
            | Threw e => inr (set_main st (set_mu None s) (MThrown e))
            | Going s pc => inr (set_main st s (MSend job pc))
            | Done s ok => inr (main_returns st s ok)
            end)
  | MThrown _ => None
  end.

Definition step (t : Tid) (st : State K J) : option (Fault + State K J) :=
  match t with
  | MainThread => main_step st
  | SessionThread =>
      match session_step (sh st) (spc st) (conns st) with
      | None => None
      | Some (inl f) => Some (inl f)
      | Some (inr (s, pc, cs)) => Some (inr (mkState s pc cs (mpc st) (todo st) (results st)))
      end
  end.

(** A schedule; a thread that cannot run is skipped. *)
Fixpoint run (ts : list Tid) (st : State K J) : Fault + State K J :=
  match ts with
  | [] => inr st
  | t :: ts => match step t st with
               | None => run ts st
               | Some (inl f) => inl f
               | Some (inr st) => run ts st
               end
  end.

Definition start (r : StratumRunner) (cs : list (option K)) (shares : list Share) : State K J :=
  mkState (mkShared ∅ 0 None r None) SStart cs MIdle shares [].

(** ** Invariants *)

Definition in_use (pc : MainPc J) : bool :=
  match pc with MSend _ (SendLoop _) | MSend _ (SendCall _ _) => true | _ => false end.

(** The session's next step gives [sock_] another value. *)
Definition replaces (pc : SessionPc J) (cs : list (option K)) : bool :=
  match pc with SLoop => match cs with [] => false | _ => true end | SClose => true | _ => false end.

(** The sockets that live are the one [sock_] owns. *)
Definition heap_ok (s : Shared K) : Prop := forall p, is_Some (objs s !! p) <-> sock_ptr s = Some p.

Definition pc_ok (s : Shared K) (pc : SendPc J) : Prop :=
  match pc with SendTest _ => True | SendLoop _ => is_Some (sock_ptr s) | SendCall p _ => sock_ptr s = Some p end.

Definition session_ok (s : Shared K) (pc : SessionPc J) : Prop :=
  match pc with
  | SStart => sock_ptr s = None
  | SDial p | SRecvCall p _ => sock_ptr s = Some p
  | SHello pc _ => pc_ok s pc
  | SRecv line => line <> [] -> is_Some (sock_ptr s)
  | _ => True
  end.

Definition main_ok (s : Shared K) (pc : MainPc J) : Prop := match pc with MSend _ pc => pc_ok s pc | _ => True end.

(** What one step leaves alone: the pointer, the runner and the lock. *)
Definition same (s s' : Shared K) : Prop := sock_ptr s' = sock_ptr s /\ runner s' = runner s /\ mu s' = mu s.

Lemma heap_set_objs s p k : heap_ok s -> sock_ptr s = Some p -> heap_ok (set_objs <[p := k]> s).
Proof.
  intros Hh Hp q. change (sock_ptr (set_objs _ s)) with (sock_ptr s). cbn [set_objs objs].
  destruct (decide (q = p)) as [->|Hne]; [by rewrite lookup_insert_eq|].
  rewrite lookup_insert_ne by done. apply Hh.
Qed.

Lemma heap_assign s k : heap_ok s -> heap_ok (assign_sock k s).
Proof.
  intros Hh q. unfold assign_sock.
  assert (forall q, match sock_ptr s with Some p => delete p (objs s) | None => objs s end !! q = None) as He.
  { intros q'. destruct (sock_ptr s) as [p|] eqn:Ep.
    - destruct (decide (q' = p)) as [->|]; [by rewrite lookup_delete_eq|]. rewrite lookup_delete_ne by done.
      apply eq_None_not_Some. intros Hs%Hh. congruence.
    - apply eq_None_not_Some. intros Hs%Hh. congruence. }
  destruct k as [k|]; cbn [objs sock_ptr client default from_option id].
  - destruct (decide (q = next_addr s)) as [->|Hne]; [rewrite lookup_insert_eq; split; [done|by eexists]|].
    rewrite lookup_insert_ne, He by done. split; [by intros [? ?]|]. intros E. congruence.
  - rewrite He. split; [by intros [? ?]|done].
Qed.

Lemma send_step_spec s pc :
  match send_step s pc with
  | Going s' pc' => same s s' /\ (heap_ok s -> pc_ok s pc -> heap_ok s' /\ pc_ok s' pc')
  | Done s' _ => same s s' /\ (heap_ok s -> pc_ok s pc -> heap_ok s')
  | Faulted f => heap_ok s -> pc_ok s pc -> f = Overrun
  | Threw _ => True
  end.
Proof.
  destruct pc as [j|rest|p rest]; cbn [send_step].
  - destruct (sock_ptr s) eqn:E; [destruct (dump_text j)|]; try done; (split; [done|]); cbn; by eauto.
  - destruct rest as [|b rest]; [done|]. destruct (sock_ptr s) as [p|] eqn:E.
    + split; [done|]. intros. split; [done|exact E].
    + intros _ Hs. cbn [pc_ok] in Hs. rewrite E in Hs. by destruct Hs.
  - destruct (objs s !! p) as [k|] eqn:E.
    + destruct (sock_send k rest) as [k' n]. destruct (n <=? 0); [|destruct (zlen rest <? n)]; try done;
        (split; [done|]); intros Hh Hp; [by apply heap_set_objs|split; [by apply heap_set_objs|by eexists]].
    + intros Hh Hp. apply Hh in Hp as [? ?]. congruence.
Qed.

Definition is_locked (pc : SessionPc J) : bool := match pc with SLocked _ => true | _ => false end.
Definition holds (pc : MainPc J) : bool := match pc with MTest _ | MSend _ _ => true | _ => false end.

(** What a session step does to the lock and to the job. *)
Definition lock_effect (s s' : Shared K) (pc pc' : SessionPc J) : Prop :=
  (mu s' = mu s /\ is_locked pc = false /\ is_locked pc' = false /\
     last_job_id_ (runner s') = last_job_id_ (runner s)) \/
  (mu s = None /\ mu s' = Some SessionThread /\ is_locked pc = false /\ is_locked pc' = true /\ runner s' = runner s) \/
  (is_locked pc = true /\ is_locked pc' = false /\ mu s' = None).

Lemma next_hello_spec s rest s' pc' :
  next_hello s rest = (s', pc') ->
  (heap_ok s -> heap_ok s') /\ session_ok s' pc' /\ sock_ptr s' = sock_ptr s /\ mu s' = mu s /\
  is_locked pc' = false /\ last_job_id_ (runner s') = last_job_id_ (runner s).
Proof. destruct rest; intros [= <- <-]; split_and!; try done. cbn. intros ?; done. Qed.

Lemma handle_spec s line s' pc' :
  handle s line = (s', pc') ->
  (heap_ok s -> heap_ok s') /\ session_ok s' pc' /\ sock_ptr s' = sock_ptr s /\ mu s' = mu s /\
  is_locked pc' = false /\ runner s' = (handle_line hash now line (runner s)).2.
Proof.
  unfold handle. destruct (handle_line hash now line (runner s)) as [[e|[]] r]; intros [= <- <-];
    split_and!; try done. cbn. intros ?; done.
Qed.

Definition session_result (s : Shared K) (pc : SessionPc J) (cs : list (option K))
    (res : option (Fault + Shared K * SessionPc J * list (option K))) : Prop :=
  match res with
  | None => True
  | Some (inl f) => f = Overrun
  | Some (inr (s', pc', cs')) =>
      heap_ok s' /\ session_ok s' pc' /\ (replaces pc cs = false -> sock_ptr s' = sock_ptr s) /\ lock_effect s s' pc pc'
  end.

Lemma session_step_spec s pc cs :
  heap_ok s -> session_ok s pc -> session_result s pc cs (session_step s pc cs).
Proof.
  intros Hh Hs. destruct pc as [| |p|pc rest|line|p line|line|line| |]; cbn [session_step].
  - split_and!; try done; [|by left]. intros p. cbn [objs sock_ptr client]. rewrite (Hh p), Hs. done.
  - destruct cs as [|k cs]; [split_and!; try done; by left|].
    pose proof (heap_assign s k Hh) as Ha. destruct (sock_ptr (assign_sock k s)) as [p|] eqn:E.
    all: split_and!; try done; left; unfold assign_sock; by destruct k.
  - apply Hh in Hs as Hk. destruct Hk as [k ->]. destruct (sock_connect k host port) as [k' ok].
    pose proof (heap_set_objs s p k' Hh Hs) as Hh'. destruct ok.
    + destruct (next_hello _ hello) as [s' pc'] eqn:E. apply next_hello_spec in E as (Hh2 & Hs2 & Hp & Hm & Hl & Hj).
      split_and!; try done; [by apply Hh2|left; by rewrite Hm, Hj].
    + split_and!; try done. by left.
  - pose proof (send_step_spec s pc) as Hsp. destruct (send_step s pc) as [f|e|s' pc'|s' ok].
    + by apply Hsp.
    + destruct rest; [|split_and!; try done; by left]. destruct (next_hello s []) as [s' pc'] eqn:E.
      apply next_hello_spec in E as (Hh2 & Hs2 & Hp & Hm & Hl & Hj). split_and!; try done; [by apply Hh2|by left].
    + destruct Hsp as [(Hp & Hr & Hm) Hok]. destruct (Hok Hh Hs). split_and!; try done. left. by rewrite Hm, Hr.
    + destruct Hsp as [(Hp & Hr & Hm) Hok]. specialize (Hok Hh Hs). destruct (next_hello s' rest) as [s2 pc'] eqn:E.
      apply next_hello_spec in E as (Hh2 & Hs2 & Hp2 & Hm2 & Hl & Hj).
      split_and!; [by apply Hh2|done|by rewrite Hp2|left]. by rewrite Hm2, Hm, Hj, Hr.
  - destruct (sock_ptr s) as [p|] eqn:E; [split_and!; try done; by left|].
    destruct line as [|b line]; [split_and!; try done; by left|].
    cbn [session_ok] in Hs. rewrite E in Hs. by destruct (Hs ltac:(done)).
  - apply Hh in Hs as Hk. destruct Hk as [k ->]. destruct (sock_recv k 1) as [[k' r] bs].
    pose proof (heap_set_objs s p k' Hh Hs) as Hh'.
    destruct (r <=? 0); [destruct (r =? -2); [|destruct line]|destruct bs as [|ch bs]; [done|destruct (ch =? 10)]];
      (split_and!; [done| |done|by left]); cbn [session_ok cut_line]; try done; intros _; by eexists.
  - case_decide as Hd.
    + destruct (handle s line) as [s' pc'] eqn:E. apply handle_spec in E as (Hh2 & Hs2 & Hp & Hm & Hl & Hr).
      split_and!; try done; [by apply Hh2|]. left. rewrite Hr. unfold protected in Hd. injection Hd as -> _ _. done.
    + destruct (mu s) eqn:E; [done|]. split_and!; try done. right. left. done.
  - destruct (handle s line) as [s' pc'] eqn:E. apply handle_spec in E as (Hh2 & Hs2 & Hp & Hm & Hl & Hr).
    split_and!; [by apply Hh2| |done|by right; right]. destruct pc'; exact Hs2.
  - pose proof (heap_assign s None Hh) as Ha. split_and!; try done. by left.
  - done.
Qed.

(** ** Every schedule *)

Record inv (st : State K J) : Prop := {
  inv_heap : heap_ok (sh st);
  inv_session : session_ok (sh st) (spc st);
  inv_main_lock : holds (mpc st) = true <-> mu (sh st) = Some MainThread;
  inv_session_lock : is_locked (spc st) = true <-> mu (sh st) = Some SessionThread;
  inv_job : match mpc st with MSend job _ => job = last_job_id_ (runner (sh st)) /\ job <> [] | _ => True end }.

Lemma inv_start r cs shares : inv (start r cs shares).
Proof. split; try done. intros p. cbn. rewrite lookup_empty. split; [by intros [? ?]|done]. Qed.

Lemma pc_ok_ptr s s' pc : sock_ptr s' = sock_ptr s -> pc_ok s pc -> pc_ok s' pc.
Proof. intros E. destruct pc; cbn [pc_ok]; by rewrite ?E. Qed.

Lemma session_ok_ptr s s' pc : sock_ptr s' = sock_ptr s -> session_ok s pc -> session_ok s' pc.
Proof. intros E. destruct pc; cbn [session_ok]; rewrite ?E; try done. by apply pc_ok_ptr. Qed.

(** What a step of the main thread does. *)
Definition main_effect (st st' : State K J) : Prop :=
  sock_ptr (sh st') = sock_ptr (sh st) /\ runner (sh st') = runner (sh st) /\ spc st' = spc st /\ conns st' = conns st /\
  (heap_ok (sh st) -> heap_ok (sh st')) /\
  (heap_ok (sh st) -> main_ok (sh st) (mpc st) -> main_ok (sh st') (mpc st')) /\
  match mpc st' with MSend job _ => job <> [] /\ (job = last_job_id_ (runner (sh st)) \/ exists pc, mpc st = MSend job pc) | _ => True end /\
  ((mu (sh st') = mu (sh st) /\ holds (mpc st') = holds (mpc st)) \/
   (mu (sh st) = None /\ mu (sh st') = Some MainThread /\ holds (mpc st') = true) \/
   (holds (mpc st) = true /\ mu (sh st') = None /\ holds (mpc st') = false)).

Lemma main_step_effect st st' :
  match mpc st with MSend job _ => job <> [] | _ => True end -> main_step st = Some (inr st') -> main_effect st st'.
Proof.
  unfold main_step, main_effect. intros Hj E. destruct (mpc st) as [|x|x|job pc|e] eqn:Ep; try done.
  - destruct (todo st) as [|x xs]; [done|]. injection E as <-. split_and!; try done. by left.
  - destruct (mu (sh st)) eqn:Em; [done|]. injection E as <-. split_and!; try done. right. left. done.
  - injection E as <-. destruct (client (sh st)) as [o|] eqn:Ec; [destruct (last_job_id_ (runner (sh st))) as [|b job] eqn:Ej|].
    1, 3: split_and!; try done; by (right; right).
    split_and!; try done; [split; [done|by left]|by left].
  - assert (heap_ok (sh st) -> match send_step (sh st) pc with
                               | Going s' _ | Done s' _ => heap_ok s' | _ => True end) as Hh.
    { intros Hh. destruct pc as [j|rest|p rest]; cbn [send_step].
      - destruct (sock_ptr (sh st)); [destruct (dump_text j)|]; done.
      - destruct rest; [done|]. by destruct (sock_ptr (sh st)).
      - destruct (objs (sh st) !! p) eqn:Eo; [|done]. destruct (sock_send k rest) as [k' n].
        assert (heap_ok (set_objs <[p := k']> (sh st))) by (apply heap_set_objs; [done|apply Hh; by eexists]).
        destruct (n <=? 0); [done|]. by destruct (zlen rest <? n). }
    pose proof (send_step_spec (sh st) pc) as Hsp. destruct (send_step (sh st) pc) as [f|e|s' pc'|s' ok]; [done|..];
      injection E as <-.
    + split_and!; try done. by (right; right).
    + destruct Hsp as [(Hp & Hr & Hmu) Hok]. split_and!; try done; [by apply Hok| |by left].
      split; [done|]. right. by eexists.
    + destruct Hsp as [(Hp & Hr & Hmu) Hok]. split_and!; try done. by (right; right).
Qed.

Lemma step_inv t st st' : inv st -> step t st = Some (inr st') -> inv st'.
Proof.
  intros [Hh Hs Hm Hl Hj] E. destruct t; cbn [step] in E.
  - pose proof (session_step_spec (sh st) (spc st) (conns st) Hh Hs) as Hsp.
    destruct (session_step (sh st) (spc st) (conns st)) as [[f|[[s' pc'] cs']]|]; try done. injection E as <-.
    destruct Hsp as (Hh' & Hs' & _ & He). split; try done; cbn [sh spc mpc].
    + destruct He as [(-> & _)|[(En & -> & _)|(E1 & _ & ->)]]; [done| |].
      * rewrite Hm, En. by split.
      * apply Hl in E1. rewrite Hm, E1. by split.
    + destruct He as [(-> & E1 & -> & _)|[(_ & -> & _ & -> & _)|(_ & -> & ->)]]; [|by split..].
      rewrite <- Hl, E1. by split.
    + destruct (mpc st) as [| | |job pc|]; try done. destruct Hj as [Hj Hne]. split; [|done].
      assert (mu (sh st) = Some MainThread) as Em by by apply Hm.
      destruct He as [(_ & _ & _ & ->)|[(_ & _ & _ & _ & ->)|(E1 & _)]]; [done..|].
      apply Hl in E1. congruence.
  - assert (match mpc st with MSend job _ => job <> [] | _ => True end) as Hne by (destruct (mpc st); try done; apply Hj).
    apply (main_step_effect st st' Hne) in E as (Hp & Hr & Hspc & _ & Hhe & _ & Hjo & Hmu). split.
    + by apply Hhe.
    + rewrite Hspc. by apply (session_ok_ptr (sh st)).
    + destruct Hmu as [(-> & ->)|[(_ & -> & ->)|(_ & -> & ->)]]; [done|done|split; done].
    + rewrite Hspc, Hl. destruct Hmu as [(-> & _)|[(-> & -> & _)|(Hho & -> & _)]]; [done|split; done|].
      apply Hm in Hho as ->. split; done.
    + rewrite Hr. destruct (mpc st') as [| | |job pc|]; try done. destruct Hjo as [? [?|[pc0 E0]]]; [done|].
      rewrite E0 in Hj. naive_solver.
Qed.

Lemma run_app a b st : run (a ++ b) st = match run a st with inl f => inl f | inr st => run b st end.
Proof.
  revert st. induction a as [|t a IH]; intros st; [done|]. cbn [app run].
  destruct (step t st) as [[f|st']|]; [done|apply IH..].
Qed.

Lemma run_inv ts st st' : inv st -> run ts st = inr st' -> inv st'.
Proof.
  revert st. induction ts as [|t ts IH]; intros st Hi E; cbn [run] in E; [by injection E as <-|].
  destruct (step t st) as [[f|st1]|] eqn:Es; [done| |by apply (IH st)]. apply (IH st1); [by apply (step_inv t st)|done].
Qed.

(** A memory fault is the main thread's. *)
Lemma fault_by_main ts st f :
  inv st -> f <> Overrun -> run ts st = inl f ->
  exists b c st', ts = b ++ MainThread :: c /\ run b st = inr st' /\ step MainThread st' = Some (inl f).
Proof.
  intros Hi Hf. revert st Hi. induction ts as [|t ts IH]; intros st Hi E; cbn [run] in E; [done|].
  destruct (step t st) as [[f'|st1]|] eqn:Es.
  - injection E as ->. destruct t; [|by exists [], ts, st].
    cbn [step] in Es. pose proof (session_step_spec (sh st) (spc st) (conns st) (inv_heap _ Hi) (inv_session _ Hi)) as Hsp.
    destruct (session_step _ _ _) as [[f'|[[s' pc'] cs']]|]; try done. cbn in Hsp. congruence.
  - destruct (IH st1) as (b & c & st' & -> & Hb & Hs); [by apply (step_inv t st)|done|].
    exists (t :: b), c, st'. split; [done|]. split; [|done]. cbn [run]. by rewrite Es.
  - destruct (IH st Hi E) as (b & c & st' & -> & Hb & Hs).
    exists (t :: b), c, st'. split; [done|]. split; [|done]. cbn [run]. by rewrite Es.
Qed.

Lemma step_main_ok t st st' :
  inv st -> main_ok (sh st) (mpc st) ->
  (t = SessionThread -> in_use (mpc st) = true -> replaces (spc st) (conns st) = false) ->
  step t st = Some (inr st') -> main_ok (sh st') (mpc st').
Proof.
  intros Hi Hm Ht E. destruct Hi as [Hh Hs _ _ Hj]. destruct t; cbn [step] in E.
  - pose proof (session_step_spec (sh st) (spc st) (conns st) Hh Hs) as Hsp.
    destruct (session_step _ _ _) as [[f|[[s' pc'] cs']]|]; try done. injection E as <-. cbn [sh mpc].
    destruct Hsp as (_ & _ & Hp & _). destruct (mpc st) as [| | |job pc|]; try done. cbn [main_ok] in *.
    destruct pc; [done|..]; (eapply pc_ok_ptr; [|exact Hm]); apply Hp; by apply Ht.
  - apply main_step_effect in E as (_ & _ & _ & _ & _ & Hmo & _); [by apply Hmo|].
    destruct (mpc st); try done; apply Hj.
Qed.

(** It follows a replacement of the socket while the main thread was sending. *)
Lemma fault_after_replacement ts st f :
  inv st -> main_ok (sh st) (mpc st) -> f <> Overrun -> run ts st = inl f ->
  exists a ts' st1, ts = a ++ SessionThread :: ts' /\ run a st = inr st1 /\
    in_use (mpc st1) = true /\ replaces (spc st1) (conns st1) = true.
Proof.
  intros Hi Hm Hf. revert st Hi Hm. induction ts as [|t ts IH]; intros st Hi Hm E; [done|].
  destruct (decide (t = SessionThread /\ in_use (mpc st) = true /\ replaces (spc st) (conns st) = true)) as [(-> & ? & ?)|Hn].
  { by exists [], ts, st. }
  assert (forall st1, step t st = Some (inr st1) -> main_ok (sh st1) (mpc st1)) as Hok.
  { intros st1 Es. apply (step_main_ok t st); try done. intros -> Hu. apply not_true_is_false. naive_solver. }
  cbn [run] in E. destruct (step t st) as [[f'|st1]|] eqn:Es.
  - injection E as ->. destruct t; cbn [step] in Es.
    + pose proof (session_step_spec (sh st) (spc st) (conns st) (inv_heap _ Hi) (inv_session _ Hi)) as Hsp.
      destruct (session_step _ _ _) as [[f'|[[s' pc'] cs']]|]; try done. cbn in Hsp. congruence.
    + unfold main_step in Es. destruct (mpc st) as [|x|x|job pc|e]; try done;
        [by destruct (todo st)|by destruct (mu (sh st))|].
      pose proof (send_step_spec (sh st) pc) as Hsp. destruct (send_step (sh st) pc); try done.
      specialize (Hsp (inv_heap _ Hi) Hm). congruence.
  - destruct (IH st1) as (a & ts' & st2 & -> & Ha & Hs); [by apply (step_inv t st)|by apply Hok|done|].
    exists (t :: a), ts', st2. split; [done|]. split; [|done]. cbn [run]. by rewrite Es.
  - destruct (IH st Hi Hm E) as (a & ts' & st2 & -> & Ha & Hs).
    exists (t :: a), ts', st2. split; [done|]. split; [|done]. cbn [run]. by rewrite Es.
Qed.

(** C17: whatever the schedule of the session thread and the main thread, however often the
    connection is lost and made again: the lock excludes the two critical sections, and the
    job that a submission names is the pool's current one until its last byte is sent; and
    the only memory fault is the main thread's use of a socket that the session thread
    replaced or reset while the main thread was in its send loop. *)
Theorem submit_race r cs shares ts :
  (forall st, run ts (start r cs shares) = inr st ->
     ~ (holds (mpc st) = true /\ is_locked (spc st) = true) /\
     forall job pc, mpc st = MSend job pc -> job = last_job_id_ (runner (sh st)) /\ job <> []) /\
  (forall f, run ts (start r cs shares) = inl f -> f <> Overrun ->
     exists a b c st1 st2, ts = a ++ SessionThread :: b ++ MainThread :: c /\
       run a (start r cs shares) = inr st1 /\ in_use (mpc st1) = true /\ replaces (spc st1) (conns st1) = true /\
       run (a ++ SessionThread :: b) (start r cs shares) = inr st2 /\ step MainThread st2 = Some (inl f)).
Proof.
  pose proof (inv_start r cs shares) as Hi. split.
  - intros st E. apply run_inv in E; [|done]. destruct E as [_ _ Hm Hl Hj]. split.
    + intros [Hho%Hm Hlo%Hl]. congruence.
    + intros job pc E. by rewrite E in Hj.
  - intros f E Hf. destruct (fault_after_replacement ts _ f Hi I Hf E) as (a & ts' & st1 & -> & Ha & Hu & Hrp).
    rewrite run_app, Ha in E. destruct (fault_by_main _ st1 f (run_inv _ _ _ Hi Ha) Hf E) as (b & c & st2 & Eb & Hb & Hs).
    destruct b as [|t b]; [done|]. injection Eb as <- ->.
    exists a, b, c, st1, st2. split_and!; try done. by rewrite run_app, Ha.
Qed.

(** ** The main thread alone *)

(** The client as [Net.v] has it. *)
Definition view (s : Shared K) : option (StratumClient K) :=
  o ← client s; Some (mkClient host port username password tls (p ← o; objs s !! p)).

(** [n] steps of the main thread. *)
Definition alone (n : nat) (st : State K J) : Fault + State K J := run (replicate n MainThread) st.

Lemma alone_step n st st' : step MainThread st = Some (inr st') -> alone (S n) st = alone n st'.
Proof. intros E. unfold alone. cbn [replicate run]. by rewrite E. Qed.

Lemma alone_fault st f : step MainThread st = Some (inl f) -> alone 1 st = inl f.
Proof. intros E. unfold alone. cbn [replicate run]. by rewrite E. Qed.

Lemma set_objs_twice s p (k k' : K) : set_objs <[p := k']> (set_objs <[p := k]> s) = set_objs <[p := k']> s.
Proof. unfold set_objs. cbn [objs next_addr client runner mu]. by rewrite insert_insert_eq. Qed.

Lemma set_objs_same s p (k : K) : objs s !! p = Some k -> set_objs <[p := k]> s = s.
Proof. intros E. unfold set_objs. rewrite insert_id by done. by destruct s. Qed.

(** The send loop is [send_all]. *)
Lemma send_alone fuel data st job p k :
  (length data <= fuel)%nat -> mpc st = MSend job (SendLoop data) -> sock_ptr (sh st) = Some p -> objs (sh st) !! p = Some k ->
  match send_all fuel k data with
  | Some (k', ok) => exists n, alone n st = inr (main_returns st (set_objs <[p := k']> (sh st)) ok)
  | None => exists n, alone n st = inl Overrun
  end.
Proof.
  revert data st k. induction fuel as [|fuel IH]; intros [|b data] st k Hl Hpc Hp Hk; cbn [length] in Hl; try lia.
  1, 2: exists 1%nat; rewrite (alone_step _ _ (main_returns st (sh st) true)); [by rewrite set_objs_same|];
    unfold step, main_step; by rewrite Hpc.
  set (st1 := set_main st (sh st) (MSend job (SendCall p (b :: data)))).
  assert (step MainThread st = Some (inr st1)) as E1 by (unfold step, main_step; rewrite Hpc; cbn [send_step]; by rewrite Hp).
  assert (step MainThread st1 = Some (match send_step (sh st) (SendCall p (b :: data)) with
                                      | Faulted f => inl f
                                      | Threw e => inr (set_main st1 (set_mu None (sh st)) (MThrown e))
                                      | Going s pc => inr (set_main st1 s (MSend job pc))
                                      | Done s ok => inr (main_returns st1 s ok) end)) as E2 by done.
  cbn [send_step] in E2. rewrite Hk in E2. cbn [send_all]. destruct (sock_send k (b :: data)) as [k1 n].
  destruct (Z.leb_spec n 0).
  { exists 2%nat. by rewrite (alone_step _ _ _ E1), (alone_step _ _ _ E2). }
  destruct (zlen (b :: data) <? n).
  { exists 2%nat. rewrite (alone_step _ _ _ E1). by apply alone_fault. }
  match type of E2 with _ = Some (inr ?x) => set (st2 := x) in * end.
  specialize (IH (drop (Z.to_nat n) (b :: data)) st2 k1).
  destruct (send_all fuel k1 (drop (Z.to_nat n) (b :: data))) as [[k' ok]|];
    (destruct IH as [m Hm]; [rewrite length_drop; cbn [length]; lia|done|done|apply lookup_insert_eq|]);
    exists (S (S m)); rewrite (alone_step _ _ _ E1), (alone_step _ _ _ E2), Hm; [|done].
  f_equal. unfold main_returns, st2. cbn [sh set_main spc conns mpc todo results]. by rewrite set_objs_twice.
Qed.

(** What is left after a submission. *)
Definition submitted (st : State K J) (rest : list Share) (c : option (StratumClient K)) (r : StratumRunner) (ok : bool)
    (st' : State K J) : Prop :=
  mpc st' = MIdle /\ todo st' = rest /\ results st' = results st ++ [ok] /\ view (sh st') = c /\
  runner (sh st') = r /\ mu (sh st') = None /\ spc st' = spc st /\ conns st' = conns st.

(** The two steps into the critical section. *)
Definition entered (st : State K J) (x : Share) (rest : list Share) : State K J :=
  mkState (set_mu (Some MainThread) (sh st)) (spc st) (conns st) (MTest x) rest (results st).

Lemma enter_alone st x rest n :
  mpc st = MIdle -> todo st = x :: rest -> mu (sh st) = None -> alone (S (S n)) st = alone n (entered st x rest).
Proof.
  intros Hpc Hto Hmu.
  rewrite (alone_step _ _ (mkState (sh st) (spc st) (conns st) (MEnter x) rest (results st))) by
    (unfold step, main_step; by rewrite Hpc, Hto).
  apply alone_step. unfold step, main_step. cbn [mpc sh]. by rewrite Hmu.
Qed.

(** From the test of [sock_] to the release of the lock. *)
Lemma send_json_alone st job j o :
  mpc st = MSend job (SendTest j) -> heap_ok (sh st) -> client (sh st) = Some o ->
  match sendJson (mkClient host port username password tls (p ← o; objs (sh st) !! p)) j with
  | Some (inr (c, ok)) => exists n s', alone n st = inr (main_returns st s' ok) /\ view s' = Some c /\ runner s' = runner (sh st)
  | Some (inl e) => exists n, alone n st = inr (set_main st (set_mu None (sh st)) (MThrown e))
  | None => exists n, alone n st = inl Overrun
  end.
Proof.
  intros Hpc Hh Ec. unfold sendJson. cbn [sock_]. destruct o as [p|]; cbn [mbind option_bind].
  2: { exists 1%nat, (sh st). split; [|by unfold view; rewrite Ec]. rewrite (alone_step _ _ (main_returns st (sh st) false)); [done|].
       unfold step, main_step. rewrite Hpc. cbn [send_step]. unfold sock_ptr. by rewrite Ec. }
  assert (sock_ptr (sh st) = Some p) as Hp by (unfold sock_ptr; by rewrite Ec).
  apply Hh in Hp as Hk. destruct Hk as [k Hk]. rewrite Hk. destruct (dump_text j) as [e|text] eqn:Ed.
  { exists 1%nat. rewrite (alone_step _ _ (set_main st (set_mu None (sh st)) (MThrown e))); [done|].
    unfold step, main_step. rewrite Hpc. cbn [send_step]. by rewrite Hp, Ed. }
  set (st1 := set_main st (sh st) (MSend job (SendLoop (text ++ [13; 10])))).
  assert (forall n, alone (S n) st = alone n st1) as E1.
  { intros n. apply alone_step. unfold step, main_step. rewrite Hpc. cbn [send_step]. by rewrite Hp, Ed. }
  pose proof (send_alone (length (text ++ [13; 10])) (text ++ [13; 10]) st1 job p k ltac:(done) eq_refl Hp Hk) as Hs.
  destruct (send_all _ k _) as [[k' ok]|]; cbn [mbind option_bind]; destruct Hs as [n Hn]; [|exists (S n); by rewrite E1].
  exists (S n), (set_objs <[p := k']> (sh st)). split; [by rewrite E1, Hn|]. split; [|done].
  unfold view. cbn [set_objs client objs]. rewrite Ec. cbn [mbind option_bind]. by rewrite lookup_insert_eq.
Qed.

(** C18: run by itself, the main thread's steps are the submission of [StratumRunner.v]: the
    same answer, the same bytes given to the socket, the same runner, the same exception, and
    the lock free at the end; they end after finitely many steps. *)
Theorem submit_steps_refine st x rest :
  heap_ok (sh st) -> mpc st = MIdle -> todo st = x :: rest -> mu (sh st) = None ->
  match submitShare (J := J) (view (sh st)) (runner (sh st)) (s_extranonce2 x) (s_ntime x) (s_nonce x) with
  | Some (inr ok, (c, r)) => exists n st', alone n st = inr st' /\ submitted st rest c r ok st'
  | Some (inl e, (c, r)) => exists n st', alone n st = inr st' /\ mpc st' = MThrown e /\ mu (sh st') = None /\
      view (sh st') = c /\ runner (sh st') = r
  | None => exists n, alone n st = inl Overrun
  end.
Proof.
  intros Hh Hpc Hto Hmu. pose proof (fun n => enter_alone st x rest n Hpc Hto Hmu) as E2.
  set (st2 := entered st x rest) in *. change (view (sh st)) with (view (sh st2)). change (runner (sh st)) with (runner (sh st2)).
  unfold submitShare, view at 1. destruct (client (sh st2)) as [o|] eqn:Ec; cbn [mbind option_bind];
    [destruct (last_job_id_ (runner (sh st2))) as [|b job] eqn:Ej|].
  1, 3: eexists 3%nat, _; rewrite E2, (alone_step _ _ (main_returns st2 (sh st2) false));
    [split; [reflexivity|]; unfold submitted, view; cbn; cbn in Ec; by rewrite Ec|
     unfold step, main_step; cbn [mpc st2 entered]; by rewrite Ec, ?Ej].
  set (st3 := set_main st2 (sh st2) (MSend (b :: job) (SendTest (share_request (b :: job) x)))).
  assert (forall n, alone (S (S (S n))) st = alone n st3) as E3.
  { intros n. rewrite E2. apply alone_step. unfold step, main_step. cbn [mpc st2 entered]. by rewrite Ec, Ej. }
  pose proof (send_json_alone st3 (b :: job) (share_request (b :: job) x) o eq_refl Hh Ec) as Hs.
  unfold sendSubmit. change (request 3 _ _) with (share_request (b :: job) x). cbn [cl_username_].
  change (sh st3) with (sh st2) in Hs.
  destruct (sendJson _ _) as [[e|[c ok]]|]; cbn [mbind option_bind].
  - destruct Hs as [n Hn]. eexists (S (S (S n))), _. rewrite E3, Hn. split; [reflexivity|].
    split; [done|]. split; [done|]. split; [|done]. unfold view. cbn. cbn in Ec. by rewrite Ec.
  - destruct Hs as (n & s' & Hn & Hv & Hr). eexists (S (S (S n))), _. rewrite E3, Hn. split; [reflexivity|]. split_and!; done.
  - destruct Hs as [n Hn]. exists (S (S (S n))). by rewrite E3.
Qed.

(** ** The session thread alone *)

Definition set_session (st : State K J) (s : Shared K) (pc : SessionPc J) (cs : list (option K)) : State K J :=
  mkState s pc cs (mpc st) (todo st) (results st).

Definition session_alone (n : nat) (st : State K J) : Fault + State K J := run (replicate n SessionThread) st.

Lemma session_alone_step n st s pc cs :
  session_step (sh st) (spc st) (conns st) = Some (inr (s, pc, cs)) ->
  session_alone (S n) st = session_alone n (set_session st s pc cs).
Proof. intros E. unfold session_alone. cbn [replicate run step]. by rewrite E. Qed.

(** [client_->connect()] on the socket a factory made: the client of [Net.v]; what follows
    is the first message, or the next attempt. *)
Lemma connect_alone st c plain tls_sock cs :
  spc st = SLoop -> conns st = (if tls then tls_sock else Some plain) :: cs -> view (sh st) = Some c ->
  exists n st', session_alone n st = inr st' /\ view (sh st') = Some (Net.connect plain tls_sock c).1 /\
    spc st' = (if (Net.connect plain tls_sock c).2 then (next_hello (sh st) hello).2 else SLoop) /\ conns st' = cs /\ mpc st' = mpc st.
Proof.
  intros Hpc Hcs Hv. unfold view in Hv. destruct (client (sh st)) as [o|] eqn:Ec; [|done]. injection Hv as <-.
  unfold Net.connect. cbn [use_tls_ host_ port_].
  assert (session_step (sh st) (spc st) (conns st) = session_step (sh st) SLoop ((if tls then tls_sock else Some plain) :: cs))
    as E1 by congruence. cbn [session_step] in E1.
  destruct (if tls then tls_sock else Some plain) as [k|].
  2: { eexists 1%nat, _. rewrite (session_alone_step _ _ _ _ _ E1). split; [reflexivity|]. split_and!; done. }
  change (session_step (sh st) (spc st) (conns st) =
          Some (inr (assign_sock (Some k) (sh st), SDial (next_addr (sh st)), cs))) in E1.
  set (st1 := set_session st (assign_sock (Some k) (sh st)) (SDial (next_addr (sh st))) cs).
  assert (session_step (sh st1) (spc st1) (conns st1) = session_step (assign_sock (Some k) (sh st)) (SDial (next_addr (sh st))) cs)
    as E2 by done. cbn [session_step assign_sock objs] in E2. rewrite lookup_insert_eq in E2.
  destruct (sock_connect k host port) as [k' ok]. cbn [fst snd].
  destruct ok; eexists 2%nat, _; rewrite (session_alone_step _ _ _ _ _ E1), (session_alone_step _ st1 _ _ _ E2);
    (split; [reflexivity|]); split_and!; try done; unfold view; cbn; by rewrite lookup_insert_eq.
Qed.

(** Where the loop goes with a result of [recvLine]. *)
Definition after_line (status : RecvStatus) (line : list Z) : SessionPc J :=
  match status with kTimeout => SRecv [] | kClosed => SClose | kLine => SLine line end.

(** The bytes of a line: [recv_loop]. *)
Lemma recv_alone fuel line st p k k' status l :
  spc st = SRecv line -> sock_ptr (sh st) = Some p -> objs (sh st) !! p = Some k ->
  recv_loop fuel k line = Some (k', status, l) ->
  exists n, session_alone n st = inr (set_session st (set_objs <[p := k']> (sh st)) (after_line status l) (conns st)).
Proof.
  revert line st k. induction fuel as [|fuel IH]; intros line st k Hpc Hp Hk E; [done|]. cbn [recv_loop] in E.
  assert (session_step (sh st) (spc st) (conns st) = Some (inr (sh st, SRecvCall p line, conns st))) as E1
    by (rewrite Hpc; cbn [session_step]; by rewrite Hp).
  set (st1 := set_session st (sh st) (SRecvCall p line) (conns st)).
  assert (session_step (sh st1) (spc st1) (conns st1) = session_step (sh st) (SRecvCall p line) (conns st)) as E2 by done.
  cbn [session_step] in E2. rewrite Hk in E2. destruct (sock_recv k 1) as [[k1 r] bs].
  destruct (r <=? 0).
  { exists 2%nat. rewrite (session_alone_step _ _ _ _ _ E1), (session_alone_step _ st1 _ _ _ E2). unfold cut_line.
    destruct (r =? -2); [by injection E as <- <- <-|]. destruct line; by injection E as <- <- <-. }
  destruct bs as [|ch bs]; [done|]. destruct (ch =? 10).
  { exists 2%nat. rewrite (session_alone_step _ _ _ _ _ E1), (session_alone_step _ st1 _ _ _ E2). by injection E as <- <- <-. }
  set (st2 := set_session st (set_objs <[p := k1]> (sh st)) (SRecv (line ++ [ch])) (conns st)).
  destruct (IH (line ++ [ch]) st2 k1 eq_refl Hp ltac:(apply lookup_insert_eq) E) as [n Hn].
  exists (S (S n)). rewrite (session_alone_step _ _ _ _ _ E1), (session_alone_step _ st1 _ _ _ E2).
  change (set_session st1 _ _ _) with st2. rewrite Hn. unfold st2, set_session. cbn [sh conns mpc todo results].
  by rewrite set_objs_twice.
Qed.

(** One turn of the receive loop with the lock free: [recvLine], the message handler, and
    the end of the thread when an exception leaves it. *)
Lemma receive_turn_alone fuel st c c' line :
  spc st = SRecv [] -> heap_ok (sh st) -> mu (sh st) = None -> view (sh st) = Some c ->
  recvLine fuel c = Some (c', kLine, line) ->
  exists n st', session_alone n st = inr st' /\ view (sh st') = Some c' /\
    runner (sh st') = (handle_line hash now line (runner (sh st))).2 /\ mu (sh st') = None /\
    spc st' = match (handle_line hash now line (runner (sh st))).1 with inl _ => SEnd | inr _ => SRecv [] end.
Proof.
  intros Hpc Hh Hmu Hv Hr. unfold view in Hv. destruct (client (sh st)) as [[p|]|] eqn:Ec; [| |done]; injection Hv as <-;
    unfold recvLine in Hr; cbn [sock_ mbind option_bind] in Hr; [|done].
  assert (sock_ptr (sh st) = Some p) as Hp by (unfold sock_ptr; by rewrite Ec).
  apply Hh in Hp as Hk. destruct Hk as [k Hk]. rewrite Hk in Hr.
  destruct (recv_loop fuel k []) as [[[k' status] l]|] eqn:E; [|done]. cbn [mbind option_bind] in Hr.
  injection Hr as <- -> ->. destruct (recv_alone fuel [] st p k k' kLine line Hpc Hp Hk E) as [n Hn].
  set (s1 := set_objs <[p := k']> (sh st)) in *. set (st1 := set_session st s1 (SLine line) (conns st)).
  assert (view s1 = Some (set_sock (mkClient host port username password tls (Some k)) (Some k'))) as Hv1.
  { unfold view, s1. cbn [set_objs client objs]. rewrite Ec. cbn [mbind option_bind]. by rewrite lookup_insert_eq. }
  assert (forall m, session_alone (n + m) st = session_alone m st1) as E1.
  { intros m. unfold session_alone in *. by rewrite replicate_add, run_app, Hn. }
  assert (forall o, session_step (set_mu o s1) (SLocked line) (conns st) =
                    let '(s, pc) := handle (set_mu o s1) line in Some (inr (set_mu None s, pc, conns st))) as E2 by done.
  assert (session_step (sh st1) (spc st1) (conns st1) = session_step s1 (SLine line) (conns st)) as E3 by done.
  cbn [session_step] in E3. change (runner s1) with (runner (sh st)) in E3. change (mu s1) with (mu (sh st)) in E3.
  rewrite Hmu in E3. unfold handle in E2, E3. change (runner s1) with (runner (sh st)) in E3.
  cbn [set_mu runner] in E2. change (runner s1) with (runner (sh st)) in E2.
  destruct (handle_line hash now line (runner (sh st))) as [res r']. cbn [fst snd] in *. case_decide.
  - eexists (n + 1)%nat, _. rewrite E1, (session_alone_step _ _ _ _ _ E3). split; [reflexivity|]. split_and!; try done.
  - set (st2 := set_session st1 (set_mu (Some SessionThread) s1) (SLocked line) (conns st)).
    eexists (n + 2)%nat, _. rewrite E1, (session_alone_step _ _ _ _ _ E3), (session_alone_step _ st2 _ _ _ (E2 _)).
    split; [reflexivity|]. split_and!; try done.
Qed.

End Threads.

(** ** Schedules *)

Module Race.
Import Concrete.

(** A pool that sends one notification and closes; the socket takes [chunk] + 1 bytes. *)
Definition notification : list Z :=
  dump (JObj [("method"%string, JStr (str "mining.notify")); ("params"%string, JArr [JStr (str "j")])]) ++ [10].
Definition pool_socket (chunk : nat) : Script := mkScript [] [EData notification] chunk.
Definition initial (sockets : list (option Script)) : State Script Jv :=
  start (StratumRunner_init StratumAdapter_init false) sockets [mkShare (str "00") (str "01") (str "02")].
Definition play (sockets : list (option Script)) (ts : list Tid) : Fault + State Script Jv :=
  run (fun _ => 7) 0 (str "pool") 3333 (str "u") (str "x") ts (initial sockets).
Definition session (n : nat) : list Tid := replicate n SessionThread.
Definition main (n : nat) : list Tid := replicate n MainThread.

(** The session thread up to the end of the notification. *)
Definition connected : nat := 2 * length notification + 17.

(** The pool closes while a share is being sent: the main thread has loaded the socket, or
    is about to load it. *)
Definition freed_schedule : list Tid := session connected ++ main 5 ++ session 3 ++ main 1.
Definition null_schedule : list Tid := session connected ++ main 4 ++ session 3 ++ main 1.

Example socket_used_after_free : play [Some (pool_socket 4000)] freed_schedule = inl UseAfterFree.
Proof. vm_compute. reflexivity. Qed.
Example socket_null : play [Some (pool_socket 4000)] null_schedule = inl NullPointer.
Proof. vm_compute. reflexivity. Qed.

(** One thread inside [recv] and the other inside [send] of one object, which a TLS
    connection does not allow. *)
Example both_threads_inside :
  match play [Some (pool_socket 4000)] (session connected ++ main 5 ++ session 1) with
  | inr st => match spc st, mpc st with SRecvCall p _, MSend _ (SendCall q _) => p = q | _, _ => False end
  | inl _ => False
  end.
Proof. vm_compute. reflexivity. Qed.

(** After a reconnect the job is still set: a share is sent into the middle of the first
    message of the new session, and reported as sent. *)
Definition submit_line : list Z :=
  dump (share_request (J := Jv) (str "u") (str "j") (mkShare (str "00") (str "01") (str "02"))) ++ crlf.
Definition subscribe_line : list Z :=
  dump (request (J := Jv) 1 (str "mining.subscribe") [jstring (str "MyCustomBTCMiner/0.1")]) ++ crlf.
Definition cut_in_schedule : list Tid :=
  session (connected + 8) ++ main (5 + 2 * length submit_line) ++ session (2 * length subscribe_line).

Example messages_interleave :
  match play [Some (pool_socket 4000); Some (pool_socket 0)] cut_in_schedule with
  | inr st => results st = [true] /\ (sc_out <$> objs (sh st) !! 1%nat) =
                Some (take 1 subscribe_line ++ submit_line ++ drop 1 subscribe_line)
  | inl _ => False
  end.
Proof. vm_compute. done. Qed.

End Race.

Import Concrete Race.

Lemma submit_race_witness :
  exists a b c st1, freed_schedule = a ++ SessionThread :: b ++ MainThread :: c /\
    play [Some (pool_socket 4000)] a = inr st1 /\ replaces (spc st1) (conns st1) = true.
Proof.
  destruct (proj2 (submit_race (K := Script) (J := Jv) (fun _ => 7) 0 (str "pool") 3333 (str "u") (str "x")
    (StratumRunner_init StratumAdapter_init false) [Some (pool_socket 4000)] [mkShare (str "00") (str "01") (str "02")]
    freed_schedule) UseAfterFree) as (a & b & c & st1 & _ & E & Ha & _ & Hr & _).
  - vm_compute. reflexivity.
  - discriminate.
  - exists a, b, c, st1. split; [exact E|]. split; [exact Ha|exact Hr].
Defined.

(** The state in which the share is submitted. *)
Definition ready : State Script Jv :=
  match play [Some (pool_socket 4000)] (session connected) with inr st => st | inl _ => initial [] end.

Lemma submit_steps_refine_witness :
  exists n st', alone (K := Script) (J := Jv) (fun _ => 7) 0 (str "pool") 3333 (str "u") (str "x") n ready = inr st' /\
    results st' = [true].
Proof.
  pose proof (submit_steps_refine (K := Script) (J := Jv) (fun _ => 7) 0 (str "pool") 3333 (str "u") (str "x") false
    ready (mkShare (str "00") (str "01") (str "02")) []) as H.
  assert (exists c, submitShare (J := Jv) (view (str "pool") 3333 (str "u") (str "x") false (sh ready)) (runner (sh ready))
            (str "00") (str "01") (str "02") = Some (inr true, c)) as [[c r] E]
    by (vm_compute; eexists; reflexivity).
  cbn [s_extranonce2 s_ntime s_nonce] in H. rewrite E in H. destruct H as (n & st' & En & _ & _ & Hr & _).
  - refine (inv_heap _ (run_inv (fun _ => 7) 0 (str "pool") 3333 (str "u") (str "x") (session connected)
      (initial [Some (pool_socket 4000)]) ready (inv_start _ _ _) _)). vm_compute. reflexivity.
  - vm_compute. reflexivity.
  - vm_compute. reflexivity.
  - vm_compute. reflexivity.
  - exists n, st'. split; [exact En|]. rewrite Hr. vm_compute. reflexivity.
Defined.
