(* ===== verification/GbtRunner.v ===== *)
(** * The getblocktemplate poller ([src/adapters/gbt_runner.cc])

    The loop that asks the node for templates, turns each new previous hash into a job of
    the GBT adapter, and hands the template to the block submitter. *)

From stdpp Require Import base numbers list option gmap strings.
From S2P Require Import Prelude FileSys Endian Targets Sha256 CpuVerify Midstate Registry Normalizer Json Hex Text GbtSubmitter Adapters Net Config.

Open Scope Z_scope.

(** ** Definitions *)

(** The submitter is shared with the adapter: it is the adapter's field. *)
Record GbtRunner := mkGbtRunner { g_adapter : GbtAdapter; last_prevhash : list Z }.

Definition new_submitter (p : PoolEntry) : GbtSubmitter :=
  let s := GbtSubmitter_init in
  match pool_gbt p with
  | None => s
  | Some g =>
      let s := if gbt_allow_synth_coinbase g then setAllowSynthCoinbase s true else s in
      let s := match gbt_payout_script_hex g with [] => s | h => setPayoutScriptHex s h end in
      match gbt_cb_tag g with [] => s | t => setCoinbaseTag s t end
  end.

(** A text used as a path. *)
Definition text_string (s : list Z) : string :=
  String.string_of_list_ascii (map (fun c => Ascii.ascii_of_N (Z.to_N c)) s).

(** The RPC client the submitter is constructed with (gbt_submitter.h). *)
Definition submitter_rpc (rc : RpcConfig) : RpcClient :=
  let r := RpcClient_new (rpc_url rc) in
  let r := if bool_decide (rpc_auth rc = str "userpass")
           then setBasicAuth r (rpc_username rc) (rpc_password rc) else r in
  if bool_decide (rpc_auth rc = str "cookie") && negb (bool_decide (rpc_cookie_path rc = []))
  then setCookieAuthFile r (text_string (rpc_cookie_path rc)) else r.

Definition GbtRunner_new (a : GbtAdapter) (p : PoolEntry) : GbtRunner :=
  mkGbtRunner (match pool_rpc p with Some _ => setSubmitter a (Some (new_submitter p)) | None => a end) [].

Definition set_g_adapter (a : GbtAdapter) (g : GbtRunner) : GbtRunner := mkGbtRunner a (last_prevhash g).
Definition set_prevhash (h : list Z) (g : GbtRunner) : GbtRunner := mkGbtRunner (g_adapter g) h.

Section Template.
Context {J : Type} `{Json J}.
Context (hash : list Z -> Z).

Definition string_at (j : J) (k : string) : throws (list Z) := x ← jfield j k; get_string x.

(** The job of a template: the header prefix for the midstate stays zero. *)
Definition template_inputs (gbt : J) (prevhash : list Z) : throws RawJobInputs :=
  version ← (x ← jfield gbt "version"; v ← get_int 32 x; mret (u32 v));
  nbits ← (s ← string_at gbt "bits"; v ← stoul16 s; mret (u32 v));
  ntime ← (x ← jfield gbt "curtime"; v ← get_int 64 x; mret (u32 v));
  prev ← hexToBytes prevhash (repeat 0 32);
  is_str ← (if contains gbt "merkleroot" then x ← jfield gbt "merkleroot"; mret (is_string x) else mret false);
  mr ← (if is_str : bool then string_at gbt "merkleroot" else mret (repeat 48 64));
  root ← hexToBytes mr (repeat 0 32);
  mret (mkRawJobInputs 0 (mkRawJob "gbt" (hash prevhash) version nbits ntime) prev root
          (repeat 0 64) nbits 0 0 0 0 true).

(** [if (submitter_) submitter_->updateTemplate(gbt)] on the shared object. *)
Definition update_submitter (gbt : J) : M GbtRunner unit :=
  g ← getS;
  match submitter_ (g_adapter g) with
  | None => mret tt
  | Some s =>
      let '(res, s) := updateTemplate gbt s in
      _ ← modify (set_g_adapter (setSubmitter (g_adapter g) (Some s)));
      lift res
  end.

(** The [try] block of the loop. *)
Definition handle_template (gbt : J) : M GbtRunner unit :=
  mcatch
    (prevhash ← lift (string_at gbt "previousblockhash");
     g ← getS;
     if bool_decide (prevhash = last_prevhash g) then mret tt
     else
       _ ← modify (set_prevhash prevhash);
       inp ← lift (template_inputs gbt prevhash);
       g ← getS;
       match ingestTemplate (g_adapter g) inp with
       | None => lift (inl undefined_behaviour)
       | Some a => _ ← modify (set_g_adapter a); update_submitter gbt
       end)
    (mret tt).

(** *** Fetching *)

Context {K : Type} `{ISocket K}.

Definition template_request (p : PoolEntry) : J :=
  jarray [jobject [("rules"%string,
    jarray (match pool_gbt p with
            | Some g => map jstring (gbt_rules g)
            | None => [jstring (str "segwit")]
            end))]].

Definition fetchTemplate (make_socket : bool -> option K) (fuel : nat) (fs : FS) (home : option string)
    (p : PoolEntry) : option (throws (option J)) :=
  match pool_rpc p with
  | None => Some (inr None)
  | Some rc =>
      let rpc := RpcClient_new (rpc_url rc) in
      let rpc := if bool_decide (rpc_auth rc = str "userpass")
                 then setBasicAuth rpc (rpc_username rc) (rpc_password rc) else rpc in
      '(_, _, res) ← call make_socket fuel fs home rpc (str "getblocktemplate") (template_request p);
      Some res
  end.

(** The loop: one element of [polls] is one turn with the sockets it makes; the fetch is
    outside the [try], so its exceptions end the thread. *)
Fixpoint gbt_runLoop (polls : list (bool -> option K)) (fuel : nat) (fs : FS) (home : option string)
    (p : PoolEntry) (g : GbtRunner) : option (throws unit * GbtRunner) :=
  match polls with
  | [] => Some (inr tt, g)
  | mk :: polls =>
      r ← fetchTemplate mk fuel fs home p;
      match r with
      | inl e => Some (inl e, g)
      | inr None => gbt_runLoop polls fuel fs home p g
      | inr (Some gbt) =>
          match handle_template gbt g with
          | (inl e, g) => Some (inl e, g)
          | (inr _, g) => gbt_runLoop polls fuel fs home p g
          end
      end
  end.

End Template.

(** ** Theorems *)

Section TemplateTheorems.
Context {J : Type} `{JsonLaws J}.
Context (hash : list Z -> Z).

Lemma string_at_jobject l k s : assoc l k = Some (jstring s) -> string_at (jobject l) k = inr s.
Proof. intros E. unfold string_at. rewrite (jfield_jobject l k _ E). apply get_string_jstring. Qed.

Lemma handle_template_new l prevhash g :
  assoc l "previousblockhash" = Some (jstring prevhash) -> prevhash <> last_prevhash g ->
  handle_template hash (jobject l) g =
  mcatch (inp ← lift (template_inputs hash (jobject l) prevhash);
          g ← getS;
          match ingestTemplate (g_adapter g) inp with
          | None => lift (inl undefined_behaviour)
          | Some a => _ ← modify (set_g_adapter a); update_submitter (jobject l)
          end) (mret tt) (set_prevhash prevhash g).
Proof.
  intros E Hne. unfold handle_template, mcatch, mbind, M_bind, lift, getS, modify.
  by rewrite (string_at_jobject l _ _ E), bool_decide_false by done.
Qed.

(** A template with the previous hash of the last one is ignored whatever else it
    holds, so a refreshed template of the same height (new transactions, a new time) is
    never mined, and a template that was dropped as malformed blocks its correction: the
    hash is remembered before the rest is read. *)
Theorem template_once l prevhash g :
  assoc l "previousblockhash" = Some (jstring prevhash) ->
  (last_prevhash g = prevhash -> handle_template hash (jobject l) g = (inr tt, g)) /\
  (forall e l', last_prevhash g <> prevhash -> e <> undefined_behaviour ->
     template_inputs hash (jobject l) prevhash = inl e ->
     assoc l' "previousblockhash" = Some (jstring prevhash) ->
     let g1 := (handle_template hash (jobject l) g).2 in
     g_adapter g1 = g_adapter g /\ handle_template hash (jobject l') g1 = (inr tt, g1)).
Proof.
  intros E. split.
  - intros Hg. unfold handle_template, mcatch, mbind, M_bind, lift, getS, modify.
    rewrite (string_at_jobject l _ _ E), bool_decide_true by done. done.
  - intros e l' Hne He Ht E'. rewrite (handle_template_new l prevhash g) by done.
    unfold mcatch, mbind, M_bind, lift, getS, modify. rewrite Ht.
    assert (forall (x y : (exn + unit) * GbtRunner), match e with undefined_behaviour => x | _ => y end = y) as He'
      by (intros; by destruct e).
    rewrite He'. split; [done|]. cbn [snd mret M_ret].
    unfold handle_template, mcatch, mbind, M_bind, lift, getS.
    rewrite (string_at_jobject l' _ _ E'), bool_decide_true by done. done.
Qed.

Lemma handle_template_ok l prevhash g inp a :
  assoc l "previousblockhash" = Some (jstring prevhash) -> prevhash <> last_prevhash g ->
  template_inputs hash (jobject l) prevhash = inr inp ->
  ingestTemplate (g_adapter g) inp = Some a ->
  exists out, handle_template hash (jobject l) g =
    (out, mkGbtRunner (match submitter_ a with
                       | None => a
                       | Some s => setSubmitter a (Some (updateTemplate (jobject l) s).2)
                       end) prevhash).
Proof.
  intros E Hne Ht Ha. rewrite (handle_template_new l prevhash g) by done.
  unfold mcatch, mbind, M_bind, lift, getS, modify. rewrite Ht. cbn [g_adapter set_prevhash]. rewrite Ha.
  unfold update_submitter, mbind, M_bind, getS, modify, set_g_adapter. cbn [g_adapter last_prevhash set_prevhash].
  destruct (submitter_ a) as [s|]; [|by eexists].
  destruct (updateTemplate (jobject l) s) as [[[]|[]] s']; by eexists.
Qed.

(** The fields of a template that the loop reads. *)
Record template_fields (l : list (string * J)) (prev : list Z) (version nbits ntime : Z) : Prop := {
  tf_prev : assoc l "previousblockhash" = Some (jstring (bytesToHex prev));
  tf_version : assoc l "version" = Some (jnumber version);
  tf_bits : assoc l "bits" = Some (jstring (bytesToHex (be_bytes32 nbits)));
  tf_curtime : assoc l "curtime" = Some (jnumber ntime);
  tf_prev_bytes : length prev = 32%nat /\ is_bytes prev;
  tf_version_range : is_i32 version;
  tf_nbits_range : is_u32 nbits;
  tf_ntime_range : is_u32 ntime }.

Lemma template_inputs_eq l prev version nbits ntime :
  template_fields l prev version nbits ntime -> assoc l "merkleroot" = None ->
  template_inputs hash (jobject l) (bytesToHex prev) =
  inr (mkRawJobInputs 0 (mkRawJob "gbt" (hash (bytesToHex prev)) (u32 version) nbits ntime) prev
         (repeat 0 32) (repeat 0 64) nbits 0 0 0 0 true).
Proof.
  intros [] Hm. unfold template_inputs.
  rewrite (jfield_jobject _ _ _ tf_version0), (jfield_jobject _ _ _ tf_curtime0), (string_at_jobject _ _ _ tf_bits0).
  cbn [mbind throws_bind]. rewrite (get_int_jnumber 32 version) by (lia || exact tf_version_range0).
  cbn [mbind throws_bind mret throws_ret]. rewrite stoul16_hex_word by done.
  cbn [mbind throws_bind mret throws_ret]. rewrite (u32_small nbits) by done.
  rewrite (get_int_jnumber 64 ntime) by (unfold in_u in *; lia). cbn [mbind throws_bind mret throws_ret].
  rewrite (u32_small ntime), hexToBytes_hex by (done || apply tf_prev_bytes0). cbn [mbind throws_bind].
  rewrite contains_jobject, bool_decide_false by (rewrite Hm; by intros [? ?]).
  cbn [mbind throws_bind mret throws_ret]. change (repeat 48 64) with (bytesToHex (repeat 0 32)).
  rewrite hexToBytes_hex by (done || apply zeros_bytes). done.
Qed.

(** C37: a template with a new previous hash and no Merkle root field, as nodes send it,
    becomes one job: previous hash, version (as a 32-bit word), bits and time are the
    template's, but its Merkle root is all zeros and its midstate is that of 64 zero bytes, not of its
    header; the submitter, if any, takes the template. *)
Theorem template_queues_job l prev version nbits ntime g :
  template_fields l prev version nbits ntime -> assoc l "merkleroot" = None ->
  last_prevhash g <> bytesToHex prev -> 3 <= compact_exponent nbits ->
  exists res, gbt_q_ (g_adapter (handle_template hash (jobject l) g).2) = gbt_q_ (g_adapter g) ++ [res] /\
    leU32WordsToBe32Bytes (prevhash_le (res_item res)) = prev /\
    Registry.version (res_item res) = u32 version /\
    ntime = Registry.ntime (res_item res) /\ nbits = Registry.nbits (res_item res) /\
    merkle_root_le (res_item res) = repeat 0 8 /\
    midstate_le (res_job_const res) = Midstate.sha256_midstate_64 (repeat 0 64) /\
    target_val (share_target_le (res_item res)) = compact_value nbits /\
    submitter_ (g_adapter (handle_template hash (jobject l) g).2) =
      (s ← submitter_ (g_adapter g); Some (updateTemplate (jobject l) s).2).
Proof.
  intros Ht Hm Hne Hx.
  set (inp := mkRawJobInputs 0 (mkRawJob "gbt" (hash (bytesToHex prev)) (u32 version) nbits ntime) prev
         (repeat 0 32) (repeat 0 64) nbits 0 0 0 0 true).
  destruct (compact_value_ok nbits (tf_nbits_range _ _ _ _ _ Ht) Hx) as (tb & Eb & _ & _ & Ev).
  assert (exists res, normalizeJob inp = Some (Some res) /\
    prevhash_le (res_item res) = be32BytesToLeU32Words prev /\
    Registry.version (res_item res) = u32 version /\
    Registry.ntime (res_item res) = ntime /\ Registry.nbits (res_item res) = nbits /\
    merkle_root_le (res_item res) = be32BytesToLeU32Words (repeat 0 32) /\
    midstate_le (res_job_const res) = Midstate.sha256_midstate_64 (repeat 0 64) /\
    share_target_le (res_item res) = tb) as (res & En & Hp & Hv & Hn & Hb & Hr & Hms & Hs).
  { unfold normalizeJob, inp. cbn [job_nbits in_job share_nbits]. rewrite Eb.
    eexists. split; [reflexivity|]. repeat split. }
  destruct (handle_template_ok l (bytesToHex prev) g inp
    (mkGbtAdapter (gbt_q_ (g_adapter g) ++ [res]) (submitter_ (g_adapter g)))) as [out ->];
    [apply Ht|congruence|by apply template_inputs_eq|unfold ingestTemplate; by rewrite En|].
  exists res. rewrite Hp, Hv, Hms, Hs, Hr, Hn, Hb, Ev, be_le_roundtrip by apply Ht.
  change (be32BytesToLeU32Words (repeat 0 32)) with (repeat 0 8). cbn [snd g_adapter submitter_].
  by destruct (submitter_ (g_adapter g)).
Qed.

End TemplateTheorems.

(** ** Concrete instances *)

Import Concrete.

Definition sample_template : list (string * Jv) :=
  [("previousblockhash"%string, jstring (bytesToHex (repeat 7 32)));
   ("version"%string, jnumber 536870912);
   ("bits"%string, jstring (bytesToHex (be_bytes32 486604799)));
   ("curtime"%string, jnumber 1700000000)].

Lemma template_queues_job_witness :
  let g := mkGbtRunner (mkGbtAdapter [] (Some GbtSubmitter_init)) [] in
  exists res, gbt_q_ (g_adapter (handle_template (fun _ => 7) (jobject sample_template) g).2) = [res] /\
    Registry.version (res_item res) = 536870912 /\ merkle_root_le (res_item res) = repeat 0 8.
Proof.
  intros g. destruct (template_queues_job (fun _ => 7) sample_template (repeat 7 32) 536870912 486604799
    1700000000 g) as (res & Hq & _ & Hv & _ & _ & Hm & _).
  - split; try reflexivity; try in_range; [split; [reflexivity|in_range]|].
    split; [vm_compute; discriminate|reflexivity].
  - reflexivity.
  - vm_compute. discriminate.
  - vm_compute. discriminate.
  - exists res. split; [exact Hq|]. split; [exact Hv|exact Hm].
Defined.

Lemma template_once_witness :
  let g := mkGbtRunner (mkGbtAdapter [] None) (bytesToHex (repeat 7 32)) in
  handle_template (fun _ => 7) (jobject sample_template) g = (inr tt, g).
Proof.
  intros g. apply (proj1 (template_once (fun _ => 7) sample_template (bytesToHex (repeat 7 32)) g eq_refl)).
  reflexivity.
Defined.
