(* ===== verification/Wellformed.v ===== *)
(** * Jobs are well formed whatever the peers send

    The type invariant of the sessions: every job a runner or a poller queues has fields
    within the widths of [WorkItem], for any message, valid or not. *)

From stdpp Require Import base numbers list option strings.
From S2P Require Import Prelude Endian Targets Sha256 CpuVerify Midstate Merkle Registry Normalizer Json Hex Text GbtSubmitter Adapters Net Config StratumRunner GbtRunner.

Open Scope Z_scope.

(** ** Values that parse *)

Lemma throws_bind_inr {A B} (m : throws A) (f : A -> throws B) b :
  (m ≫= f) = inr b <-> exists a, m = inr a /\ f a = inr b.
Proof. destruct m as [e|a]; cbn; [split; [done|by intros (? & ? & ?)]|]. split; [by exists a|by intros (? & [= <-] & ?)]. Qed.

Ltac inv_throws := repeat
  match goal with
  | H : (_ ≫= _) = inr _ |- _ => apply throws_bind_inr in H as (? & ? & H)
  | H : mret _ = inr _ |- _ => injection H as <-
  end.

Lemma mapM_inr {A B} (f : A -> throws B) l l' :
  mapM f l = inr l' -> length l' = length l /\ Forall (fun b => exists a, a ∈ l /\ f a = inr b) l'.
Proof.
  revert l'. induction l as [|a l IH]; intros l' E; [by injection E as <-|]. cbn [mapM] in E. inv_throws.
  destruct (IH _ H0) as [Hl Hf]. cbn. split; [lia|]. constructor; [exists a; split; [by left|done]|].
  eapply Forall_impl; [exact Hf|]. cbn. intros b (a' & ? & ?). exists a'. split; [by right|done].
Qed.

Lemma digit_val_range c d : digit_val c = Some d -> 0 <= d < 16.
Proof.
  unfold digit_val. intros E.
  destruct (Z.leb_spec 48 c), (Z.leb_spec c 57), (Z.leb_spec 97 c), (Z.leb_spec c 102), (Z.leb_spec 65 c),
    (Z.leb_spec c 70); cbn in E; try done; injection E as <-; lia.
Qed.

Lemma scan_byte_range s b : scan_byte s = inr b -> is_u8 b.
Proof.
  unfold scan_byte. intros E.
  repeat (case_match; try done); try (injection E as <-); try apply u8_range;
    repeat match goal with H : digit_val _ = Some _ |- _ => apply digit_val_range in H end; unfold in_u; lia.
Qed.

Lemma scan_bytes_wf hex n l : scan_bytes hex n = inr l -> length l = n /\ is_bytes l.
Proof.
  intros E. apply mapM_inr in E as [Hl Hf]. rewrite length_seq in Hl. split; [done|].
  eapply Forall_impl; [exact Hf|]. intros b (i & _ & Hi). cbv beta in Hi. case_match; [|done].
  by apply scan_byte_range in Hi.
Qed.

Lemma hexToBytes_wf hex out l :
  is_bytes out -> hexToBytes hex out = inr l -> length l = length out /\ is_bytes l.
Proof.
  intros Ho E. unfold hexToBytes in E.
  assert (Nat.min (length hex / 2) (length out) <= length out)%nat as Hn by apply Nat.le_min_r.
  set (n := Nat.min _ _) in *. inv_throws. apply scan_bytes_wf in H as [Hl Hb]. split.
  - rewrite length_app, length_drop, Hl. lia.
  - apply Forall_app. split; [done|by apply Forall_drop].
Qed.

Definition txid (t : list Z) : Prop := length t = 32%nat /\ is_bytes t.

Lemma sha256d_txid a : txid (sha256d a).
Proof. Transparent sha256d. unfold sha256d. split; [apply sha256_length|apply sha256_bytes]. Qed.

Lemma tree_root_txid d l : l <> [] -> Forall txid l -> txid (tree_root d l).
Proof.
  assert (forall a b, txid (hash_pair a b)) as Hp by (intros; apply sha256d_txid).
  intros Hl Hf. destruct d as [|d]; cbn [tree_root].
  - destruct l as [|t l]; [done|]. by inversion Hf.
  - destruct (_ <=? _)%nat; apply Hp.
Qed.

Lemma merkle_spec_txid l : Forall txid l -> txid (merkle_spec l).
Proof.
  intros Hl. destruct l as [|t l]; [split; [done|apply zeros_bytes]|]. by apply tree_root_txid.
Qed.

(** ** Adapters *)

Definition wf_result (n : NormalizerResult) : Prop := wf_item (res_item n) /\ wf_const (res_job_const n).

Record wf_adapter (a : StratumAdapter) : Prop := {
  wfa_queue : Forall wf_result (q_ a);
  wfa_share : is_u32 (policy_share_nbits_ a);
  wfa_mask : is_u32 (policy_vmask_ a);
  wfa_min : is_u32 (policy_ntime_min_ a);
  wfa_max : is_u32 (policy_ntime_max_ a) }.

Definition wf_runner (r : StratumRunner) : Prop :=
  wf_adapter (adapter_ r) /\ is_u8 (r_extranonce2_size_ r).

Lemma apply_policy_wf a i : wf_adapter a -> wf_inputs i -> wf_inputs (apply_policy a i).
Proof. intros [] []. split; cbn -[in_u]; try done; by case_match. Qed.

Lemma ingest_wf a i a' : wf_adapter a -> wf_inputs i -> ingestJobWithPolicy a i = Some a' -> wf_adapter a'.
Proof.
  intros Ha Hi E. unfold ingestJobWithPolicy in E.
  destruct (normalizeJob (apply_policy a i)) as [[n|]|] eqn:En; [| |done]; cbn in E; injection E as <-; [|done].
  apply normalizeJob_wf in En; [|by apply apply_policy_wf]. destruct Ha. split; cbn -[in_u]; try done.
  apply Forall_app. split; [done|]. by constructor.
Qed.

Lemma ingestTemplate_wf a i a' :
  Forall wf_result (gbt_q_ a) -> wf_inputs i -> ingestTemplate a i = Some a' ->
  Forall wf_result (gbt_q_ a').
Proof.
  intros Ha Hi E. unfold ingestTemplate in E.
  destruct (normalizeJob i) as [[n|]|] eqn:En; [| |done]; cbn in E; injection E as <-; [|done].
  apply normalizeJob_wf in En; [|done]. apply Forall_app. split; [done|]. by constructor.
Qed.

(** ** The Stratum session *)

Section Session.
Context {J : Type} `{Json J}.
(** [std::hash] returns a [size_t]. *)
Context (hash : list Z -> Z) (hash_u64 : forall s, is_u64 (hash s)).

Lemma get_hex32_range p n w : get_hex32 p n = inr w -> is_u32 w.
Proof. intros E. unfold get_hex32 in E. inv_throws. apply u32_range. Qed.

Lemma notify_inputs_wf params id en1 en2 i :
  is_u8 en2 -> notify_inputs hash params id en1 en2 = inr i -> wf_inputs i.
Proof.
  intros Hen E. unfold notify_inputs in E. inv_throws.
  match goal with H : match compute_merkle_root_be ?l with _ => _ end = inr _ |- _ =>
    rewrite compute_merkle_root_spec in H; assert (txid (merkle_spec l)) as Hmr; [|set (mr := merkle_spec l) in *] end.
  { apply merkle_spec_txid. constructor.
    - rewrite rev_by_index by apply sha256_length. split; [by rewrite length_rev, sha256_length|].
      apply Forall_rev, sha256_bytes.
    - match goal with H : mapM (fun h => scan_bytes h 32) _ = inr _ |- _ => apply mapM_inr in H as [_ H] end.
      eapply Forall_impl; [eassumption|]. intros t (h & _ & Ht). cbv beta in Ht. by apply scan_bytes_wf in Ht. }
  clearbody mr. destruct Hmr as [Hml Hmb].
  inv_throws. repeat match goal with H : get_hex32 _ _ = inr _ |- _ => apply get_hex32_range in H end.
  match goal with H : hexToBytes _ _ = inr _ |- _ => apply hexToBytes_wf in H as [Hpl Hpb]; [|apply zeros_bytes] end.
  rewrite repeat_length in Hpl.
  split; cbn -[in_u le_bytes u32]; try done; try (split; done); try (apply u32_range); try (unfold in_u; lia).
  change (length (le_bytes 4 x ++ x6 ++ take 28 mr) = 64%nat /\ is_bytes (le_bytes 4 x ++ x6 ++ take 28 mr)).
  split; [rewrite !length_app, length_take, Hpl, Hml, le_bytes_length; lia|].
  rewrite !Forall_app. split; [apply le_bytes_bytes|]. split; [done|by apply Forall_take].
Qed.

Lemma keeps_lift_bind {A B} P (m : throws A) (f : A -> M StratumRunner B) :
  (forall a, m = inr a -> keeps P (f a)) -> keeps P (lift m ≫= f).
Proof. intros Hf r Hr. unfold mbind, M_bind, lift. destruct m as [e|a]; [done|]. by apply (Hf a). Qed.

Lemma keeps_get_bind {B} P (f : StratumRunner -> M StratumRunner B) :
  (forall r, P r -> keeps P (f r)) -> keeps P (getS ≫= f).
Proof. intros Hf r Hr. by apply (Hf r). Qed.

Lemma runner_set_adapter f r :
  (wf_adapter (adapter_ r) -> wf_adapter (f (adapter_ r))) -> wf_runner r -> wf_runner (set_adapter f r).
Proof. intros Hf [Ha He]. split; [by apply Hf|done]. Qed.

Ltac keep := repeat
  match goal with
  | |- keeps _ (mcatch _ _) => apply keeps_catch
  | |- keeps _ (lift _ ≫= _) => apply keeps_lift_bind; intros ? ?
  | |- keeps _ (getS ≫= _) => apply keeps_get_bind; intros ? ?
  | |- keeps _ (_ ≫= _) => apply keeps_bind; [|intros ?]
  | |- keeps _ (mret _) => apply keeps_ret
  | |- keeps _ (lift _) => apply keeps_lift
  | |- keeps _ (match ?x with _ => _ end) => destruct x eqn:?
  | |- keeps _ (let _ := _ in _) => cbv zeta
  end.

Lemma on_notify_wf j : keeps wf_runner (on_notify hash j).
Proof.
  unfold on_notify. keep.
  - apply keeps_modify. by intros r [].
  - apply keeps_modify. intros r' Hr'. apply runner_set_adapter; [|done]. intros []. split; cbn -[in_u]; assumption.
  - apply keeps_modify. intros r' Hr'. apply runner_set_adapter; [|done]. intros _.
    match goal with H : ingestJobWithPolicy _ _ = Some _ |- _ => eapply ingest_wf in H; [exact H| |] end.
    + by match goal with H : wf_runner ?r |- wf_adapter (adapter_ ?r) => destruct H end.
    + eapply notify_inputs_wf; [|eassumption].
      by match goal with H : wf_runner ?r |- is_u8 (r_extranonce2_size_ ?r) => destruct H end.
Qed.

(** Any line keeps the runner's adapter and queue well formed. *)
Lemma handle_line_wf now line : keeps wf_runner (handle_line hash now line).
Proof.
  unfold handle_line. destruct (parse line) as [j|]; [|apply keeps_ret]. unfold handle_json. keep; try apply on_notify_wf.
  - unfold on_subscribe. keep; apply keeps_modify.
    + by intros r [].
    + intros r []. split; [done|apply u8_range].
    + intros r Hr. apply runner_set_adapter; [|done]. intros []. split; cbn -[in_u]; assumption.
  - unfold on_configure. keep. apply keeps_modify. intros r Hr. apply runner_set_adapter; [|done].
    intros []. split; cbn -[in_u]; try assumption.
    match goal with H : catch _ _ = inr _ |- _ => unfold catch in H; repeat case_match; try done; injection H as <- end;
      inv_throws; try apply u32_range; unfold in_u; lia.
  - unfold on_submit_result. keep; apply keeps_modify; intros r Hr; try exact Hr;
      unfold settle_submit; destruct (last_submit_sent_ r =? 0); exact Hr.
  - unfold on_set_difficulty. keep. apply keeps_modify. intros r Hr. apply runner_set_adapter; [|done].
    intros []. split; cbn -[in_u]; try assumption. unfold in_u, compactFromDifficulty. lia.
Qed.

End Session.

(** ** The template poller *)

Section Templates.
Context {J : Type} `{Json J}.
Context (hash : list Z -> Z) (hash_u64 : forall s, is_u64 (hash s)).

Lemma template_inputs_wf gbt prevhash i : template_inputs hash gbt prevhash = inr i -> wf_inputs i.
Proof.
  intros E. unfold template_inputs in E. inv_throws.
  repeat match goal with
  | H : hexToBytes _ (repeat 0 32) = inr _ |- _ => apply hexToBytes_wf in H as [? ?]; [|apply zeros_bytes]
  end.
  split; cbn -[in_u u32]; try done; try apply u32_range; try (unfold in_u; lia).
  split; [done|exact (zeros_bytes 64)].
Qed.

Lemma mcatch_after {S} (P : S -> Prop) (m : M S unit) s : P (m s).2 -> P (mcatch m (mret tt) s).2.
Proof. unfold mcatch. by destruct (m s) as [[[]|] s']. Qed.

Lemma handle_template_wf gbt g :
  Forall wf_result (gbt_q_ (g_adapter g)) -> Forall wf_result (gbt_q_ (g_adapter (handle_template hash gbt g).2)).
Proof.
  intros Hg. apply (mcatch_after (fun g => Forall wf_result (gbt_q_ (g_adapter g)))).
  unfold mbind, M_bind, lift, getS, modify.
  destruct (string_at gbt "previousblockhash") as [e|prev]; [done|]. case_bool_decide; [done|].
  destruct (template_inputs hash gbt prev) as [e|i] eqn:Ei; [done|].
  destruct (ingestTemplate _ i) as [a|] eqn:Ea; [|done].
  apply ingestTemplate_wf in Ea; [|done|by eapply template_inputs_wf].
  unfold update_submitter, mbind, M_bind, getS, modify, lift.
  cbn [set_g_adapter g_adapter]. destruct (submitter_ a) as [s|]; [|done].
  by destruct (updateTemplate gbt s) as [res s'].
Qed.

End Templates.
