(* ===== verification/Obs.v ===== *)
(** * Metrics ([src/obs/metrics.cc])

    The counters and gauges, their JSON snapshot, and the answer of the small HTTP server
    to one request. *)

From stdpp Require Import base numbers list option gmap strings pretty.
From S2P Require Import Prelude Json Net.

Open Scope Z_scope.

(** ** Definitions *)

Record MetricsRegistry := mkMetrics { counters_ : gmap string Z; gauges_ : gmap string Z }.

Definition MetricsRegistry_init : MetricsRegistry := mkMetrics ∅ ∅.

Definition increment (m : MetricsRegistry) (name : string) (delta : Z) : MetricsRegistry :=
  mkMetrics (<[name := u64 (default 0 (counters_ m !! name) + delta)]> (counters_ m)) (gauges_ m).

Definition setGauge (m : MetricsRegistry) (name : string) (v : Z) : MetricsRegistry :=
  mkMetrics (counters_ m) (<[name := v]> (gauges_ m)).

Section Snapshot.
Context {J : Type} `{Json J}.

(** The order of an [unordered_map] is not specified: [order] lists the entries.  A map
    with no entry leaves no member. *)
Definition snapshot (order : gmap string Z -> list (string * Z)) (m : MetricsRegistry) : J :=
  let obj l := jobject (map (fun p => (p.1, jnumber p.2)) l) in
  let c := match order (counters_ m) with [] => [] | l => [("counters"%string, obj l)] end in
  let g := match order (gauges_ m) with [] => [] | l => [("gauges"%string, obj l)] end in
  match c ++ g with [] => jnull | l => jobject l end.

(** A [GET] whose path is [/metrics] or [/]. *)
Definition find_from (c : Z) (o : nat) (s : list Z) : option nat := i ← find_sub [c] (drop o s); Some (o + i)%nat.

Definition accepts (req : list Z) : bool :=
  starts (str "GET ") req &&
  (let path :=
     match find_from 32 0 req with
     | None => str "/"
     | Some sp => match find_from 32 (sp + 1) req with
                  | None => str "/"
                  | Some sp2 => take (sp2 - sp - 1) (drop (sp + 1) req)
                  end
     end in
   bool_decide (path = str "/metrics") || bool_decide (path = str "/")).

(** The header and the body of the answer to a request; [registry_] may be null. *)
Definition respond_parts (order : gmap string Z -> list (string * Z)) (m : option MetricsRegistry)
    (req : list Z) : list Z * list Z :=
  let '(status, reason, ctype, body) :=
    match m with
    | Some m => if accepts req then (200, str "OK", str "application/json", dump (snapshot order m))
                else (404, str "Not Found", str "text/plain", str "not found")
    | None => (404, str "Not Found", str "text/plain", str "not found")
    end in
  (str "HTTP/1.1 " ++ str (pretty (status : Z)) ++ str " " ++ reason ++ crlf ++
   str "Content-Type: " ++ ctype ++ crlf ++
   str "Content-Length: " ++ str (pretty (length body)) ++ crlf ++
   str "Connection: close" ++ crlf ++ crlf, body).

(** What a client receives. *)
Definition respond (order : gmap string Z -> list (string * Z)) (m : option MetricsRegistry) (req : list Z) :
    list Z :=
  let '(hdr, body) := respond_parts order m req in hdr ++ body.

End Snapshot.

(** ** Theorems *)

Inductive metric_call := MInc (name : string) (delta : Z) | MSet (name : string) (v : Z).

Definition metric_step (m : MetricsRegistry) (c : metric_call) : MetricsRegistry :=
  match c with MInc n d => increment m n d | MSet n v => setGauge m n v end.

Definition total (name : string) (l : list metric_call) : Z :=
  fold_right (fun c s => match c with MInc n d => if String.eqb n name then d + s else s | MSet _ _ => s end) 0 l.

Definition last_set (name : string) (l : list metric_call) : option Z :=
  fold_left (fun o c => match c with MSet n v => if String.eqb n name then Some v else o | MInc _ _ => o end) l None.

Lemma counter_after m l name :
  u64 (default 0 (counters_ (fold_left metric_step l m) !! name)) =
  u64 (default 0 (counters_ m !! name) + total name l).
Proof.
  revert m. induction l as [|c l IH]; intros m; cbn [fold_left total fold_right]; [by rewrite Z.add_0_r|].
  rewrite IH. fold (total name l). destruct c as [n d|n v]; cbn [metric_step increment setGauge counters_]; [|done].
  destruct (String.eqb_spec n name) as [->|Hn].
  - rewrite lookup_insert_eq. cbn [default from_option id]. unfold u64.
    rewrite Zplus_mod_idemp_l. f_equal. lia.
  - by rewrite lookup_insert_ne by done.
Qed.

Lemma gauge_after m l name :
  gauges_ (fold_left metric_step l m) !! name =
  match last_set name l with Some v => Some v | None => gauges_ m !! name end.
Proof.
  unfold last_set. induction l as [|c l IH] using rev_ind; [done|].
  rewrite !fold_left_app. cbn [fold_left]. destruct c as [n d|n v]; cbn [metric_step increment setGauge gauges_]; [done|].
  destruct (String.eqb_spec n name) as [->|Hn]; [by rewrite lookup_insert_eq|]. by rewrite lookup_insert_ne.
Qed.

(** After any sequence of updates a counter is the sum of its increments modulo 2^64
    and a gauge the last value set, whatever happened to the other names. *)
Theorem metrics_totals l name :
  u64 (default 0 (counters_ (fold_left metric_step l MetricsRegistry_init) !! name)) = u64 (total name l) /\
  gauges_ (fold_left metric_step l MetricsRegistry_init) !! name = last_set name l.
Proof.
  split; [apply counter_after|]. rewrite gauge_after. by destruct (last_set name l).
Qed.
