(* ===== verification/MetricsServer.v ===== *)
(** * The metrics server ([src/obs/metrics.cc], [MetricsHttpServer])

    A blocking loop that serves one connection at a time.  The system calls are a
    parameter, class [ServerSys], with the promises of the manual pages the theorems use in
    [ServerLaws].  The answer to a request is [Obs.respond_parts]. *)

From stdpp Require Import base numbers list option gmap strings.
From S2P Require Import Prelude Json Net Obs.

Open Scope Z_scope.

(** ** System calls *)

(** The two branches of the conditional compilation make the same calls under two names
    and differ in two places: the Windows one starts Winsock first, [srv_startup] (the
    identity on POSIX), and compares a socket with [INVALID_SOCKET] where the other asks
    for a negative descriptor, [srv_bad].  [select] watches the server's descriptor for one
    second; the results of [setsockopt], [inet_pton], [listen], [send] and [close] are not
    read. *)
Class ServerSys (S : Type) := {
  srv_startup : S -> S;
  srv_bad : Z -> bool;
  srv_socket : S -> S * Z;
  srv_reuseaddr : S -> Z -> S;
  srv_bind : S -> Z -> list Z -> Z -> S * Z;
  srv_listen : S -> Z -> S;
  srv_select : S -> Z -> S * Z;
  srv_accept : S -> Z -> S * Z;
  srv_recv : S -> Z -> nat -> S * Z * list Z;
  srv_send : S -> Z -> list Z -> S;
  srv_close : S -> Z -> S }.

(** The open descriptors, and everything sent so far, by descriptor. *)
Class ServerLaws (S : Type) `{ServerSys S} := {
  opened : S -> gset Z;
  sent : S -> list (Z * list Z);
  startup_frame k : opened (srv_startup k) = opened k /\ sent (srv_startup k) = sent k;
  socket_opens k : let '(k', fd) := srv_socket k in
    sent k' = sent k /\
    if srv_bad fd then opened k' = opened k else (fd ∉ opened k) /\ opened k' = {[ fd ]} ∪ opened k;
  reuse_frame k fd : opened (srv_reuseaddr k fd) = opened k /\ sent (srv_reuseaddr k fd) = sent k;
  bind_frame k fd h p : opened (srv_bind k fd h p).1 = opened k /\ sent (srv_bind k fd h p).1 = sent k;
  listen_frame k fd : opened (srv_listen k fd) = opened k /\ sent (srv_listen k fd) = sent k;
  select_frame k fd : opened (srv_select k fd).1 = opened k /\ sent (srv_select k fd).1 = sent k;
  accept_opens k fd : let '(k', cli) := srv_accept k fd in
    sent k' = sent k /\
    if srv_bad cli then opened k' = opened k else (cli ∉ opened k) /\ opened k' = {[ cli ]} ∪ opened k;
  recv_frame k fd cap : opened (srv_recv k fd cap).1.1 = opened k /\ sent (srv_recv k fd cap).1.1 = sent k;
  (** Some prefix is taken. *)
  send_takes k fd d : opened (srv_send k fd d) = opened k /\
    exists m, sent (srv_send k fd d) = sent k ++ [(fd, take m d)];
  close_closes k fd : opened (srv_close k fd) = opened k ∖ {[ fd ]} /\ sent (srv_close k fd) = sent k }.

(** ** The server *)

Record MetricsHttpServer := mkServer { host_ : list Z; port_ : Z; running_ : bool }.

(** A null host is the loopback address. *)
Definition MetricsHttpServer_new (host : option (list Z)) (port : Z) : MetricsHttpServer :=
  mkServer (default (str "127.0.0.1") host) port false.

Definition set_running (s : MetricsHttpServer) (b : bool) : MetricsHttpServer := mkServer (host_ s) (port_ s) b.

(** The result, and whether the thread of [run] starts. *)
Definition start (s : MetricsHttpServer) : MetricsHttpServer * bool :=
  if running_ s then (s, false) else (set_running s true, true).
Definition stop (s : MetricsHttpServer) : MetricsHttpServer := set_running s false.

Section Server.
Context {S J : Type} `{ServerSys S, Json J}.
Context (order : gmap string Z -> list (string * Z)).

(** The body of the loop, with the registry as it is when the answer is made. *)
Definition serve_turn (srv : Z) (registry : option MetricsRegistry) (k : S) : S :=
  let '(k, r) := srv_select k srv in
  if r <=? 0 then k
  else
    let '(k, cli) := srv_accept k srv in
    if srv_bad cli then k
    else
      let '(k, n, buf) := srv_recv k cli 1024 in
      if n <=? 0 then srv_close k cli
      else
        let '(hdr, body) := respond_parts (J := J) order registry (take (Z.to_nat n) buf) in
        let k := srv_send k cli hdr in
        let k := match body with [] => k | _ => srv_send k cli body end in
        srv_close k cli.

(** [turns] are the turns at whose start [running_] is set, with the registry of each. *)
Definition run (s : MetricsHttpServer) (turns : list (option MetricsRegistry)) (k : S) : MetricsHttpServer * S :=
  let '(k, srv) := srv_socket (srv_startup k) in
  if srv_bad srv then (set_running s false, k)
  else
    let k := srv_reuseaddr k srv in
    let '(k, b) := srv_bind k srv (host_ s) (port_ s) in
    if negb (b =? 0) then (set_running s false, srv_close k srv)
    else
      let k := srv_listen k srv in
      let k := fold_left (fun k reg => serve_turn srv reg k) turns k in
      (s, srv_close k srv).

End Server.

(** ** Theorems *)

Section Laws.
Context {S J : Type} `{ServerLaws S, Json J}.
Context (order : gmap string Z -> list (string * Z)).

(** An exchange: nothing, or the header and the body of the answer to one request, each
    as far as the connection takes it. *)
Inductive exchange (registry : option MetricsRegistry) : list (Z * list Z) -> Prop :=
  | ex_none : exchange registry []
  | ex_answer cli req hdr body m m' :
      respond_parts (J := J) order registry req = (hdr, body) ->
      exchange registry ((cli, take m hdr) :: match body with [] => [] | _ => [(cli, take m' body)] end).

Lemma add_remove (X : gset Z) x : x ∉ X -> ({[ x ]} ∪ X) ∖ {[ x ]} = X.
Proof. intros. set_solver. Qed.

Lemma serve_turn_spec srv registry (k : S) :
  opened (serve_turn (J := J) order srv registry k) = opened k /\
  exists l, exchange registry l /\ sent (serve_turn (J := J) order srv registry k) = sent k ++ l.
Proof.
  assert (forall k1 : S, opened k1 = opened k -> sent k1 = sent k ->
    opened k1 = opened k /\ exists l, exchange registry l /\ sent k1 = sent k ++ l) as Hnone.
  { intros k1 Ho Hs. split; [done|]. exists []. split; [constructor|]. by rewrite app_nil_r. }
  unfold serve_turn. pose proof (select_frame k srv) as [Ho Hs]. destruct (srv_select k srv) as [k1 r]. cbn in Ho, Hs.
  destruct (r <=? 0); [by apply Hnone|].
  pose proof (accept_opens k1 srv) as Ha. destruct (srv_accept k1 srv) as [k2 cli]. destruct Ha as [Hs2 Ho2].
  destruct (srv_bad cli); [apply Hnone; congruence|]. destruct Ho2 as [Hnew Ho2].
  pose proof (recv_frame k2 cli 1024) as [Ho3 Hs3]. destruct (srv_recv k2 cli 1024) as [[k3 n] buf]. cbn in Ho3, Hs3.
  assert (forall k4 : S, opened k4 = opened k3 -> opened (srv_close k4 cli) = opened k) as Hclose.
  { intros k4 E. rewrite (proj1 (close_closes k4 cli)), E, Ho3, Ho2, add_remove by done. done. }
  destruct (n <=? 0).
  { apply Hnone; [by apply Hclose|]. rewrite (proj2 (close_closes k3 cli)). congruence. }
  destruct (respond_parts order registry _) as [hdr body] eqn:E.
  destruct (send_takes k3 cli hdr) as [Ho4 (m & Hs4)]. set (k4 := srv_send k3 cli hdr) in *. clearbody k4.
  destruct body as [|b body].
  - split; [by apply Hclose|]. exists [(cli, take m hdr)]. split; [by eapply (ex_answer registry cli _ hdr [] m 0%nat)|].
    rewrite (proj2 (close_closes k4 cli)), Hs4. congruence.
  - destruct (send_takes k4 cli (b :: body)) as [Ho5 (m' & Hs5)].
    set (k5 := srv_send k4 cli (b :: body)) in *. clearbody k5. split; [apply Hclose; congruence|].
    exists [(cli, take m hdr); (cli, take m' (b :: body))].
    split; [by eapply (ex_answer registry cli _ hdr (b :: body) m m')|].
    rewrite (proj2 (close_closes k5 cli)), Hs5, Hs4, <- app_assoc. cbn. congruence.
Qed.

Lemma serve_turns_spec srv turns (k : S) :
  let k' := fold_left (fun k reg => serve_turn (J := J) order srv reg k) turns k in
  opened k' = opened k /\ exists ls, Forall2 exchange turns ls /\ sent k' = sent k ++ concat ls.
Proof.
  revert k. induction turns as [|reg turns IH]; intros k; cbn [fold_left].
  - split; [done|]. exists []. split; [constructor|]. by rewrite app_nil_r.
  - destruct (serve_turn_spec srv reg k) as [Ho (l & Hl & Hs)]. destruct (IH (serve_turn (J := J) order srv reg k)) as [Ho' (ls & Hls & Hs')].
    split; [congruence|]. exists (l :: ls). split; [by constructor|]. rewrite Hs', Hs, <- app_assoc. done.
Qed.

(** The server leaves no descriptor open, whatever fails, and sends only answers: in each
    turn nothing, or the header and body for one request and the registry of that turn,
    to the connection it accepted.  When the socket or the bind fails it marks itself
    stopped. *)
Theorem server_answers s turns (k : S) :
  let '(s', k') := run (J := J) order s turns k in
  opened k' = opened k /\
  ((running_ s' = false /\ sent k' = sent k) \/
   (s' = s /\ exists ls, Forall2 exchange turns ls /\ sent k' = sent k ++ concat ls)).
Proof.
  unfold run. destruct (startup_frame k) as [Hz Hzs]. pose proof (socket_opens (srv_startup k)) as Ha.
  destruct (srv_socket (srv_startup k)) as [k1 srv]. destruct Ha as [Hs Ho].
  destruct (srv_bad srv); [split; [congruence|left; split; [done|congruence]]|]. destruct Ho as [Hnew Ho].
  destruct (reuse_frame k1 srv) as [Ho2 Hs2]. set (k2 := srv_reuseaddr k1 srv) in *. clearbody k2.
  destruct (bind_frame k2 srv (host_ s) (port_ s)) as [Ho3 Hs3].
  destruct (srv_bind k2 srv (host_ s) (port_ s)) as [k3 b]. cbn in Ho3, Hs3.
  assert (forall k4 : S, opened k4 = opened k3 -> opened (srv_close k4 srv) = opened k) as Hclose.
  { intros k4 E. rewrite (proj1 (close_closes k4 srv)), E, Ho3, Ho2, Ho, add_remove by done. done. }
  destruct (negb (b =? 0)).
  - split; [by apply Hclose|]. left. split; [done|]. rewrite (proj2 (close_closes k3 srv)). congruence.
  - destruct (listen_frame k3 srv) as [Ho4 Hs4]. set (k4 := srv_listen k3 srv) in *. clearbody k4.
    destruct (serve_turns_spec srv turns k4) as [Ho5 (ls & Hls & Hs5)].
    split; [apply Hclose; congruence|]. right. split; [done|]. exists ls. split; [done|].
    rewrite (proj2 (close_closes _ srv)), Hs5. congruence.
Qed.

End Laws.

(** ** A simulated system *)

(** Clients connect one after the other, each with what its first read gives. *)
Record SimServer := mkSim { sim_open : gset Z; sim_sent : list (Z * list Z); sim_next : Z; sim_clients : list (list Z) }.

Definition sim_put (k : SimServer) (o : gset Z) (l : list (Z * list Z)) : SimServer :=
  mkSim o l (sim_next k) (sim_clients k).

(** A new descriptor, when the next number is free. *)
Definition sim_new (k : SimServer) : SimServer * Z :=
  let fd := sim_next k in
  if (fd <? 0) || bool_decide (fd ∈ sim_open k) then (k, -1)
  else (mkSim ({[ fd ]} ∪ sim_open k) (sim_sent k) (fd + 1) (sim_clients k), fd).

(** Of either branch; starting Winsock changes nothing here. *)
#[local] Instance sim_server (win : bool) : ServerSys SimServer := {|
  srv_startup k := k;
  srv_bad fd := if win then fd =? -1 else fd <? 0;
  srv_socket := sim_new;
  srv_reuseaddr k _ := k;
  srv_bind k _ _ _ := (k, 0);
  srv_listen k _ := k;
  srv_select k _ := (k, match sim_clients k with [] => 0 | _ => 1 end);
  srv_accept k _ := sim_new k;
  srv_recv k _ cap :=
    match sim_clients k with
    | [] => (k, -1, [])
    | r :: rs => (mkSim (sim_open k) (sim_sent k) (sim_next k) rs, zlen (take cap r), take cap r)
    end;
  srv_send k fd d := sim_put k (sim_open k) (sim_sent k ++ [(fd, d)]);
  srv_close k fd := sim_put k (sim_open k ∖ {[ fd ]}) (sim_sent k) |}.

Lemma sim_new_spec (win : bool) k :
  let '(k', fd) := sim_new k in
  sim_sent k' = sim_sent k /\
  if (if win then fd =? -1 else fd <? 0) then sim_open k' = sim_open k
  else (fd ∉ sim_open k) /\ sim_open k' = {[ fd ]} ∪ sim_open k.
Proof.
  unfold sim_new. destruct (Z.ltb_spec (sim_next k) 0); cbn [orb]; [by destruct win|].
  case_bool_decide; [by destruct win|]. rewrite (proj2 (Z.ltb_ge _ _)), (proj2 (Z.eqb_neq _ _)) by lia. by destruct win.
Qed.

#[local] Instance sim_server_laws win : ServerLaws (H := sim_server win) SimServer.
Proof.
  refine (Build_ServerLaws SimServer (sim_server win) sim_open sim_sent _ _ _ _ _ _ _ _ _ _).
  - done.
  - exact (sim_new_spec win).
  - done.
  - done.
  - done.
  - done.
  - intros k fd. exact (sim_new_spec win k).
  - intros k fd cap. cbn. by destruct (sim_clients k).
  - intros k fd d. cbn. split; [done|]. exists (length d). by rewrite take_ge.
  - done.
Defined.

Import Concrete.

(** Two clients: one asks for the metrics, one for something else. *)
Example server_two_clients win :
  let m := increment MetricsRegistry_init "device.hits" 3 in
  let k := mkSim ∅ [] 0 [str "GET /metrics HTTP/1.1"; str "GET /x HTTP/1.1"] in
  let k' := (run (J := Jv) (H := sim_server win) (map_to_list) (MetricsHttpServer_new None 9108) [Some m; Some m; Some m] k).2 in
  map (fun p => take 12 p.2) (sim_sent k') !! 0%nat = Some (str "HTTP/1.1 200") /\
  map (fun p => take 12 p.2) (drop 2 (sim_sent k')) = [str "HTTP/1.1 404"; str "not found"] /\ sim_open k' = ∅.
Proof. destruct win; vm_compute; repeat split; reflexivity. Qed.
