(* ===== verification/DeviceQuery.v ===== *)
(** * Device queries and the gauges of a round ([src/cuda/engine.cu],
      [src/tools/stratum_registry_runner.cpp], lines 367-378 and 525-594)

    What the CUDA runtime reports of the device and of the mining kernel is the parameter
    [DeviceProps]; the occupancy, the decision to raise the thread count, the hash rate and
    its moving average are computed as the sources compute them, in [float] and [double]. *)

From Stdlib Require Import SpecFloat.
From stdpp Require Import base numbers list option gmap strings.
From S2P Require Import Prelude Floats LaunchPlan DeviceDiag Obs.

Open Scope Z_scope.

(** ** Definitions *)

(** [cudaMemGetInfo], [cudaGetDeviceProperties], [cudaOccupancyMaxActiveBlocksPerMultiprocessor]
    as a function of the threads per block, and [cudaFuncGetAttributes]. *)
Record DeviceProps := mkProps {
  free_b : Z; total_b : Z;
  multiProcessorCount : Z; maxThreadsPerMultiProcessor : Z;
  maxActiveBlocks : Z -> Z;
  numRegs : Z; sharedSizeBytes : Z; maxThreadsPerBlock : Z }.

Definition getDeviceMemoryInfo (p : DeviceProps) : Z * Z := (u64 (free_b p), u64 (total_b p)).

Record Occupancy := mkOccupancy { occ : spec_float; sms : Z; active_blocks : Z; max_threads : Z }.

(** The clamp to [0..1]. *)
Definition clamp01 (x : spec_float) : spec_float :=
  let x := if SFltb x (float_of_Z 0) then float_of_Z 0 else x in
  if SFltb (float_of_Z 1) x then float_of_Z 1 else x.

(** [None]: the product of two [int]s that does not fit. *)
Definition getMineBatchOccupancy (p : DeviceProps) (threads_per_block : Z) : option Occupancy :=
  let activeBlocks := maxActiveBlocks p (i32 threads_per_block) in
  let activeThreads := activeBlocks * i32 threads_per_block in
  if negb ((- 2 ^ 31 <=? activeThreads) && (activeThreads <? 2 ^ 31)) then None
  else
    let x :=
      if 0 <? maxThreadsPerMultiProcessor p
      then clamp01 (fdiv32 (float_of_Z activeThreads) (float_of_Z (maxThreadsPerMultiProcessor p)))
      else float_of_Z 0 in
    Some (mkOccupancy x (multiProcessorCount p) activeBlocks (maxThreadsPerMultiProcessor p)).

Definition getMineBatchKernelAttrs (p : DeviceProps) : Z * Z * Z :=
  (numRegs p, u64 (sharedSizeBytes p), maxThreadsPerBlock p).

(** [occ < 0.5f], the test of the thread count's tuning. *)
Definition low_occupancy (o : Occupancy) : bool := SFltb (occ o) (fdiv32 (float_of_Z 1) (float_of_Z 2)).

(** The thread count of the next round (lines 555-562); [low] is [have_occ && occ < 0.5f]. *)
Definition tune_threads (low : bool) (kernel_ms budget desired : Z) : Z :=
  if low && (desired <? 1024) then Z.min 1024 (desired * 2)
  else if kernel_ms * 5 <? budget * 4 then Z.min 1024 (desired * 2)
  else if (budget <? kernel_ms) && (64 <? desired) then Z.max 64 (Z.quot desired 2)
  else desired.

Definition memory_gauges (p : DeviceProps) (m : MetricsRegistry) : MetricsRegistry :=
  let '(free_b, total_b) := getDeviceMemoryInfo p in
  setGauge (setGauge m "cuda.mem_free_mb" (free_b / 1024 / 1024)) "cuda.mem_total_mb" (total_b / 1024 / 1024).

Definition occupancy_gauges (p : DeviceProps) (o : Occupancy) (m : MetricsRegistry) : option MetricsRegistry :=
  pct ← int64_of_float (fmul32 (occ o) (float_of_Z 100));
  let m := setGauge m "cuda.occupancy_pct" pct in
  let m := setGauge m "cuda.sms" (sms o) in
  let m := setGauge m "cuda.active_blocks_per_sm" (active_blocks o) in
  let m := setGauge m "cuda.max_threads_per_sm" (max_threads o) in
  let '(num_regs, sh_bytes, max_tpb) := getMineBatchKernelAttrs p in
  Some (setGauge (setGauge (setGauge m "cuda.kernel_regs" num_regs) "cuda.kernel_shared_bytes" (i64 sh_bytes))
    "cuda.kernel_max_tpb" max_tpb).

(** *** Hash rate *)

Definition ratio (a b : Z) : spec_float := fdiv (double_of_Z a) (double_of_Z b).

(** [prev == 0.0 ? cur : prev * 0.8 + cur * 0.2]. *)
Definition ewma (prev cur : spec_float) : spec_float :=
  if SFeqb prev (double_of_Z 0) then cur
  else fadd (fmul prev (ratio 8 10)) (fmul cur (ratio 2 10)).

Definition nonces_tested (used_batch : bool) (plan : MultiJobLaunchPlan) (nonces_per_thread jobs : Z) : spec_float :=
  if used_batch then
    fmul (fmul (fmul (double_of_Z (blocks_per_job plan)) (double_of_Z (threads_per_block plan)))
      (double_of_Z nonces_per_thread)) (double_of_Z jobs)
  else double_of_Z jobs.

(** [std::max(0.001, kernel_ms / 1000.0)]. *)
Definition kernel_secs (kernel_ms : Z) : spec_float :=
  let v := ratio kernel_ms 1000 in if SFltb (ratio 1 1000) v then v else ratio 1 1000.

Definition khs (nonces : spec_float) (kernel_ms : Z) : spec_float :=
  fdiv (fdiv nonces (kernel_secs kernel_ms)) (double_of_Z 1000).

(** The new average and the gauge. *)
Definition hashrate (prev nonces : spec_float) (kernel_ms : Z) (m : MetricsRegistry) :
    option (spec_float * MetricsRegistry) :=
  let avg := ewma prev (khs nonces kernel_ms) in
  v ← int64_of_float avg;
  Some (avg, setGauge m "cuda.hashrate_khs" v).

(** *** Flush counters: [flushes] is the per-block counter, [counts] the per-SM ones *)

Definition flush_count_gauges (o : Occupancy) (flushes : Z) (counts : list Z) (m : MetricsRegistry) : MetricsRegistry :=
  let m := setGauge m "cuda.block_flushes" flushes in
  if 0 <? sms o then
    let smc := (readAndResetSmFlushCounts counts (u32 (sms o)) (repeat 0 (Z.to_nat (sms o)))).2 in
    let '(sum, mx) := flush_gauges smc in
    setGauge (setGauge m "cuda.block_flushes_sum" (i64 sum)) "cuda.block_flushes_max_sm" mx
  else m.

(** ** Occupancy *)

Lemma format32 c k : 0 < c < 2 ^ 24 -> -149 <= k <= 104 -> format 24 128 c k.
Proof. intros. split; [done|]. unfold SpecFloat.emin. lia. Qed.

Lemma format64 c k : 0 < c < 2 ^ 53 -> -1074 <= k <= 971 -> format 53 1024 c k.
Proof. intros. split; [done|]. unfold SpecFloat.emin. lia. Qed.

(** What a device reports: the threads that can be active are among those a
    multiprocessor holds. *)
Definition wf_props (p : DeviceProps) (tpb : Z) : Prop :=
  0 < maxThreadsPerMultiProcessor p < 2 ^ 24 /\
  0 <= maxActiveBlocks p tpb * tpb <= maxThreadsPerMultiProcessor p.

Lemma half_float : fdiv32 (float_of_Z 1) (float_of_Z 2) = S754_finite false 8388608 (-24).
Proof. reflexivity. Qed.

Lemma below_half_ltb x : below (2 ^ 24 - 1) (-25) x -> SFltb x (S754_finite false 8388608 (-24)) = true.
Proof.
  destruct x as [[]|[]| |[] m e]; try done. cbn [below]. intros [He _]. unfold SFltb. cbn [SFcompare].
  by rewrite (proj2 (Z.compare_lt_iff e (-24))) by lia.
Qed.

Lemma compare_ge c m : Z.pos c <= Z.pos m -> match Pos.compare_cont Eq m c with Lt => true | _ => false end = false.
Proof.
  intros H. change (Pos.compare_cont Eq m c) with (m ?= c)%positive. destruct (Pos.compare_spec m c); [done|lia|done].
Qed.

Lemma above_half_ltb x : above (2 ^ 23) (-24) x -> SFltb x (S754_finite false 8388608 (-24)) = false.
Proof.
  destruct x as [[]|[]| |[] m e]; try done. cbn [above]. intros [He Hm]. unfold SFltb. cbn [SFcompare].
  destruct (Z.compare_spec e (-24)) as [->|H|H]; [|lia|reflexivity].
  rewrite Z.sub_diag, Z.mul_1_r in Hm. apply compare_ge. exact Hm.
Qed.

(** Nothing of a number in [0..1] is clamped. *)
Lemma clamp01_id x : below (2 ^ 23) (-23) x -> clamp01 x = x.
Proof.
  destruct x as [[]|[]| |[] m e]; try done. cbn [below]. intros [He Hm]. unfold clamp01.
  change (float_of_Z 0) with (S754_zero false). change (float_of_Z 1) with (S754_finite false 8388608 (-23)).
  unfold SFltb. cbn [SFcompare].
  destruct (Z.compare_spec (-23) e) as [<-|H|H]; [|lia|reflexivity].
  rewrite Z.sub_diag, Z.mul_1_r in Hm. by rewrite compare_ge.
Qed.

Lemma quotient32 a b :
  0 <= a -> 0 < b < 2 ^ 24 -> a <= b ->
  let x := fdiv32 (float_of_Z a) (float_of_Z b) in
  below (2 ^ 23) (-23) x /\ SFltb x (fdiv32 (float_of_Z 1) (float_of_Z 2)) = (2 * a <? b).
Proof.
  intros Ha Hb Hab x. rewrite half_float.
  pose proof (normalize_int 24 128 ltac:(lia) ltac:(lia) b ltac:(lia)) as Ib.
  destruct (decide (a = 0)) as [->|Hne].
  { assert (x = S754_zero false) as ->.
    { destruct Ib as (d & _ & _ & Eb). unfold x, fdiv32, float_of_Z. by rewrite Eb. }
    split; [done|]. symmetry. apply Z.ltb_lt. lia. }
  pose proof (normalize_int 24 128 ltac:(lia) ltac:(lia) a ltac:(lia)) as Ia.
  split.
  - apply (div_int_below 24 128 ltac:(lia) ltac:(lia) a b); [apply format32; lia|done|done|lia|].
    change (2 ^ (- (-23))) with (2 ^ 23). lia.
  - destruct (Z.ltb_spec (2 * a) b).
    + apply below_half_ltb, (div_int_below 24 128 ltac:(lia) ltac:(lia) a b); [apply format32; lia|done|done|lia|].
      change (2 ^ (- (-25))) with (2 ^ 25). lia.
    + apply above_half_ltb, (div_int_above 24 128 ltac:(lia) ltac:(lia) a b); [apply format32; lia|lia|done|done|lia|].
      change (2 ^ (- (-24))) with (2 ^ 24). lia.
Qed.

Lemma occupancy_total p tpb :
  0 <= tpb < 2 ^ 31 -> wf_props p tpb ->
  exists o, getMineBatchOccupancy p tpb = Some o /\
    occ o = fdiv32 (float_of_Z (maxActiveBlocks p tpb * tpb)) (float_of_Z (maxThreadsPerMultiProcessor p)) /\
    below (2 ^ 23) (-23) (occ o) /\
    low_occupancy o = (2 * (maxActiveBlocks p tpb * tpb) <? maxThreadsPerMultiProcessor p).
Proof.
  intros Ht [Hmax Ha]. unfold getMineBatchOccupancy, low_occupancy.
  rewrite (i32_small tpb) by lia. set (a := maxActiveBlocks p tpb * tpb) in *.
  rewrite (proj2 (Z.leb_le _ _)), (proj2 (Z.ltb_lt a _)), (proj2 (Z.ltb_lt 0 _)) by lia. cbn [negb andb].
  destruct (quotient32 a (maxThreadsPerMultiProcessor p)) as [Hb Hl]; [lia..|].
  eexists. split; [reflexivity|]. cbn [occ]. rewrite clamp01_id by done. done.
Qed.

(** The decision on the thread count, for a count in its range: raised for a low
    occupancy or a kernel under four fifths of the budget, lowered for one over it. *)
Lemma tune_threads_spec low ms budget d :
  64 <= d <= 1024 -> 0 < budget ->
  let next := tune_threads low ms budget d in
  64 <= next <= 1024 /\
  (d < next <-> d < 1024 /\ (low = true \/ ms * 5 < budget * 4)) /\
  (d < next -> next = Z.min 1024 (2 * d)) /\
  (next < d <-> 64 < d /\ budget < ms /\ (d = 1024 \/ low = false)) /\
  (next < d -> next = Z.max 64 (d / 2)).
Proof.
  intros Hd Hb next. unfold next, tune_threads. rewrite Z.quot_div_nonneg by lia.
  destruct low; cbn [andb]; destruct (Z.ltb_spec d 1024), (Z.ltb_spec (ms * 5) (budget * 4)),
    (Z.ltb_spec budget ms), (Z.ltb_spec 64 d); cbn [andb]; try lia;
    split_and!; try done; Z.to_euclidean_division_equations; intuition (try done; try lia).
Qed.

(** C35: the occupancy is a number in [0..1] that nothing clamps, and the thread count,
    below 1024, is raised exactly when fewer than half of a multiprocessor's threads can
    be active or the kernel took less than four fifths of its budget: the rounding of the
    [float] quotient never changes the comparison with one half.  It is doubled then, at
    1024 at most; it is halved, to 64 at least, exactly when the kernel took longer than
    its budget and the occupancy does not ask for more. *)
Theorem occupancy_spec p tpb ms budget desired :
  0 <= tpb < 2 ^ 31 -> wf_props p tpb ->
  64 <= desired <= 1024 -> 0 <= ms * 5 < 2 ^ 31 -> 0 < budget * 4 < 2 ^ 31 ->
  let active := maxActiveBlocks p tpb * tpb in
  exists o, getMineBatchOccupancy p tpb = Some o /\
    occ o = fdiv32 (float_of_Z active) (float_of_Z (maxThreadsPerMultiProcessor p)) /\
    below (2 ^ 23) (-23) (occ o) /\
    let next := tune_threads (low_occupancy o) ms budget desired in
    64 <= next <= 1024 /\
    (desired < next <->
       desired < 1024 /\ (2 * active < maxThreadsPerMultiProcessor p \/ ms * 5 < budget * 4)) /\
    (desired < next -> next = Z.min 1024 (2 * desired)) /\
    (next < desired <->
       64 < desired /\ budget < ms /\ (desired = 1024 \/ maxThreadsPerMultiProcessor p <= 2 * active)) /\
    (next < desired -> next = Z.max 64 (desired / 2)).
Proof.
  intros Ht Hp Hd Hm Hb active. destruct (occupancy_total p tpb Ht Hp) as (o & E & Eo & Hx & El).
  exists o. split; [done|]. split; [done|]. split; [done|]. cbv zeta.
  pose proof (tune_threads_spec (low_occupancy o) ms budget desired Hd ltac:(lia)) as H. cbv zeta in H.
  rewrite El in *. fold active in H |- *. rewrite Z.ltb_lt, Z.ltb_ge in H. exact H.
Qed.

(** The gauges of the occupancy are defined, the percentage between 0 and 100. *)
Lemma occupancy_pct x : below (2 ^ 23) (-23) x ->
  exists v, int64_of_float (fmul32 x (float_of_Z 100)) = Some v /\ 0 <= v <= 100.
Proof.
  intros Hx.
  assert (below (100 * 2 ^ 17) (-17) (fmul32 x (float_of_Z 100))) as Hy.
  { apply (mul_below 24 128 ltac:(lia) ltac:(lia) (2 ^ 23) (-23) (100 * 2 ^ 17) (-17)); [apply format32; lia|done| |lia|reflexivity].
    change (float_of_Z 100) with (S754_finite false 13107200 (-17)). cbn [below]. lia. }
  destruct (fmul32 x (float_of_Z 100)) as [[]|[]| |[] m e]; try done; [by exists 0|].
  cbn [below] in Hy. destruct Hy as [He Hm]. cbn [int64_of_float].
  destruct (Z.leb_spec 0 e); [lia|].
  assert (Z.pos m / 2 ^ (- e) <= 100) as Hv.
  { apply Z.div_le_upper_bound; [apply Z.pow_pos_nonneg; lia|].
    replace (- e) with (17 + (-17 - e)) by lia. rewrite Z.pow_add_r by lia. lia. }
  assert (0 <= Z.pos m / 2 ^ (- e)) by (apply Z.div_pos; [lia|apply Z.pow_pos_nonneg; lia]).
  rewrite (proj2 (Z.leb_le _ _)), (proj2 (Z.ltb_lt _ _)) by lia. cbn [andb]. by eexists.
Qed.

Lemma occupancy_gauges_total p tpb m :
  0 <= tpb < 2 ^ 31 -> wf_props p tpb ->
  exists o m', getMineBatchOccupancy p tpb = Some o /\ occupancy_gauges p o m = Some m'.
Proof.
  intros Ht Hp. destruct (occupancy_total p tpb Ht Hp) as (o & E & _ & Hb & _).
  destruct (occupancy_pct _ Hb) as (v & Ev & _). exists o. unfold occupancy_gauges. rewrite Ev. by eexists.
Qed.

(** ** Hash rate *)

(** [x] is a number from zero to [2 ^ a]. *)
Definition upto (a : Z) (x : spec_float) : Prop := below (2 ^ 52) (a - 52) x.

Lemma format_upto a : -1000 <= a <= 1000 -> format 53 1024 (2 ^ 52) (a - 52).
Proof. intros. apply format64; lia. Qed.

Lemma upto_mono a b x : a <= b -> upto a x -> upto b x.
Proof.
  intros Hab. apply (below_mono _ _ _ _ _ (a - 52)); [lia..|]. rewrite Z.sub_diag.
  apply Z.mul_le_mono_nonneg_l; [lia|]. apply Z.pow_le_mono_r; lia.
Qed.

Lemma double_upto z a : 0 <= a <= 52 -> 0 <= z <= 2 ^ a -> upto a (double_of_Z z).
Proof.
  intros Ha Hz. destruct (decide (z = 0)) as [->|]; [done|].
  assert (2 ^ a < 2 ^ 53) by (apply Z.pow_lt_mono_r; lia).
  destruct (normalize_int 53 1024 ltac:(lia) ltac:(lia) z ltac:(lia)) as (d & Hd & Hz' & E).
  unfold double_of_Z. rewrite E. cbn [upto below].
  assert (d < a + 1) by (apply (Z.pow_lt_mono_r_iff 2); rewrite ?Z.pow_add_r by lia; lia).
  rewrite Z2Pos.id by (apply Z.mul_pos_pos; [|apply Z.pow_pos_nonneg]; lia). split; [lia|].
  replace (52 + (a - 52 - (d + 1 - 53))) with (a + (53 - 1 - d)) by lia.
  replace (2 ^ 52 * 2 ^ (a - 52 - (d + 1 - 53))) with (2 ^ a * 2 ^ (53 - 1 - d))
    by (rewrite <- !Z.pow_add_r by lia; f_equal; lia).
  apply Z.mul_le_mono_nonneg_r; [apply Z.pow_nonneg|]; lia.
Qed.

Lemma fmul_upto a b x y : -400 <= a <= 400 -> -400 <= b <= 400 -> upto a x -> upto b y -> upto (a + b) (fmul x y).
Proof.
  intros Ha Hb Hx Hy. apply (mul_below 53 1024 ltac:(lia) ltac:(lia) (2 ^ 52) (a - 52) (2 ^ 52) (b - 52));
    [apply format_upto; lia|done|done|lia|].
  replace (a + b - 52 - (a - 52) - (b - 52)) with 52 by lia. lia.
Qed.

Lemma fdiv_upto a j x y : -400 <= a <= 400 -> -400 <= j <= 400 -> upto a x -> at_least j y -> upto (a - j) (fdiv x y).
Proof.
  intros Ha Hj Hx Hy. unfold upto, fdiv. replace (a - j - 52) with (a - 52 - j) by lia.
  apply (div_below 53 1024); try done; try lia; apply format64; lia.
Qed.

Lemma above_at_least c k j x : above c k x -> 2 ^ j <= c -> 0 <= j -> (exists a, upto a x) -> at_least (j + k) x.
Proof.
  intros Hx Hc Hj [a Hu]. destruct x as [[]|[]| |[] m e]; try done. cbn [above at_least] in *. destruct Hx as [He Hm].
  pose proof (digits2_bounds m) as [_ Hd].
  assert (j < Z.pos (digits2_pos m) + (e - k)); [|lia].
  apply (Z.pow_lt_mono_r_iff 2); [lia..|]. rewrite Z.pow_add_r by lia.
  pose proof (Z.pow_pos_nonneg 2 (e - k)). nia.
Qed.

Lemma kernel_secs_least ms : 0 <= ms < 2 ^ 31 -> at_least (-10) (kernel_secs ms).
Proof.
  intros Hms. unfold kernel_secs.
  change (ratio 1 1000) with (S754_finite false 4611686018427388 (-62)).
  destruct (decide (ms = 0)) as [->|Hne]; [reflexivity|].
  destruct (SFltb _ (ratio ms 1000)); [|reflexivity].
  apply (above_at_least (2 ^ 52) (-62) 52); [|lia..|].
  - apply (div_int_above 53 1024 ltac:(lia) ltac:(lia) ms 1000); [apply format64; lia|lia| | |lia|].
    + apply normalize_int; lia.
    + apply normalize_int; lia.
    + change (2 ^ (- (-62))) with (2 ^ 62). lia.
  - exists (31 - 9). apply fdiv_upto; [lia..|apply double_upto; lia|reflexivity].
Qed.

(** The average of numbers up to a power of two, computed in [double], is up to it: the
    two constants add up to more than one, but by less than half a unit. *)
Lemma ewma_upto a prev cur : 0 <= a <= 400 -> upto a prev -> upto a cur -> upto a (ewma prev cur).
Proof.
  intros Ha Hp Hc. unfold ewma. destruct (SFeqb prev (double_of_Z 0)); [done|].
  change (ratio 8 10) with (S754_finite false 7205759403792794 (-53)).
  change (ratio 2 10) with (S754_finite false 7205759403792794 (-55)).
  apply (add_below_near 53 1024 ltac:(lia) ltac:(lia) 7205759403792794 (a - 53) 7205759403792794 (a - 55)).
  - apply format_upto. lia.
  - lia.
  - apply (mul_below 53 1024 ltac:(lia) ltac:(lia) (2 ^ 52) (a - 52) 7205759403792794 (-53)); try done; try lia.
    + apply format64; lia.
    + replace (a - 53 - (a - 52) - -53) with 52 by lia. lia.
  - apply (mul_below 53 1024 ltac:(lia) ltac:(lia) (2 ^ 52) (a - 52) 7205759403792794 (-55)); try done; try lia.
    + apply format64; lia.
    + replace (a - 55 - (a - 52) - -55) with 52 by lia. lia.
  - lia.
  - lia.
  - rewrite Z.min_r by lia. replace (a - 53 - (a - 55)) with 2 by lia. replace (a - 52 - (a - 55)) with 3 by lia. lia.
  - rewrite Z.min_r by lia. replace (a - 55 - (a - 55)) with 0 by lia. replace (a - 52 - (a - 55)) with 3 by lia. lia.
  - rewrite Z.min_r by lia. replace (a - 53 - (a - 55)) with 2 by lia. replace (a - 55 - (a - 55)) with 0 by lia.
    replace (a - 52 - (a - 55)) with 3 by lia. lia.
Qed.

Lemma upto_int64 a x : 0 <= a <= 62 -> upto a x -> exists v, int64_of_float x = Some v /\ 0 <= v <= 2 ^ a.
Proof.
  intros Ha Hx. pose proof (Z.pow_le_mono_r 2 a 62 ltac:(lia) ltac:(lia)).
  destruct x as [[]|[]| |[] m e]; try done; [exists 0; split; [done|lia]|].
  unfold upto in Hx. cbn [below] in Hx. destruct Hx as [He Hm]. cbn [int64_of_float].
  rewrite <- Z.pow_add_r in Hm by lia.
  destruct (Z.leb_spec 0 e) as [H0|H0].
  - assert (Z.pos m * 2 ^ e <= 2 ^ a) as Hv.
    { replace a with (52 + (a - 52 - e) + e) by lia. rewrite (Z.pow_add_r 2 _ e) by lia.
      apply Z.mul_le_mono_nonneg_r; [apply Z.pow_nonneg; lia|done]. }
    pose proof (Z.pow_nonneg 2 e). rewrite (proj2 (Z.leb_le _ _)), (proj2 (Z.ltb_lt _ _)) by lia.
    eexists. split; [reflexivity|lia].
  - assert (Z.pos m / 2 ^ (- e) <= 2 ^ a) as Hv.
    { apply Z.div_le_upper_bound; [apply Z.pow_pos_nonneg; lia|]. rewrite <- Z.pow_add_r by lia.
      by replace (- e + a) with (52 + (a - 52 - e)) by lia. }
    assert (0 <= Z.pos m / 2 ^ (- e)) by (apply Z.div_pos; [lia|apply Z.pow_pos_nonneg; lia]).
    rewrite (proj2 (Z.leb_le _ _)), (proj2 (Z.ltb_lt _ _)) by lia. eexists. split; [reflexivity|lia].
Qed.

(** The nonces counted for a round. *)
Definition batch_work (used_batch : bool) (plan : MultiJobLaunchPlan) (nonces_per_thread jobs : Z) : Z :=
  if used_batch then blocks_per_job plan * threads_per_block plan * nonces_per_thread * jobs else jobs.

(** [x] is a number from zero to the integer [z]. *)
Definition upto_int (z : Z) (x : spec_float) : Prop := below (z * 2 ^ (52 - Z.log2 z)) (Z.log2 z - 52) x.

Lemma log2_small z : 0 < z < 2 ^ 53 -> 0 <= Z.log2 z < 53 /\ 2 ^ Z.log2 z <= z < 2 * 2 ^ Z.log2 z.
Proof.
  intros Hz. pose proof (Z.log2_nonneg z). pose proof (Z.log2_spec z ltac:(lia)) as [H1 H2].
  rewrite Z.pow_succ_r in H2 by lia. split; [|lia]. split; [done|]. apply (Z.pow_lt_mono_r_iff 2); lia.
Qed.

Lemma double_upto_int z : 0 <= z < 2 ^ 53 -> upto_int z (double_of_Z z).
Proof.
  intros Hz. destruct (decide (z = 0)) as [->|]; [done|]. destruct (log2_small z ltac:(lia)) as [Hl Hs].
  destruct (normalize_int 53 1024 ltac:(lia) ltac:(lia) z ltac:(lia)) as (d & Hd & Hz' & E).
  unfold upto_int, double_of_Z. rewrite E. cbn [below].
  assert (d = Z.log2 z) as ->.
  { symmetry. apply Z.log2_unique; [lia|]. unfold Z.succ. lia. }
  rewrite Z2Pos.id by (apply Z.mul_pos_pos; [|apply Z.pow_pos_nonneg]; lia). split; [lia|].
  replace (Z.log2 z - 52 - (Z.log2 z + 1 - 53)) with 0 by lia.
  replace (53 - 1 - Z.log2 z) with (52 - Z.log2 z) by lia. lia.
Qed.

Lemma fmul_upto_int a b x y :
  0 < a -> 0 < b -> a * b < 2 ^ 53 -> upto_int a x -> upto_int b y -> upto_int (a * b) (fmul x y).
Proof.
  intros Ha Hb Hab Hx Hy. unfold upto_int in *.
  destruct (log2_small a ltac:(nia)) as [La Sa], (log2_small b ltac:(nia)) as [Lb Sb], (log2_small (a * b) ltac:(nia)) as [Lab Sab].
  pose proof (Z.log2_mul_below a b ltac:(lia) ltac:(lia)).
  apply (mul_below 53 1024 ltac:(lia) ltac:(lia) _ _ _ _ _ _ x y) with (2 := Hx) (3 := Hy); [|lia|].
  - apply format64; [|lia]. split; [apply Z.mul_pos_pos; [lia|apply Z.pow_pos_nonneg; lia]|].
    replace (2 ^ 53) with (2 * 2 ^ Z.log2 (a * b) * 2 ^ (52 - Z.log2 (a * b)))
      by (rewrite <- Z.pow_succ_r, <- Z.pow_add_r by lia; f_equal; lia).
    apply Z.mul_lt_mono_pos_r; [apply Z.pow_pos_nonneg; lia|lia].
  - assert (2 ^ (52 - Z.log2 a) * 2 ^ (52 - Z.log2 b) =
      2 ^ (52 - Z.log2 (a * b)) * 2 ^ (Z.log2 (a * b) - 52 - (Z.log2 a - 52) - (Z.log2 b - 52))) as E
      by (rewrite <- !Z.pow_add_r by lia; f_equal; lia).
    rewrite <- (Z.mul_assoc (a * b)), <- E. apply Z.eq_le_incl. ring.
Qed.

Lemma upto_int_upto z a x : 0 <= z <= 2 ^ a -> 0 <= a <= 52 -> upto_int z x -> upto a x.
Proof.
  intros Hz Ha. destruct (decide (z = 0)) as [->|].
  { destruct x as [[]|[]| |[] m e]; try done. unfold upto_int. cbn [below]. lia. }
  pose proof (Z.pow_lt_mono_r 2 a 53 ltac:(lia) ltac:(lia) ltac:(lia)). destruct (log2_small z ltac:(lia)) as [Hl Hs].
  assert (Z.log2 z <= a) by (apply (Z.pow_le_mono_r_iff 2); lia).
  apply (below_mono _ _ _ _ _ (Z.log2 z - 52)); [lia..|]. rewrite Z.sub_diag, Z.mul_1_r.
  replace (2 ^ 52 * 2 ^ (a - 52 - (Z.log2 z - 52))) with (2 ^ a * 2 ^ (52 - Z.log2 z))
    by (rewrite <- !Z.pow_add_r by lia; f_equal; lia).
  apply Z.mul_le_mono_nonneg_r; [apply Z.pow_nonneg|]; lia.
Qed.

Lemma fmul_zero_r c k x : below c k x -> fmul x (double_of_Z 0) = double_of_Z 0.
Proof. by destruct x as [[]|[]| |[] m e]. Qed.

Lemma fmul_zero_l c k y : below c k y -> fmul (double_of_Z 0) y = double_of_Z 0.
Proof. by destruct y as [[]|[]| |[] m e]. Qed.

(** The [double] of the nonces counted is at most their number. *)
Lemma nonces_upto b plan npt jobs s :
  0 <= blocks_per_job plan < 2 ^ 32 -> 0 <= threads_per_block plan < 2 ^ 32 -> 0 <= npt < 2 ^ 31 -> 0 <= jobs < 2 ^ 32 ->
  batch_work b plan npt jobs <= 2 ^ s -> 0 <= s <= 52 -> upto s (nonces_tested b plan npt jobs).
Proof.
  intros H1 H2 H3 H4 Hw Hs. unfold nonces_tested, batch_work in *.
  assert (2 ^ s < 2 ^ 53) by (apply Z.pow_lt_mono_r; lia).
  destruct b; [|by apply (upto_int_upto jobs); [lia..|apply double_upto_int; lia]].
  set (bl := blocks_per_job plan) in *. set (th := threads_per_block plan) in *.
  assert (forall z, 0 <= z < 2 ^ 32 -> upto_int z (double_of_Z z)) as Hd by (intros z Hz; apply double_upto_int; lia).
  assert (forall z, 0 <= z < 2 ^ 32 -> upto 32 (double_of_Z z)) as Hu by (intros z Hz; apply double_upto; lia).
  assert (upto (32 + 32) (fmul (double_of_Z bl) (double_of_Z th))) as U2 by (apply fmul_upto; [lia..|apply Hu; lia|apply Hu; lia]).
  assert (upto (32 + 32 + 32) (fmul (fmul (double_of_Z bl) (double_of_Z th)) (double_of_Z npt))) as U3
    by (apply fmul_upto; [lia..|done|apply Hu; lia]).
  destruct (decide (bl * th * npt * jobs = 0)) as [Hz|Hnz].
  - assert (fmul (fmul (fmul (double_of_Z bl) (double_of_Z th)) (double_of_Z npt)) (double_of_Z jobs) = double_of_Z 0) as ->; [|done].
    assert (forall z, 0 <= z < 2 ^ 32 -> fmul (double_of_Z 0) (double_of_Z z) = double_of_Z 0) as Hl
      by (intros z Hzr; apply (fmul_zero_l _ _ _ (Hu z Hzr))).
    assert (bl = 0 \/ th = 0 \/ npt = 0 \/ jobs = 0) as [E|[E|[E|E]]] by nia.
    + by rewrite E, !Hl by lia.
    + by rewrite E, (fmul_zero_r _ _ _ (Hu bl H1)), !Hl by lia.
    + by rewrite E, (fmul_zero_r _ _ _ U2), Hl by lia.
    + by rewrite E, (fmul_zero_r _ _ _ U3).
  - assert (0 < bl /\ 0 < th /\ 0 < npt /\ 0 < jobs) as (P1 & P2 & P3 & P4) by nia.
    assert (bl * th <= bl * th * npt /\ bl * th * npt <= bl * th * npt * jobs) as [Q1 Q2] by nia.
    assert (0 < bl * th) by nia.
    apply (upto_int_upto (bl * th * npt * jobs)); [nia|lia|].
    do 3 (apply fmul_upto_int; [nia|lia|lia| |by apply Hd; lia]). by apply Hd.
Qed.

Lemma hashrate_total used_batch plan npt jobs prev ms m s :
  0 <= blocks_per_job plan < 2 ^ 32 -> 0 <= threads_per_block plan < 2 ^ 32 ->
  0 <= npt < 2 ^ 31 -> 0 <= jobs < 2 ^ 32 -> 0 <= ms < 2 ^ 31 ->
  batch_work used_batch plan npt jobs <= 2 ^ s -> 0 <= s <= 52 -> upto (s + 1) prev ->
  exists avg v, hashrate prev (nonces_tested used_batch plan npt jobs) ms m =
      Some (avg, setGauge m "cuda.hashrate_khs" v) /\
    avg = ewma prev (khs (nonces_tested used_batch plan npt jobs) ms) /\
    upto (s + 1) avg /\ 0 <= v <= 2 ^ (s + 1).
Proof.
  intros H1 H2 H3 H4 Hms Hw Hs Hp.
  pose proof (nonces_upto used_batch plan npt jobs s H1 H2 H3 H4 Hw Hs) as Hn.
  assert (upto (s + 1) (khs (nonces_tested used_batch plan npt jobs) ms)) as Hk.
  { unfold khs. replace (s + 1) with (s - -10 - 9) by lia.
    apply fdiv_upto; [lia..| |reflexivity]. apply fdiv_upto; [lia..|done|by apply kernel_secs_least]. }
  pose proof (ewma_upto (s + 1) prev _ ltac:(lia) Hp Hk) as He. unfold hashrate.
  destruct (upto_int64 (s + 1) _ ltac:(lia) He) as (v & -> & Hv). cbn [mbind option_bind].
  eexists _, v. split; [reflexivity|done].
Qed.

(** What the hash rate of a round is computed from. *)
Record Batch := mkBatch {
  b_used : bool; b_plan : MultiJobLaunchPlan; b_npt : Z; b_jobs : Z; b_ms : Z }.

Record batch_ok (s : Z) (b : Batch) : Prop := {
  bo_blocks : 0 <= blocks_per_job (b_plan b) < 2 ^ 32;
  bo_threads : 0 <= threads_per_block (b_plan b) < 2 ^ 32;
  bo_npt : 0 <= b_npt b < 2 ^ 31; bo_jobs : 0 <= b_jobs b < 2 ^ 32; bo_ms : 0 <= b_ms b < 2 ^ 31;
  bo_work : batch_work (b_used b) (b_plan b) (b_npt b) (b_jobs b) <= 2 ^ s }.

(** The average over the rounds of a run and the gauges. *)
Fixpoint hashrates (prev : spec_float) (m : MetricsRegistry) (bs : list Batch) :
    option (spec_float * MetricsRegistry) :=
  match bs with
  | [] => Some (prev, m)
  | b :: bs =>
      '(avg, m) ← hashrate prev (nonces_tested (b_used b) (b_plan b) (b_npt b) (b_jobs b)) (b_ms b) m;
      hashrates avg m bs
  end.

Lemma hashrates_from s bs : forall prev m,
  0 <= s <= 52 -> Forall (batch_ok s) bs -> upto (s + 1) prev ->
  exists avg m', hashrates prev m bs = Some (avg, m') /\ upto (s + 1) avg /\
    (bs = [] \/ exists v, gauges_ m' !! "cuda.hashrate_khs"%string = Some v /\ 0 <= v <= 2 ^ (s + 1)).
Proof.
  induction bs as [|b bs IH]; intros prev m Hs Hb Hp; cbn [hashrates].
  { exists prev, m. split; [done|]. split; [done|by left]. }
  apply Forall_cons in Hb as [[B1 B2 B3 B4 B5 B6] Hbs].
  destruct (hashrate_total (b_used b) (b_plan b) (b_npt b) (b_jobs b) prev (b_ms b) m s) as (avg & v & -> & _ & Ha & Hv); [done..|].
  cbn [mbind option_bind].
  destruct (IH avg (setGauge m "cuda.hashrate_khs" v) Hs Hbs Ha) as (avg' & m' & E & Ha' & Hg).
  exists avg', m'. split; [done|]. split; [done|]. right. destruct Hg as [->|Hg]; [|done].
  injection E as <- <-. exists v. split; [apply lookup_insert_eq|done].
Qed.

(** C34: the hash-rate gauge is defined and bounded: over any sequence of rounds from the
    start, in each of which at most [2 ^ s] nonces are counted, [s] up to 52, the average
    of the rates, in thousands of hashes per second with the time taken as a millisecond
    at least, and the gauge never pass [2 ^ (s + 1)], however the products, the
    quotients and the average are rounded. *)
Theorem hashrate_bounded s bs m :
  0 <= s <= 52 -> Forall (batch_ok s) bs ->
  exists avg m', hashrates (double_of_Z 0) m bs = Some (avg, m') /\ upto (s + 1) avg /\
    (bs = [] \/ exists v, gauges_ m' !! "cuda.hashrate_khs"%string = Some v /\ 0 <= v <= 2 ^ (s + 1)).
Proof. intros Hs Hb. by apply hashrates_from. Qed.

(** ** Concrete instances *)

(** A device of 28 multiprocessors of 1536 threads, of which a kernel with 64 registers
    fills at most 1024. *)
Definition sample_props : DeviceProps :=
  mkProps (6 * 2 ^ 30) (8 * 2 ^ 30) 28 1536 (fun t => if t =? 0 then 0 else Z.min 8 (1024 / t)) 64 2048 1024.

Lemma occupancy_spec_witness :
  exists o, getMineBatchOccupancy sample_props 64 = Some o /\
    256 < tune_threads (low_occupancy o) 20 16 256.
Proof.
  destruct (occupancy_spec sample_props 64 20 16 256) as (o & E & _ & _ & _ & Hr & _).
  - lia.
  - vm_compute. repeat split; discriminate.
  - lia.
  - lia.
  - lia.
  - exists o. split; [exact E|]. apply Hr. split; [lia|]. left. reflexivity.
Defined.

(** 2048000 nonces in 7 ms, the same, and a slow round. *)
Definition sample_batch (ms : Z) : Batch := mkBatch true (mkPlan 8 128 2) 1000 2 ms.

Lemma hashrate_bounded_witness :
  exists avg m', hashrates (double_of_Z 0) MetricsRegistry_init (map sample_batch [7; 7; 2000]) = Some (avg, m') /\
    upto 22 avg.
Proof.
  destruct (hashrate_bounded 21 (map sample_batch [7; 7; 2000]) MetricsRegistry_init) as (avg & m' & E & Ha & _).
  - lia.
  - repeat constructor; vm_compute; discriminate.
  - exists avg, m'. split; [exact E|exact Ha].
Defined.

Example hashrate_rounds :
  let r bs := p ← hashrates (double_of_Z 0) MetricsRegistry_init (map sample_batch bs); int64_of_float (fst p) in
  map r [[7]; [7; 7]; [7; 7; 2000]] = [Some 292571; Some 292571; Some 234261].
Proof. reflexivity. Qed.
