(* ===== verification/Runner.v ===== *)
(** * The miner's main loop ([src/tools/stratum_registry_runner.cpp])

    What the program does with the components: it sets up the scheduler, the sources and
    the outbox from the configuration, moves work from the adapters to the registry and on
    to the device, tunes the launches, and routes hits. *)

From stdpp Require Import base numbers list option gmap strings pretty.
From S2P Require Import Prelude FileSys Endian Targets Sha256 CpuVerify Outbox SubmitRouter Registry Normalizer Scheduler Json Ledger Hex Text GbtSubmitter Adapters LaunchPlan Net StratumRunner Config GbtRunner Obs.
From S2P Require Device.

Open Scope Z_scope.

#[local] Abbreviation drop := list.drop.

(** ** Start-up *)

(** Weights by pool index (lines 55-63). *)
Definition scheduler_setup (cfg : AppConfig) : SchedulerState :=
  mkSchedulerState
    (fold_left (fun m p =>
       let w := pool_weight p.2 in
       let w := if w <=? 0 then 1 else w in
       <[Z.of_nat p.1 := u32 w]> m)
       (imap (fun i p => (i, p)) (pools cfg)) ∅)
    0 ∅ (u32 (Z.max 1 (max_weight (scheduler cfg)))).

Definition profile_of (name : list Z) : PoolProfile :=
  if bool_decide (name = str "viabtc") then kViaBTC
  else if bool_decide (name = str "f2pool") then kF2Pool
  else kGeneric.

(** Command-line mode (lines 75-98): the arguments after the program's name.  [None]:
    no port separator, the program exits; a port that is not a number throws. *)
Record Target := mkTarget {
  t_host : list Z; t_port : Z; t_use_tls : bool; t_user : list Z; t_pass : list Z }.

(** [std::stoi]: optional white space and sign, then digits. *)
Definition dec_digit (c : Z) : bool := (48 <=? c) && (c <=? 57).
Definition stoi_text (s : list Z) : throws Z :=
  let s := skip_space s in
  let '(neg, s) :=
    match s with
    | c :: r => if c =? 45 then (true, r) else if c =? 43 then (false, r) else (false, s)
    | [] => (false, s)
    end in
  let '(ds, _) := span dec_digit s in
  match ds with
  | [] => inl invalid_argument
  | _ =>
      let v := fold_left (fun a d => a * 10 + (d - 48)) ds 0 in
      let v := if neg : bool then - v else v in
      if (- 2 ^ 31 <=? v) && (v <? 2 ^ 31) then inr v else inl out_of_range
  end.

Definition legacy_target (hostport walletOrAccount : list Z) (worker pass prof : option (list Z)) :
    throws (option Target) :=
  let worker := default (str "bench") worker in
  let pass := default (str "x") pass in
  let profile := default kGeneric (profile_of <$> prof) in
  let '(user, pass) := formatStratumCredentials profile walletOrAccount worker pass in
  match find_sub (str ":") hostport with
  | None => mret None
  | Some pos =>
      p ← stoi_text (drop (pos + 1) hostport);
      let port := u16 p in
      mret (Some (mkTarget (take pos hostport) port ((port =? 443) || (port =? 3334)) user pass))
  end.

(** Configuration mode (lines 101-143): the pool named by the environment, or the first.
    [None]: no pool, or a Stratum pool without endpoints; the program exits. *)
Definition credentials (p : PoolEntry) : list Z * list Z :=
  let account := match pool_cred_mode p with WalletAsUser => pool_wallet p | AccountWorker => pool_account p end in
  let pass := match pool_password p with [] => str "x" | w => w end in
  formatStratumCredentials (profile_of (pool_profile p)) account (pool_worker p) pass.

Definition is_gbt (p : PoolEntry) : bool := bool_decide (pool_profile p = str "gbt").

Definition select_pool (cfg : AppConfig) (choice : list Z) : option PoolEntry :=
  match pools cfg with
  | [] => None
  | first :: _ =>
      match choice with
      | [] => Some first
      | _ => Some (default first (List.find (fun p => bool_decide (pool_name p = choice)) (pools cfg)))
      end
  end.

Definition config_target (cfg : AppConfig) (choice : list Z) : option Target :=
  sel ← select_pool cfg choice;
  let '(user, pass) := credentials sel in
  if is_gbt sel then Some (mkTarget [] 0 false user pass)
  else
    match pool_endpoints sel with
    | [] => None
    | e :: _ => Some (mkTarget (ep_host e) (ep_port e) (ep_use_tls e) user pass)
    end.

(** The adapter of a Stratum pool with its policy (lines 224-233). *)
Definition pool_adapter (p : PoolEntry) : StratumAdapter :=
  let pol := pool_policy p in
  let a := setCleanJobs StratumAdapter_init (pol_clean_jobs_default pol) in
  let a := forceCleanJobs a (pol_force_clean_jobs pol) in
  let a := match pol_version_mask pol with Some m => setVersionMask a m | None => a end in
  let a := match pol_ntime_min pol, pol_ntime_max pol with
           | None, None => a
           | lo, hi => setNtimeCaps a (default 0 lo) (default 0 hi)
           end in
  match pol_share_nbits pol with Some n => updateVarDiff a n | None => a end.

(** ** Sources *)

(** The submitter and the adapter are reached through the runner.  A Stratum slot without
    endpoints has neither.  Every GBT slot shares one adapter. *)
Inductive Source (K : Type) :=
  | SStratum (s : option (option (StratumClient K) * StratumRunner))
  | SGbt.
Arguments SStratum {K}. Arguments SGbt {K}.

(** Everything the submit callback reaches besides the outbox. *)
Record Wiring (K : Type) := mkWiring {
  files : FS; workid_to_source : gmap Z Z; sources : list (Source K);
  last_outbox_rotate_ms : Z }.
Arguments mkWiring {K}. Arguments files {K}. Arguments workid_to_source {K}.
Arguments sources {K}. Arguments last_outbox_rotate_ms {K}.

(** The sources of the configured pools (lines 209-261). *)
Definition pool_source {K} (p : PoolEntry) : Source K :=
  if is_gbt p then SGbt
  else match pool_endpoints p with
       | [] => SStratum None
       | e :: _ =>
           let '(user, pass) := credentials p in
           SStratum (Some (Some (mkClient (ep_host e) (ep_port e) user pass (ep_use_tls e) None),
                           StratumRunner_init (pool_adapter p) true))
       end.

(** The first GBT pool makes the adapter and the runner; the separate submitter [main]
    keeps for block hits is only made when that pool has an RPC section (lines 211-219). *)
Definition gbt_source (cfg : AppConfig) : option GbtRunner :=
  p ← List.find is_gbt (pools cfg); Some (GbtRunner_new (mkGbtAdapter [] None) p).
Definition main_gbt_submitter (cfg : AppConfig) : option GbtSubmitter :=
  p ← List.find is_gbt (pools cfg); _ ← pool_rpc p; Some GbtSubmitter_init.

(** ** Outbox rotation (lines 167-182) *)

Definition file_exceeds_limit (fs : FS) (path : string) (max_bytes : Z) : bool :=
  match fs !! path with Some b => i64 max_bytes <=? zlen b | None => false end.

(** [interval > 0 && now - last > interval * 1000], in 64-bit unsigned arithmetic. *)
Definition time_exceeded (now_ms last interval_sec : Z) : bool :=
  (0 <? interval_sec) && (u64 (interval_sec * 1000) <? u64 (now_ms - last)).

Definition backup_path (path : string) (epoch : Z) : string :=
  String.append path (String.append "." (String.append (pretty epoch) ".bak")).

Definition rotate_outbox_if_needed (env : Env) (path : string) (cfg : OutboxCfg) (force : bool)
    (now_ms : Z) (fs : FS) (last : Z) : FS * Z :=
  if force || file_exceeds_limit fs path (outbox_max_bytes cfg) ||
     time_exceeded now_ms last (outbox_rotate_interval_sec cfg)
  then ((rotateFile env fs path (backup_path path (now_ms / 1000))).1, u64 now_ms)
  else (fs, last).

(** ** The submit callback (lines 263-279) *)

Section Callback.
Context {K J : Type} `{ISocket K, Json J}.
Context (env : Env) (path : string) (cfg : OutboxCfg) (now_ms : Z).

(** A socket that breaks its interface ([None]) leaves the session as it was.  The only
    exception is a worker or job name that is not UTF-8; both come from parsed JSON, whose
    strings are, so the case in which the source ends the program does not arise. *)
Definition send_share (header : list Z) (c : option (StratumClient K)) (r : StratumRunner) :
    option (StratumClient K) * StratumRunner :=
  let en2_hex := repeat 48 (2 * Z.to_nat (extranonce2_size_ (adapter_ r))) in
  match submitFromHeader (J := J) (Some (c, r)) header en2_hex with
  | Some (_, Some run) => run
  | _ => (c, r)
  end.

Lemma send_share_runner header c r : (send_share header c r).2 = r.
Proof.
  unfold send_share, submitFromHeader.
  destruct (submitShare _ _ _ _ _) as [[ok [c' r']]|] eqn:E; [|done].
  cbn [mbind option_bind snd]. by eapply submitShare_runner.
Qed.

Definition route_to_source (rec : SubmitRouter.HitRecord) (w : Wiring K) : Wiring K :=
  match workid_to_source w !! SubmitRouter.hit_work_id rec with
  | None => w
  | Some sid =>
      match sources w !! Z.to_nat sid with
      | Some (SStratum (Some (c, r))) =>
          let '(c, r) := send_share (SubmitRouter.hit_header80 rec) c r in
          let r := setPendingSubmit (SubmitRouter.hit_work_id rec) (SubmitRouter.hit_nonce rec) r in
          mkWiring (files w) (workid_to_source w)
            (<[Z.to_nat sid := SStratum (Some (c, r))]> (sources w)) (last_outbox_rotate_ms w)
      | _ => w
      end
  end.

Definition persist (rec : SubmitRouter.HitRecord) (w : Wiring K) : Wiring K :=
  let '(fs, last) := rotate_outbox_if_needed env path cfg false now_ms (files w) (last_outbox_rotate_ms w) in
  let fs := (appendToFile env fs path (pending_of rec)).1 in
  mkWiring fs (workid_to_source w) (sources w) last.

Definition submit_callback (rec : SubmitRouter.HitRecord) (w : World (Wiring K)) : World (Wiring K) :=
  mkWorld (SubmitRouter.outbox w) (persist rec (route_to_source rec (rest w))).

(** What a runner's acceptance callback does (lines 246-250). *)
Definition on_share_accepted (wid n : Z) (w : World (Wiring K)) : World (Wiring K) :=
  let w := onAccepted w wid n in
  match SubmitRouter.outbox w with
  | Some o =>
      mkWorld (Some o) (mkWiring (rewriteFile env o (files (rest w)) path).1 (workid_to_source (rest w))
        (sources (rest w)) (last_outbox_rotate_ms (rest w)))
  | None => w
  end.

(** Replay of the entries left from the last run (lines 189-203): at most 128. *)
Fixpoint replay_loop (budget : nat) (w : World (Wiring K)) : World (Wiring K) :=
  match budget with
  | O => w
  | S budget =>
      match SubmitRouter.outbox w with
      | None => w
      | Some o =>
          let '(o, s) := tryDequeue o in
          let w := mkWorld (Some o) (rest w) in
          match s with
          | None => w
          | Some s =>
              let rec := SubmitRouter.mkHitRecord (Outbox.work_id s) (Outbox.nonce s) (Outbox.header80 s) in
              replay_loop budget (routeRaw (Some submit_callback) w rec).1
          end
      end
  end.
Definition replay_pending (w : World (Wiring K)) : World (Wiring K) := replay_loop 128 w.

(** Start-up of the outbox (lines 183-187, 280-281). *)
Definition outbox_startup (w : Wiring K) : World (Wiring K) :=
  if outbox_rotate_on_start cfg then
    let '(fs, last) := rotate_outbox_if_needed env path cfg true now_ms (files w) (last_outbox_rotate_ms w) in
    mkWorld (Some Outbox_init) (mkWiring fs (workid_to_source w) (sources w) last)
  else mkWorld (Some (Outbox.loadFromFile Outbox_init (files w) path).1) w.

End Callback.

(** ** From the adapters to the registry (lines 389-411) *)

(** The item stored for a result of slot [sid]. *)
Definition slot_item_of (sid : nat) (r : NormalizerResult) : WorkItem :=
  let i := res_item r in
  mkWorkItem (work_id i) (u32 (Z.of_nat sid)) (version i) (ntime i) (nbits i) (nonce_start i)
    (prevhash_le i) (merkle_root_le i) (share_target_le i) (block_target_le i)
    (vmask i) (ntime_min i) (ntime_max i) (extranonce2_size i) (clean_jobs i) true (found_submitted i).

(** The inner [while (true)] on one adapter.  [None] is a loop still running: each turn
    takes one result from the queue. *)
Fixpoint drain_adapter {A} (poll : A -> A * option NormalizerResult) (fuel : nat) (sid : nat)
    (a : A) (m : gmap Z Z) (reg : registry) : option (throws (A * gmap Z Z * registry)) :=
  match fuel with
  | O => None
  | S fuel =>
      let '(a, full) := poll a in
      match full with
      | None => Some (inr (a, m, reg))
      | Some full =>
          let item := slot_item_of sid full in
          let m := <[work_id item := u32 (Z.of_nat sid)]> m in
          match Registry.set reg sid item (res_job_const full) with
          | inl e => Some (inl e)
          | inr reg => drain_adapter poll fuel sid a m reg
          end
      end
  end.

(** ** The active set (lines 437-446) *)

(** [emplace] keeps the first snapshot of an identifier. *)
Definition emplace {A} (m : gmap Z A) (k : Z) (v : A) : gmap Z A :=
  match m !! k with Some _ => m | None => <[k := v]> m end.

Definition active_jobs (reg : registry) : list Z * gmap Z WorkSlotSnapshot :=
  fold_left (fun st i =>
    match Registry.get reg i with
    | None => st
    | Some s =>
        if negb (active (item s)) then st
        else (st.1 ++ [work_id (item s)], emplace st.2 (work_id (item s)) s)
    end) (seq 0 (Registry.size reg)) ([], ∅).

(** ** The device table (lines 448-476) *)

Definition share_target_be (target_le : list Z) : list Z :=
  concat (map (fun w => be_bytes32 (rd target_le (7 - w))) (seq 0 8)).

Definition device_job (ss : WorkSlotSnapshot) : Device.DeviceJob :=
  let i := item ss in
  Device.mkDeviceJob (version i) (ntime i) (nbits i) (vmask i) (ntime_min i) (ntime_max i)
    (extranonce2_size i) (work_id i) (prevhash_le i) (merkle_root_le i) (share_target_le i)
    (block_target_le i) (midstate_le (job_const ss)) (share_target_be (share_target_le i)).

Definition WorkSlotSnapshot_default : WorkSlotSnapshot :=
  mkWorkSlotSnapshot 0 WorkItem_default GpuJobConst_default.

Definition device_table (ids : list Z) (snaps : gmap Z WorkSlotSnapshot) : list Device.DeviceJob :=
  map (fun wid => device_job (default WorkSlotSnapshot_default (snaps !! wid))) ids.

(** ** Backpressure (lines 481-506) *)

(** What a Stratum source reports. *)
Record Health := mkHealth { h_acc : Z; h_rej : Z; h_lat : Z; h_cf : Z; h_qd : Z }.

Definition health_of (r : StratumRunner) : Health :=
  mkHealth (accepted_submits_ r) (rejected_submits_ r) (avg_submit_ms_ r)
    (consecutive_connect_failures_ r) (consecutive_quick_disconnects_ r).

Definition b2z (b : bool) : Z := if b then 1 else 0.

Definition pressure (latency_penalty_ms last_acc last_rej : Z) (h : Health) : Z :=
  b2z (h_acc h - last_acc <? h_rej h - last_rej) +
  b2z ((0 <? latency_penalty_ms) && (latency_penalty_ms <? h_lat h)) +
  b2z (0 <? h_cf h) + b2z (3 <? h_cf h) + b2z (7 <? h_cf h) +
  b2z (0 <? h_qd h) + b2z (3 <? h_qd h).

Definition next_penalty (p prev : Z) : Z :=
  if (p =? 0) && (0 <? prev) then prev - 1
  else if 0 <? p then Z.min (prev + p) 5
  else prev.

Record Pressure := mkPressure {
  last_acc : gmap Z Z; last_rej : gmap Z Z; src_penalty : gmap Z Z; sched : SchedulerState }.

Definition zget (m : gmap Z Z) (k : Z) : Z := default 0 (m !! k).

Definition set_penalty (s : SchedulerState) (sid p : Z) : SchedulerState :=
  mkSchedulerState (source_weight s) (tick s) (<[sid := u32 p]> (source_penalty s)) (max_weight_cap s).

Definition backpressure_source (latency_penalty_ms : Z) (st : Pressure) (sid : Z) (h : option Health) : Pressure :=
  let '(p, la, lr) :=
    match h with
    | Some h => (pressure latency_penalty_ms (zget (last_acc st) sid) (zget (last_rej st) sid) h,
                 <[sid := h_acc h]> (last_acc st), <[sid := h_rej h]> (last_rej st))
    | None => (0, last_acc st, last_rej st)
    end in
  let prev := next_penalty p (zget (src_penalty st) sid) in
  mkPressure la lr (<[sid := prev]> (src_penalty st)) (set_penalty (sched st) sid prev).

Definition source_health {K} (s : Source K) : option Health :=
  match s with SStratum (Some (_, r)) => Some (health_of r) | _ => None end.

Definition backpressure {K} (latency_penalty_ms : Z) (srcs : list (Source K)) (st : Pressure) : Pressure :=
  fold_left (fun st p => backpressure_source latency_penalty_ms st (Z.of_nat p.1) (source_health p.2))
    (imap (fun i s => (i, s)) srcs) st.

(** ** Tuning (lines 547-554) *)

Definition tune_nonces (kernel_ms budget nonces_per_thread : Z) : Z :=
  i32 (nextMicroBatch (autoTuneMicroBatch (mkTuneIn (u32 kernel_ms) (u32 budget) (u32 nonces_per_thread)))).

(** ** Hits (lines 605-650) *)

Definition host_header (i : WorkItem) (nonce : Z) : list Z :=
  be_bytes32 (version i) ++ leU32WordsToBe32Bytes (prevhash_le i) ++
  leU32WordsToBe32Bytes (merkle_root_le i) ++ be_bytes32 (ntime i) ++ be_bytes32 (nbits i) ++
  be_bytes32 nonce.

Section Hits.
Context {K J R : Type} `{ISocket K, Json J}.
(** [rpc] is the submitter's RPC client. *)
Context (rpc : R -> list Z -> J -> R * option J).
Context (cb : SubmitCallback (Wiring K)).

Record HitState := mkHitState {
  hs_world : World (Wiring K); hs_rpc : R; hs_metrics : MetricsRegistry }.

Definition handle_hit (snaps : gmap Z WorkSlotSnapshot) (gbt_submitter : option GbtSubmitter)
    (st : HitState) (h : Device.HitRecord) : HitState :=
  match snaps !! Device.hit_work_id h with
  | None => st
  | Some ss =>
      let header := host_header (item ss) (Device.hit_nonce h) in
      let is_block := isHashLEQTarget (sha256 (sha256 header)) (block_target_le (item ss)) in
      match (if is_block then gbt_submitter else None) with
      | Some g =>
          let '(r, ok) := submitHeader rpc g (hs_rpc st) header in
          let m := hs_metrics st in
          let m := if ok : bool then increment m "submit.blocks_gbt_ok" 1
                   else increment (if negb (hasCoinbase g) then increment m "submit.blocks_gbt_no_cb" 1 else m)
                          "submit.blocks_gbt_fail" 1 in
          mkHitState (hs_world st) r m
      | None =>
          let w := (verifyAndSubmit cb (hs_world st) header (share_target_le (item ss))
                      (Device.hit_work_id h) (Device.hit_nonce h)).1 in
          mkHitState w (hs_rpc st) (increment (hs_metrics st) "submit.shares" 1)
      end
  end.

(** The drained hits; the router exists in configuration mode only. *)
Definition handle_hits (snaps : gmap Z WorkSlotSnapshot) (gbt_submitter : option GbtSubmitter)
    (st : HitState) (hits : list Device.HitRecord) : HitState :=
  match hits with
  | [] => st
  | _ =>
      let st := mkHitState (hs_world st) (hs_rpc st) (increment (hs_metrics st) "device.hits" (zlen hits)) in
      fold_left (handle_hit snaps gbt_submitter) hits st
  end.

End Hits.

(** ** Ledger snapshot (lines 651-681) *)

Definition put_active (snaps : list WorkSlotSnapshot) (l : Ledger) : Ledger :=
  fold_left (fun l s => put l (item s)) snaps l.

(** Rename, or copy and truncate; the ledger is then written over whichever file is there. *)
Definition rotate_ledger_if_needed (env : Env) (path : string) (cfg : LedgerCfg) (now_ms : Z)
    (fs : FS) (last : Z) : FS * Z :=
  if file_exceeds_limit fs path (ledger_max_bytes cfg) ||
     time_exceeded now_ms last (ledger_rotate_interval_sec cfg)
  then
    let new := backup_path path (now_ms / 1000) in
    (match fs !! path with
     | Some bytes =>
         if can_rename env path new then <[new := bytes]> (delete path fs)
         else
           let fs := if can_copy env path new then <[new := bytes]> fs else fs in
           if can_write env path then <[path := []]> fs else fs
     | None => if can_write env path then <[path := []]> fs else fs
     end, u64 now_ms)
  else (fs, last).

(** ** The [submit_header] command (lines 708-726) *)

(** [None]: the bytes do not scan. *)
Definition header_nonce (header : list Z) : Z := word_at header 76.

Definition submit_header_command {K} (cb : SubmitCallback (Wiring K)) (reg : registry)
    (w : World (Wiring K)) (hhex : list Z) : throws (World (Wiring K) * option bool) :=
  if negb (length hhex =? 160)%nat then mret (w, None)
  else
    header ← scan_bytes hhex 80;
    match Registry.get reg 0 with
    | None => mret (w, None)
    | Some snap =>
        let '(w, ok) := verifyAndSubmit cb w header (share_target_le (item snap))
                          (work_id (item snap)) (header_nonce header) in
        mret (w, Some ok)
    end.

(** ** The device table and the host's header *)

Lemma concat_blocks (f g : nat -> list Z) l :
  (forall i, length (f i) = length (g i)) ->
  concat (map f l) = concat (map g l) -> forall i, i ∈ l -> f i = g i.
Proof.
  intros Hl. induction l as [|j l IH]; cbn [map concat]; intros E i Hi; [by apply elem_of_nil in Hi|].
  apply app_inj_1 in E as [E1 E2]; [|done]. apply elem_of_cons in Hi as [->|Hi]; [done|by apply IH].
Qed.

Lemma le_bytes_of_words t : words8 t ->
  leU32WordsToBe32Bytes t = concat (map (fun i => rev (be_bytes32 (rd t i))) (seq 0 8)).
Proof.
  intros [_ Hw]. unfold leU32WordsToBe32Bytes. f_equal. apply map_ext. intros i.
  apply bswap32_bytes. cxx_range.
Qed.

Lemma share_target_be_rev t : words8 t -> share_target_be t = rev (leU32WordsToBe32Bytes t).
Proof.
  intros H. rewrite le_bytes_of_words by done. unfold share_target_be.
  cbn [seq map concat Nat.sub]. rewrite !rev_app_distr, !rev_involutive. cbn [rev app].
  by rewrite <- !app_assoc, !app_nil_r.
Qed.

Lemma device_job_wf ss : wf_item (item ss) -> wf_const (job_const ss) -> Device.wf_job (device_job ss).
Proof.
  intros [] Hc. split; cbn -[in_u share_target_be]; try done.
  rewrite share_target_be_rev by done. split.
  - by rewrite length_rev, leU32WordsToBe32Bytes_length.
  - apply Forall_rev, leU32WordsToBe32Bytes_bytes.
Qed.

(** The table entry the runner uploads for a well-formed snapshot is a well-formed
    device job, but its share target is byte-reversed: the device accepts a nonce when
    the digest, read big-endian, is at most the target's bytes read little-endian. *)
Theorem device_target_reversed ss n :
  wf_item (item ss) -> wf_const (job_const ss) ->
  let J := device_job ss in
  let target := leU32WordsToBe32Bytes (share_target_le (item ss)) in
  Device.wf_job J /\ Device.share_target_be J = rev target /\
  target_val (share_target_le (item ss)) = be_val target /\
  Device.solves J n = (be_val (Device.double_sha (Device.device_header J n)) <=? le_val target).
Proof.
  intros Hi Hc J target. assert (Device.share_target_be J = rev target) as E
    by (apply share_target_be_rev, Hi).
  split; [by apply device_job_wf|]. split; [exact E|]. split; [done|].
  unfold Device.solves. rewrite E. unfold be_val at 2. by rewrite rev_involutive.
Qed.

Lemma words_word p i : words8 p -> is_u32 (rd p i).
Proof. intros [_ H]. cxx_range. Qed.

Lemma be_bytes32_inj a b : is_u32 a -> is_u32 b -> be_bytes32 a = be_bytes32 b -> a = b.
Proof. intros Ha Hb E. rewrite <- (be_bytes32_val a Ha), E. by apply be_bytes32_val. Qed.

(** The two ways of writing a hash differ unless every word is a palindrome. *)
Lemma hash_bytes_agree p : words8 p ->
  leU32WordsToBe32Bytes p = concat (map (fun w => be_bytes32 (rd p w)) (seq 0 8)) <->
  Forall (fun w => bswap32 w = w) p.
Proof.
  intros H. unfold leU32WordsToBe32Bytes. split.
  - intros E. apply Forall_lookup. intros i w Hw.
    assert (i < 8)%nat as Hi by (destruct H as [<- _]; by apply lookup_lt_Some in Hw).
    assert (rd p i = w) as <- by (unfold rd; by apply nth_lookup_Some).
    pose proof (words_word p i H) as Hr. apply be_bytes32_inj; [by apply bswap32_range|done|].
    revert i Hi Hr Hw. refine (fun i Hi _ _ => concat_blocks (fun i => be_bytes32 (bswap32 (rd p i)))
      (fun w => be_bytes32 (rd p w)) (seq 0 8) _ E i _); [done|]. apply elem_of_seq. lia.
  - intros Hf. f_equal. apply map_ext_in. intros i Hi%in_seq. f_equal.
    destruct H as [Hl _]. destruct (lookup_lt_is_Some_2 p i ltac:(lia)) as [w Hw].
    unfold rd. rewrite (nth_lookup_Some _ _ 0 _ Hw). rewrite Forall_lookup in Hf. by apply (Hf i).
Qed.

(** Against the header the device assembles, which the tail loop of the unrolled kernel
    hashes: they agree exactly when every word of the previous hash and of the Merkle
    root reads the same in both byte orders and the job's time lies within its rolling
    bounds: the host swaps the words, the device clamps the time. *)
Lemma host_header_is_device_header ss n :
  wf_item (item ss) -> wf_const (job_const ss) -> is_u32 n ->
  let i := item ss in
  host_header i n = Device.device_header (device_job ss) n <->
  Forall (fun w => bswap32 w = w) (prevhash_le i ++ merkle_root_le i) /\
  Device.device_ntime (device_job ss) = ntime i.
Proof.
  intros Hi Hc Hn i. pose proof (device_job_wf ss Hi Hc) as HJ.
  rewrite Forall_app, <- !hash_bytes_agree by apply Hi.
  unfold host_header, Device.device_header.
  change (Device.prevhash_le (device_job ss)) with (prevhash_le i).
  change (Device.merkle_root_le (device_job ss)) with (merkle_root_le i).
  change (Device.version (device_job ss)) with (version i).
  change (Device.nbits (device_job ss)) with (nbits i).
  split; [|by intros [[-> ->] ->]].
  intros E. apply app_inj_1 in E as [_ E]; [|done].
  apply app_inj_1 in E as [E1 E]; [|rewrite leU32WordsToBe32Bytes_length; reflexivity].
  apply app_inj_1 in E as [E2 E]; [|rewrite leU32WordsToBe32Bytes_length; reflexivity].
  apply app_inj_1 in E as [E3 _]; [|done].
  split; [done|]. symmetry. apply be_bytes32_inj; [apply Hi|by apply Device.device_ntime_range|done].
Qed.

(** ** Polling the sources *)

Section Poll.
(** An adapter seen as its queue. *)
Context {A : Type} (poll : A -> A * option NormalizerResult)
  (queue : A -> list NormalizerResult) (with_queue : A -> list NormalizerResult -> A).
Context (poll_spec : forall a, poll a = match queue a with
                                        | [] => (a, None)
                                        | r :: q => (with_queue a q, Some r)
                                        end).
Context (queue_set : forall a q, queue (with_queue a q) = q).
Context (set_set : forall a q q', with_queue (with_queue a q) q' = with_queue a q').
Context (set_same : forall a, with_queue a (queue a) = a).

Definition stored (sid : nat) (r : NormalizerResult) : nat * (WorkItem * GpuJobConst) :=
  (sid, (slot_item_of sid r, res_job_const r)).

Lemma drain_adapter_spec sid q a m reg :
  queue a = q -> (sid < Registry.size reg)%nat ->
  exists reg', Registry.sets reg (map (stored sid) q) = inr reg' /\
    drain_adapter poll (S (length q)) sid a m reg =
    Some (inr (with_queue a [],
               fold_left (fun m r => <[work_id (res_item r) := u32 (Z.of_nat sid)]> m) q m, reg')).
Proof.
  revert a m reg. induction q as [|r q IH]; intros a m reg Hq Hs; cbn [length drain_adapter map Registry.sets fold_left].
  - exists reg. rewrite poll_spec, Hq. split; [done|]. by rewrite <- Hq, set_same.
  - rewrite poll_spec, Hq.
    destruct (Registry.set_ok reg sid (slot_item_of sid r) (res_job_const r) Hs) as [reg1 E].
    cbn [stored]. rewrite E. cbn [mbind throws_bind].
    edestruct (IH (with_queue a q) (<[work_id (res_item r) := u32 (Z.of_nat sid)]> m) reg1)
      as (reg' & Es & Ed); [by apply queue_set|by rewrite (Registry.size_set _ _ _ _ _ E)|].
    exists reg'. split; [exact Es|]. rewrite set_set in Ed. exact Ed.
Qed.

End Poll.

Lemma insert_all_lookup sid q (m : gmap Z Z) r :
  r ∈ q -> fold_left (fun m r => <[work_id (res_item r) := sid]> m) q m !! work_id (res_item r) = Some sid.
Proof.
  assert (forall q (m : gmap Z Z) k, m !! k = Some sid ->
    fold_left (fun m r => <[work_id (res_item r) := sid]> m) q m !! k = Some sid) as Hkeep.
  { clear. induction q as [|r q IH]; intros m k E; [done|]. cbn [fold_left]. apply IH.
    destruct (decide (work_id (res_item r) = k)) as [->|]; [by rewrite lookup_insert_eq|by rewrite lookup_insert_ne]. }
  revert m. induction q as [|r' q IH]; intros m Hr; [by apply elem_of_nil in Hr|].
  cbn [fold_left]. apply elem_of_cons in Hr as [<-|Hr]; [|by apply IH]. apply Hkeep, lookup_insert_eq.
Qed.

(** Storing several results in one slot leaves the last there and no other slot changed. *)
Lemma sets_one_slot sid q reg reg' :
  Registry.sets reg (map (stored sid) q) = inr reg' ->
  (forall k, k <> sid -> Registry.get reg' k = Registry.get reg k) /\
  (forall q0 r, q = q0 ++ [r] ->
     exists g, Registry.get reg' sid = Some (mkWorkSlotSnapshot g (slot_item_of sid r) (res_job_const r))).
Proof.
  revert reg. induction q as [|r q IH]; intros reg E; cbn [map Registry.sets stored] in E.
  - injection E as <-. split; [done|]. by intros [|? ?].
  - destruct (Registry.set reg sid (slot_item_of sid r) (res_job_const r)) as [|reg1] eqn:Es; [done|].
    cbn [mbind throws_bind] in E. destruct (IH reg1 E) as [Hk Hl]. split.
    + intros k Hne. by rewrite Hk, (Registry.get_set_ne _ _ _ _ _ _ Es).
    + intros [|x q0] r' Eq; cbn in Eq; injection Eq as -> ->.
      * cbn in E. injection E as <-.
        assert (sid < Registry.size reg)%nat as Hs.
        { destruct (decide (sid < Registry.size reg)%nat); [done|]. rewrite Registry.set_throws in Es by lia. done. }
        unfold Registry.set in Es. destruct (reg !! sid) as [s|] eqn:El; [|done]. injection Es as <-.
        unfold Registry.get. rewrite list_lookup_insert_eq by (by apply lookup_lt_Some in El). by eexists.
      * by apply (Hl q0).
Qed.

(** Polling an adapter of either kind into its slot always ends, with an empty queue:
    every result's work identifier is mapped to the slot, the slot holds the last result
    with the slot's number and the active flag, and no other slot changes. *)
Theorem poll_source_drains sid m reg (x : StratumAdapter + GbtAdapter) :
  (sid < Registry.size reg)%nat -> Z.of_nat sid < 2 ^ 32 ->
  let q := match x with inl a => Adapters.q_ a | inr a => gbt_q_ a end in
  exists m' reg',
    match x with
    | inl a => drain_adapter pollNormalizedFull (S (length q)) sid a m reg = Some (inr (with_q a [], m', reg'))
    | inr a => drain_adapter gbt_pollNormalizedFull (S (length q)) sid a m reg =
               Some (inr (mkGbtAdapter [] (submitter_ a), m', reg'))
    end /\
    (forall r, r ∈ q -> m' !! work_id (res_item r) = Some (Z.of_nat sid)) /\
    (forall k, k <> sid -> Registry.get reg' k = Registry.get reg k) /\
    (forall q0 r, q = q0 ++ [r] ->
       exists g, Registry.get reg' sid = Some (mkWorkSlotSnapshot g (slot_item_of sid r) (res_job_const r))).
Proof.
  intros Hs Hsid q.
  assert (u32 (Z.of_nat sid) = Z.of_nat sid) as Eu by (apply u32_small; unfold in_u; lia).
  assert (exists reg', Registry.sets reg (map (stored sid) q) = inr reg' /\
    match x with
    | inl a => drain_adapter pollNormalizedFull (S (length q)) sid a m reg =
        Some (inr (with_q a [], fold_left (fun m r => <[work_id (res_item r) := Z.of_nat sid]> m) q m, reg'))
    | inr a => drain_adapter gbt_pollNormalizedFull (S (length q)) sid a m reg =
        Some (inr (mkGbtAdapter [] (submitter_ a),
                   fold_left (fun m r => <[work_id (res_item r) := Z.of_nat sid]> m) q m, reg'))
    end) as (reg' & Es & Ed).
  { unfold q. rewrite <- Eu. destruct x as [a|a].
    - apply (drain_adapter_spec pollNormalizedFull Adapters.q_ with_q); try done; by intros [].
    - apply (drain_adapter_spec gbt_pollNormalizedFull gbt_q_ (fun a q => mkGbtAdapter q (submitter_ a)));
        try done; by intros []. }
  eexists _, reg'. split; [exact Ed|]. split; [intros r Hr; by apply insert_all_lookup|].
  by apply sets_one_slot.
Qed.

(** ** Block hits *)

Section BlockHits.
Context {K J R : Type} `{ISocket K, Json J}.
Context (rpc : R -> list Z -> J -> R * option J).
Context (cb : SubmitCallback (Wiring K)).

(** C39: a hit that meets the block target is lost whenever a node is configured: the main
    loop's own submitter never receives a template, so it has no coinbase and makes no
    call, and the pool is not tried either; only two counters change.  Every other hit
    goes to the router with the share target. *)
Theorem block_hits_lost cfg g snaps (st : HitState) h ss :
  main_gbt_submitter cfg = Some g -> snaps !! Device.hit_work_id h = Some ss ->
  let header := host_header (item ss) (Device.hit_nonce h) in
  let st' := handle_hit rpc cb snaps (Some g) st h in
  (isHashLEQTarget (sha256 (sha256 header)) (block_target_le (item ss)) = true ->
     hs_world st' = hs_world st /\ hs_rpc st' = hs_rpc st /\
     hs_metrics st' = increment (increment (hs_metrics st) "submit.blocks_gbt_no_cb" 1) "submit.blocks_gbt_fail" 1) /\
  (isHashLEQTarget (sha256 (sha256 header)) (block_target_le (item ss)) = false ->
     hs_world st' = (verifyAndSubmit cb (hs_world st) header (share_target_le (item ss))
                       (Device.hit_work_id h) (Device.hit_nonce h)).1 /\ hs_rpc st' = hs_rpc st).
Proof.
  intros Hg Hs header st'. assert (g = GbtSubmitter_init) as ->.
  { unfold main_gbt_submitter in Hg. destruct (List.find is_gbt (pools cfg)) as [p|]; [|done].
    cbn in Hg. destruct (pool_rpc p); [|done]. by injection Hg as <-. }
  unfold st', handle_hit. rewrite Hs. fold header. split; intros ->; done.
Qed.

End BlockHits.

(** ** Backpressure *)

Lemma pressure_range lat la lr h : 0 <= pressure lat la lr h.
Proof. unfold pressure, b2z. repeat case_match; lia. Qed.

Lemma pressure_quick lat la lr h : 0 < h_qd h -> 1 <= pressure lat la lr h.
Proof. intros H. unfold pressure, b2z. rewrite (proj2 (Z.ltb_lt 0 (h_qd h)) H). repeat case_match; lia. Qed.

Lemma next_penalty_range p prev : 0 <= p -> 0 <= prev <= 5 -> 0 <= next_penalty p prev <= 5.
Proof. unfold next_penalty. intros. destruct (Z.eqb_spec p 0), (Z.ltb_spec 0 prev), (Z.ltb_spec 0 p); cbn [andb]; lia. Qed.

Lemma next_penalty_zero prev : 0 <= prev -> next_penalty 0 prev = Z.max 0 (prev - 1).
Proof. unfold next_penalty. intros. destruct (Z.ltb_spec 0 prev); cbn; lia. Qed.

Lemma next_penalty_pos p prev : 1 <= p -> 0 <= prev <= 5 -> Z.min 5 (prev + 1) <= next_penalty p prev.
Proof. unfold next_penalty. intros. destruct (Z.eqb_spec p 0), (Z.ltb_spec 0 prev), (Z.ltb_spec 0 p); cbn [andb]; lia. Qed.

(** One round of one source: its new penalty, mirrored in the scheduler. *)
Lemma backpressure_source_penalty lat st sid h :
  exists p, 0 <= p /\ (h = None -> p = 0) /\ (forall h', h = Some h' -> 0 < h_qd h' -> 1 <= p) /\
    zget (src_penalty (backpressure_source lat st sid h)) sid = next_penalty p (zget (src_penalty st) sid) /\
    source_penalty (sched (backpressure_source lat st sid h)) !! sid =
      Some (u32 (next_penalty p (zget (src_penalty st) sid))).
Proof.
  destruct h as [h|].
  - exists (pressure lat (zget (last_acc st) sid) (zget (last_rej st) sid) h).
    split; [apply pressure_range|]. split; [done|]. split; [intros h' [= <-]; apply pressure_quick|].
    unfold backpressure_source, zget at 1. cbn. by rewrite !lookup_insert_eq.
  - exists 0. split; [done|]. split; [done|]. split; [done|].
    unfold backpressure_source, zget at 1. cbn. by rewrite !lookup_insert_eq.
Qed.

(** A source's penalty always stays between 0 and 5 and is what the scheduler uses.
    Without any pressure it is gone after five rounds.  A source whose count of quick
    disconnects is positive is at 5 after five rounds and stays there, whatever else
    improves: nothing in the loop resets that count. *)
Theorem penalty_dynamics lat sid st n :
  0 <= zget (src_penalty st) sid <= 5 ->
  let rounds h := Nat.iter n (fun st => backpressure_source lat st sid h) st in
  (forall h, 0 <= zget (src_penalty (rounds h)) sid <= 5 /\
     ((0 < n)%nat -> source_penalty (sched (rounds h)) !! sid = Some (zget (src_penalty (rounds h)) sid))) /\
  ((5 <= n)%nat -> zget (src_penalty (rounds None)) sid = 0) /\
  (forall h, 0 < h_qd h -> (5 <= n)%nat -> zget (src_penalty (rounds (Some h))) sid = 5).
Proof.
  intros H0 rounds.
  assert (forall h n, let st' := Nat.iter n (fun st => backpressure_source lat st sid h) st in
    0 <= zget (src_penalty st') sid <= 5 /\
    ((0 < n)%nat -> source_penalty (sched st') !! sid = Some (zget (src_penalty st') sid)) /\
    (h = None -> zget (src_penalty st') sid = Z.max 0 (zget (src_penalty st) sid - Z.of_nat n)) /\
    (forall h', h = Some h' -> 0 < h_qd h' ->
       Z.min 5 (zget (src_penalty st) sid + Z.of_nat n) <= zget (src_penalty st') sid)) as A.
  { clear rounds n. intros h n. induction n as [|n (Hr & _ & Hz & Hq)]; cbn zeta in *.
    - cbn [Nat.iter nat_rect]. repeat split; try lia; intros; cbn; lia.
    - rewrite !Nat.iter_succ.
      set (st1 := Nat.iter n _ st) in *.
      destruct (backpressure_source_penalty lat st1 sid h) as (p & Hp & Hp0 & Hp1 & -> & ->).
      pose proof (next_penalty_range p _ Hp Hr) as Hn. split; [exact Hn|]. split; [|split].
      + intros _. rewrite u32_small by (unfold in_u; lia). done.
      + intros E. rewrite (Hp0 E), next_penalty_zero, (Hz E) by lia. lia.
      + intros h' E Hd. specialize (Hq h' E Hd). pose proof (next_penalty_pos p _ (Hp1 h' E Hd) Hr). lia. }
  split; [intros h; destruct (A h n) as (? & ? & _); done|]. split.
  - intros Hn. destruct (A None n) as (_ & _ & Hz & _). unfold rounds. rewrite Hz by done. lia.
  - intros h Hd Hn. destruct (A (Some h) n) as (Hr & _ & _ & Hq). specialize (Hq h eq_refl Hd).
    unfold rounds. lia.
Qed.

(** ** Replay *)

Section Replay.
Context {K J : Type} `{ISocket K, Json J}.
Context (env : Env) (path : string) (cfg : OutboxCfg) (now_ms : Z).

Abbreviation callback := (submit_callback (K := K) (J := J) env path cfg now_ms).
Abbreviation loop := (replay_loop (K := K) (J := J) env path cfg now_ms).

Lemma enqueue_seen o s : key s ∈ seen_ o -> enqueue o s = o.
Proof. intros Hs. unfold enqueue. by rewrite decide_True. Qed.

Lemma persist_sources rec (w : Wiring K) :
  sources (persist env path cfg now_ms rec w) = sources w /\
  workid_to_source (persist env path cfg now_ms rec w) = workid_to_source w.
Proof. unfold persist. by destruct (rotate_outbox_if_needed env path cfg false now_ms _ _). Qed.

(** One turn: the entry is out of the queue for good. *)
Lemma replay_step n w s q seen :
  SubmitRouter.outbox w = Some (mkOutbox (s :: q) seen) -> key s ∈ seen ->
  workid_to_source (rest w) = ∅ ->
  loop (S n) w = loop n (mkWorld (Some (mkOutbox q seen))
    (persist env path cfg now_ms (SubmitRouter.mkHitRecord (Outbox.work_id s) (Outbox.nonce s) (Outbox.header80 s))
       (rest w))).
Proof.
  intros Ho Hs Hm. cbn [replay_loop]. rewrite Ho. cbn [tryDequeue Outbox.q_ Outbox.seen_]. f_equal.
  unfold routeRaw, record_pending. cbn [SubmitRouter.outbox fst].
  rewrite enqueue_seen by (destruct s; exact Hs).
  unfold submit_callback. cbn [SubmitRouter.outbox rest]. unfold route_to_source. by rewrite Hm.
Qed.

(** Replaying the outbox at start-up submits nothing and forgets the queue: no work
    identifier is mapped to a source yet, so every source is left as it was, and the
    entries are taken off the queue without coming back, up to the 128 of one replay,
    while their keys stay in the seen set. *)
Theorem replay_sends_nothing w o :
  SubmitRouter.outbox w = Some o -> wf_outbox o -> workid_to_source (rest w) = ∅ ->
  let w' := replay_pending (K := K) (J := J) env path cfg now_ms w in
  sources (rest w') = sources (rest w) /\
  SubmitRouter.outbox w' = Some (mkOutbox (drop 128 (Outbox.q_ o)) (seen_ o)).
Proof.
  intros Ho Hw Hm w'. unfold w', replay_pending. clear w'. pose proof (wf_seen o Hw) as Hs. clear Hw.
  destruct o as [q seen]. cbn [Outbox.q_ seen_] in *. revert w q Ho Hs Hm.
  generalize 128%nat. intros n. induction n as [|n IH]; intros w q Ho Hs Hm.
  - cbn [replay_loop]. by rewrite drop_0.
  - destruct q as [|s q].
    + cbn [replay_loop]. rewrite Ho. cbn [tryDequeue Outbox.q_ SubmitRouter.outbox rest]. by rewrite drop_nil.
    + rewrite (replay_step n w s q seen) by (done || apply Hs, elem_of_cons; by left).
      set (p := persist _ _ _ _ _ _). destruct (persist_sources (SubmitRouter.mkHitRecord (Outbox.work_id s)
        (Outbox.nonce s) (Outbox.header80 s)) (rest w)) as [E1 E2]. fold p in E1, E2.
      destruct (IH (mkWorld (Some (mkOutbox q seen)) p) q) as [Hsrc Hout].
      * done.
      * intros s' Hs'. apply Hs, elem_of_cons. by right.
      * cbn [rest]. by rewrite E2.
      * split; [by rewrite Hsrc|exact Hout].
Qed.

End Replay.

(** ** Concrete instances *)

Import Concrete.

Definition sample_item : WorkItem :=
  mkWorkItem 7 0 536870912 1700000000 486604799 0 (repeat 1 8) (repeat 2 8)
    [0; 65535; 0; 0; 0; 0; 0; 0] (repeat 4294967295 8) 0 0 0 4 true true false.
Definition sample_snap : WorkSlotSnapshot :=
  mkWorkSlotSnapshot 1 sample_item (mkGpuJobConst (repeat 0 8)).

Lemma sample_item_wf : wf_item sample_item.
Proof. split; cbn -[in_u]; try in_range; (split; [reflexivity|in_range]). Qed.
Lemma sample_const_wf : wf_const (job_const sample_snap).
Proof. split; [reflexivity|in_range]. Qed.

Lemma device_target_reversed_witness :
  Device.share_target_be (device_job sample_snap) = rev (leU32WordsToBe32Bytes (share_target_le sample_item)).
Proof.
  refine (proj1 (proj2 (device_target_reversed sample_snap 0 _ _))).
  - exact sample_item_wf.
  - exact sample_const_wf.
Defined.

(** A share target of about 2^224 becomes one of about 2^48 on the device. *)
Example device_target_tiny :
  2 ^ 223 <= target_val (share_target_le sample_item) /\
  be_val (Device.share_target_be (device_job sample_snap)) < 2 ^ 56.
Proof. vm_compute. split; [discriminate|reflexivity]. Qed.

Lemma host_header_is_device_header_witness :
  host_header sample_item 5 <> Device.device_header (device_job sample_snap) 5.
Proof.
  intros E. apply (host_header_is_device_header sample_snap 5) in E as [E _].
  - apply Forall_app in E as [E _]. inversion E as [|? ? E1 _]. vm_compute in E1. discriminate E1.
  - exact sample_item_wf.
  - exact sample_const_wf.
  - in_range.
Defined.

Lemma poll_source_drains_witness :
  let a := with_q StratumAdapter_init [mkNormalizerResult sample_item GpuJobConst_default] in
  exists m' reg', drain_adapter pollNormalizedFull 2 1 a ∅ (repeat WorkSlot_default 2) =
    Some (inr (with_q a [], m', reg')) /\ m' !! 7 = Some 1.
Proof.
  intros a. destruct (poll_source_drains 1 ∅ (repeat WorkSlot_default 2) (inl a)) as (m' & reg' & E & Hm & _).
  - cbn. lia.
  - lia.
  - exists m', reg'. split; [exact E|].
    exact (Hm (mkNormalizerResult sample_item GpuJobConst_default) ltac:(by constructor)).
Defined.

Definition gbt_pool : PoolEntry :=
  mkPoolEntry (str "solo") (str "gbt") WalletAsUser 1 [] [] [] [] []
    (Some (mkRpcConfig (str "http://127.0.0.1:8332") false [] [] [] [])) None PolicyCfg_default.
Definition gbt_config : AppConfig :=
  mkAppConfig 2 [gbt_pool] SchedulerCfg_default MetricsCfg_default TlsCfg_default CudaCfg_default
    OutboxCfg_default LedgerCfg_default.

Lemma block_hits_lost_witness :
  let w : World (Wiring Script) := mkWorld (Some Outbox_init) (mkWiring ∅ ∅ [] 0) in
  let rpc (n : nat) (_ : list Z) (_ : Jv) := (S n, Some JNull) in
  let st := mkHitState w 0%nat MetricsRegistry_init in
  hs_rpc (handle_hit rpc None {[ 7 := sample_snap ]} (Some GbtSubmitter_init) st (Device.mkHit 7 5)) = 0%nat.
Proof.
  intros w rpc st.
  destruct (block_hits_lost rpc None gbt_config GbtSubmitter_init {[ 7 := sample_snap ]} st
    (Device.mkHit 7 5) sample_snap) as [Hb _].
  - reflexivity.
  - reflexivity.
  - destruct Hb as (_ & Hr & _); [vm_compute; reflexivity|]. exact Hr.
Defined.

Lemma penalty_dynamics_witness :
  let st := mkPressure ∅ ∅ ∅ SchedulerState_init in
  zget (src_penalty (Nat.iter 9 (fun st => backpressure_source 1500 st 0 (Some (mkHealth 100 0 0 0 1))) st)) 0 = 5.
Proof.
  intros st. destruct (penalty_dynamics 1500 0 st 9) as (_ & _ & Hq).
  - split; vm_compute; discriminate.
  - apply Hq; [reflexivity|lia].
Defined.

Lemma replay_sends_nothing_witness :
  let env := mkEnv (fun _ => true) (fun _ _ => true) (fun _ _ => true) in
  let s := mkPendingSubmit 7 5 (repeat 0 80) in
  let w : World (Wiring Script) := mkWorld (Some (enqueue Outbox_init s)) (mkWiring ∅ ∅ [] 0) in
  sources (rest (replay_pending (J := Jv) env "o" OutboxCfg_default 0 w)) = [] /\
  SubmitRouter.outbox (replay_pending (J := Jv) env "o" OutboxCfg_default 0 w)
  = Some (mkOutbox [] (seen_ (enqueue Outbox_init s))).
Proof.
  intros env s w.
  apply (replay_sends_nothing (J := Jv) env "o" OutboxCfg_default 0 w (enqueue Outbox_init s)).
  - reflexivity.
  - apply enqueue_wf; [|apply init_wf]. split; cbn -[in_u]; try in_range. split; [reflexivity|in_range].
  - reflexivity.
Defined.
