(* ===== verification/Tools.v ===== *)
(** * The log and the two small programs

    [src/obs/log.cc], [src/tools/stratum_probe.cpp] and [src/tools/cuda_bench.cpp]: one
    JSON line per message, a driver that subscribes to a pool and prints what it says, and
    a benchmark of the kernels. *)

From stdpp Require Import base numbers list option gmap strings.
From S2P Require Import Prelude FileSys Json Text Adapters LaunchPlan Net Runner.
From S2P Require Device.

Open Scope Z_scope.

#[local] Abbreviation drop := list.drop.

(** ** The log ([src/obs/log.cc]) *)

Module Log.

Inductive LogLevel := kTrace | kDebug | kInfo | kWarn | kError.

Definition ToString (l : LogLevel) : list Z :=
  str match l with
      | kTrace => "trace" | kDebug => "debug" | kInfo => "info" | kWarn => "warn" | kError => "error"
      end.

Record Logger := mkLogger { component_ : list Z }.

(** The file named by [BMAD_LOG_FILE] when the first message is logged, [None] without
    the variable or when it cannot be opened; opening creates it. *)
Definition FileSink (env : Env) (var : option string) (fs : FS) : FS * option string :=
  match var with
  | None => (fs, None)
  | Some path => if can_write env path then (fs_append fs path [], Some path) else (fs, None)
  end.

Section Log.
Context {J : Type} `{Json J}.

(** An empty [fields] is left out. *)
Definition log_entry (ms : Z) (l : Logger) (level : LogLevel) (message : list Z) (fields : list (string * J)) : J :=
  jobject ([("ts_ms"%string, jnumber ms); ("level"%string, jstring (ToString level));
            ("component"%string, jstring (component_ l)); ("msg"%string, jstring message)] ++
           match fields with [] => [] | _ => [("fields"%string, jobject fields)] end).

(** The files, and the line printed. *)
Definition log (sink : option string) (ms : Z) (l : Logger) (level : LogLevel) (message : list Z)
    (fields : list (string * J)) (fs : FS) : throws (FS * list Z) :=
  line ← dump_text (log_entry ms l level message fields);
  mret (match sink with Some path => fs_append fs path (line ++ [10]) | None => fs end, line).

Definition info (sink : option string) ms l := log sink ms l kInfo.
Definition warn (sink : option string) ms l := log sink ms l kWarn.
Definition error (sink : option string) ms l := log sink ms l kError.

End Log.

(** A message as the caller gives it. *)
Definition entry (J : Type) : Type := Z * Logger * LogLevel * list Z * list (string * J).

Section LogLaws.
Context {J : Type} `{JsonLaws J}.

(** A message that cannot be encoded leaves the file alone and throws to its caller. *)
Definition write_entry (sink : option string) (fs : FS) (e : entry J) : FS :=
  let '(ms, l, level, message, fields) := e in
  match log sink ms l level message fields fs with inl _ => fs | inr (fs, _) => fs end.
Definition entry_json (e : entry J) : J :=
  let '(ms, l, level, message, fields) := e in log_entry ms l level message fields.

Lemma write_entries_text path es fs :
  Forall (fun e => encodable (entry_json e) = true) es ->
  default [] (fold_left (write_entry (Some path)) es fs !! path) =
  default [] (fs !! path) ++ concat (map (fun e => dump (entry_json e) ++ [10]) es).
Proof.
  intros He. revert fs. induction He as [|e es He _ IH]; intros fs; cbn [fold_left map concat]; [by rewrite app_nil_r|].
  rewrite IH. destruct e as [[[[ms l] level] msg] fields]. unfold write_entry, log, fs_append.
  unfold entry_json in He. rewrite dump_text_ok by done. cbn [mbind throws_bind mret throws_ret].
  rewrite lookup_insert_eq. cbn [default from_option id]. by rewrite <- app_assoc.
Qed.

(** The lines of the log file are the messages in order, each parsing back to its
    document. *)
Theorem log_lines path es fs :
  Forall (fun e => encodable (entry_json e) = true) es ->
  fs !! path = None ->
  map parse (lines (default [] (fold_left (write_entry (Some path)) es fs !! path))) =
  map (fun e => Some (entry_json e)) es.
Proof.
  intros He Hf. rewrite write_entries_text, Hf by done. cbn [default from_option id app].
  rewrite <- (app_nil_r (concat _)).
  replace (map (fun e => dump (entry_json e) ++ [10]) es)
    with (map (fun l => l ++ [10]) (map (fun e => dump (entry_json e)) es)) by (by rewrite map_map).
  rewrite lines_concat.
  - rewrite app_nil_r, map_map. apply map_ext_in. intros e Hin. apply parse_dump.
    rewrite list.Forall_forall in He. by apply He, list_elem_of_In.
  - apply Forall_map, list.Forall_forall. intros e _. apply dump_one_line.
  - apply not_elem_of_nil.
Qed.

End LogLaws.
End Log.

(** ** The probe ([src/tools/stratum_probe.cpp]) *)

Module Probe.
Section Probe.
Context {K J : Type} `{ISocket K, Json J}.
Context (MakePlainSocket : K) (MakeTlsSocket : option K).

(** The client the arguments describe; the port is what follows the first separator, and
    the connection is secure when [:443] occurs anywhere.  [None]: no separator. *)
Definition client_of (hostport wallet : list Z) (worker pass prof : option (list Z)) :
    throws (option (StratumClient K)) :=
  let profile := default kGeneric (profile_of <$> prof) in
  let '(user, pass) := formatStratumCredentials profile wallet (default (str "bench") worker) (default (str "x") pass) in
  match find_sub (str ":") hostport with
  | None => mret None
  | Some pos =>
      p ← stoi_text (drop (pos + 1) hostport);
      let tls := match find_sub (str ":443") hostport with Some _ => true | None => false end in
      mret (Some (mkClient (take pos hostport) (u16 p) user pass tls None))
  end.

(** At most [n] lines. *)
Fixpoint read_lines (fuel n : nat) (c : StratumClient K) (out : list (list Z)) : option (StratumClient K * list (list Z)) :=
  match n with
  | O => Some (c, out)
  | S n =>
      '(c, st, line) ← recvLine fuel c;
      match st with kLine => read_lines fuel n c (out ++ [line]) | _ => Some (c, out) end
  end.

(** The exit code and the lines of the pool that are printed; [args] follow the program's
    name. *)
Definition probe_main (fuel : nat) (args : list (list Z)) : option (throws (Z * list (list Z))) :=
  match args with
  | hostport :: wallet :: opts =>
      match client_of hostport wallet (opts !! 0%nat) (opts !! 1%nat) (opts !! 2%nat) with
      | inl e => Some (inl e)
      | inr None => Some (inr (1, []))
      | inr (Some c) =>
          let '(c, ok) := connect MakePlainSocket MakeTlsSocket c in
          if negb ok then Some (inr (2, []))
          else
            sent ← sendSubscribe (J := J) c;
            match sent with
            | inl e => Some (inl e)
            | inr (c, false) => Some (inr (3, []))
            | inr (c, true) =>
                sent ← sendAuthorize (J := J) c;
                match sent with
                | inl e => Some (inl e)
                | inr (c, false) => Some (inr (4, []))
                | inr (c, true) =>
                    '(_, out) ← read_lines fuel 5 c [];
                    Some (inr (0, out))
                end
            end
      end
  | _ => Some (inr (1, []))
  end.

End Probe.

Import Concrete.

(** A pool that sends seven lines: the first five are printed. *)
Example probe_five_lines :
  let peer := mkScript [] [EData (str "a" ++ [10] ++ str "b" ++ [10; 99; 13; 10; 100; 10; 101; 10; 102; 10; 103; 10])] 9 in
  probe_main (J := Jv) peer None 50 [str "pool:3333"; str "addr"]
  = Some (inr (0, [str "a"; str "b"; [99; 13]; [100]; [101]])).
Proof. vm_compute. reflexivity. Qed.

(** The port 4433 is taken for a secure one, here without a secure socket. *)
Example probe_port_4433 :
  probe_main (J := Jv) (mkScript [] [] 9) None 50 [str "pool:4433"; str "addr"] = Some (inr (2, [])).
Proof. vm_compute. reflexivity. Qed.

End Probe.

(** ** The benchmark ([src/tools/cuda_bench.cpp]) *)

Module Bench.

(** [std::max(1, atoi(arg))]: text that is no number gives 1; [atoi] of a number out of
    range is undefined. *)
Definition positive_arg (d : Z) (arg : option (list Z)) : option Z :=
  match arg with
  | None => Some d
  | Some s => match stoi_text s with
              | inr v => Some (Z.max 1 v)
              | inl e => if decide (e = out_of_range) then None else Some 1
              end
  end.

Definition bench_jobs : list Device.DeviceJob :=
  map (fun j => Device.mkDeviceJob 536870912 100000000 545259519 0 0 0 0 (Z.of_nat j + 1)
                  (repeat 0 8) (repeat 0 8) (repeat 0 8) (repeat 0 8) (repeat 0 8) (repeat 0 32)) (seq 0 8).

(** The exit code and the device afterwards.  The grid's schedule is the environment's. *)
Definition bench_main (args : list (list Z)) (d : Device.Device) (order : list (nat * nat))
    (merge : list (list Device.HitRecord) -> list Device.HitRecord) (job_order : list nat) :
    option (Z * Device.Device) :=
  desired_threads ← positive_arg 256 (args !! 0%nat);
  nonces_per_thread ← positive_arg 1 (args !! 1%nat);
  let d := (Device.uploadDeviceJobs d bench_jobs).1 in
  plan ← computeLaunchPlan 8 desired_threads;
  if num_jobs plan =? 0 then Some (1, d)
  else
    '(d, _) ← (if 1 <? nonces_per_thread
               then Device.launchMineWithPlanBatch d (Z.to_nat (num_jobs plan)) (Z.to_nat (blocks_per_job plan))
                      (Z.to_nat (threads_per_block plan)) 0 (Z.to_nat nonces_per_thread) order merge
               else Device.launchMineWithPlan d (Z.to_nat (num_jobs plan)) (Z.to_nat (blocks_per_job plan))
                      (Z.to_nat (threads_per_block plan)) 0 job_order);
    Some (0, d).

(** The compact target of the jobs is very easy, but the kernels compare with the
    expanded one, which the benchmark leaves at zero: only a digest of zeros would be a
    hit. *)
Theorem bench_target_zero J digest :
  J ∈ bench_jobs -> length digest = 32%nat -> is_bytes digest ->
  Device.device_leq J digest = true -> digest = repeat 0 32.
Proof.
  intros HJ Hl Hb. assert (Device.wf_job J /\ be_val (Device.share_target_be J) = 0) as [Hw Ht].
  { apply list_elem_of_In, in_map_iff in HJ as (j & <- & Hj%in_seq). split; [|vm_compute; reflexivity].
    split; cbn -[in_u]; try in_range; (split; [reflexivity|try in_range]). }
  rewrite Device.device_leq_val, Ht by done. intros Hz%Z.leb_le. pose proof (be_val_range digest Hb).
  apply be_val_inj; [by rewrite Hl, repeat_length|done|by repeat constructor|]. rewrite be_val_zeros. lia.
Qed.

End Bench.
