(* ===== verification/Miner.v ===== *)
(** * One turn of the main loop ([src/tools/stratum_registry_runner.cpp])

    The whole state of [main] and the phases of its loop as functions of it: polling the
    sources, a mining round, one console command, the metrics dump.  [System] interleaves
    them with the pool threads. *)

From Stdlib Require Import SpecFloat.
From stdpp Require Import base numbers list option gmap strings pretty.
From S2P Require Import Prelude FileSys Endian Targets Sha256 CpuVerify Outbox SubmitRouter Registry Normalizer Scheduler Json Ledger Hex Text GbtSubmitter Adapters LaunchPlan Net StratumRunner Config GbtRunner Obs Floats DeviceDiag DeviceQuery Runner.
From S2P Require Device.

Open Scope Z_scope.

#[local] Abbreviation drop := list.drop.

(** ** State *)

(** The local variables of [main].  The submit router's world holds the outbox, the
    files, the map from work to source, and the sources with their runners; every GBT
    source reads the adapter of [m_gbt]. *)
Record MainState (K R : Type) := mkMain {
  m_world : World (Wiring K); m_gbt : option GbtRunner; m_reg : registry;
  m_dev : Device.Device; m_nonce_base : Z;
  m_press : Pressure; m_last_bp : Z;
  m_threads : Z; m_npt : Z; m_last_save : Z;
  m_rpc : R; m_metrics : MetricsRegistry;
  m_ledger : Ledger; m_last_snapshot : Z; m_last_ledger_rotate : Z;
  m_last_gen : Z; m_last_ntime_hex : list Z; m_auto_submitted : bool; m_hashrate : spec_float;
  m_last_metrics : Z; m_last_metrics_rotate : Z }.
Arguments mkMain {K R}. Arguments m_world {K R}. Arguments m_gbt {K R}. Arguments m_reg {K R}.
Arguments m_dev {K R}. Arguments m_nonce_base {K R}. Arguments m_press {K R}. Arguments m_last_bp {K R}.
Arguments m_threads {K R}. Arguments m_npt {K R}. Arguments m_last_save {K R}. Arguments m_rpc {K R}.
Arguments m_metrics {K R}. Arguments m_ledger {K R}. Arguments m_last_snapshot {K R}.
Arguments m_last_ledger_rotate {K R}. Arguments m_last_gen {K R}. Arguments m_last_ntime_hex {K R}.
Arguments m_auto_submitted {K R}. Arguments m_hashrate {K R}.
 Arguments m_last_metrics {K R}. Arguments m_last_metrics_rotate {K R}.

(** Assignments. *)
Section Updates.
Context {K R : Type}.
Implicit Types st : MainState K R.

Definition set_wiring (st : MainState K R) (w : Wiring K) : MainState K R :=
  mkMain (mkWorld (SubmitRouter.outbox (m_world st)) w) (m_gbt st) (m_reg st) (m_dev st) (m_nonce_base st)
    (m_press st) (m_last_bp st) (m_threads st) (m_npt st) (m_last_save st) (m_rpc st) (m_metrics st)
    (m_ledger st) (m_last_snapshot st) (m_last_ledger_rotate st) (m_last_gen st) (m_last_ntime_hex st)
    (m_auto_submitted st) (m_hashrate st) (m_last_metrics st) (m_last_metrics_rotate st).

Definition set_world (st : MainState K R) (w : World (Wiring K)) : MainState K R :=
  mkMain w (m_gbt st) (m_reg st) (m_dev st) (m_nonce_base st)
    (m_press st) (m_last_bp st) (m_threads st) (m_npt st) (m_last_save st) (m_rpc st) (m_metrics st)
    (m_ledger st) (m_last_snapshot st) (m_last_ledger_rotate st) (m_last_gen st) (m_last_ntime_hex st)
    (m_auto_submitted st) (m_hashrate st) (m_last_metrics st) (m_last_metrics_rotate st).

Definition set_gbt (st : MainState K R) (g : option GbtRunner) : MainState K R :=
  mkMain (m_world st) g (m_reg st) (m_dev st) (m_nonce_base st)
    (m_press st) (m_last_bp st) (m_threads st) (m_npt st) (m_last_save st) (m_rpc st) (m_metrics st)
    (m_ledger st) (m_last_snapshot st) (m_last_ledger_rotate st) (m_last_gen st) (m_last_ntime_hex st)
    (m_auto_submitted st) (m_hashrate st) (m_last_metrics st) (m_last_metrics_rotate st).

Definition set_reg (st : MainState K R) (r : registry) : MainState K R :=
  mkMain (m_world st) (m_gbt st) r (m_dev st) (m_nonce_base st)
    (m_press st) (m_last_bp st) (m_threads st) (m_npt st) (m_last_save st) (m_rpc st) (m_metrics st)
    (m_ledger st) (m_last_snapshot st) (m_last_ledger_rotate st) (m_last_gen st) (m_last_ntime_hex st)
    (m_auto_submitted st) (m_hashrate st) (m_last_metrics st) (m_last_metrics_rotate st).

Definition set_seen (st : MainState K R) (gen : Z) (ntime_hex : list Z) (submitted : bool) : MainState K R :=
  mkMain (m_world st) (m_gbt st) (m_reg st) (m_dev st) (m_nonce_base st)
    (m_press st) (m_last_bp st) (m_threads st) (m_npt st) (m_last_save st) (m_rpc st) (m_metrics st)
    (m_ledger st) (m_last_snapshot st) (m_last_ledger_rotate st) gen ntime_hex submitted (m_hashrate st)
    (m_last_metrics st) (m_last_metrics_rotate st).

Definition set_metrics (st : MainState K R) (m : MetricsRegistry) (last last_rotate : Z) : MainState K R :=
  mkMain (m_world st) (m_gbt st) (m_reg st) (m_dev st) (m_nonce_base st)
    (m_press st) (m_last_bp st) (m_threads st) (m_npt st) (m_last_save st) (m_rpc st) m
    (m_ledger st) (m_last_snapshot st) (m_last_ledger_rotate st) (m_last_gen st) (m_last_ntime_hex st)
    (m_auto_submitted st) (m_hashrate st) last last_rotate.

Definition with_files (w : Wiring K) (fs : FS) : Wiring K :=
  mkWiring fs (workid_to_source w) (sources w) (last_outbox_rotate_ms w).
Definition with_source (w : Wiring K) (sid : nat) (s : Source K) : Wiring K :=
  mkWiring (files w) (workid_to_source w) (<[sid := s]> (sources w)) (last_outbox_rotate_ms w).
Definition with_map (w : Wiring K) (m : gmap Z Z) : Wiring K :=
  mkWiring (files w) m (sources w) (last_outbox_rotate_ms w).

End Updates.

(** ** Polling (lines 386-411) *)

Section Phases.
Context {K J R : Type} `{ISocket K, Json J}.
Implicit Types st : MainState K R.

(** The slots in order.  The fuel of an inner loop is the length of its queue and one:
    each turn takes one result, and nothing is added meanwhile. *)
Definition poll_slot (sid : nat) (st : MainState K R) : option (throws (MainState K R)) :=
  let w := rest (m_world st) in
  match sources w !! sid with
  | Some (SStratum (Some (c, r))) =>
      res ← drain_adapter pollNormalizedFull (S (length (Adapters.q_ (adapter_ r)))) sid (adapter_ r)
              (workid_to_source w) (m_reg st);
      match res with
      | inl e => Some (inl e)
      | inr (a, m, reg) =>
          let w := with_source (with_map w m) sid (SStratum (Some (c, set_adapter (fun _ => a) r))) in
          Some (inr (set_reg (set_wiring st w) reg))
      end
  | Some SGbt =>
      match m_gbt st with
      | None => Some (inr st)
      | Some g =>
          res ← drain_adapter gbt_pollNormalizedFull (S (length (gbt_q_ (g_adapter g)))) sid (g_adapter g)
                  (workid_to_source w) (m_reg st);
          match res with
          | inl e => Some (inl e)
          | inr (a, m, reg) =>
              Some (inr (set_gbt (set_reg (set_wiring st (with_map w m)) reg) (Some (set_g_adapter a g))))
          end
      end
  | _ => Some (inr st)
  end.

Fixpoint poll_slots (sids : list nat) (st : MainState K R) : option (throws (MainState K R)) :=
  match sids with
  | [] => Some (inr st)
  | sid :: sids =>
      res ← poll_slot sid st;
      match res with inl e => Some (inl e) | inr st => poll_slots sids st end
  end.

Definition poll_sources (st : MainState K R) : option (throws (MainState K R)) :=
  poll_slots (seq 0 (length (sources (rest (m_world st))))) st.

(** ** Automatic submission (lines 287-303, 412-434) *)

(** [BMAD_AUTO_SUBMIT=en2:ntime:nonce]; the third part is whatever follows the second
    separator. *)
Definition parse_auto_submit (s : list Z) : option (list Z * list Z * list Z) :=
  p1 ← find_from 58 0 s;
  p2 ← find_from 58 (p1 + 1) s;
  Some (take p1 s, take (p2 - p1 - 1) (drop (p1 + 1) s), drop (p2 + 1) s).

(** The runner behind the interactive submitter: that of the first Stratum source. *)
Fixpoint first_stratum (srcs : list (Source K)) (i : nat) : option (nat * (option (StratumClient K) * StratumRunner)) :=
  match srcs with
  | [] => None
  | SStratum (Some cr) :: _ => Some (i, cr)
  | _ :: srcs => first_stratum srcs (S i)
  end.

(** A socket that breaks its interface leaves the client as it was. *)
Definition interactive_submit (en2 ntime_hex nonce_hex : list Z) (w : Wiring K) : throws (Wiring K * bool) :=
  match first_stratum (sources w) 0 with
  | None => inr (w, false)
  | Some (sid, (c, r)) =>
      match submitShareHex (J := J) (Some (c, r)) en2 ntime_hex nonce_hex with
      | Some (inr ok, Some run) => inr (with_source w sid (SStratum (Some run)), ok)
      | Some (inl e, _) => inl e
      | _ => inr (w, false)
      end
  end.

(** What is printed of a submission; [key] is [auto_submit] or [msg]. *)
Definition submit_json (key : string) (sent : bool) (en2 ntime_hex nonce_hex : list Z) (note : bool) : J :=
  jobject ([(key, jstring (str (if sent then "submitted" else "submit_failed")));
            ("en2"%string, jstring en2); ("ntime"%string, jstring ntime_hex); ("nonce"%string, jstring nonce_hex)] ++
           (if note then [("note"%string, jstring (str "no job yet; submit likely fails until first notify"))] else [])).

Definition check_first_slot (auto : option (list Z * list Z * list Z)) (st : MainState K R) : throws (MainState K R) :=
  match Registry.get (m_reg st) 0 with
  | None => mret st
  | Some snap =>
      if Registry.gen snap =? m_last_gen st then mret st
      else
        let st := set_seen st (Registry.gen snap) (hex_digits 16 (ntime (item snap))) (m_auto_submitted st) in
        match auto with
        | Some (en2, nt, nonce) =>
            if m_auto_submitted st then mret st
            else
              '(w, sent) ← interactive_submit en2 nt nonce (rest (m_world st));
              _ ← dump_text (submit_json "auto_submit" sent en2 nt nonce false);
              mret (set_seen (set_wiring st w) (m_last_gen st) (m_last_ntime_hex st) true)
        | None => mret st
        end
  end.

(** ** A mining round (lines 436-683) *)

(** What a round reads from outside: the clocks (steady for the intervals, the system's
    for the file names), the measured time of the kernel, what the CUDA runtime reports of
    the device, the schedule of the device with the multiprocessors of the blocks that
    flushed hits, the order of the ledger's table. *)
Record RoundEnv := mkRoundEnv {
  now_bp : Z; kernel_ms : Z; props : DeviceProps;
  block_order : list (nat * nat); merge_hits : list (list Device.HitRecord) -> list Device.HitRecord;
  job_order : list nat;
  flush_sms : list Z;
  now_save : Z; now_snapshot : Z; now_system : Z;
  ledger_order : Ledger -> list (Z * WorkItem) }.

(** Whether the plan is launched with several nonces per thread. *)
Definition used_batch (plan : MultiJobLaunchPlan) (npt : Z) : bool :=
  (0 <? num_jobs plan) && (0 <? blocks_per_job plan) && (0 <? threads_per_block plan) && (1 <? npt).

(** The kernel the plan asks for. *)
Definition launch (e : RoundEnv) (dev : Device.Device) (jobs : nat) (plan : MultiJobLaunchPlan)
    (nonce_base npt : Z) : option (Device.Device * bool) :=
  if (0 <? num_jobs plan) && (0 <? blocks_per_job plan) && (0 <? threads_per_block plan) then
    if 1 <? npt then
      Device.launchMineWithPlanBatch dev (Z.to_nat (num_jobs plan)) (Z.to_nat (blocks_per_job plan))
        (Z.to_nat (threads_per_block plan)) nonce_base (Z.to_nat (u32 npt)) (block_order e) (merge_hits e)
    else
      Device.launchMineWithPlan dev (Z.to_nat (num_jobs plan)) (Z.to_nat (blocks_per_job plan))
        (Z.to_nat (threads_per_block plan)) nonce_base (job_order e)
  else Device.launchMineStub dev jobs nonce_base (job_order e).

Context (rpc : R -> list Z -> J -> R * option J).
Context (cfg : AppConfig) (env : Env).

(** The settings [main] derives from the configuration (lines 371, 375-387). *)
Definition outbox_file : string := text_string (outbox_path (Config.outbox cfg)).
Definition ledger_file : string :=
  text_string (match ledger_path (Config.ledger cfg) with [] => str "runner.jsonl" | p => p end).
Definition latency_limit : Z := Z.max 0 (latency_penalty_ms (scheduler cfg)).
Definition budget : Z := Z.max 1 (budget_ms (cuda cfg)).
Definition router_callback (now : Z) : SubmitCallback (Wiring K) :=
  Some (submit_callback (J := J) env outbox_file (Config.outbox cfg) now).

(** [if (now - last > limit)] with an unsigned difference. *)
Definition elapsed (now last limit : Z) : bool := limit <? u64 (now - last).

Definition backpressure_due (e : RoundEnv) (st : MainState K R) : Pressure * Z :=
  if elapsed (now_bp e) (m_last_bp st) 2000
  then (backpressure latency_limit (sources (rest (m_world st))) (m_press st), u64 (now_bp e))
  else (m_press st, m_last_bp st).

Definition save_tuning_due (e : RoundEnv) (fs : FS) (last threads npt : Z) : FS * Z :=
  if elapsed (now_save e) last 10000
  then ((saveTuningProfile (J := J) env fs "cuda0" (mkProfile (u32 threads) (u32 npt))).1, u64 (now_save e))
  else (fs, last).

(** The drained hits and the ledger, the end of a round. *)
Definition snapshot_ledger (e : RoundEnv) (snaps : gmap Z WorkSlotSnapshot) (st : MainState K R) : MainState K R :=
  if elapsed (now_snapshot e) (m_last_snapshot st) 5000 then
    let l := put_active ((map_to_list snaps).*2) (m_ledger st) in
    let '(fs, rot) := rotate_ledger_if_needed env ledger_file (Config.ledger cfg) (now_system e)
                        (files (rest (m_world st))) (m_last_ledger_rotate st) in
    let fs := (saveToFile (J := J) env (ledger_order e) l fs ledger_file).1 in
    mkMain (mkWorld (SubmitRouter.outbox (m_world st)) (with_files (rest (m_world st)) fs)) (m_gbt st)
      (m_reg st) (m_dev st) (m_nonce_base st) (m_press st) (m_last_bp st) (m_threads st) (m_npt st)
      (m_last_save st) (m_rpc st) (m_metrics st) l (u64 (now_snapshot e)) rot (m_last_gen st)
      (m_last_ntime_hex st) (m_auto_submitted st) (m_hashrate st) (m_last_metrics st) (m_last_metrics_rotate st)
  else st.

Definition submit_hits (e : RoundEnv) (snaps : gmap Z WorkSlotSnapshot) (hits : list Device.HitRecord)
    (st : MainState K R) : MainState K R :=
  let hs := handle_hits rpc (router_callback (now_system e)) snaps (main_gbt_submitter cfg)
              (mkHitState (m_world st) (m_rpc st) (m_metrics st)) hits in
  mkMain (hs_world hs) (m_gbt st) (m_reg st) (m_dev st) (m_nonce_base st) (m_press st) (m_last_bp st)
    (m_threads st) (m_npt st) (m_last_save st) (hs_rpc hs) (hs_metrics hs) (m_ledger st)
    (m_last_snapshot st) (m_last_ledger_rotate st) (m_last_gen st) (m_last_ntime_hex st)
    (m_auto_submitted st) (m_hashrate st) (m_last_metrics st) (m_last_metrics_rotate st).

(** The first half: upload, weigh, launch, tune.  The selection is computed and not
    used.  [None] is an access outside the device's arrays, a kernel that never ends, or a
    gauge's floating-point value outside its integer type. *)
Definition launch_round (e : RoundEnv) (ids : list Z) (snaps : gmap Z WorkSlotSnapshot)
    (st : MainState K R) : option (MainState K R) :=
  let jobs := device_table ids snaps in
  let dev := (Device.uploadDeviceJobs (m_dev st) jobs).1 in
  let '(press, last_bp) := backpressure_due e st in
  let '(sched, _) := select (sched press) ids snaps 64 in
  let press := mkPressure (last_acc press) (last_rej press) (src_penalty press) sched in
  plan ← computeLaunchPlan (u32 (zlen jobs)) (u64 (m_threads st));
  '(dev, _) ← launch e dev (length jobs) plan (m_nonce_base st) (m_npt st);
  let m := setGauge (setGauge (m_metrics st) "cuda.kernel_ms" (kernel_ms e)) "cuda.jobs" (zlen jobs) in
  o ← getMineBatchOccupancy (props e) (u32 (threads_per_block plan));
  m ← occupancy_gauges (props e) o m;
  let npt := tune_nonces (kernel_ms e) budget (m_npt st) in
  let threads := tune_threads (low_occupancy o) (kernel_ms e) budget (m_threads st) in
  let nonces := nonces_tested (used_batch plan (m_npt st)) plan npt (zlen jobs) in
  '(avg, m) ← hashrate (m_hashrate st) nonces (kernel_ms e) m;
  let '(dev, flushes) := Device.readAndResetBlockFlushCount dev in
  let m := flush_count_gauges o flushes (fold_left sm_count_flush (flush_sms e) (repeat 0 128)) m in
  let '(fs, last_save) := save_tuning_due e (files (rest (m_world st))) (m_last_save st) threads npt in
  Some (mkMain (mkWorld (SubmitRouter.outbox (m_world st)) (with_files (rest (m_world st)) fs)) (m_gbt st)
    (m_reg st) dev (u32 (m_nonce_base st + 1)) press last_bp threads npt last_save (m_rpc st) m
    (m_ledger st) (m_last_snapshot st) (m_last_ledger_rotate st) (m_last_gen st) (m_last_ntime_hex st)
    (m_auto_submitted st) avg (m_last_metrics st) (m_last_metrics_rotate st)).

Definition set_dev (st : MainState K R) (d : Device.Device) : MainState K R :=
  mkMain (m_world st) (m_gbt st) (m_reg st) d (m_nonce_base st)
    (m_press st) (m_last_bp st) (m_threads st) (m_npt st) (m_last_save st) (m_rpc st) (m_metrics st)
    (m_ledger st) (m_last_snapshot st) (m_last_ledger_rotate st) (m_last_gen st) (m_last_ntime_hex st)
    (m_auto_submitted st) (m_hashrate st) (m_last_metrics st) (m_last_metrics_rotate st).

Definition mine_round (e : RoundEnv) (st : MainState K R) : option (MainState K R) :=
  let '(ids, snaps) := active_jobs (m_reg st) in
  match ids with
  | [] => Some st
  | _ =>
      st ← launch_round e ids snaps st;
      '(dev, hits, _) ← Device.drainDeviceHits (m_dev st) 64;
      Some (snapshot_ledger e snaps (submit_hits e snaps hits (set_dev st dev)))
  end.

(** ** Console commands (lines 685-730) *)

(** [iss >> token], repeated. *)
Fixpoint tokens_from (cur : list Z) (s : list Z) : list (list Z) :=
  match s with
  | [] => match cur with [] => [] | _ => [cur] end
  | c :: s => if is_space c then match cur with [] => tokens_from [] s | _ => cur :: tokens_from [] s end
              else tokens_from (cur ++ [c]) s
  end.
Definition tokens (s : list Z) : list (list Z) := tokens_from [] s.

(** What is printed. *)
Inductive Reply :=
  | Submitted (sent : bool) (en2 ntime_hex nonce_hex : list Z) (note : bool)
  | HeaderVerdict (accepted : bool) | NeedHeader | NoJob | Unknown.

Definition or_default (a b : list Z) : list Z := match a with [] => b | _ => a end.

Definition submit_args (auto : option (list Z * list Z * list Z)) (last_ntime_hex : list Z)
    (args : list (list Z)) : list Z * list Z * list Z * bool :=
  match args with
  | en2 :: nt :: nonce :: _ => (en2, nt, nonce, true)
  | _ =>
      let '(aen2, ant, anonce) := default ([], [], []) auto in
      let zeros := str "00000000" in
      (or_default aen2 zeros, or_default ant (or_default last_ntime_hex zeros), or_default anonce zeros, false)
  end.

(** [use_gbt]: some pool is a GBT pool. *)
Definition use_gbt : bool := existsb is_gbt (pools cfg).

Definition command (auto : option (list Z * list Z * list Z)) (now : Z) (line : list Z)
    (st : MainState K R) : throws (MainState K R * option Reply) :=
  match tokens line with
  | [] => mret (st, None)
  | cmd :: args =>
      if bool_decide (cmd = str "s") || bool_decide (cmd = str "submit") then
        let '(en2, nt, nonce, have) := submit_args auto (m_last_ntime_hex st) args in
        let note := negb have && match m_last_ntime_hex st with [] => true | _ => false end in
        '(w, sent) ← interactive_submit en2 nt nonce (rest (m_world st));
        _ ← dump_text (submit_json "msg" sent en2 nt nonce note);
        mret (set_wiring st w, Some (Submitted sent en2 nt nonce note))
      else if use_gbt && bool_decide (cmd = str "submit_header") then
        let hhex := default [] (head args) in
        if negb (length hhex =? 160)%nat then mret (st, Some NeedHeader)
        else
          '(w, ok) ← submit_header_command (router_callback now) (m_reg st) (m_world st) hhex;
          mret (set_world st w, Some (match ok with Some b => HeaderVerdict b | None => NoJob end))
      else mret (st, Some Unknown)
  end.

(** ** Metrics (lines 733-793) *)

Definition source_gauges (name : string) (s : option (Source K)) (m : MetricsRegistry) : MetricsRegistry :=
  match s with
  | Some (SStratum (Some (_, r))) =>
      let g k v m := setGauge m (String.append name k) v in
      g "avg_submit_ms" (avg_submit_ms_ r) (g "rejected" (rejected_submits_ r) (g "accepted" (accepted_submits_ r)
        (g "quick_disconnects" (consecutive_quick_disconnects_ r)
          (g "connect_failures" (consecutive_connect_failures_ r) m))))%string
  | _ => m
  end.

Definition pool_gauges (press : Pressure) (srcs : list (Source K)) (m : MetricsRegistry) : MetricsRegistry :=
  fold_left (fun m p =>
      let '(sid, pool) := p in
      let name := text_string (str "pool." ++ pool_name pool ++ str ".") in
      let m := source_gauges name (srcs !! sid) m in
      let m := setGauge m (String.append name "penalty")
                 (default 0 (i32 <$> source_penalty (sched press) !! Z.of_nat sid)) in
      setGauge m (String.append name "weight") (default 1 (i32 <$> source_weight (sched press) !! Z.of_nat sid)))
    (imap (fun i p => (i, p)) (pools cfg)) m.

Definition legacy_gauges (srcs : list (Source K)) (m : MetricsRegistry) : MetricsRegistry :=
  match first_stratum srcs 0 with
  | None => m
  | Some (_, (_, r)) =>
      setGauge (setGauge (setGauge m "stratum.avg_submit_ms" (avg_submit_ms_ r))
        "stratum.accepted" (accepted_submits_ r)) "stratum.rejected" (rejected_submits_ r)
  end.

(** The line appended to the metrics file, and the file's rotation; without a file the
    line is printed.  [order] is the order of the hash tables. *)
Definition rotate_metrics_if_needed (path : string) (now_ms : Z) (fs : FS) (last : Z) : FS * Z :=
  if ((0 <? file_max_bytes (Config.metrics cfg)) && file_exceeds_limit fs path (file_max_bytes (Config.metrics cfg))) ||
     time_exceeded now_ms last (file_rotate_interval_sec (Config.metrics cfg))
  then
    let new := backup_path path (now_ms / 1000) in
    let fs :=
      match fs !! path with
      | Some bytes =>
          if can_rename env path new then <[new := bytes]> (base.delete path fs)
          else
            let fs := if can_copy env path new then <[new := bytes]> fs else fs in
            if can_write env path then <[path := []]> fs else fs
      | None => if can_write env path then <[path := []]> fs else fs
      end in
    (if can_write env path then fs_append fs path [] else fs, u64 now_ms)
  else (fs, last).

Definition dump_metrics (order : gmap string Z -> list (string * Z)) (now now_ms : Z)
    (st : MainState K R) : MainState K R * option (list Z) :=
  if elapsed now (m_last_metrics st) (Z.max 100 (dump_interval_ms (Config.metrics cfg))) then
    let srcs := sources (rest (m_world st)) in
    let m := pool_gauges (m_press st) srcs (legacy_gauges srcs (m_metrics st)) in
    let line := dump (snapshot (J := J) order m) in
    let path := text_string (file_path (Config.metrics cfg)) in
    if enable_file (Config.metrics cfg) && can_write env path then
      let fs := fs_append (files (rest (m_world st))) path (line ++ [10]) in
      let '(fs, rot) := rotate_metrics_if_needed path now_ms fs (m_last_metrics_rotate st) in
      (set_metrics (set_wiring st (with_files (rest (m_world st)) fs)) m (u64 now) rot, None)
    else (set_metrics st m (u64 now) (m_last_metrics_rotate st), Some line)
  else (st, None).

(** ** Start-up (lines 150-281, 330-385) *)

(** The tuning of the last run, when its file is readable. *)
Definition seeded_tuning (fs : FS) : Z * Z :=
  match loadTuningProfile (J := J) fs "cuda0" (Some TuningProfile_default) with
  | (inr true, Some p) => (i32 (prof_threads_per_block p), i32 (prof_nonces_per_thread p))
  | _ => (Z.max 1 (desired_threads_per_job (cuda cfg)), Z.max 1 (nonces_per_thread (cuda cfg)))
  end.

(** [buf] is what the allocated device memory holds.  The configuration has a pool: the
    program exits otherwise. *)
Definition main_start (p : DeviceProps) (fs : FS) (dev : Device.Device) (buf : list Device.HitRecord) (rpc0 : R) (now : Z) :
    throws (MainState K R) :=
  reg ← WorkSourceRegistry (Nat.max 1 (length (pools cfg)));
  let w := outbox_startup env outbox_file (Config.outbox cfg) now
             (mkWiring fs ∅ (map pool_source (pools cfg)) 0) in
  let w := replay_pending (J := J) env outbox_file (Config.outbox cfg) now w in
  let cap := Z.max 1 (hit_ring_capacity (cuda cfg)) in
  let '(threads, npt) := seeded_tuning (files (rest w)) in
  mret (mkMain w (gbt_source cfg) reg (Device.initDeviceHitBuffer dev (u32 cap) buf) 0
    (mkPressure ∅ ∅ ∅ (scheduler_setup cfg)) 0 threads npt 0 rpc0 (memory_gauges p MetricsRegistry_init) ∅ 0 0 0 [] false
    (double_of_Z 0) 0 0).

End Phases.
