(* ===== verification/Main.v ===== *)
(** * The program from end to end ([src/tools/stratum_registry_runner.cpp])

    [main] around its loop: the choice between the command line and the configuration, the
    start in the command-line mode and what its loop then does, and the end of the program:
    which threads are stopped, and in which order the objects they use are destroyed. *)

From Stdlib Require Import SpecFloat.
From stdpp Require Import base numbers list option gmap strings.
From S2P Require Import Prelude FileSys Outbox SubmitRouter Registry Normalizer Scheduler Json Ledger Text GbtSubmitter Adapters LaunchPlan Net StratumRunner Config GbtRunner Obs Floats DeviceQuery Runner Miner.
From S2P Require Device.

Open Scope Z_scope.

(** ** The choice of the mode (lines 53-147) *)

Inductive Mode := CommandLine (t : Target) | Configured (t : Target).

Section Modes.
Context {J : Type} `{Json J}.

(** [argc >= 3]: host and port, account, and optionally worker, password and profile. *)
Definition command_line (args : list (list Z)) : option (throws (option Target)) :=
  match args with
  | hostport :: account :: rest => Some (legacy_target hostport account (rest !! 0%nat) (rest !! 1%nat) (rest !! 2%nat))
  | _ => None
  end.

(** The configuration file is read first in both modes.  [None]: exit code 1. *)
Definition main_mode (fs : FS) (args : list (list Z)) (pool_env : list Z) : throws (option (Mode * AppConfig)) :=
  cfg ← loadFromJsonFile (J := J) fs "config/pools.json";
  match command_line args with
  | Some target => t ← target; mret ((fun t => (CommandLine t, cfg)) <$> t)
  | None => mret ((fun t => (Configured t, cfg)) <$> config_target cfg pool_env)
  end.

End Modes.

(** ** The command-line mode *)

Section CommandLineMode.
Context {K J R : Type} `{ISocket K, Json J}.
Context (rpc : R -> list Z -> J -> R * option J) (cfg : AppConfig) (env : Env).
Implicit Types st : MainState K R.

(** A slot per configured pool, and one at least; none is given an adapter or a runner, and
    there is no submit router.  The connection target is not used again. *)
Definition slots : nat := Nat.max 1 (length (pools cfg)).

Definition legacy_start (p : DeviceProps) (fs : FS) (dev : Device.Device) (buf : list Device.HitRecord) (rpc0 : R)
    (now : Z) : throws (MainState K R) :=
  reg ← WorkSourceRegistry slots;
  let w := outbox_startup env (outbox_file cfg) (Config.outbox cfg) now
             (mkWiring fs ∅ (repeat (SStratum None) slots) 0) in
  let cap := Z.max 1 (hit_ring_capacity (cuda cfg)) in
  let '(threads, npt) := seeded_tuning (J := J) cfg (files (rest w)) in
  mret (mkMain w None reg (Device.initDeviceHitBuffer dev (u32 cap) buf) 0
    (mkPressure ∅ ∅ ∅ (scheduler_setup cfg)) 0 threads npt 0 rpc0
    (memory_gauges p MetricsRegistry_init) ∅ 0 0 0 [] false (double_of_Z 0) 0 0).

(** Without a router the hits stay on the device. *)
Definition legacy_round (e : RoundEnv) st : option (MainState K R) :=
  let '(ids, snaps) := active_jobs (m_reg st) in
  match ids with
  | [] => Some st
  | _ => st ← launch_round (J := J) cfg env e ids snaps st; Some (snapshot_ledger (J := J) cfg env e snaps st)
  end.

(** The console knows no header command: [use_gbt] is only set with the sources. *)
Definition without_pools : AppConfig :=
  mkAppConfig (log_level cfg) [] (scheduler cfg) (Config.metrics cfg) (tls cfg) (cuda cfg) (Config.outbox cfg)
    (Config.ledger cfg).

(** What one turn of the loop reads. *)
Record TurnEnv := mkTurnEnv {
  te_round : RoundEnv; te_line : option (list Z); te_order : gmap string Z -> list (string * Z);
  te_steady : Z; te_system : Z }.

Definition legacy_command (auto : option (list Z * list Z * list Z)) (t : TurnEnv) st :
    throws (MainState K R * option Reply) :=
  match te_line t with
  | None => mret (st, None)
  | Some line => command (J := J) without_pools env auto (te_system t) line st
  end.

Definition legacy_turn (auto : option (list Z * list Z * list Z)) (t : TurnEnv) st :
    option (throws (MainState K R * option Reply)) :=
  polled ← poll_sources st;
  match polled with
  | inl e => Some (inl e)
  | inr st =>
      match check_first_slot (J := J) auto st with
      | inl e => Some (inl e)
      | inr st =>
          st ← legacy_round (te_round t) st;
          match legacy_command auto t st with
          | inl e => Some (inl e)
          | inr (st, reply) =>
              Some (inr ((dump_metrics (J := J) cfg env (te_order t) (te_steady t) (te_system t) st).1, reply))
          end
      end
  end.

Fixpoint legacy_turns (auto : option (list Z * list Z * list Z)) (ts : list TurnEnv) st :
    option (throws (MainState K R * list (option Reply))) :=
  match ts with
  | [] => Some (inr (st, []))
  | t :: ts =>
      res ← legacy_turn auto t st;
      match res with
      | inl e => Some (inl e)
      | inr (st, reply) =>
          res ← legacy_turns auto ts st;
          Some (match res with inl e => inl e | inr (st, replies) => inr (st, reply :: replies) end)
      end
  end.

End CommandLineMode.

(** ** The end of the program (lines 797-799) *)

(** The local objects of [main] that a thread reaches, in the order of their declarations. *)
Inductive Local :=
  | strat_adapters | strat_runners | gbt_adapter | gbt_runner | submit_router | outbox_
  | input_queue | input_mu | metrics_ | metrics_http.

Definition locals : list Local :=
  [strat_adapters; strat_runners; gbt_adapter; gbt_runner; submit_router; outbox_;
   input_queue; input_mu; metrics_; metrics_http].

Inductive Thread := TStratum (i : nat) | TGbt | TInput | TMetrics.

#[global] Instance Local_eq_dec : EqDecision Local.
Proof. solve_decision. Defined.
#[global] Instance Thread_eq_dec : EqDecision Thread.
Proof. solve_decision. Defined.

(** What a thread reaches: a session its adapter, its runner and, through the acceptance
    callback, the router and the outbox. *)
Definition reaches (t : Thread) (o : Local) : bool :=
  match t, o with
  | TStratum _, (strat_adapters | strat_runners | submit_router | outbox_) => true
  | TGbt, (gbt_adapter | gbt_runner) => true
  | TInput, (input_queue | input_mu) => true
  | TMetrics, (metrics_ | metrics_http) => true
  | _, _ => false
  end.

(** The destructors of the runners and of the metrics server stop their threads. *)
Definition stops (o : Local) (t : Thread) : bool :=
  match o, t with
  | strat_runners, TStratum _ => true
  | gbt_runner, TGbt => true
  | metrics_http, TMetrics => true
  | _, _ => false
  end.

(** Lines 797-798: the GBT runner, or the first Stratum runner. *)
Definition main_stop (use_gbt : bool) (running : list Thread) : list Thread :=
  List.filter (fun t => negb (bool_decide (t = if use_gbt then TGbt else TStratum 0))) running.

(** The objects are destroyed in the reverse order; what a thread still running could
    reach of an object that is gone. *)
Fixpoint destroy (os : list Local) (running : list Thread) : list (Thread * Local) :=
  match os with
  | [] => []
  | o :: os =>
      let running := List.filter (fun t => negb (stops o t)) running in
      map (fun t => (t, o)) (List.filter (fun t => reaches t o) running) ++ destroy os running
  end.

(** The threads of a program with [n] Stratum runners; the input thread is detached and
    runs until its stream ends. *)
Definition running_threads (n : nat) (use_gbt http stdin_open : bool) : list Thread :=
  map TStratum (seq 0 n) ++ (if use_gbt then [TGbt] else []) ++ (if http then [TMetrics] else []) ++
  (if stdin_open then [TInput] else []).

Definition main_end (n : nat) (use_gbt http stdin_open : bool) : list (Thread * Local) :=
  destroy (rev locals) (main_stop use_gbt (running_threads n use_gbt http stdin_open)).

(** ** What the command-line mode does *)

Section Idle.
Context {K J R : Type} `{ISocket K, JsonLaws J}.
Context (cfg : AppConfig) (env : Env) (auto : option (list Z * list Z * list Z)).
Implicit Types st : MainState K R.

(** The part of the state that says what is mined and what is submitted. *)
Definition idle (n : nat) (d : Device.Device) (o : option Outbox) (rpc0 : R) st : Prop :=
  sources (rest (m_world st)) = repeat (SStratum None) n /\ workid_to_source (rest (m_world st)) = ∅ /\
  SubmitRouter.outbox (m_world st) = o /\ m_gbt st = None /\ m_reg st = repeat WorkSlot_default n /\
  m_dev st = d /\ m_nonce_base st = 0 /\ m_rpc st = rpc0 /\ m_last_gen st = 0 /\ m_ledger st = ∅ /\
  m_last_ntime_hex st = [].

Lemma idle_poll n d o r st : idle n d o r st -> poll_sources st = Some (inr st).
Proof.
  intros (Hs & _). unfold poll_sources. rewrite Hs.
  assert (forall sids st, sources (rest (m_world st)) = repeat (SStratum None) n -> poll_slots sids st = Some (inr st)) as Hp.
  { clear st Hs. intros sids. induction sids as [|sid sids IH]; intros st Hs; cbn [poll_slots]; [done|].
    assert (poll_slot sid st = Some (inr st)) as ->; [|cbn [mbind option_bind]; by apply IH].
    unfold poll_slot. rewrite Hs. destruct (repeat (SStratum None) n !! sid) as [s|] eqn:E; [|done].
    apply list_elem_of_lookup_2, list_elem_of_In, repeat_spec in E as ->. done. }
  by apply Hp.
Qed.

Lemma idle_first_slot n d o r st : idle n d o r st -> check_first_slot (J := J) auto st = inr st.
Proof.
  intros (_ & _ & _ & _ & Hr & _ & _ & _ & Hg & _). unfold check_first_slot, Registry.get. rewrite Hr, Hg.
  destruct n as [|n]; [done|]. reflexivity.
Qed.

Lemma idle_round n d o r e st : idle n d o r st -> legacy_round (J := J) cfg env e st = Some st.
Proof.
  intros (_ & _ & _ & _ & Hr & _). unfold legacy_round.
  assert (active_jobs (m_reg st) = ([], ∅)) as ->; [|done]. rewrite Hr. unfold active_jobs.
  generalize (seq 0 (Registry.size (repeat WorkSlot_default n))). intros l.
  induction l as [|i l IH]; [done|]. cbn [fold_left].
  assert (Registry.get (repeat WorkSlot_default n) i = None \/
          Registry.get (repeat WorkSlot_default n) i = Some (mkWorkSlotSnapshot 0 WorkItem_default GpuJobConst_default)) as Hg.
  { unfold Registry.get. destruct (repeat WorkSlot_default n !! i) as [s|] eqn:E; [|by left]. right.
    apply list_elem_of_lookup_2, list_elem_of_In, repeat_spec in E as ->. done. }
  destruct Hg as [-> | ->]; exact IH.
Qed.

Lemma first_stratum_none n i : first_stratum (repeat (@SStratum K None) n) i = None.
Proof. revert i. induction n as [|n IH]; intros i; [done|apply IH]. Qed.

(** A line is answered: a submission fails, anything else is not known. *)
Definition idle_reply (reply : option Reply) : Prop :=
  match reply with None | Some Unknown => True | Some (Submitted sent _ _ _ _) => sent = false | _ => False end.

(** The fields of a submission, typed or taken from the environment, are UTF-8. *)
Definition answerable (t : TurnEnv) : bool :=
  match tokens (default [] (te_line t)) with
  | cmd :: args =>
      if bool_decide (cmd = str "s") || bool_decide (cmd = str "submit") then
        let '(en2, nt, nonce, _) := submit_args auto [] args in utf8_ok en2 && utf8_ok nt && utf8_ok nonce
      else true
  | [] => true
  end.

Lemma submit_json_encodable key sent en2 nt nonce note :
  key = "msg"%string \/ key = "auto_submit"%string ->
  encodable (submit_json (J := J) key sent en2 nt nonce note) = utf8_ok en2 && utf8_ok nt && utf8_ok nonce.
Proof.
  intros Hk. unfold submit_json. rewrite encodable_jobject.
  - assert (forall k v, utf8_ok (str k) = true ->
      utf8_ok (str (k, jstring v).1) && encodable (jstring (J := J) v) = utf8_ok v) as Hf.
    { intros k v E. cbn [fst]. by rewrite E, encodable_jstring. }
    assert (utf8_ok (str (if sent then "submitted" else "submit_failed")) = true) as Es by (by destruct sent).
    rewrite forallb_app. cbn [forallb snd]. rewrite !Hf, Es by (by destruct Hk as [-> | ->]).
    destruct note; cbn [forallb snd]; rewrite ?Hf by done; cbn [andb]; rewrite !andb_true_r, ?andb_assoc; done.
  - apply (bool_decide_unpack _). destruct Hk as [-> | ->], note; vm_compute; exact I.
Qed.

Lemma idle_command n d o r t st : idle n d o r st ->
  if answerable t then exists reply, legacy_command (J := J) cfg env auto t st = inr (st, reply) /\ idle_reply reply
  else legacy_command (J := J) cfg env auto t st = inl type_error.
Proof.
  intros (Hs & _ & _ & _ & _ & _ & _ & _ & _ & _ & Hn). unfold legacy_command, answerable.
  destruct (te_line t) as [line|]; cbn [default from_option id]; [|by exists None].
  unfold command. destruct (tokens line) as [|cmd args]; [by exists None|].
  destruct (_ || _).
  - rewrite Hn. destruct (submit_args auto [] args) as [[[en2 nt] nonce] have].
    assert (interactive_submit (J := J) en2 nt nonce (rest (m_world st)) = inr (rest (m_world st), false)) as ->.
    { unfold interactive_submit. by rewrite Hs, first_stratum_none. }
    cbn [mbind throws_bind]. unfold dump_text. rewrite submit_json_encodable by (by left).
    destruct (_ && _); [|done].
    eexists. split; [unfold set_wiring; destruct st as [w]; by destruct w|]. done.
  - cbn. by eexists.
Qed.

Lemma idle_metrics n d o r order now now_ms st :
  idle n d o r st -> idle n d o r (dump_metrics (J := J) cfg env order now now_ms st).1.
Proof.
  intros Hi. unfold dump_metrics. destruct (elapsed _ _ _); [|done].
  destruct (_ && _); [|done]. by destruct (rotate_metrics_if_needed _ _ _ _ _ _).
Qed.

Lemma idle_turn n d o r t st : idle n d o r st ->
  if answerable t then
    exists st' reply, legacy_turn (J := J) cfg env auto t st = Some (inr (st', reply)) /\
      idle n d o r st' /\ idle_reply reply
  else legacy_turn (J := J) cfg env auto t st = Some (inl type_error).
Proof.
  intros Hi. unfold legacy_turn. rewrite (idle_poll n d o r st Hi). cbn [mbind option_bind].
  rewrite (idle_first_slot n d o r st Hi), (idle_round n d o r (te_round t) st Hi). cbn [mbind option_bind].
  pose proof (idle_command n d o r t st Hi) as Hc. destruct (answerable t); [|by rewrite Hc].
  destruct Hc as (reply & -> & Hr).
  eexists _, reply. split; [reflexivity|]. split; [by apply idle_metrics|done].
Qed.

Lemma startup_outbox (w : Wiring K) now :
  sources (rest (outbox_startup env (outbox_file cfg) (Config.outbox cfg) now w)) = sources w /\
  workid_to_source (rest (outbox_startup env (outbox_file cfg) (Config.outbox cfg) now w)) = workid_to_source w.
Proof.
  unfold outbox_startup. destruct (outbox_rotate_on_start _); [|done].
  by destruct (rotate_outbox_if_needed _ _ _ _ _ _ _).
Qed.

(** C16: the command-line mode mines nothing and sends nothing: for every configuration, every
    sequence of turns of the loop and everything typed, each turn completes, the registry
    stays empty, no job is uploaded and no kernel launched, the outbox keeps what it was
    loaded with, there is no source to connect, and every submission typed fails; unless
    a field typed is not UTF-8, which ends the program.  The target of the command line is
    parsed and dropped. *)
Theorem command_line_mode_idles p fs dev buf rpc0 now ts :
  exists st, legacy_start (K := K) (J := J) cfg env p fs dev buf rpc0 now = inr st /\
    if forallb answerable ts then
      exists st' replies, legacy_turns (J := J) cfg env auto ts st = Some (inr (st', replies)) /\
        idle (slots cfg) (m_dev st) (SubmitRouter.outbox (m_world st)) rpc0 st' /\
        Forall idle_reply replies /\ length replies = length ts
    else legacy_turns (J := J) cfg env auto ts st = Some (inl type_error).
Proof.
  assert (exists st, legacy_start (K := K) (J := J) cfg env p fs dev buf rpc0 now = inr st /\
    idle (slots cfg) (m_dev st) (SubmitRouter.outbox (m_world st)) rpc0 st) as (st & Es & Hi).
  { unfold legacy_start, WorkSourceRegistry. destruct (Nat.eqb_spec (slots cfg) 0); [unfold slots in *; lia|].
    cbn [mbind throws_bind]. set (w := outbox_startup _ _ _ _ _). destruct (seeded_tuning _ _) as [threads npt].
    eexists. split; [reflexivity|].
    destruct (startup_outbox (mkWiring fs ∅ (repeat (SStratum None) (slots cfg)) 0) now) as [E1 E2].
    fold w in E1, E2. by repeat split. }
  exists st. split; [done|]. clear Es. revert Hi. generalize (m_dev st) (SubmitRouter.outbox (m_world st)). revert st.
  induction ts as [|t ts IH]; intros st d o Hi; cbn [legacy_turns forallb].
  - exists st, []. split; [done|]. split; [done|]. split; [constructor|done].
  - pose proof (idle_turn _ _ _ _ t st Hi) as Ht. destruct (answerable t); cbn [andb]; [|by rewrite Ht].
    destruct Ht as (st1 & reply & -> & Hi1 & Hr). cbn [mbind option_bind].
    specialize (IH st1 d o Hi1). destruct (forallb answerable ts); [|by rewrite IH].
    destruct IH as (st' & replies & -> & Hi' & Hrs & Hl). cbn [mbind option_bind].
    exists st', (reply :: replies). split; [done|]. split; [done|]. split; [by constructor|cbn; lia].
Qed.

End Idle.

(** ** What is left running at the end *)

Lemma filter_map_const {A B} (f : A -> B) (P : B -> bool) b l :
  (forall a, P (f a) = b) -> List.filter P (map f l) = if b then map f l else [].
Proof.
  intros Hf. induction l as [|a l IH]; [by destruct b|]. cbn [map List.filter]. rewrite Hf, IH. by destruct b.
Qed.

(** The Stratum sessions the end of [main] does not stop. *)
Definition left_running (n : nat) (use_gbt : bool) : list nat := if use_gbt then seq 0 n else seq 1 (n - 1).

Lemma main_stop_left n use_gbt http stdin_open :
  main_stop use_gbt (running_threads n use_gbt http stdin_open) =
  map TStratum (left_running n use_gbt) ++ (if http then [TMetrics] else []) ++ (if stdin_open then [TInput] else []).
Proof.
  unfold main_stop, running_threads, left_running. rewrite !List.filter_app.
  destruct use_gbt.
  - rewrite (filter_map_const _ _ true) by done. by destruct http, stdin_open.
  - destruct n as [|n]; [by destruct http, stdin_open|]. cbn [seq map List.filter].
    rewrite bool_decide_eq_true_2 by done. cbn [negb].
    replace (S n - 1)%nat with n by lia. rewrite <- seq_shift, map_map.
    rewrite (filter_map_const _ _ true) by done. by destruct http, stdin_open.
Qed.

(** At the end of [main] the only Stratum session that is stopped is the first, and none
    when there is a GBT pool.  The router and the outbox are destroyed before the
    runners, so every other session can still reach both through its callback after they
    are gone; an input thread that still waits for a line can reach the queue and its
    lock.  Only a program with at most one pool, whose input has ended, is free of this. *)
Theorem shutdown_hazards n use_gbt http stdin_open :
  let left := left_running n use_gbt in
  main_end n use_gbt http stdin_open =
    (if stdin_open then [(TInput, input_mu); (TInput, input_queue)] else []) ++
    map (fun i => (TStratum i, outbox_)) left ++ map (fun i => (TStratum i, submit_router)) left /\
  (main_end n use_gbt http stdin_open = [] <-> stdin_open = false /\ (n = 0 \/ (n = 1 /\ use_gbt = false))%nat).
Proof.
  intros left. assert (main_end n use_gbt http stdin_open =
    (if stdin_open then [(TInput, input_mu); (TInput, input_queue)] else []) ++
    map (fun i => (TStratum i, outbox_)) left ++ map (fun i => (TStratum i, submit_router)) left) as E.
  { unfold main_end. rewrite main_stop_left. fold left. clearbody left. unfold locals. cbn [rev app destroy].
    repeat (rewrite ?List.filter_app, ?map_app;
      rewrite ?(filter_map_const TStratum _ true), ?(filter_map_const TStratum _ false) by done).
    destruct http, stdin_open; cbn; rewrite ?app_nil_r, ?map_map; cbn; rewrite ?app_nil_r; done. }
  split; [exact E|]. rewrite E. unfold left, left_running. split.
  - destruct stdin_open; [done|]. destruct use_gbt, n as [|[|n]]; cbn; auto; done.
  - intros [-> [-> | [-> ->]]]; [|done]. by destruct use_gbt.
Qed.

(** ** The choice of the mode *)

Section ModeTheorems.
Context {J : Type} `{Json J}.

Definition dec_val (ds : list Z) : Z := fold_left (fun a d => a * 10 + (d - 48)) ds 0.

Lemma find_colon host s : 58 ∉ host -> find_sub (str ":") (host ++ 58 :: s) = Some (length host).
Proof.
  induction host as [|c host IH]; intros Hc; [done|]. apply not_elem_of_cons in Hc as [Hc Hh].
  cbn [app find_sub length]. rewrite IH by done.
  assert (starts (str ":") (c :: host ++ 58 :: s) = false) as ->; [|done].
  change (str ":") with [58]. cbn [starts]. by rewrite (proj2 (Z.eqb_neq 58 c)) by done.
Qed.

Lemma find_no_colon s : 58 ∉ s -> find_sub (str ":") s = None.
Proof.
  induction s as [|c s IH]; intros Hc; [done|]. apply not_elem_of_cons in Hc as [Hc Hs]. cbn [find_sub].
  rewrite IH by done. change (str ":") with [58]. cbn [starts]. by rewrite (proj2 (Z.eqb_neq 58 c)) by done.
Qed.

Lemma span_all p ds : Forall (fun d => p d = true) ds -> span p ds = (ds, []).
Proof. induction 1 as [|d ds Hd _ IH]; [done|]. cbn [span]. by rewrite Hd, IH. Qed.

Lemma stoi_digits ds : ds <> [] -> Forall (fun d => dec_digit d = true) ds -> dec_val ds < 2 ^ 31 ->
  stoi_text ds = inr (dec_val ds).
Proof.
  intros Hne Hd Hv. destruct ds as [|d ds]; [done|]. unfold stoi_text.
  pose proof Hd as Hd'. apply Forall_cons in Hd' as [H1 _]. unfold dec_digit in H1. rewrite andb_true_iff, !Z.leb_le in H1.
  assert (skip_space (d :: ds) = d :: ds) as ->.
  { cbn [skip_space]. assert (is_space d = false) as ->; [|done]. unfold is_space. lia. }
  rewrite (proj2 (Z.eqb_neq d 45)), (proj2 (Z.eqb_neq d 43)) by lia. rewrite span_all by done. fold (dec_val (d :: ds)).
  assert (forall l a, Forall (fun d => dec_digit d = true) l -> 0 <= a -> 0 <= fold_left (fun a d => a * 10 + (d - 48)) l a) as Hpos.
  { induction l as [|x l IH]; intros a Hl Ha; [done|]. apply Forall_cons in Hl as [Hx Hl]. cbn [fold_left].
    apply IH; [done|]. unfold dec_digit in Hx. rewrite andb_true_iff, !Z.leb_le in Hx. lia. }
  specialize (Hpos (d :: ds) 0 Hd ltac:(lia)). fold (dec_val (d :: ds)) in Hpos.
  by rewrite (proj2 (Z.leb_le _ _)), (proj2 (Z.ltb_lt _ _)) by lia.
Qed.

(** With a readable configuration: two arguments or more select the command line, where
    the first must hold a colon, what precedes it is the host, and a decimal number after
    it is the port, to 16 bits, with TLS for 443 and 3334; otherwise the configuration is
    used, and the program ends at once exactly when it has no pool or the pool chosen is
    a Stratum pool without endpoints. *)
Theorem main_mode_correct fs args pool_env cfg :
  loadFromJsonFile (J := J) fs "config/pools.json" = inr cfg ->
  (forall host ds account rest, args = (host ++ 58 :: ds) :: account :: rest -> 58 ∉ host ->
     ds <> [] -> Forall (fun d => dec_digit d = true) ds -> dec_val ds < 2 ^ 31 ->
     exists user pass, main_mode (J := J) fs args pool_env =
       inr (Some (CommandLine (mkTarget host (u16 (dec_val ds))
         ((u16 (dec_val ds) =? 443) || (u16 (dec_val ds) =? 3334)) user pass), cfg))) /\
  (forall arg account rest, args = arg :: account :: rest -> 58 ∉ arg ->
     main_mode (J := J) fs args pool_env = inr None) /\
  ((length args < 2)%nat ->
     (main_mode (J := J) fs args pool_env = inr None <->
      pools cfg = [] \/ exists sel, select_pool cfg pool_env = Some sel /\ is_gbt sel = false /\ pool_endpoints sel = []) /\
     forall t cfg', main_mode (J := J) fs args pool_env = inr (Some (t, cfg')) ->
       cfg' = cfg /\ exists target, t = Configured target /\ config_target cfg pool_env = Some target).
Proof.
  intros Ec. unfold main_mode. rewrite Ec. cbn [mbind throws_bind]. split; [|split].
  - intros host ds account rest -> Hh Hne Hd Hv. cbn [command_line]. unfold legacy_target.
    destruct (formatStratumCredentials _ _ _ _) as [user pass]. rewrite find_colon by done.
    assert (list.drop (length host + 1) (host ++ 58 :: ds) = ds) as ->.
    { rewrite (drop_app_ge host) by lia. by replace (length host + 1 - length host)%nat with 1%nat by lia. }
    rewrite stoi_digits by done. cbn [mbind throws_bind]. rewrite take_app_length. by eexists _, _.
  - intros arg account rest -> Ha. cbn [command_line]. unfold legacy_target.
    destruct (formatStratumCredentials _ _ _ _) as [user pass]. by rewrite find_no_colon.
  - intros Hl. assert (command_line args = None) as -> by (by destruct args as [|a [|b args]]; [| |cbn in Hl; lia]).
    unfold config_target. split.
    + destruct (select_pool cfg pool_env) as [sel|] eqn:Es; cbn [mbind option_bind].
      * assert (pools cfg <> []) as Hp by (intros E; unfold select_pool in Es; by rewrite E in Es).
        destruct (credentials sel) as [user pass]. destruct (is_gbt sel) eqn:Eg.
        { split; [done|]. by intros [?|(sel' & [= <-] & Eg' & _)]; [|rewrite Eg in Eg']. }
        destruct (pool_endpoints sel) eqn:Ee; cbn.
        { split; [intros _; right; by exists sel|done]. }
        { split; [done|]. by intros [?|(sel' & [= <-] & _ & Ee')]; [|rewrite Ee in Ee']. }
      * split; [|done]. intros _. left. unfold select_pool in Es. destruct (pools cfg); [done|]. by destruct pool_env.
    + intros t cfg'. destruct (select_pool cfg pool_env ≫= _) as [target|]; cbn; [|done].
      intros [= <- <-]. split; [done|]. by exists target.
Qed.

End ModeTheorems.

(** An address with colons of its own is cut at the first, and the port does not parse: the
    exception ends the program. *)
Example ipv6_target_throws :
  legacy_target (str "[::1]:3333") (str "acct") None None None = inl invalid_argument.
Proof. reflexivity. Qed.

(** A port above 65535 is taken modulo 2^16. *)
Example port_wraps :
  match legacy_target (str "pool:68971") (str "acct") None None None with
  | inr (Some t) => t_port t = 3435
  | _ => False
  end.
Proof. reflexivity. Qed.

(** ** Concrete instances *)

Import Concrete.

Lemma main_mode_correct_witness :
  exists user pass, main_mode (J := Concrete.Jv) ∅ [str "pool.example:3333"; str "acct"] [] =
    inr (Some (CommandLine (mkTarget (str "pool.example") 3333 false user pass), AppConfig_default)) /\
  main_mode (J := Concrete.Jv) ∅ [] [] = inr None.
Proof.
  destruct (main_mode_correct (J := Concrete.Jv) ∅ [str "pool.example:3333"; str "acct"] [] AppConfig_default) as [H1 _];
    [reflexivity|].
  destruct (main_mode_correct (J := Concrete.Jv) ∅ [] [] AppConfig_default) as (_ & _ & H2); [reflexivity|].
  destruct (H1 (str "pool.example") (str "3333") (str "acct") []) as (user & pass & E).
  - reflexivity.
  - apply (bool_decide_unpack _). vm_compute. reflexivity.
  - discriminate.
  - repeat constructor.
  - reflexivity.
  - exists user, pass. split; [exact E|]. apply H2; [cbn; lia|]. left. reflexivity.
Defined.

(** Two lines are typed: a submission, which fails, and one with a byte that is not UTF-8,
    which ends the program. *)
Definition typed_line (line : list Z) : TurnEnv :=
  mkTurnEnv (mkRoundEnv 3000 5 sample_props [] (@concat _) [] [] 0 0 0 (fun _ => [])) (Some line) (fun _ => []) 3000 3000.

Lemma command_line_mode_idles_witness :
  let env := mkEnv (fun _ => true) (fun _ _ => true) (fun _ _ => true) in
  exists st, legacy_start (K := Script) (J := Jv) gbt_config env sample_props ∅ Device.Device_init
    (repeat (Device.mkHit 0 0) 4) tt 5000 = inr st /\
  (exists st' replies,
     legacy_turns (J := Jv) gbt_config env None [typed_line (str "s 00 11 22")] st = Some (inr (st', replies)) /\
     Forall idle_reply replies /\ length replies = 1%nat) /\
  legacy_turns (J := Jv) gbt_config env None [typed_line (str "s 00 11 22"); typed_line (str "s 00 11 " ++ [255])] st =
    Some (inl type_error).
Proof.
  intros env.
  destruct (command_line_mode_idles (K := Script) (J := Jv) gbt_config env None sample_props ∅ Device.Device_init
    (repeat (Device.mkHit 0 0) 4) tt 5000 [typed_line (str "s 00 11 22")]) as (st & E & st' & replies & E1 & _ & Hr & Hl).
  destruct (command_line_mode_idles (K := Script) (J := Jv) gbt_config env None sample_props ∅ Device.Device_init
    (repeat (Device.mkHit 0 0) 4) tt 5000 [typed_line (str "s 00 11 22"); typed_line (str "s 00 11 " ++ [255])]) as (st2 & E2 & E3).
  rewrite E in E2. injection E2 as <-.
  exists st. split; [exact E|]. split; [|exact E3]. exists st', replies. split; [exact E1|]. split; [exact Hr|exact Hl].
Defined.
