(* ===== verification/System.v ===== *)
(** * The whole miner

    The main thread's phases interleaved with the pool threads and the node poller, as a
    step relation, and the invariant of every reachable state: jobs are well formed, slots
    hold what their source delivered, and every entry of the outbox has been verified.

    A step is a whole phase of the main loop or a whole message of a thread; the program
    locks the adapters' queues, but not the sources it shares between the threads, so finer
    interleavings are outside the model.  An exception that leaves a thread ends the
    process: there is no step for it. *)

From stdpp Require Import base numbers list option gmap strings relations.
From S2P Require Import Prelude FileSys Endian Targets Sha256 CpuVerify Outbox SubmitRouter Registry Normalizer Scheduler Json Ledger Hex Text GbtSubmitter Adapters LaunchPlan Net StratumRunner Config GbtRunner Obs Wellformed Floats DeviceDiag DeviceQuery Runner Miner.
From S2P Require Device DeviceTypes.

Open Scope Z_scope.

#[local] Abbreviation drop := list.drop.

(** ** Steps *)

Inductive phase := PPoll | PMine | PCommand.

(** What a step does as an observer of jobs and shares sees it: an item is delivered to a
    slot, a share is found. *)
Inductive Event := Delivered (i : WorkItem) | Found (s : PendingSubmit).

(** A state, the phase the main thread is in, and the items stored in the registry since
    the start, oldest first. *)
Record Sys (K R : Type) := mkSys { s_phase : phase; s_main : MainState K R; s_items : list WorkItem }.
Arguments mkSys {K R}. Arguments s_phase {K R}. Arguments s_main {K R}. Arguments s_items {K R}.

Section System.
Context {K J R : Type} `{ISocket K, Json J}.
Context (hash : list Z -> Z).
Context (rpc : R -> list Z -> J -> R * option J).
Context (cfg : AppConfig) (env : Env) (auto : option (list Z * list Z * list Z)).

Definition srcs (st : MainState K R) : list (Source K) := sources (rest (m_world st)).

(** The results waiting for a slot. *)
Definition queue_of (st : MainState K R) (sid : nat) : list NormalizerResult :=
  match srcs st !! sid with
  | Some (SStratum (Some (_, r))) => Adapters.q_ (adapter_ r)
  | Some SGbt => match m_gbt st with Some g => gbt_q_ (g_adapter g) | None => [] end
  | _ => []
  end.

(** The items a poll of the slots stores, in order. *)
Fixpoint polled (sids : list nat) (st : MainState K R) : list WorkItem :=
  match sids with
  | [] => []
  | sid :: sids =>
      map (slot_item_of sid) (queue_of st sid) ++
      match poll_slot sid st with Some (inr st') => polled sids st' | _ => [] end
  end.

(** What a pool thread does to its runner besides handling lines. *)
Inductive session_event : StratumRunner -> StratumRunner -> Prop :=
  | se_refused r :
      session_event r (set_health (i32 (consecutive_connect_failures_ r + 1)) (consecutive_quick_disconnects_ r) r)
  | se_connected r :
      session_event r (set_adapter Adapters.connect (set_health 0 (consecutive_quick_disconnects_ r) r))
  | se_disconnected r :
      session_event r (set_health (consecutive_connect_failures_ r) (i32 (consecutive_quick_disconnects_ r + 1)) r).

(** The acceptance callbacks a handler made, run against the shared outbox. *)
Definition deliver (path : string) (reports : list (Z * Z)) (w : World (Wiring K)) : World (Wiring K) :=
  fold_left (fun w p => on_share_accepted env path p.1 p.2 w) reports w.

(** A header is a share of an item when its double hash meets the share target. *)
Definition share_of (i : WorkItem) (wid n : Z) (header : list Z) : option PendingSubmit :=
  if be_val (fips_sha256d header) <=? target_val (share_target_le i)
  then Some (mkPendingSubmit wid n header) else None.

(** The share of a drained hit.  A hit of a block, while the node can be sent blocks, is
    none. *)
Definition hit_share (snaps : gmap Z WorkSlotSnapshot) (gbt : option GbtSubmitter) (h : Device.HitRecord) :
    option PendingSubmit :=
  ss ← snaps !! Device.hit_work_id h;
  let header := host_header (item ss) (Device.hit_nonce h) in
  match gbt with
  | Some _ => if be_val (fips_sha256d header) <=? target_val (block_target_le (item ss)) then None
              else share_of (item ss) (Device.hit_work_id h) (Device.hit_nonce h) header
  | None => share_of (item ss) (Device.hit_work_id h) (Device.hit_nonce h) header
  end.

Definition hits_shares (snaps : gmap Z WorkSlotSnapshot) (gbt : option GbtSubmitter) (hits : list Device.HitRecord) :
    list PendingSubmit := omap (hit_share snaps gbt) hits.

(** The hits a round drains, and the shares they are. *)
Definition round_shares (e : RoundEnv) (st : MainState K R) : list PendingSubmit :=
  let '(ids, snaps) := active_jobs (m_reg st) in
  match ids with
  | [] => []
  | _ => default []
      (st ← launch_round (J := J) cfg env e ids snaps st;
       '(_, hits, _) ← Device.drainDeviceHits (m_dev st) 64;
       Some (hits_shares snaps (main_gbt_submitter cfg) hits))
  end.

(** A header typed at the console is tested against the first slot's item. *)
Definition typed_header (line : list Z) : option (list Z) :=
  match tokens line with
  | cmd :: hhex :: _ =>
      if use_gbt cfg && bool_decide (cmd = str "submit_header") && (length hhex =? 160)%nat
      then match scan_bytes hhex 80 with inr header => Some header | inl _ => None end
      else None
  | _ => None
  end.

Definition typed_shares (line : list Z) (st : MainState K R) : list PendingSubmit :=
  option_list (header ← typed_header line; snap ← Registry.get (m_reg st) 0;
    share_of (item snap) (work_id (item snap)) (header_nonce header) header).

(** A step and its events.  [c'] is the client after the thread's reads and writes. *)
Inductive sys_event : list Event -> Sys K R -> Sys K R -> Prop :=
  | step_line ph st H sid c r c' now line r' :
      srcs st !! sid = Some (SStratum (Some (c, r))) ->
      handle_line hash now line r = (inr tt, r') ->
      sys_event [] (mkSys ph st H)
        (mkSys ph (set_world st (deliver (outbox_file cfg) (drop (length (reported r)) (reported r'))
           (m_world (set_wiring st (with_source (rest (m_world st)) sid (SStratum (Some (c', r')))))))) H)
  | step_session ph st H sid c r c' r' :
      srcs st !! sid = Some (SStratum (Some (c, r))) -> session_event r r' ->
      sys_event [] (mkSys ph st H)
        (mkSys ph (set_wiring st (with_source (rest (m_world st)) sid (SStratum (Some (c', r'))))) H)
  | step_template ph st H g gbt g' :
      m_gbt st = Some g -> handle_template hash gbt g = (inr tt, g') ->
      sys_event [] (mkSys ph st H) (mkSys ph (set_gbt st (Some g')) H)
  | step_poll st H st1 st' :
      poll_sources st = Some (inr st1) -> check_first_slot (J := J) auto st1 = inr st' ->
      sys_event (map Delivered (polled (seq 0 (length (srcs st))) st)) (mkSys PPoll st H) (mkSys PMine st' (H ++ polled (seq 0 (length (srcs st))) st))
  | step_mine e st H st' :
      DeviceTypes.merges (merge_hits e) ->
      mine_round rpc cfg env e st = Some st' ->
      sys_event (map Found (round_shares e st)) (mkSys PMine st H) (mkSys PCommand st' H)
  | step_command st H line now order now_steady st' reply :
      command (J := J) cfg env auto now line st = inr (st', reply) ->
      sys_event (map Found (typed_shares line st)) (mkSys PCommand st H)
        (mkSys PPoll (dump_metrics (J := J) cfg env order now_steady now st').1 H).

Definition sys_step (s s' : Sys K R) : Prop := exists evs, sys_event evs s s'.

(** A run and its events. *)
Inductive sys_run : list Event -> Sys K R -> Sys K R -> Prop :=
  | run_nil s : sys_run [] s s
  | run_cons evs evs' s s1 s2 : sys_event evs s s1 -> sys_run evs' s1 s2 -> sys_run (evs ++ evs') s s2.

Lemma run_of_steps s s' : rtc sys_step s s' -> exists evs, sys_run evs s s'.
Proof.
  induction 1 as [s|s s1 s' [evs S] _ [evs' IH]]; [exists []; constructor|].
  exists (evs ++ evs'). by eapply run_cons.
Qed.

Lemma steps_of_run evs s s' : sys_run evs s s' -> rtc sys_step s s'.
Proof. induction 1 as [s|evs evs' s s1 s' S _ IH]; [done|]. eapply rtc_l; [by exists evs|done]. Qed.

(** ** The invariant *)

(** The header is verified against the share target of a stored item with its work
    identifier. *)
Definition verified (H : list WorkItem) (s : PendingSubmit) : Prop :=
  exists i, i ∈ H /\ Outbox.work_id s = work_id i /\
    be_val (fips_sha256d (header80 s)) <= target_val (share_target_le i).

(** [L] are the entries the outbox had at the start. *)
Definition outbox_inv (L : list PendingSubmit) (H : list WorkItem) (w : World (Wiring K)) : Prop :=
  forall o, SubmitRouter.outbox w = Some o ->
    wf_outbox o /\ forall s, s ∈ Outbox.q_ o -> s ∈ L \/ verified H s.

(** No session times a share, so none has reported an acceptance. *)
Definition runners_inv (w : Wiring K) : Prop :=
  forall sid c r, sources w !! sid = Some (SStratum (Some (c, r))) -> wf_runner r /\ untimed r.

Definition map_inv (H : list WorkItem) (w : Wiring K) : Prop :=
  forall wid sid, workid_to_source w !! wid = Some sid ->
    exists i, i ∈ H /\ work_id i = wid /\ source_id i = sid /\ sid < Z.of_nat (length (sources w)).

Definition slots_inv (H : list WorkItem) (reg : registry) : Prop :=
  forall k s, Registry.get reg k = Some s ->
    item s ∈ H /\ wf_const (job_const s) /\ (active (item s) = true -> source_id (item s) = Z.of_nat k).

Definition press_inv (p : Pressure) : Prop :=
  (forall sid, 0 <= zget (src_penalty p) sid <= 5) /\ wf_scheduler (sched p).

Record sys_inv (L : list PendingSubmit) (H : list WorkItem) (st : MainState K R) : Prop := {
  si_size : length (srcs st) = Registry.size (m_reg st) /\ Z.of_nat (length (srcs st)) < 2 ^ 32;
  si_runners : runners_inv (rest (m_world st));
  si_gbt : forall g, m_gbt st = Some g -> Forall wf_result (gbt_q_ (g_adapter g));
  si_items : Forall wf_item H;
  si_slots : slots_inv H (m_reg st);
  si_map : map_inv H (rest (m_world st));
  si_outbox : outbox_inv L H (m_world st);
  si_device : DeviceTypes.typed_hits (m_dev st);
  si_press : press_inv (m_press st) }.

End System.

(** ** The outbox *)

Lemma enqueue_elem o s x : x ∈ Outbox.q_ (enqueue o s) -> x ∈ Outbox.q_ o \/ x = s.
Proof.
  unfold enqueue. case_decide; [by left|]. cbn. rewrite elem_of_app, list_elem_of_singleton. naive_solver.
Qed.

Definition pending_shares {K} (w : World (Wiring K)) : list PendingSubmit :=
  match SubmitRouter.outbox w with Some o => Outbox.q_ o | None => [] end.

Section OutboxInv.
Context {K : Type}.
Implicit Types w : World (Wiring K).

Lemma verified_mono H H' s : (forall i, i ∈ H -> i ∈ H') -> verified H s -> verified H' s.
Proof. intros Hs (i & Hi & E & Ht). exists i. split; [by apply Hs|done]. Qed.

Lemma outbox_inv_mono L H H' w : (forall i, i ∈ H -> i ∈ H') -> outbox_inv L H w -> outbox_inv L H' w.
Proof.
  intros Hs Ho o E. destruct (Ho o E) as [Hw Hq]. split; [done|]. intros s Hin.
  destruct (Hq s Hin) as [?|?]; [by left|right; by eapply verified_mono].
Qed.

Lemma outbox_inv_rest L H w (x : Wiring K) : outbox_inv L H w -> outbox_inv L H (mkWorld (SubmitRouter.outbox w) x).
Proof. done. Qed.

(** A share that may enter the outbox. *)
Definition share_ok (G : list WorkItem) (s : PendingSubmit) : Prop := wf_submit s /\ verified G s.

Lemma share_of_ok G i n header s :
  i ∈ G -> wf_item i -> is_u32 n -> length header = 80%nat -> is_bytes header ->
  share_of i (work_id i) n header = Some s -> share_ok G s.
Proof.
  intros Hi Hw Hn Hl Hb. unfold share_of. destruct (Z.leb_spec (be_val (fips_sha256d header)) (target_val (share_target_le i)));
    [intros [= <-]|done]. split; [|by exists i]. split; cbn -[in_u]; [apply Hw|done|done].
Qed.

Lemma outbox_inv_enqueue (L : list PendingSubmit) G fs o :
  Forall (share_ok G) fs ->
  (wf_outbox o /\ forall s, s ∈ Outbox.q_ o -> s ∈ L \/ verified G s) ->
  let o' := fold_left enqueue fs o in wf_outbox o' /\ forall s, s ∈ Outbox.q_ o' -> s ∈ L \/ verified G s.
Proof.
  intros Hf. revert o. induction Hf as [|x fs [Hx Hv] _ IH]; intros o Ho; [done|]. cbn [fold_left]. apply IH.
  destruct Ho as [Hw Hq]. split; [by apply enqueue_wf|].
  intros s [Hs| ->]%enqueue_elem; [by apply Hq|by right].
Qed.

End OutboxInv.

(** ** What the phases do to the shared world *)

Section WorldSteps.
Context {K : Type}.
Implicit Types w : World (Wiring K).

(** What happens to the router's world: exactly the shares [fs] are enqueued, in order, and
    the invariants of the sessions are kept. *)
Record world_did (fs : list PendingSubmit) (w w' : World (Wiring K)) : Prop := {
  wd_outbox : SubmitRouter.outbox w' = fold_left enqueue fs <$> SubmitRouter.outbox w;
  wd_runners : runners_inv (rest w) -> runners_inv (rest w');
  wd_sources : length (sources (rest w')) = length (sources (rest w));
  wd_map : workid_to_source (rest w') = workid_to_source (rest w) }.

Lemma world_did_nil w w' :
  SubmitRouter.outbox w' = SubmitRouter.outbox w -> (runners_inv (rest w) -> runners_inv (rest w')) ->
  length (sources (rest w')) = length (sources (rest w)) ->
  workid_to_source (rest w') = workid_to_source (rest w) -> world_did [] w w'.
Proof. intros E. split; [|done..]. rewrite E. by destruct (SubmitRouter.outbox w). Qed.

Lemma world_did_refl w : world_did [] w w.
Proof. by apply world_did_nil. Qed.

Lemma world_did_trans fs fs' w1 w2 w3 : world_did fs w1 w2 -> world_did fs' w2 w3 -> world_did (fs ++ fs') w1 w3.
Proof.
  intros [a1 b1 c1 d1] [a2 b2 c2 d2]. split; [|by intros ?; apply b2, b1|congruence..].
  rewrite a2, a1. destruct (SubmitRouter.outbox w1); [|done]. cbn. by rewrite fold_left_app.
Qed.

Lemma world_did_files w fs :
  world_did [] w (mkWorld (SubmitRouter.outbox w) (with_files (rest w) fs)).
Proof. by apply world_did_nil. Qed.

Lemma world_did_source w sid c r c' r' :
  sources (rest w) !! sid = Some (SStratum (Some (c, r))) -> (wf_runner r /\ untimed r -> wf_runner r' /\ untimed r') ->
  world_did [] w (mkWorld (SubmitRouter.outbox w) (with_source (rest w) sid (SStratum (Some (c', r'))))).
Proof.
  intros Hs Hr. apply world_did_nil; cbn [rest SubmitRouter.outbox sources workid_to_source with_source]; try done.
  - intros Hrun sid' c2 r2. cbn. intros [(<- & E & _)|(_ & E)]%list_lookup_insert_Some; [|by apply (Hrun sid' c2)].
    injection E as _ <-. by apply Hr, (Hrun _ _ _ Hs).
  - apply length_insert.
Qed.

(** A session that never reports leaves the shared outbox alone. *)
Lemma deliver_untimed env path r r' w :
  untimed r' -> deliver env path (drop (length (reported r)) (reported r')) w = w.
Proof. intros (_ & -> & _). by rewrite drop_nil. Qed.

Lemma first_stratum_lookup (l : list (Source K)) i j cr :
  first_stratum l i = Some (j, cr) -> exists k, j = (i + k)%nat /\ l !! k = Some (SStratum (Some cr)).
Proof.
  revert i. induction l as [|s l IH]; intros i E; [done|]. cbn in E.
  destruct s as [[cr'|]|].
  - injection E as <- <-. exists 0%nat. by rewrite Nat.add_0_r.
  - destruct (IH _ E) as (k & -> & Hk). exists (S k). split; [lia|done].
  - destruct (IH _ E) as (k & -> & Hk). exists (S k). split; [lia|done].
Qed.

End WorldSteps.

Section Submit.
Context {K J R : Type} `{ISocket K, Json J}.
Context (rpc : R -> list Z -> J -> R * option J).
Implicit Types w : World (Wiring K).

(** The router enqueues a header exactly when it is a share. *)
Lemma verify_did w env path (cfg : OutboxCfg) now header i wid n :
  length header = 80%nat ->
  world_did (option_list (share_of i wid n header)) w
    (verifyAndSubmit (Some (submit_callback (J := J) env path cfg now)) w header (share_target_le i) wid n).1.
Proof.
  intros Hl. unfold verifyAndSubmit, share_of. rewrite verify_decision by (rewrite Hl; done).
  destruct (be_val (fips_sha256d header) <=? target_val (share_target_le i)); [|apply world_did_refl].
  cbn [negb fst option_list]. set (rec := SubmitRouter.mkHitRecord wid n header).
  assert (rest (record_pending w rec) = rest w) as Hr by (unfold record_pending; by case_match).
  assert (SubmitRouter.outbox (record_pending w rec) = fold_left enqueue [pending_of rec] <$> SubmitRouter.outbox w) as Ho
    by (unfold record_pending; by destruct (SubmitRouter.outbox w) eqn:E; cbn [SubmitRouter.outbox]; rewrite ?E).
  set (w1 := record_pending w rec) in *. clearbody w1. unfold submit_callback.
  destruct (persist_sources env path cfg now rec (route_to_source (J := J) rec (rest w1))) as [E1 E2].
  split; [exact Ho|..]; cbn [rest]; unfold runners_inv; rewrite ?E1, ?E2, <- Hr;
    unfold route_to_source; (destruct (workid_to_source (rest w1) !! _) as [sid|]; [|done]);
    destruct (sources (rest w1) !! Z.to_nat sid) as [[[[c r]|]|]|] eqn:Es; try done;
    pose proof (send_share_runner (J := J) (SubmitRouter.hit_header80 rec) c r) as Er;
    destruct (send_share (J := J) (SubmitRouter.hit_header80 rec) c r) as [c' r']; cbn [snd] in Er; subst r';
    cbn [sources workid_to_source]; [|by rewrite length_insert|done].
  intros Hrun sid' c2 r2. intros [(<- & E & _)|(_ & E)]%list_lookup_insert_Some; [|by apply (Hrun sid' c2)].
  injection E as _ <-. apply (Hrun _ _ _ Es).
Qed.

Lemma interactive_submit_did en2 nt nonce w (w' : Wiring K) sent :
  interactive_submit (J := J) en2 nt nonce (rest w) = inr (w', sent) ->
  world_did [] w (mkWorld (SubmitRouter.outbox w) w').
Proof.
  unfold interactive_submit. destruct (first_stratum (sources (rest w)) 0) as [[sid [c r]]|] eqn:E;
    [|intros [= <- _]; by apply world_did_nil].
  apply first_stratum_lookup in E as (k & -> & Hk). unfold submitShareHex.
  destruct (submitShare _ _ _ _ _) as [[[e|ok] [c' r']]|] eqn:Es; cbn [mbind option_bind]; [done| |intros [= <- _]; by apply world_did_nil].
  apply submitShare_runner in Es as ->. intros [= <- _]. by eapply world_did_source.
Qed.

(** *** Hits *)

Definition snaps_ok (G : list WorkItem) (snaps : gmap Z WorkSlotSnapshot) : Prop :=
  forall k s, snaps !! k = Some s -> item s ∈ G /\ wf_item (item s) /\ work_id (item s) = k.

Lemma host_header_length i n : length (host_header i n) = 80%nat.
Proof. unfold host_header. rewrite !length_app, !leU32WordsToBe32Bytes_length. reflexivity. Qed.

Lemma host_header_bytes i n : is_bytes (host_header i n).
Proof.
  unfold host_header. rewrite !Forall_app. repeat split;
    first [apply be_bytes32_bytes | apply leU32WordsToBe32Bytes_bytes].
Qed.

Lemma host_header_decision i n target :
  isHashLEQTarget (sha256 (sha256 (host_header i n))) target = (be_val (fips_sha256d (host_header i n)) <=? target_val target).
Proof. apply verify_decision. rewrite host_header_length. done. Qed.

Lemma handle_hit_did env path (cfg : OutboxCfg) now snaps g (st : HitState) h :
  world_did (option_list (hit_share snaps g h)) (hs_world st)
    (hs_world (handle_hit rpc (Some (submit_callback (J := J) env path cfg now)) snaps g st h)).
Proof.
  unfold handle_hit, hit_share. destruct (snaps !! Device.hit_work_id h) as [ss|]; [|apply world_did_refl].
  cbn [mbind option_bind]. rewrite host_header_decision.
  destruct g as [g|]; [destruct (_ <=? target_val (block_target_le _))|destruct (_ <=? _)].
  1: destruct (submitHeader rpc g (hs_rpc st) _) as [r ok]; apply world_did_refl.
  all: cbn [hs_world]; apply verify_did, host_header_length.
Qed.

Lemma handle_hits_did env path (cfg : OutboxCfg) now snaps g (st : HitState) hits :
  world_did (hits_shares snaps g hits) (hs_world st)
    (hs_world (handle_hits rpc (Some (submit_callback (J := J) env path cfg now)) snaps g st hits)).
Proof.
  unfold handle_hits. destruct hits as [|h0 hits0]; [apply world_did_refl|].
  set (st0 := mkHitState (hs_world st) (hs_rpc st) _). change (hs_world st) with (hs_world st0). clearbody st0.
  generalize (h0 :: hits0). clear. intros hits. revert st0. induction hits as [|h hits IH]; intros st0; [apply world_did_refl|].
  cbn [fold_left]. assert (hits_shares snaps g (h :: hits) = option_list (hit_share snaps g h) ++ hits_shares snaps g hits) as ->
    by (unfold hits_shares; cbn [omap list_omap]; by destruct (hit_share snaps g h)).
  eapply world_did_trans; [apply handle_hit_did|apply IH].
Qed.

Lemma hits_shares_ok G snaps g hits :
  snaps_ok G snaps -> Forall DeviceTypes.typed_hit hits -> Forall (share_ok G) (hits_shares snaps g hits).
Proof.
  intros Hs Hh. apply list.Forall_forall. intros s (h & Hin & E)%list_elem_of_omap.
  rewrite list.Forall_forall in Hh. destruct (Hh h Hin) as [_ Hn]. unfold hit_share in E.
  destruct (snaps !! Device.hit_work_id h) as [ss|] eqn:Ess; [|done]. destruct (Hs _ _ Ess) as (Hi & Hw & Ew).
  rewrite <- Ew in E. cbn [mbind option_bind] in E.
  destruct g as [g|]; [destruct (_ <=? target_val (block_target_le _)); [done|]|];
    (eapply share_of_ok; [exact Hi|done|exact Hn|apply host_header_length|apply host_header_bytes|exact E]).
Qed.

End Submit.

(** ** The registry *)

Lemma slots_inv_mono G G' reg : (forall i, i ∈ G -> i ∈ G') -> slots_inv G reg -> slots_inv G' reg.
Proof. intros Hm Hs k s E. destruct (Hs k s E) as (? & ? & ?). auto. Qed.

(** The active set is made of stored items, each under its own identifier. *)
Lemma active_jobs_ok G reg :
  slots_inv G reg -> Forall wf_item G -> snaps_ok G (active_jobs reg).2.
Proof.
  intros Hs Hw. rewrite list.Forall_forall in Hw. unfold active_jobs.
  assert (forall l (p : list Z * gmap Z WorkSlotSnapshot), snaps_ok G p.2 ->
    snaps_ok G (fold_left (fun st i =>
      match Registry.get reg i with
      | None => st
      | Some s => if negb (active (item s)) then st
                  else (st.1 ++ [work_id (item s)], emplace st.2 (work_id (item s)) s)
      end) l p).2) as A.
  { induction l as [|i l IH]; intros p Hp; [done|]. cbn [fold_left]. apply IH.
    destruct (Registry.get reg i) as [s|] eqn:E; [|done]. destruct (active (item s)); [|done]. cbn [negb snd].
    unfold emplace. case_match; [done|]. intros k s' [(<- & <-)|(_ & E')]%lookup_insert_Some; [|by apply Hp].
    destruct (Hs _ _ E) as (? & _ & _). auto. }
  apply A. by intros k s E.
Qed.

Lemma item_default_wf : wf_item WorkItem_default.
Proof. split; cbn -[in_u]; try in_range; (split; [reflexivity|in_range]). Qed.

Lemma device_table_typed G ids snaps :
  snaps_ok G snaps -> Forall (fun j => is_u64 (Device.work_id j)) (device_table ids snaps).
Proof.
  intros Hs. unfold device_table. apply Forall_map, list.Forall_forall. intros wid _. cbn -[in_u].
  destruct (snaps !! wid) as [s|] eqn:E; [apply (Hs _ _ E)|apply item_default_wf].
Qed.

(** ** Backpressure *)

Lemma backpressure_source_inv lat p sid h : press_inv p -> press_inv (backpressure_source lat p sid h).
Proof.
  intros [Hp (Hw & Hs & Hc)].
  assert (exists la lr q, 0 <= q /\ backpressure_source lat p sid h =
    mkPressure la lr (<[sid := next_penalty q (zget (src_penalty p) sid)]> (src_penalty p))
      (set_penalty (sched p) sid (next_penalty q (zget (src_penalty p) sid)))) as (la & lr & q & Hq & ->).
  { unfold backpressure_source. destruct h as [h|]; eexists _, _, _; (split; [|reflexivity]); [apply pressure_range|lia]. }
  pose proof (next_penalty_range q _ Hq (Hp sid)) as Hn. split.
  - intros sid'. unfold zget in *. cbn. destruct (decide (sid' = sid)) as [->|].
    + rewrite lookup_insert_eq. exact Hn.
    + rewrite lookup_insert_ne by done. apply Hp.
  - split; [exact Hw|]. split; [|exact Hc]. cbn. by apply map_Forall_insert_2; [apply u32_range|].
Qed.

Lemma backpressure_inv {K} lat (l : list (Source K)) p : press_inv p -> press_inv (backpressure lat l p).
Proof.
  intros Hp. unfold backpressure. generalize (imap (fun i s => (i, s)) l). intros l'. revert p Hp.
  induction l' as [|x l' IH]; intros p Hp; [done|]. cbn [fold_left]. by apply IH, backpressure_source_inv.
Qed.

(** ** Polling *)

Section Polling.
Context {K R : Type}.
Implicit Types st : MainState K R.

Lemma slot_item_wf sid r : wf_result r -> wf_item (slot_item_of sid r).
Proof. intros [[] _]. split; cbn -[in_u u32]; try assumption. apply u32_range. Qed.

Lemma drain_stratum sid a m reg :
  (sid < Registry.size reg)%nat ->
  exists reg', Registry.sets reg (map (stored sid) (Adapters.q_ a)) = inr reg' /\
    drain_adapter pollNormalizedFull (S (length (Adapters.q_ a))) sid a m reg =
    Some (inr (with_q a [], fold_left (fun m r => <[work_id (res_item r) := u32 (Z.of_nat sid)]> m) (Adapters.q_ a) m, reg')).
Proof.
  apply (drain_adapter_spec pollNormalizedFull Adapters.q_ with_q); try done; by intros [].
Qed.

Lemma drain_gbt sid a m reg :
  (sid < Registry.size reg)%nat ->
  exists reg', Registry.sets reg (map (stored sid) (gbt_q_ a)) = inr reg' /\
    drain_adapter gbt_pollNormalizedFull (S (length (gbt_q_ a))) sid a m reg =
    Some (inr (mkGbtAdapter [] (submitter_ a), fold_left (fun m r => <[work_id (res_item r) := u32 (Z.of_nat sid)]> m) (gbt_q_ a) m, reg')).
Proof.
  apply (drain_adapter_spec gbt_pollNormalizedFull gbt_q_ (fun a q => mkGbtAdapter q (submitter_ a)));
    try done; by intros [].
Qed.

(** The source behind a slot after its poll: the same with an empty queue. *)
Definition emptied (s : option (Source K)) : option (Source K) :=
  match s with
  | Some (SStratum (Some (c, r))) => Some (SStratum (Some (c, set_adapter (fun a => with_q a []) r)))
  | _ => s
  end.

Record slot_polled (sid : nat) (st st' : MainState K R) : Prop := {
  sp_sets : Registry.sets (m_reg st) (map (stored sid) (queue_of st sid)) = inr (m_reg st');
  sp_map : workid_to_source (rest (m_world st')) =
    fold_left (fun m r => <[work_id (res_item r) := u32 (Z.of_nat sid)]> m) (queue_of st sid)
      (workid_to_source (rest (m_world st)));
  sp_outbox : SubmitRouter.outbox (m_world st') = SubmitRouter.outbox (m_world st);
  sp_same : srcs st' !! sid = emptied (srcs st !! sid);
  sp_other : forall k, k <> sid -> srcs st' !! k = srcs st !! k;
  sp_length : length (srcs st') = length (srcs st);
  sp_gbt : m_gbt st' = m_gbt st \/
    exists g, srcs st !! sid = Some SGbt /\ m_gbt st = Some g /\
      m_gbt st' = Some (set_g_adapter (mkGbtAdapter [] (submitter_ (g_adapter g))) g);
  sp_empty : queue_of st' sid = [];
  sp_device : m_dev st' = m_dev st;
  sp_press : m_press st' = m_press st }.

Lemma poll_slot_spec sid st :
  (sid < Registry.size (m_reg st))%nat -> exists st', poll_slot sid st = Some (inr st') /\ slot_polled sid st st'.
Proof.
  intros Hs. unfold poll_slot. fold (srcs st).
  assert (Hidle : queue_of st sid = [] -> emptied (srcs st !! sid) = srcs st !! sid -> slot_polled sid st st).
  { intros Hq He. split; try done; try (rewrite Hq; done). by left. }
  destruct (srcs st !! sid) as [[[[c r]|]|]|] eqn:E.
  - destruct (drain_stratum sid (adapter_ r) (workid_to_source (rest (m_world st))) (m_reg st) Hs) as (reg' & Es & ->).
    cbn [mbind option_bind]. eexists. split; [reflexivity|].
    assert (queue_of st sid = Adapters.q_ (adapter_ r)) as Eq by (unfold queue_of; by rewrite E).
    assert (sid < length (srcs st))%nat as Hl by (by apply lookup_lt_Some in E).
    split; rewrite ?Eq; try done.
    + rewrite E. unfold srcs. cbn. by rewrite list_lookup_insert_eq.
    + intros k Hk. unfold srcs. cbn. by rewrite list_lookup_insert_ne.
    + apply length_insert.
    + by left.
    + unfold queue_of, srcs. cbn. by rewrite list_lookup_insert_eq.
  - eexists. split; [reflexivity|]. apply Hidle; [unfold queue_of; by rewrite E|done].
  - destruct (m_gbt st) as [g|] eqn:Eg.
    + destruct (drain_gbt sid (g_adapter g) (workid_to_source (rest (m_world st))) (m_reg st) Hs) as (reg' & Es & ->).
      cbn [mbind option_bind]. eexists. split; [reflexivity|].
      assert (queue_of st sid = gbt_q_ (g_adapter g)) as Eq by (unfold queue_of; by rewrite E, Eg).
      split; rewrite ?Eq; try done.
      * by rewrite E.
      * right. by exists g.
      * unfold queue_of. change (srcs _) with (srcs st). rewrite E. reflexivity.
    + eexists. split; [reflexivity|]. apply Hidle; [unfold queue_of; by rewrite E, Eg|done].
  - eexists. split; [reflexivity|]. apply Hidle; [unfold queue_of; by rewrite E|done].
Qed.

Lemma fold_map_lookup sid q (m : gmap Z Z) k v :
  fold_left (fun m r => <[work_id (res_item r) := sid]> m) q m !! k = Some v ->
  (v = sid /\ exists r, r ∈ q /\ work_id (res_item r) = k) \/ m !! k = Some v.
Proof.
  revert m. induction q as [|r q IH]; intros m E; [by right|]. cbn [fold_left] in E.
  destruct (IH _ E) as [(-> & r' & Hr & Ek)|E'].
  - left. split; [done|]. exists r'. split; [by right|done].
  - apply lookup_insert_Some in E' as [(<- & <-)|(_ & E')]; [|by right].
    left. split; [done|]. exists r. split; [by left|done].
Qed.

Lemma sets_slots_inv G sid q reg reg' :
  Z.of_nat sid < 2 ^ 32 -> Forall wf_result q -> slots_inv G reg ->
  Registry.sets reg (map (stored sid) q) = inr reg' -> slots_inv (G ++ map (slot_item_of sid) q) reg'.
Proof.
  intros Hsid Hq Hs Es. destruct (sets_one_slot sid q reg reg' Es) as [Hother Hlast].
  intros k s Hk. destruct (decide (k = sid)) as [->|Hne].
  - destruct q as [|r q _] using rev_ind.
    { cbn in Es. injection Es as <-. destruct (Hs _ _ Hk) as (? & ? & ?).
      split; [apply elem_of_app; by left|done]. }
    destruct (Hlast q r eq_refl) as (g & E). rewrite E in Hk. injection Hk as <-. cbn [item job_const].
    apply Forall_app in Hq as [_ Hr]. inversion Hr as [|? ? Hr1 _]. split; [|split; [apply Hr1|]].
    + rewrite map_app. apply elem_of_app. right. apply elem_of_app. right. by left.
    + intros _. cbn. apply u32_small. unfold in_u. lia.
  - rewrite (Hother k Hne) in Hk. destruct (Hs _ _ Hk) as (? & ? & ?).
    split; [apply elem_of_app; by left|done].
Qed.

Lemma queue_wf L G st sid : sys_inv L G st -> Forall wf_result (queue_of st sid).
Proof.
  intros I. unfold queue_of. destruct (srcs st !! sid) as [[[[c r]|]|]|] eqn:E; try constructor.
  - destruct (si_runners _ _ _ I _ _ _ E) as [[[] _] _]. done.
  - destruct (m_gbt st) as [g|] eqn:Eg; [by apply (si_gbt _ _ _ I)|constructor].
Qed.

Lemma poll_slot_inv L G st st' sid :
  sys_inv L G st -> (sid < length (srcs st))%nat -> slot_polled sid st st' ->
  sys_inv L (G ++ map (slot_item_of sid) (queue_of st sid)) st'.
Proof.
  intros I Hsid P. pose proof (queue_wf _ _ _ sid I) as Hq. destruct (si_size _ _ _ I) as [Hl Hb].
  assert (forall i, i ∈ G -> i ∈ G ++ map (slot_item_of sid) (queue_of st sid)) as Hm
    by (intros; apply elem_of_app; by left).
  split.
  - rewrite (sp_length _ _ _ P). split; [|done].
    destruct (sets_ok (m_reg st) (map (stored sid) (queue_of st sid))) as (r & E & Hr).
    { apply Forall_map, list.Forall_forall. intros r _. cbn. lia. }
    rewrite (sp_sets _ _ _ P) in E. injection E as <-. congruence.
  - intros k c r E. destruct (decide (k = sid)) as [->|Hne].
    + change (srcs st' !! sid = Some (SStratum (Some (c, r)))) in E. rewrite (sp_same _ _ _ P) in E.
      destruct (srcs st !! sid) as [[[[c0 r0]|]|]|] eqn:E0; try done. injection E as <- <-.
      destruct (si_runners _ _ _ I _ _ _ E0) as [[[] He] Hu]. split; [|exact Hu]. split; [|exact He].
      split; cbn -[in_u]; try assumption. constructor.
    + change (srcs st' !! k = Some (SStratum (Some (c, r)))) in E. rewrite (sp_other _ _ _ P k Hne) in E.
      by apply (si_runners _ _ _ I _ _ _ E).
  - intros g Eg. destruct (sp_gbt _ _ _ P) as [E|(g0 & _ & E0 & E)]; rewrite E in Eg; [by apply (si_gbt _ _ _ I)|].
    injection Eg as <-. constructor.
  - apply Forall_app. split; [apply (si_items _ _ _ I)|]. apply Forall_map.
    eapply Forall_impl; [exact Hq|]. intros r. apply slot_item_wf.
  - eapply sets_slots_inv; [lia|exact Hq|apply (si_slots _ _ _ I)|apply (sp_sets _ _ _ P)].
  - intros wid s E. rewrite (sp_map _ _ _ P) in E.
    pose proof (sp_length _ _ _ P) as El. unfold srcs in El, Hsid, Hb. rewrite El. apply fold_map_lookup in E as [(-> & r & Hr & <-)|E].
    + exists (slot_item_of sid r). split; [apply elem_of_app; right; by apply list_elem_of_fmap_2|].
      split; [done|]. split; [done|]. rewrite u32_small by (unfold in_u; lia). lia.
    + destruct (si_map _ _ _ I _ _ E) as (i & Hi & ?). exists i. split; [by apply Hm|done].
  - intros o E. rewrite (sp_outbox _ _ _ P) in E.
    by apply (outbox_inv_mono L G (G ++ map (slot_item_of sid) (queue_of st sid)) (m_world st) Hm (si_outbox _ _ _ I)).
  - rewrite (sp_device _ _ _ P). apply I.
  - rewrite (sp_press _ _ _ P). apply I.
Qed.

Lemma poll_slots_inv L G st sids st' :
  sys_inv L G st -> Forall (fun k => (k < length (srcs st))%nat) sids ->
  poll_slots sids st = Some (inr st') ->
  sys_inv L (G ++ polled sids st) st' /\ SubmitRouter.outbox (m_world st') = SubmitRouter.outbox (m_world st).
Proof.
  revert G st. induction sids as [|sid sids IH]; intros G st I Hs E.
  - injection E as <-. cbn. by rewrite app_nil_r.
  - cbn [poll_slots polled] in *. inversion_clear Hs as [|? ? Hsid Hs'].
    destruct (si_size _ _ _ I) as [Hl Hb].
    destruct (poll_slot_spec sid st ltac:(lia)) as (st1 & E1 & P). rewrite E1 in *. cbn [mbind option_bind] in E.
    rewrite <- (sp_outbox _ _ _ P), app_assoc. apply IH; [by apply poll_slot_inv|by rewrite (sp_length _ _ _ P)|done].
Qed.

End Polling.

(** ** Rounds and commands *)

Section Rounds.
Context {K J R : Type} `{ISocket K, Json J}.
Context (rpc : R -> list Z -> J -> R * option J).
Context (cfg : AppConfig) (env : Env).
Implicit Types st : MainState K R.

(** The invariant, and exactly the shares [fs] enqueued, which are verified. *)
Definition grown (L : list PendingSubmit) (G : list WorkItem) (fs : list PendingSubmit) (st st' : MainState K R) : Prop :=
  sys_inv L G st' /\ Forall (share_ok G) fs /\ SubmitRouter.outbox (m_world st') = fold_left enqueue fs <$> SubmitRouter.outbox (m_world st).

Lemma grown_refl L G st : sys_inv L G st -> grown L G [] st st.
Proof. intros I. split; [done|]. split; [done|]. by destruct (SubmitRouter.outbox (m_world st)). Qed.

Lemma grown_trans L G fs fs' st1 st2 st3 :
  grown L G fs st1 st2 -> (sys_inv L G st2 -> grown L G fs' st2 st3) -> grown L G (fs ++ fs') st1 st3.
Proof.
  intros (I & F1 & R1) H2. destruct (H2 I) as (I3 & F2 & R2). split; [done|]. split; [by apply Forall_app|].
  rewrite R2, R1. destruct (SubmitRouter.outbox (m_world st1)); [|done]. cbn. by rewrite fold_left_app.
Qed.

Lemma sys_inv_world L G fs st st' :
  sys_inv L G st -> world_did fs (m_world st) (m_world st') -> Forall (share_ok G) fs ->
  m_reg st' = m_reg st -> m_gbt st' = m_gbt st ->
  DeviceTypes.typed_hits (m_dev st') -> press_inv (m_press st') -> grown L G fs st st'.
Proof.
  intros I W Hf Er Eg Hd Hp. destruct W as [Wo Wr Ws Wm]. split; [|done]. split; try done.
  - unfold srcs. rewrite Ws, Er. apply I.
  - apply Wr, I.
  - rewrite Eg. apply I.
  - apply I.
  - rewrite Er. apply I.
  - intros wid sid E. rewrite Wm in E. rewrite Ws. by apply (si_map _ _ _ I).
  - intros o' E. rewrite Wo in E. destruct (SubmitRouter.outbox (m_world st)) as [o|] eqn:Eo; [|done].
    injection E as <-. apply outbox_inv_enqueue; [done|]. by apply (si_outbox _ _ _ I).
Qed.

Lemma sys_inv_quiet L G st st' :
  sys_inv L G st -> world_did [] (m_world st) (m_world st') ->
  m_reg st' = m_reg st -> m_gbt st' = m_gbt st ->
  DeviceTypes.typed_hits (m_dev st') -> press_inv (m_press st') -> grown L G [] st st'.
Proof. intros I W. by apply sys_inv_world. Qed.

Lemma sys_inv_wiring L G st w :
  sys_inv L G st -> world_did [] (m_world st) (mkWorld (SubmitRouter.outbox (m_world st)) w) ->
  grown L G [] st (set_wiring st w).
Proof. intros I W. eapply sys_inv_quiet; [exact I|exact W|done|done|apply I|apply I]. Qed.

Lemma launch_typed e dev n plan base npt d' ok :
  DeviceTypes.merges (merge_hits e) -> DeviceTypes.typed dev ->
  launch e dev n plan base npt = Some (d', ok) -> DeviceTypes.typed d'.
Proof.
  intros Hm Hd. unfold launch. destruct (_ && _ && _); [destruct (1 <? npt)|].
  - by apply DeviceTypes.launch_batch_typed.
  - by apply DeviceTypes.launch_plan_typed.
  - by apply DeviceTypes.launch_stub_typed.
Qed.

Lemma launch_round_inv L G e ids snaps st st' :
  sys_inv L G st -> snaps_ok G snaps -> ids <> [] -> DeviceTypes.merges (merge_hits e) ->
  launch_round (J := J) cfg env e ids snaps st = Some st' -> grown L G [] st st'.
Proof.
  intros I Hs Hids Hm. unfold launch_round.
  assert (DeviceTypes.typed (Device.uploadDeviceJobs (m_dev st) (device_table ids snaps)).1) as Hd.
  { apply DeviceTypes.upload_typed; [apply I|by destruct ids|by eapply device_table_typed]. }
  set (dev := (Device.uploadDeviceJobs _ _).1) in *. clearbody dev.
  assert (press_inv (backpressure_due cfg e st).1) as Hp.
  { unfold backpressure_due. destruct (elapsed _ _ _); [apply backpressure_inv|]; apply I. }
  destruct (backpressure_due cfg e st) as [press last_bp]. cbn [fst] in Hp.
  destruct (select (sched press) ids snaps 64) as [sc sel] eqn:Esel.
  destruct (computeLaunchPlan _ _) as [plan|]; [|done]. cbn [mbind option_bind].
  destruct (launch e dev _ plan _ _) as [[dev1 ok]|] eqn:El; [|done]. cbn [mbind option_bind].
  apply launch_typed in El; [|done|done]. cbv zeta.
  destruct (getMineBatchOccupancy _ _) as [o|]; [|done]. cbn [mbind option_bind].
  destruct (occupancy_gauges _ _ _) as [m|]; [|done]. cbn [mbind option_bind].
  destruct (hashrate _ _ _ _) as [[avg m']|]; [|done]. cbn [mbind option_bind].
  destruct (Device.readAndResetBlockFlushCount dev1) as [dev2 fl] eqn:Ef.
  assert (DeviceTypes.typed_hits dev2) as Hd2 by (injection Ef as <- _; exact (proj1 El)).
  destruct (save_tuning_due _ _ _ _ _ _) as [fs ls]. intros [= <-].
  eapply sys_inv_quiet; [exact I|apply world_did_files|done|done|exact Hd2|].
  destruct Hp as [Hp Hw]. split; [exact Hp|]. cbn. injection Esel as <- _. exact Hw.
Qed.

Lemma snapshot_ledger_inv L G e snaps st :
  sys_inv L G st -> grown L G [] st (snapshot_ledger (J := J) cfg env e snaps st).
Proof.
  intros I. unfold snapshot_ledger. destruct (elapsed _ _ _); [|by apply grown_refl].
  destruct (rotate_ledger_if_needed _ _ _ _ _ _) as [fs rot].
  eapply sys_inv_quiet; [exact I|apply world_did_files|done|done|apply I|apply I].
Qed.

Lemma mine_round_inv L G e st st' :
  sys_inv L G st -> DeviceTypes.merges (merge_hits e) ->
  mine_round rpc cfg env e st = Some st' -> grown L G (round_shares (J := J) cfg env e st) st st'.
Proof.
  intros I Hm. unfold mine_round, round_shares.
  pose proof (active_jobs_ok G (m_reg st) (si_slots _ _ _ I) (si_items _ _ _ I)) as Hs.
  destruct (active_jobs (m_reg st)) as [ids snaps]. cbn [snd] in Hs.
  destruct ids as [|i ids]; [intros [= <-]; by apply grown_refl|].
  destruct (launch_round cfg env e _ snaps st) as [st1|] eqn:E1; [|done]. cbn [mbind option_bind].
  intros E. pose proof (launch_round_inv L G e (i :: ids) snaps st st1 I Hs ltac:(done) Hm E1) as G1.
  destruct (Device.drainDeviceHits (m_dev st1) 64) as [[[dev hits] ok]|] eqn:Ed; [|done]. cbn [mbind option_bind] in E |- *.
  cbn [default from_option id]. apply (grown_trans L G [] (hits_shares snaps (main_gbt_submitter cfg) hits) _ _ _ G1). clear I. intros I.
  apply DeviceTypes.drain_typed in Ed as [Hd Hh]; [|apply I]. injection E as <-.
  rewrite <- (app_nil_r (hits_shares _ _ _)).
  eapply (grown_trans _ _ _ _ _ (submit_hits rpc cfg env e snaps hits (set_dev st1 dev))); [|apply snapshot_ledger_inv].
  pose proof (handle_hits_did rpc env (outbox_file cfg) (Config.outbox cfg) (now_system e) snaps
    (main_gbt_submitter cfg) (mkHitState (m_world st1) (m_rpc st1) (m_metrics st1)) hits) as W.
  eapply sys_inv_world; [exact I|exact W|by apply hits_shares_ok|done|done|exact Hd|apply I].
Qed.

Lemma header_nonce_range header : is_bytes header -> is_u32 (header_nonce header).
Proof. intros Hb. unfold header_nonce, word_at. cxx_range. Qed.

Lemma typed_header_bytes line header :
  typed_header cfg line = Some header -> length header = 80%nat /\ is_bytes header.
Proof.
  unfold typed_header. destruct (tokens line) as [|cmd [|hhex args]]; [done..|]. destruct (_ && _); [|done].
  destruct (scan_bytes hhex 80) as [e|h] eqn:E; [done|]. intros [= <-]. by apply scan_bytes_wf in E.
Qed.

(** A command is a submission to a pool, a typed header, or nothing. *)
Lemma command_cases auto now line st st' reply :
  command (J := J) cfg env auto now line st = inr (st', reply) ->
  (typed_header cfg line = None /\
     (st' = st \/ exists en2 nt nonce w sent,
        interactive_submit (J := J) en2 nt nonce (rest (m_world st)) = inr (w, sent) /\ st' = set_wiring st w)) \/
  exists header, typed_header cfg line = Some header /\
    st' = set_world st
      (match Registry.get (m_reg st) 0 with
       | Some snap => (verifyAndSubmit (router_callback (J := J) cfg env now) (m_world st) header
                        (share_target_le (item snap)) (work_id (item snap)) (header_nonce header)).1
       | None => m_world st
       end).
Proof.
  unfold command, typed_header. destruct (tokens line) as [|cmd args]; [intros [= <- _]; left; by split; [|left]|].
  destruct (_ || _) eqn:Es.
  - destruct (submit_args _ _ _) as [[[en2 nt] nonce] have].
    destruct (interactive_submit en2 nt nonce (rest (m_world st))) as [e|[w sent]] eqn:E; [done|]. cbn [mbind throws_bind].
    destruct (dump_text _); [done|]. intros [= <- _]. left. split.
    + apply orb_true_iff in Es as [Es|Es]; apply bool_decide_eq_true in Es as ->;
        destruct args; try done; rewrite (bool_decide_eq_false_2 (_ = str "submit_header")) by done;
        by rewrite andb_false_r.
    + right. by eexists _, _, _, _, _.
  - destruct (use_gbt cfg && bool_decide (cmd = str "submit_header")) eqn:Eh.
    2: { intros [= <- _]. left. split; [|by left]. by destruct args. }
    destruct args as [|hhex args]; cbn [head default from_option id].
    { cbn. intros [= <- _]. left. by split; [|left]. }
    cbn [andb]. destruct (length hhex =? 160)%nat eqn:El; cbn [negb].
    2: { intros [= <- _]. left. by split; [|left]. }
    unfold submit_header_command. rewrite El. cbn [negb].
    destruct (scan_bytes hhex 80) as [ex|header]; [done|]. cbn [mbind throws_bind]. intros E. right. exists header. split; [done|].
    destruct (Registry.get (m_reg st) 0) as [snap|].
    + destruct (verifyAndSubmit _ _ _ _ _ _) as [w1 ok1]. by injection E as <- _.
    + by injection E as <- _.
Qed.

Lemma command_inv L G auto now line st st' reply :
  sys_inv L G st -> command (J := J) cfg env auto now line st = inr (st', reply) ->
  grown L G (typed_shares cfg line st) st st'.
Proof.
  intros I E. unfold typed_shares.
  apply command_cases in E as [[-> [->|(en2 & nt & nonce & w & sent & E & ->)]]|(header & Eh & ->)].
  - by apply grown_refl.
  - apply sys_inv_wiring; [done|]. by eapply (interactive_submit_did (J := J)).
  - rewrite Eh. apply typed_header_bytes in Eh as [Hl Hb]. cbn [mbind option_bind].
    destruct (Registry.get (m_reg st) 0) as [snap|] eqn:Es; cbn [mbind option_bind].
    + destruct (si_slots _ _ _ I _ _ Es) as (Hi & _ & _).
      pose proof (si_items _ _ _ I) as Hw. rewrite list.Forall_forall in Hw.
      eapply sys_inv_world; [exact I|by apply (verify_did (J := J))| |done|done|apply I|apply I].
      destruct (share_of _ _ _ _) as [s|] eqn:Esh; constructor; [|constructor].
      eapply share_of_ok; [exact Hi|by apply Hw|by apply header_nonce_range|done|done|exact Esh].
    + eapply sys_inv_quiet; [exact I|apply world_did_refl|done|done|apply I|apply I].
Qed.

Lemma check_first_slot_inv L G auto st st' :
  sys_inv L G st -> check_first_slot (J := J) auto st = inr st' -> grown L G [] st st'.
Proof.
  intros I. unfold check_first_slot. destruct (Registry.get _ _) as [snap|]; [|intros [= <-]; by apply grown_refl].
  destruct (_ =? _); [intros [= <-]; by apply grown_refl|].
  assert (forall g h s, grown L G [] st (set_seen st g h s)) as I1
    by (intros; eapply sys_inv_quiet; [exact I|apply world_did_refl|done|done|apply I|apply I]).
  destruct auto as [[[en2 nt] nonce]|]; [|intros [= <-]; apply I1].
  destruct (m_auto_submitted _); [intros [= <-]; apply I1|]. cbn [m_world set_seen].
  destruct (interactive_submit _ _ _ _) as [e|[w sent]] eqn:E; [done|]. cbn [mbind throws_bind].
  destruct (dump_text _); [done|]. intros [= <-].
  eapply sys_inv_quiet; [exact I|by eapply (interactive_submit_did (J := J))|done|done|apply I|apply I].
Qed.

Lemma dump_metrics_inv L G order now now_ms st :
  sys_inv L G st -> grown L G [] st (dump_metrics (J := J) cfg env order now now_ms st).1.
Proof.
  intros I. unfold dump_metrics. destruct (elapsed _ _ _); [|by apply grown_refl].
  destruct (_ && _); [destruct (rotate_metrics_if_needed _ _ _ _ _ _) as [fs rot]|].
  - eapply sys_inv_quiet; [exact I|apply world_did_files|done|done|apply I|apply I].
  - eapply sys_inv_quiet; [exact I|apply world_did_refl|done|done|apply I|apply I].
Qed.

End Rounds.

(** ** Every reachable state *)

Section Reachable.
Context {K J R : Type} `{ISocket K, Json J}.
Context (hash : list Z -> Z) (hash_u64 : forall s, is_u64 (hash s)).
Context (rpc : R -> list Z -> J -> R * option J).
Context (cfg : AppConfig) (env : Env) (auto : option (list Z * list Z * list Z)).

Lemma session_event_wf r r' : session_event r r' -> wf_runner r /\ untimed r -> wf_runner r' /\ untimed r'.
Proof. destruct 1; intros [[[] He] Hu]; (split; [split; [split; cbn -[in_u]; assumption|exact He]|exact Hu]). Qed.

(** The items a trace delivers and the shares it finds. *)
Definition delivered (evs : list Event) : list WorkItem :=
  omap (fun ev => match ev with Delivered i => Some i | Found _ => None end) evs.
Definition found (evs : list Event) : list PendingSubmit :=
  omap (fun ev => match ev with Found s => Some s | Delivered _ => None end) evs.

Lemma delivered_map l : delivered (map Delivered l) = l /\ found (map Delivered l) = [].
Proof. unfold delivered, found. induction l as [|x l [IH1 IH2]]; [done|]. cbn [map omap list_omap]. by rewrite IH1. Qed.

Lemma found_map l : delivered (map Found l) = [] /\ found (map Found l) = l.
Proof. unfold delivered, found. induction l as [|x l [IH1 IH2]]; [done|]. cbn [map omap list_omap]. by rewrite IH2. Qed.

(** A step stores exactly the items it delivers and enqueues exactly the shares it finds. *)
Lemma sys_event_grown L evs s s' :
  sys_inv L (s_items s) (s_main s) -> sys_event (J := J) hash rpc cfg env auto evs s s' ->
  sys_inv L (s_items s') (s_main s') /\ s_items s' = s_items s ++ delivered evs /\
  Forall (share_ok (s_items s)) (found evs) /\
  SubmitRouter.outbox (m_world (s_main s')) = fold_left enqueue (found evs) <$> SubmitRouter.outbox (m_world (s_main s)).
Proof.
  intros I S.
  assert (forall fs (st st' : MainState K R), grown L (s_items s) fs st st' -> forall evs, delivered evs = [] -> found evs = fs ->
    sys_inv L (s_items s) st' /\ s_items s = s_items s ++ delivered evs /\ Forall (share_ok (s_items s)) (found evs) /\
    SubmitRouter.outbox (m_world st') = fold_left enqueue (found evs) <$> SubmitRouter.outbox (m_world st)) as A.
  { intros fs st st' (I' & F' & E') evs' -> ->. by rewrite app_nil_r. }
  destruct S as [ph st G sid c r c' now line r' Es El|ph st G sid c r c' r' Es Ee|ph st G g gbt g' Eg Et
    |st G st1 st' Ep Ef|e st G st' Hm Em|st G line now order now_steady st' reply Ec]; cbn [s_items s_main] in *.
  - assert (wf_runner r /\ untimed r -> wf_runner r' /\ untimed r') as Hr.
    { intros [Hw Hu]. pose proof (handle_line_wf hash hash_u64 now line r Hw) as Hw'. rewrite El in Hw'.
      pose proof (handle_line_untimed hash now line r Hu) as Hu'. by rewrite El in Hu'. }
    pose proof (Hr (si_runners _ _ _ I _ _ _ Es)) as [_ Hu']. rewrite deliver_untimed by done.
    eapply A; [|done|reflexivity].
    eapply sys_inv_quiet; [exact I| |done|done|apply I|apply I]. by apply (world_did_source (m_world st) sid c r c' r').
  - eapply A; [|done|reflexivity]. apply sys_inv_wiring; [done|]. eapply world_did_source; [exact Es|]. by apply session_event_wf.
  - eapply A; [|done|reflexivity].
    split; [|split; [done|by destruct (SubmitRouter.outbox (m_world st)) eqn:E; cbn; rewrite E]].
    destruct I. split; try done. intros g1 [= <-].
    pose proof (handle_template_wf hash hash_u64 gbt g (si_gbt0 g Eg)) as Hw. by rewrite Et in Hw.
  - destruct (poll_slots_inv L G st (seq 0 (length (srcs st))) st1) as [I' E']; [exact I| |exact Ep|].
    { apply list.Forall_forall. intros k Hk%elem_of_seq. lia. }
    destruct (delivered_map (polled (seq 0 (length (srcs st))) st)) as [-> ->].
    rewrite <- E'. by destruct (check_first_slot_inv L _ auto st1 st' I' Ef) as (I2 & _ & E2).
  - destruct (found_map (round_shares (J := J) cfg env e st)) as [F1 F2]. eapply A; [by eapply mine_round_inv|done|done].
  - destruct (found_map (typed_shares cfg line st)) as [F1 F2]. eapply A; [|done|exact F2]. rewrite <- (app_nil_r (typed_shares _ _ _)).
    eapply grown_trans; [by eapply command_inv|]. apply dump_metrics_inv.
Qed.

Lemma sys_step_inv L s s' :
  sys_inv L (s_items s) (s_main s) -> sys_step (J := J) hash rpc cfg env auto s s' ->
  sys_inv L (s_items s') (s_main s').
Proof. intros I [evs S]. apply (sys_event_grown L evs s s' I S). Qed.

Lemma sys_reachable_inv L s s' :
  sys_inv L (s_items s) (s_main s) -> rtc (sys_step (J := J) hash rpc cfg env auto) s s' ->
  sys_inv L (s_items s') (s_main s').
Proof. intros I S. induction S as [s|s s1 s' S1 S IH]; [done|]. apply IH. by eapply sys_step_inv. Qed.

End Reachable.
