(* ===== verification/Guarantees.v ===== *)
(** * What the running miner guarantees

    The start-up establishes the system's invariant; every reachable state keeps it.  A
    poll always ends and empties the queues.  A verified hit reaches the pool its job came
    from; no acceptance is ever reported. *)

From stdpp Require Import base numbers list option gmap strings relations.
From S2P Require Import Prelude FileSys Endian Targets Sha256 CpuVerify Outbox SubmitRouter Registry Normalizer Scheduler Json Ledger Hex Text GbtSubmitter Adapters LaunchPlan Net StratumRunner Config GbtRunner Obs Wellformed Floats DeviceDiag DeviceQuery Runner Miner System.
From S2P Require Device DeviceTypes.

Open Scope Z_scope.

#[local] Abbreviation drop := list.drop.

(** ** Start-up *)

Lemma read_wf n bytes a b : is_bytes bytes -> read n bytes = Some (a, b) -> length a = n /\ is_bytes a /\ is_bytes b.
Proof.
  unfold read. intros Hb. destruct (Nat.leb_spec n (length bytes)); [|done]. intros [= <- <-].
  rewrite length_take. split; [lia|]. split; [by apply Forall_take|by apply Forall_drop].
Qed.

Lemma read_record_wf bytes s rest :
  is_bytes bytes -> read_record bytes = Some (s, rest) -> wf_submit s /\ is_bytes rest.
Proof.
  intros Hb E. unfold read_record in E.
  destruct (read 8 bytes) as [[w b1]|] eqn:E1; [|done]. cbn [mbind option_bind] in E.
  apply read_wf in E1 as (Hw & Hwb & Hb1); [|done].
  destruct (read 4 b1) as [[n b2]|] eqn:E2; [|done]. cbn [mbind option_bind] in E.
  apply read_wf in E2 as (Hn & Hnb & Hb2); [|done].
  destruct (read 80 b2) as [[h b3]|] eqn:E3; [|done]. cbn [mbind option_bind] in E.
  apply read_wf in E3 as (Hh & Hhb & Hb3); [|done]. injection E as <- <-. split; [|done].
  pose proof (le_val_range w Hwb) as Rw. pose proof (le_val_range n Hnb) as Rn. rewrite Hw in Rw. rewrite Hn in Rn.
  split; cbn; [unfold in_u; lia|unfold in_u; lia|done].
Qed.

Lemma load_loop_wf fuel bytes o : is_bytes bytes -> wf_outbox o -> wf_outbox (load_loop fuel bytes o).
Proof.
  revert bytes o. induction fuel as [|fuel IH]; intros bytes o Hb Ho; [done|]. cbn [load_loop].
  destruct (read_record bytes) as [[s rest]|] eqn:E; [|done].
  apply read_record_wf in E as [Hs Hr]; [|done]. apply IH; [done|by apply enqueue_wf].
Qed.

(** The world the start-up reaches: a well-formed outbox, the sources of the
    configuration, no work mapped. *)
Definition started {K} (l : list (Source K)) (w : World (Wiring K)) : Prop :=
  (forall o, SubmitRouter.outbox w = Some o -> wf_outbox o) /\
  sources (rest w) = l /\ workid_to_source (rest w) = ∅.

Section Start.
Context {K J R : Type} `{ISocket K, Json J}.
Context (cfg : AppConfig) (env : Env).

Lemma outbox_startup_started path ocfg now (w : Wiring K) :
  (forall b, files w !! path = Some b -> is_bytes b) -> workid_to_source w = ∅ ->
  started (sources w) (outbox_startup env path ocfg now w).
Proof.
  intros Hf Hm. unfold outbox_startup. destruct (outbox_rotate_on_start ocfg).
  - destruct (rotate_outbox_if_needed _ _ _ _ _ _ _) as [fs last]. split; [|done].
    intros o [= <-]. apply init_wf.
  - split; [|done]. intros o [= <-]. unfold Outbox.loadFromFile. destruct (files w !! path) as [b|] eqn:E; [|apply init_wf].
    apply load_loop_wf; [by apply Hf|apply init_wf].
Qed.

Lemma replay_started path ocfg now l n (w : World (Wiring K)) :
  started l w -> started l (replay_loop (J := J) env path ocfg now n w).
Proof.
  revert w. induction n as [|n IH]; intros w Hw; [done|]. cbn [replay_loop].
  destruct (SubmitRouter.outbox w) as [o|] eqn:Eo; [|done]. destruct Hw as (Ho & Hs & Hm).
  specialize (Ho o Eo). pose proof (tryDequeue_wf o Ho) as Ho'.
  destruct (tryDequeue o) as [o' [s|]] eqn:Ed; cbn [fst] in Ho'; [|by split; [intros ? [= <-]|]].
  assert (wf_submit s) as Hws.
  { unfold tryDequeue in Ed. destruct (Outbox.q_ o) as [|s' q] eqn:Eq; [done|]. injection Ed as _ <-.
    pose proof (wf_entries o Ho) as He. rewrite Eq in He. by inversion He. }
  apply IH. unfold routeRaw, record_pending. cbn [SubmitRouter.outbox fst].
  destruct (persist_sources env path ocfg now
    (SubmitRouter.mkHitRecord (Outbox.work_id s) (Outbox.nonce s) (Outbox.header80 s)) (rest w)) as [E1 E2].
  unfold submit_callback, route_to_source. cbn [rest SubmitRouter.outbox]. rewrite Hm, lookup_empty.
  split; [|cbn [rest]; by rewrite E1, E2]. intros o1 [= <-]. apply enqueue_wf; [by destruct s|done].
Qed.

Definition wf_opt32 (o : option Z) : Prop := forall v, o = Some v -> is_u32 v.

(** What [loadFromJsonFile] gives for a policy. *)
Record wf_policy (p : PolicyCfg) : Prop := {
  wpol_mask : wf_opt32 (pol_version_mask p);
  wpol_min : wf_opt32 (pol_ntime_min p);
  wpol_max : wf_opt32 (pol_ntime_max p);
  wpol_share : wf_opt32 (pol_share_nbits p) }.

Lemma pool_adapter_wf p : wf_policy (pool_policy p) -> wf_adapter (pool_adapter p).
Proof.
  intros []. unfold pool_adapter.
  assert (forall o, wf_opt32 o -> is_u32 (default 0 o)) as Hd.
  { intros [v|] Hv; [by apply Hv|]. unfold in_u. cbn. lia. }
  set (a0 := forceCleanJobs _ _).
  assert (wf_adapter a0) as A0 by (split; cbn; try (unfold in_u; lia); constructor). clearbody a0.
  set (a1 := match pol_version_mask _ with Some m => _ | None => _ end).
  assert (wf_adapter a1) as A1.
  { unfold a1. destruct (pol_version_mask _) as [m|]; [|done]. destruct A0. split; cbn -[in_u]; try assumption.
    by apply wpol_mask0. }
  clearbody a1. set (a2 := match pol_ntime_min _ with Some _ => _ | None => _ end).
  assert (wf_adapter a2) as A2.
  { unfold a2. pose proof (Hd _ wpol_min0). pose proof (Hd _ wpol_max0).
    destruct (pol_ntime_min _), (pol_ntime_max _); try done; destruct A1; split; cbn -[in_u]; assumption. }
  clearbody a2. destruct (pol_share_nbits _) as [n|]; [|done]. destruct A2. split; cbn -[in_u]; try assumption.
  by apply wpol_share0.
Qed.

Lemma pool_source_runner p c r :
  wf_policy (pool_policy p) -> pool_source (K := K) p = SStratum (Some (c, r)) -> wf_runner r /\ untimed r.
Proof.
  intros Hp. unfold pool_source. destruct (is_gbt p); [done|]. destruct (pool_endpoints p); [done|].
  destruct (credentials p) as [u pw]. intros [= _ <-]. split; [|done].
  split; [by apply pool_adapter_wf|]. cbn. unfold in_u. lia.
Qed.

Lemma scheduler_setup_wf c : wf_scheduler (scheduler_setup c).
Proof.
  unfold scheduler_setup. split; [|split; [apply map_Forall_empty|apply u32_range]]. cbn [source_weight].
  generalize (imap (fun i p => (i, p)) (pools c)) (∅ : gmap Z Z) (map_Forall_empty (fun (_ : Z) w => is_u32 w)).
  induction l as [|x l IH]; intros m Hm; [done|]. cbn [fold_left]. apply IH.
  apply map_Forall_insert_2; [apply u32_range|done].
Qed.

(** The configuration, the outbox file and the device memory the start-up reads. *)
Record start_ok (fs : FS) (buf : list Device.HitRecord) : Prop := {
  so_pools : pools cfg <> [] /\ Z.of_nat (length (pools cfg)) < 2 ^ 32;
  so_policies : Forall (fun p => wf_policy (pool_policy p)) (pools cfg);
  so_outbox : forall b, fs !! outbox_file cfg = Some b -> is_bytes b;
  so_memory : Forall DeviceTypes.typed_hit buf }.

Definition leftover (st : MainState K R) : list PendingSubmit := pending_shares (m_world st).

Lemma main_start_inv ps fs dev buf rpc0 now st :
  start_ok fs buf -> main_start (J := J) cfg env ps fs dev buf rpc0 now = inr st ->
  sys_inv (leftover st) [WorkItem_default] st.
Proof.
  intros [[Hne Hlen] Hpol Hout Hmem]. unfold main_start.
  destruct (WorkSourceRegistry _) as [|reg] eqn:Er; [done|]. cbn [mbind throws_bind].
  set (w := replay_pending _ _ _ _ _).
  assert (started (map pool_source (pools cfg)) w) as (Ho & Hs & Hm).
  { apply replay_started. by apply outbox_startup_started. }
  clearbody w. destruct (seeded_tuning cfg (files (rest w))) as [threads npt]. intros [= <-].
  assert (Registry.size reg = length (pools cfg)) as Hsz.
  { unfold WorkSourceRegistry in Er. destruct (_ =? 0)%nat; [done|]. injection Er as <-.
    unfold Registry.size. rewrite repeat_length. destruct (pools cfg); [done|]. cbn. lia. }
  split; cbn [m_world m_gbt m_reg m_dev m_press].
  - unfold srcs. cbn [m_world m_reg]. rewrite Hs, length_map. by rewrite Hsz.
  - intros sid c r E. rewrite Hs, list_lookup_fmap in E.
    destruct (pools cfg !! sid) as [p|] eqn:Ep; [|done]. injection E as E.
    eapply pool_source_runner; [|exact E]. rewrite Forall_lookup in Hpol. by apply (Hpol sid).
  - intros g Eg. unfold gbt_source in Eg. destruct (List.find is_gbt (pools cfg)) as [p|]; [|done].
    injection Eg as <-. unfold GbtRunner_new. destruct (pool_rpc p); constructor.
  - constructor; [apply item_default_wf|constructor].
  - intros k s E. assert (k < Nat.max 1 (length (pools cfg)))%nat as Hk.
    { destruct (decide (k < Registry.size reg)%nat) as [Hk|Hk]; [lia|]. rewrite get_none in E by lia. done. }
    rewrite (get_fresh _ _ k Er Hk) in E. injection E as <-. split; [by left|].
    split; [split; [reflexivity|in_range]|done].
  - intros wid sid E. rewrite Hm in E. done.
  - intros o E. split; [by apply Ho|]. intros s Hin. left. unfold leftover, pending_shares. cbn [m_world]. by rewrite E.
  - intros b [= <-]. done.
  - split; [|apply scheduler_setup_wf]. intros sid. unfold zget. cbn [src_penalty]. rewrite lookup_empty. cbn. lia.
Qed.

End Start.

(** ** Every reachable state *)

Section Reachable.
Context {K J R : Type} `{ISocket K, Json J}.
Context (hash : list Z -> Z) (rpc : R -> list Z -> J -> R * option J).
Context (cfg : AppConfig) (env : Env) (auto : option (list Z * list Z * list Z)).

Definition runs (st : MainState K R) (s : Sys K R) : Prop :=
  rtc (sys_step (J := J) hash rpc cfg env auto) (mkSys PPoll st [WorkItem_default]) s.

Lemma runs_inv ps fs dev buf rpc0 now st s :
  (forall t, is_u64 (hash t)) -> start_ok cfg fs buf ->
  main_start (J := J) cfg env ps fs dev buf rpc0 now = inr st -> runs st s ->
  sys_inv (leftover st) (s_items s) (s_main s).
Proof.
  intros Hh Hs E Hr. eapply (sys_reachable_inv hash Hh rpc cfg env auto _ _ s); [|exact Hr].
  by eapply main_start_inv.
Qed.

(** C4: after any interleaving of pool messages, templates, rounds and commands, the outbox
    holds no two entries with the same key, and every entry is left over from the last
    run or has been verified: the double hash of its header meets the share target of a
    job with its work identifier that a source delivered. *)
Theorem outbox_only_verified ps fs dev buf rpc0 now st s o :
  (forall t, is_u64 (hash t)) -> start_ok cfg fs buf ->
  main_start (J := J) cfg env ps fs dev buf rpc0 now = inr st -> runs st s ->
  SubmitRouter.outbox (m_world (s_main s)) = Some o ->
  NoDup (map key (Outbox.q_ o)) /\
  forall e, e ∈ Outbox.q_ o -> e ∈ leftover st \/ verified (s_items s) e.
Proof.
  intros Hh Hs E Hr Eo. pose proof (runs_inv ps fs dev buf rpc0 now st s Hh Hs E Hr) as I.
  destruct (si_outbox _ _ _ I o Eo) as [Hw Hq]. split; [apply Hw|exact Hq].
Qed.

(** C6: whatever the pools and the node send, every job the device is given is well formed,
    an active slot holds an item its own source delivered, a work identifier is mapped
    only to a source that delivered it, and penalties stay between 0 and 5. *)
Theorem reachable_jobs_wf ps fs dev buf rpc0 now st s :
  (forall t, is_u64 (hash t)) -> start_ok cfg fs buf ->
  main_start (J := J) cfg env ps fs dev buf rpc0 now = inr st -> runs st s ->
  let main := s_main s in
  Forall wf_item (s_items s) /\
  (forall k snap, Registry.get (m_reg main) k = Some snap -> active (item snap) = true ->
     item snap ∈ s_items s /\ source_id (item snap) = Z.of_nat k /\ Device.wf_job (device_job snap)) /\
  (forall wid sid, workid_to_source (rest (m_world main)) !! wid = Some sid ->
     sid < Z.of_nat (length (srcs main)) /\
     exists i, i ∈ s_items s /\ work_id i = wid /\ source_id i = sid) /\
  (forall sid, 0 <= zget (src_penalty (m_press main)) sid <= 5).
Proof.
  intros Hh Hs E Hr main. pose proof (runs_inv ps fs dev buf rpc0 now st s Hh Hs E Hr) as I. fold main in I.
  split; [apply I|]. split; [|split; [|apply I]].
  - intros k snap Ek Ha. destruct (si_slots _ _ _ I _ _ Ek) as (Hi & Hc & Hsrc).
    split; [done|]. split; [by apply Hsrc|]. apply device_job_wf; [|done].
    pose proof (si_items _ _ _ I) as Hw. rewrite list.Forall_forall in Hw. by apply Hw.
  - intros wid sid Em. destruct (si_map _ _ _ I _ _ Em) as (i & Hi & Hw & Hid & Hlt).
    split; [done|]. by exists i.
Qed.

(** C40: whatever the pools send and however many shares are submitted, from hits or from
    the console, no runner of a reachable state has called its acceptance callback, the
    submit latency is 0 and no submission is being timed: the time of a submit is never
    recorded, and both are guarded by it. *)
Theorem acceptance_never_reported ps fs dev buf rpc0 now st s sid c r :
  (forall t, is_u64 (hash t)) -> start_ok cfg fs buf ->
  main_start (J := J) cfg env ps fs dev buf rpc0 now = inr st -> runs st s ->
  srcs (s_main s) !! sid = Some (SStratum (Some (c, r))) ->
  reported r = [] /\ avg_submit_ms_ r = 0 /\ last_submit_sent_ r = 0.
Proof.
  intros Hh Hs E Hr Es. pose proof (runs_inv ps fs dev buf rpc0 now st s Hh Hs E Hr) as I.
  by destruct (si_runners _ _ _ I _ _ _ Es) as [_ (? & ? & ?)].
Qed.

End Reachable.

(** ** A poll of every source *)

Section PollAll.
Context {K R : Type}.
Implicit Types st : MainState K R.

Lemma slot_polled_queue sid st st' k :
  slot_polled sid st st' -> k <> sid ->
  queue_of st' k = queue_of st k \/
  (srcs st !! sid = Some SGbt /\ srcs st !! k = Some SGbt /\ queue_of st' k = []).
Proof.
  intros P Hk. unfold queue_of. rewrite (sp_other _ _ _ P k Hk).
  destruct (srcs st !! k) as [[[[c r]|]|]|]; [by left..| |by left].
  destruct (sp_gbt _ _ _ P) as [->|(g & Hg & E & ->)]; [by left|]. by right.
Qed.

Definition is_sgbt (s : option (Source K)) : Prop := s = Some SGbt.

Lemma slot_polled_kind sid st st' k : slot_polled sid st st' -> is_sgbt (srcs st' !! k) <-> is_sgbt (srcs st !! k).
Proof.
  intros P. unfold is_sgbt. destruct (decide (k = sid)) as [->|Hk].
  - rewrite (sp_same _ _ _ P). by destruct (srcs st !! sid) as [[[[c r]|]|]|].
  - by rewrite (sp_other _ _ _ P k Hk).
Qed.

Lemma slot_polled_get sid st st' :
  slot_polled sid st st' ->
  (forall k, k <> sid \/ queue_of st sid = [] -> Registry.get (m_reg st') k = Registry.get (m_reg st) k) /\
  (forall q r, queue_of st sid = q ++ [r] -> exists g,
     Registry.get (m_reg st') sid = Some (mkWorkSlotSnapshot g (slot_item_of sid r) (res_job_const r))).
Proof.
  intros P. destruct (sets_one_slot _ _ _ _ (sp_sets _ _ _ P)) as [Ho Hl]. split; [|exact Hl].
  intros k [Hk|Hq]; [by apply Ho|]. pose proof (sp_sets _ _ _ P) as E. rewrite Hq in E. by injection E as <-.
Qed.

Lemma poll_slots_spec sids st :
  NoDup sids -> Forall (fun k => (k < Registry.size (m_reg st))%nat) sids ->
  exists st', poll_slots sids st = Some (inr st') /\
    (forall k, k ∈ sids \/ queue_of st k = [] -> queue_of st' k = []) /\
    (forall k, k ∉ sids \/ queue_of st k = [] -> Registry.get (m_reg st') k = Registry.get (m_reg st) k) /\
    (forall a k b q r, sids = a ++ k :: b ->
       (is_sgbt (srcs st !! k) -> Forall (fun j => ~ is_sgbt (srcs st !! j)) a) ->
       queue_of st k = q ++ [r] ->
       exists g, Registry.get (m_reg st') k = Some (mkWorkSlotSnapshot g (slot_item_of k r) (res_job_const r))).
Proof.
  revert st. induction sids as [|sid sids IH]; intros st Hnd Hs.
  - exists st. split; [done|]. split; [by intros k [?%not_elem_of_nil|]|]. split; [done|].
    by intros [|] ? ? ? ? ?.
  - apply NoDup_cons in Hnd as [Hin Hnd]. inversion_clear Hs as [|? ? Hsid Hs'].
    destruct (poll_slot_spec sid st Hsid) as (st1 & E1 & P). cbn [poll_slots]. rewrite E1. cbn [mbind option_bind].
    destruct (slot_polled_get sid st st1 P) as [Hother Hlast].
    assert (Registry.size (m_reg st1) = Registry.size (m_reg st)) as Hsz.
    { destruct (sets_ok (m_reg st) (map (stored sid) (queue_of st sid))) as (r & E & Hr).
      { apply Forall_map, list.Forall_forall. intros r _. exact Hsid. }
      rewrite (sp_sets _ _ _ P) in E. by injection E as <-. }
    assert (forall k, k = sid \/ queue_of st k = [] -> queue_of st1 k = []) as Hq.
    { intros k. destruct (decide (k = sid)) as [->|Hk]; [by rewrite (sp_empty _ _ _ P)|].
      intros [?|Hq]; [done|]. destruct (slot_polled_queue sid st st1 k P Hk) as [->|(_ & _ & ->)]; done. }
    destruct (IH st1 Hnd) as (st' & E' & Hq' & Hg' & Hl'); [by rewrite Hsz|].
    exists st'. split; [exact E'|]. split; [|split].
    + intros k Hk. apply Hq'. rewrite elem_of_cons in Hk. destruct Hk as [[->|Hk]|Hk]; [right; by apply Hq; left|by left|].
      right. apply Hq. by right.
    + intros k Hk. rewrite Hg'.
      * apply Hother. rewrite not_elem_of_cons in Hk. destruct Hk as [[? _]|Hk]; [by left|].
        destruct (decide (k = sid)) as [->|]; [by right|by left].
      * rewrite not_elem_of_cons in Hk. destruct Hk as [[_ ?]|Hk]; [by left|]. right. apply Hq. by right.
    + intros [|a0 a] k b q r Es Hf Hqk; injection Es as -> Es.
      * destruct (Hlast q r Hqk) as [g Eg]. exists g. rewrite Hg'; [exact Eg|]. by left.
      * assert (k <> a0) as Hne by (intros ->; apply Hin; rewrite Es; set_solver).
        apply (Hl' a k b q r Es).
        -- intros Hk. apply (slot_polled_kind _ _ _ k P) in Hk. specialize (Hf Hk). inversion_clear Hf as [|? ? _ Hf'].
           eapply Forall_impl; [exact Hf'|]. intros j Hj Hj'. by apply Hj, (slot_polled_kind _ _ _ j P).
        -- destruct (slot_polled_queue a0 st st1 k P Hne) as [->|(H1 & H2 & _)]; [done|].
           specialize (Hf H2). inversion_clear Hf. done.
Qed.

Lemma poll_sources_spec st :
  length (srcs st) = Registry.size (m_reg st) ->
  exists st', poll_sources st = Some (inr st') /\
    (forall k, (k < length (srcs st))%nat -> queue_of st' k = []) /\
    (forall k, queue_of st k = [] -> Registry.get (m_reg st') k = Registry.get (m_reg st) k) /\
    (forall k q r, (k < length (srcs st))%nat -> queue_of st k = q ++ [r] ->
       (srcs st !! k = Some SGbt -> forall j, (j < k)%nat -> srcs st !! j <> Some SGbt) ->
       exists g, Registry.get (m_reg st') k = Some (mkWorkSlotSnapshot g (slot_item_of k r) (res_job_const r))).
Proof.
  intros Hl. destruct (poll_slots_spec (seq 0 (length (srcs st))) st) as (st' & E & Hq & Hg & Hlast).
  - apply NoDup_seq.
  - apply list.Forall_forall. intros k Hk%elem_of_seq. lia.
  - exists st'. split; [exact E|]. split; [|split].
    + intros k Hk. apply Hq. left. apply elem_of_seq. lia.
    + intros k Hk. apply Hg. by right.
    + intros k q r Hk Hqk Hfirst.
      assert (seq 0 (length (srcs st)) = seq 0 k ++ k :: seq (S k) (length (srcs st) - S k)) as Es.
      { replace (length (srcs st)) with (k + S (length (srcs st) - S k))%nat at 1 by lia. rewrite seq_app. done. }
      apply (Hlast _ k _ q r Es); [|done]. intros Hsg. apply list.Forall_forall. intros j Hj%elem_of_seq.
      apply (Hfirst Hsg). lia.
Qed.

(** C13: a poll of all sources always ends without an exception, and leaves every queue
    empty.  A slot whose queue was empty keeps its content; one with results holds the
    last, under the slot's number and active.  Of the slots that share the node's adapter
    the first takes everything. *)
Theorem poll_sources_drains st :
  length (srcs st) = Registry.size (m_reg st) ->
  exists st', poll_sources st = Some (inr st') /\
    (forall k, (k < length (srcs st))%nat -> queue_of st' k = []) /\
    (forall k, queue_of st k = [] -> Registry.get (m_reg st') k = Registry.get (m_reg st) k) /\
    (forall k q r, (k < length (srcs st))%nat -> queue_of st k = q ++ [r] ->
       (srcs st !! k = Some SGbt -> forall j, (j < k)%nat -> srcs st !! j <> Some SGbt) ->
       exists g, Registry.get (m_reg st') k = Some (mkWorkSlotSnapshot g (slot_item_of k r) (res_job_const r))).
Proof. apply poll_sources_spec. Qed.

End PollAll.

(** ** From a hit to the pool *)

Section HitToPool.
Context {K J R : Type} `{SocketLaws K, JsonLaws J}.
Context (rpc : R -> list Z -> J -> R * option J).
Context (env : Env) (path : string) (cfg : OutboxCfg) (now : Z).

Lemma host_header_fields i n :
  take 4 (drop 68 (host_header i n)) = be_bytes32 (ntime i) /\
  take 4 (drop 76 (host_header i n)) = be_bytes32 n.
Proof.
  unfold host_header. set (a := be_bytes32 (version i)).
  set (p := leU32WordsToBe32Bytes (prevhash_le i)). set (m := leU32WordsToBe32Bytes (merkle_root_le i)).
  assert (length (a ++ p ++ m) = 68%nat) as Hl
    by (rewrite !length_app; unfold p, m; rewrite !leU32WordsToBe32Bytes_length; reflexivity).
  replace (a ++ p ++ m ++ be_bytes32 (ntime i) ++ be_bytes32 (nbits i) ++ be_bytes32 n)
    with ((a ++ p ++ m) ++ be_bytes32 (ntime i) ++ be_bytes32 (nbits i) ++ be_bytes32 n)
    by (by rewrite <- !app_assoc).
  rewrite !drop_app_ge, Hl by lia. done.
Qed.

(** The message for a share of item [i] at nonce [n]. *)
Definition share_message (worker job : list Z) (en2_size : Z) (i : WorkItem) (n : Z) : J :=
  request 3 (str "mining.submit")
    [jstring worker; jstring job; jstring (repeat 48 (2 * Z.to_nat en2_size));
     jstring (bytesToHex (be_bytes32 (ntime i))); jstring (bytesToHex (be_bytes32 n))].

(** Its strings are hexadecimal but for the worker and the job, which a configuration and
    a notification gave. *)
Lemma share_encodable worker job en2_size i n :
  utf8_ok worker = true -> utf8_ok job = true -> encodable (share_message worker job en2_size i n) = true.
Proof.
  intros Hw Hj. assert (encodable (jstring (J := J) (repeat 48 (2 * Z.to_nat en2_size))) = true) as He.
  { rewrite encodable_jstring. apply utf8_ascii, list.Forall_forall.
    intros x Hx%list_elem_of_In%repeat_spec. subst. lia. }
  apply encodable_object; [reflexivity|]. repeat (apply Forall_cons; split; [split; [reflexivity|]|]); [..|constructor]; cbn [snd].
  - apply encodable_u32. in_range.
  - by rewrite encodable_jstring.
  - rewrite encodable_jarray. cbn [forallb]. rewrite He, !encodable_jstring, Hw, Hj, !bytesToHex_utf8. done.
Qed.

(** The line of a share. *)
Definition share_line (c : StratumClient K) (r : StratumRunner) (i : WorkItem) (n : Z) : list Z :=
  dump (share_message (cl_username_ c) (last_job_id_ r) (extranonce2_size_ (adapter_ r)) i n) ++ [13; 10].

Lemma send_share_spec c k r i n :
  Net.sock_ c = Some k -> up k -> last_job_id_ r <> [] ->
  utf8_ok (cl_username_ c) = true -> utf8_ok (last_job_id_ r) = true ->
  let line := share_line c r i n in
  exists k', send_share (J := J) (host_header i n) (Some c) r = (Some (set_sock c (Some k')), r) /\ up k' /\
    (takes_all k line -> written k' = written k ++ line) /\ exists m, written k' = written k ++ take m line.
Proof.
  intros Hk Hu Hj Hcu Hcj. unfold send_share, submitFromHeader, submitShare, share_line.
  destruct (last_job_id_ r) as [|b job] eqn:E; [done|].
  destruct (host_header_fields i n) as [E1 E2].
  unfold sendSubmit, toHex8. rewrite E1, E2.
  fold (share_message (cl_username_ c) (b :: job) (extranonce2_size_ (adapter_ r)) i n).
  pose proof (share_encodable _ _ (extranonce2_size_ (adapter_ r)) i n Hcu Hcj) as He.
  set (msg := share_message _ _ _ _ _) in *. unfold sendJson. rewrite Hk, dump_text_ok by done.
  destruct (send_all_spec (length (dump msg ++ [13; 10])) k (dump msg ++ [13; 10]) Hu ltac:(lia))
    as (k' & ok & m & Es & Hu' & _ & Hw & Hok). rewrite Es. cbn [mbind option_bind]. exists k'.
  split; [done|]. split; [done|]. split; [|by exists m]. intros Ha.
  rewrite Hw, Hok, firstn_all; [done|]. by apply (send_all_takes _ _ _ _ _ Hu (Nat.le_refl _) Es).
Qed.


End HitToPool.

(** ** Runs *)

Import Concrete.

Definition all_allowed : Env := mkEnv (fun _ => true) (fun _ _ => true) (fun _ _ => true).
Definition no_rpc (r : unit) (_ : list Z) (_ : Jv) : unit * option Jv := (r, None).

Definition demo_start : MainState Script unit :=
  match main_start (J := Jv) gbt_config all_allowed sample_props ∅ Device.Device_init (repeat (Device.mkHit 0 0) 4) tt 5000 with
  | inr st => st
  | inl _ => mkMain (mkWorld None (mkWiring ∅ ∅ [] 0)) None [] Device.Device_init 0
               (mkPressure ∅ ∅ ∅ SchedulerState_init) 0 0 0 0 tt MetricsRegistry_init ∅ 0 0 0 [] false (double_of_Z 0) 0 0
  end.

Lemma demo_started :
  main_start (J := Jv) gbt_config all_allowed sample_props ∅ Device.Device_init (repeat (Device.mkHit 0 0) 4) tt 5000 = inr demo_start.
Proof. vm_compute. reflexivity. Qed.

Definition demo_template : Jv :=
  JObj [("previousblockhash"%string, JStr (str "00")); ("version"%string, JNum 2);
        ("bits"%string, JStr (str "207fffff")); ("curtime"%string, JNum 1700000000)].

Definition demo_env : RoundEnv :=
  mkRoundEnv 3000 5 sample_props [] (@concat _) [] [] 0 0 0 (fun _ => []).

Definition demo_header : list Z := repeat 0 79 ++ [1].
Definition demo_line : list Z := str "submit_header " ++ bytesToHex demo_header.


(** A template becomes a job, a round runs, and a header typed at the console is
    verified and queued. *)
Lemma demo_run :
  exists s, runs (J := Jv) (fun _ => 7) no_rpc gbt_config all_allowed None demo_start s /\
    s_phase s = PPoll /\
    exists o, SubmitRouter.outbox (m_world (s_main s)) = Some o /\
      Outbox.q_ o = [mkPendingSubmit 7 1 demo_header].
Proof.
  eexists. split.
  { eapply rtc_l; [eexists; eapply (step_template _ _ _ _ _ _ _ _ _ demo_template); vm_compute; reflexivity|].
    eapply rtc_l; [eexists; eapply step_poll; [vm_compute; reflexivity|vm_compute; reflexivity]|].
    eapply rtc_l; [eexists; eapply (step_mine _ _ _ _ _ demo_env); [intros ls; reflexivity|vm_compute; reflexivity]|].
    eapply rtc_l; [eexists; eapply (step_command _ _ _ _ _ _ _ demo_line 5000 (fun _ => []) 5000); vm_compute; reflexivity|].
    apply rtc_refl. }
  split; [reflexivity|]. vm_compute. eexists. split; reflexivity.
Qed.

Lemma demo_start_ok : start_ok gbt_config ∅ (repeat (Device.mkHit 0 0) 4).
Proof.
  split.
  - split; [discriminate|vm_compute; reflexivity].
  - constructor; [split; intros v E; discriminate E|constructor].
  - intros b E. rewrite lookup_empty in E. discriminate E.
  - repeat constructor; vm_compute; discriminate.
Qed.

Lemma outbox_only_verified_witness :
  exists s o, runs (J := Jv) (fun _ => 7) no_rpc gbt_config all_allowed None demo_start s /\
    SubmitRouter.outbox (m_world (s_main s)) = Some o /\
    Outbox.q_ o = [mkPendingSubmit 7 1 demo_header] /\
    (mkPendingSubmit 7 1 demo_header ∈ leftover demo_start \/
     verified (s_items s) (mkPendingSubmit 7 1 demo_header)).
Proof.
  destruct demo_run as (s & Hr & _ & o & Eo & Eq). exists s, o.
  destruct (outbox_only_verified (fun _ => 7) no_rpc gbt_config all_allowed None sample_props ∅ Device.Device_init
    (repeat (Device.mkHit 0 0) 4) tt 5000 demo_start s o) as [_ Hv].
  - intros t. in_range.
  - exact demo_start_ok.
  - exact demo_started.
  - exact Hr.
  - exact Eo.
  - split; [exact Hr|]. split; [exact Eo|]. split; [exact Eq|]. apply Hv. rewrite Eq. by left.
Defined.

Lemma reachable_jobs_wf_witness :
  exists s, runs (J := Jv) (fun _ => 7) no_rpc gbt_config all_allowed None demo_start s /\
    s_phase s = PPoll /\ Forall wf_item (s_items s).
Proof.
  destruct demo_run as (s & Hr & Hp & _). exists s.
  destruct (reachable_jobs_wf (fun _ => 7) no_rpc gbt_config all_allowed None sample_props ∅ Device.Device_init
    (repeat (Device.mkHit 0 0) 4) tt 5000 demo_start s) as [Hw _].
  - intros t. in_range.
  - exact demo_start_ok.
  - exact demo_started.
  - exact Hr.
  - split; [exact Hr|]. split; [exact Hp|exact Hw].
Defined.

(** One Stratum source with a job waiting. *)
Definition waiting_state : MainState Script unit :=
  mkMain (mkWorld None (mkWiring ∅ ∅
      [SStratum (Some (None, StratumRunner_init
         (with_q StratumAdapter_init [mkNormalizerResult sample_item GpuJobConst_default]) true))] 0))
    None (repeat WorkSlot_default 1) Device.Device_init 0 (mkPressure ∅ ∅ ∅ SchedulerState_init)
    0 0 0 0 tt MetricsRegistry_init ∅ 0 0 0 [] false (double_of_Z 0) 0 0.

Lemma poll_sources_drains_witness :
  exists st', poll_sources waiting_state = Some (inr st') /\ queue_of st' 0 = [] /\
    exists g, Registry.get (m_reg st') 0 = Some (mkWorkSlotSnapshot g
      (slot_item_of 0 (mkNormalizerResult sample_item GpuJobConst_default)) GpuJobConst_default).
Proof.
  destruct (poll_sources_drains waiting_state) as (st' & E & Hq & _ & Hl); [reflexivity|].
  exists st'. split; [exact E|]. split; [apply Hq; cbn; lia|].
  apply (Hl 0%nat [] (mkNormalizerResult sample_item GpuJobConst_default)); [cbn; lia|reflexivity|].
  intros E0. discriminate E0.
Defined.

(** A session with an authorised job, and a hit with an easy target. *)
Definition easy_snap : WorkSlotSnapshot :=
  mkWorkSlotSnapshot 1
    (mkWorkItem 7 0 536870912 1700000000 486604799 0 (repeat 1 8) (repeat 2 8)
      (repeat 4294967295 8) (repeat 0 8) 0 0 0 4 true true false) GpuJobConst_default.

Definition live_session : Source Script :=
  SStratum (Some (Some (pool_client (mkScript [] [] 9)), set_job (str "job") [] 4 (StratumRunner_init StratumAdapter_init true))).


(** A pool session: connected, given a job, a share submitted from the console, and the
    pool's acceptance of it. *)
Definition stratum_pool : PoolEntry :=
  mkPoolEntry (str "pool") (str "viabtc") WalletAsUser 1 (str "w") [] (str "x") (str "p")
    [mkEndpoint (str "pool") 3333 false] None None PolicyCfg_default.
Definition stratum_config : AppConfig :=
  mkAppConfig 2 [stratum_pool] SchedulerCfg_default MetricsCfg_default TlsCfg_default CudaCfg_default
    OutboxCfg_default LedgerCfg_default.

Definition pool_start : MainState Script unit :=
  match main_start (J := Jv) stratum_config all_allowed sample_props ∅ Device.Device_init (repeat (Device.mkHit 0 0) 4) tt 5000 with
  | inr st => st
  | inl _ => demo_start
  end.

Definition job_notice : list Z :=
  dump (method_message (str "mining.notify") (jarray [jstring (str "job")] : Jv)).
Definition acceptance : list Z := dump (JObj [("id"%string, JNum 3); ("result"%string, JBool true)]).

(** The socket after the submission. *)
Definition sent_share : Script :=
  match submitShare (J := Jv) (Some (pool_client (mkScript [] [] 9))) (set_job (str "job") [] 0 (StratumRunner_init StratumAdapter_init true))
          (str "00000000") (str "00000001") (str "00000002") with
  | Some (_, (Some c, _)) => default (mkScript [] [] 9) (Net.sock_ c)
  | _ => mkScript [] [] 9
  end.

Lemma pool_run :
  exists s c r k, runs (J := Jv) (fun _ => 7) no_rpc stratum_config all_allowed None pool_start s /\
    srcs (s_main s) !! 0%nat = Some (SStratum (Some (Some c, r))) /\ Net.sock_ c = Some k /\
    written k <> [] /\ accepted_submits_ r = 1.
Proof.
  eexists _, _, _, _. split.
  { eapply rtc_l; [eexists; eapply step_session with (sid := 0%nat) (c' := Some (pool_client (mkScript [] [] 9)));
      [vm_compute; reflexivity|apply se_connected]|].
    eapply rtc_l; [eexists; eapply step_line with (sid := 0%nat) (c' := Some (pool_client (mkScript [] [] 9))) (now := 5000) (line := job_notice);
      [vm_compute; reflexivity..]|].
    eapply rtc_l; [eexists; eapply step_poll; [vm_compute; reflexivity|vm_compute; reflexivity]|].
    eapply rtc_l; [eexists; eapply (step_mine _ _ _ _ _ demo_env); [intros ls; reflexivity|vm_compute; reflexivity]|].
    eapply rtc_l; [eexists; eapply (step_command _ _ _ _ _ _ _ (str "s 00000000 00000001 00000002") 5000 (fun _ => []) 0); vm_compute; reflexivity|].
    eapply rtc_l; [eexists; eapply step_line with (sid := 0%nat) (c' := Some (pool_client sent_share)) (now := 5000) (line := acceptance);
      [vm_compute; reflexivity..]|].
    apply rtc_refl. }
  split; [vm_compute; reflexivity|]. split; [reflexivity|]. split; [vm_compute; discriminate|reflexivity].
Qed.

Lemma acceptance_never_reported_witness :
  exists s c r, runs (J := Jv) (fun _ => 7) no_rpc stratum_config all_allowed None pool_start s /\
    srcs (s_main s) !! 0%nat = Some (SStratum (Some (Some c, r))) /\
    accepted_submits_ r = 1 /\ reported r = [] /\ avg_submit_ms_ r = 0.
Proof.
  destruct pool_run as (s & c & r & k & Hr & Es & _ & _ & Ha). exists s, c, r.
  destruct (acceptance_never_reported (fun _ => 7) no_rpc stratum_config all_allowed None sample_props ∅ Device.Device_init
    (repeat (Device.mkHit 0 0) 4) tt 5000 pool_start s 0 (Some c) r) as (H1 & H2 & _).
  - intros t. in_range.
  - split.
    + split; [discriminate|vm_compute; reflexivity].
    + constructor; [split; intros v E; discriminate E|constructor].
    + intros b E. rewrite lookup_empty in E. discriminate E.
    + repeat constructor; vm_compute; discriminate.
  - vm_compute. reflexivity.
  - exact Hr.
  - exact Es.
  - split; [exact Hr|]. split; [exact Es|]. split; [exact Ha|]. split; [exact H1|exact H2].
Defined.
