(* ===== verification/Refinement.v ===== *)
(** * The miner refines a book of verified shares

    What the program promises about shares, with nothing of how it works: a book holds the
    work delivered so far, the shares found and the keys it knows.  Two things happen to a
    book: an item is delivered, or a share is found, which is added at the end unless its
    key is known.  The whole miner, with its threads, device, pools, node and console, is
    the book of its trace of events ([sys_event]), event by event. *)

From stdpp Require Import base numbers list option gmap strings relations.
From S2P Require Import Prelude FileSys Endian Targets Sha256 CpuVerify Outbox SubmitRouter Registry Normalizer Scheduler Json Ledger Hex Text GbtSubmitter Adapters LaunchPlan Net StratumRunner Config GbtRunner Obs Wellformed Floats DeviceDiag DeviceQuery Runner Miner System Guarantees.
From S2P Require Device DeviceTypes.

Open Scope Z_scope.

(** ** The specification *)

Record Book := mkBook { b_items : list WorkItem; b_shares : list PendingSubmit; b_keys : gset Z }.

Definition book_apply (b : Book) (ev : Event) : Book :=
  match ev with
  | Delivered i => mkBook (b_items b ++ [i]) (b_shares b) (b_keys b)
  | Found s =>
      if decide (key s ∈ b_keys b) then b
      else mkBook (b_items b) (b_shares b ++ [s]) ({[ key s ]} ∪ b_keys b)
  end.

(** A delivered item is well formed; a share found is verified against a delivered item. *)
Definition lawful (b : Book) (ev : Event) : Prop :=
  match ev with Delivered i => wf_item i | Found s => verified (b_items b) s end.

Fixpoint lawful_trace (b : Book) (evs : list Event) : Prop :=
  match evs with [] => True | ev :: evs => lawful b ev /\ lawful_trace (book_apply b ev) evs end.

(** ** Lemmas on books *)

Lemma lawful_app b evs evs' :
  lawful_trace b (evs ++ evs') <-> lawful_trace b evs /\ lawful_trace (fold_left book_apply evs b) evs'.
Proof.
  revert b. induction evs as [|ev evs IH]; intros b; cbn [app lawful_trace fold_left]; [naive_solver|].
  rewrite IH. naive_solver.
Qed.

(** A book is only ever written at its ends. *)
Lemma book_prefix b evs :
  b_items b `prefix_of` b_items (fold_left book_apply evs b) /\
  b_shares b `prefix_of` b_shares (fold_left book_apply evs b).
Proof.
  revert b. induction evs as [|ev evs IH]; intros b; [done|]. cbn [fold_left].
  destruct (IH (book_apply b ev)) as [I1 I2].
  assert (b_items b `prefix_of` b_items (book_apply b ev) /\ b_shares b `prefix_of` b_shares (book_apply b ev)) as [H1 H2].
  { destruct ev as [i|s]; cbn [book_apply]; [|case_decide]; cbn; split; try done; by apply prefix_app_r. }
  split; by etransitivity.
Qed.

(** A share is added when its key is not known. *)
Lemma book_records b evs1 x evs2 :
  key x ∉ b_keys (fold_left book_apply evs1 b) ->
  x ∈ b_shares (fold_left book_apply (evs1 ++ Found x :: evs2) b).
Proof.
  intros Hk. rewrite fold_left_app. cbn [fold_left]. set (b1 := fold_left book_apply evs1 b) in *.
  destruct (book_prefix (book_apply b1 (Found x)) evs2) as [_ [q ->]]. cbn [book_apply]. rewrite decide_False by done.
  cbn. rewrite !elem_of_app. left. right. by left.
Qed.

(** The book of a trace, by its deliveries and its shares. *)
Lemma book_of_trace evs G o :
  fold_left book_apply evs (mkBook G (Outbox.q_ o) (seen_ o)) =
  let o' := fold_left enqueue (found evs) o in mkBook (G ++ delivered evs) (Outbox.q_ o') (seen_ o').
Proof.
  revert G o. induction evs as [|ev evs IH]; intros G o; [by rewrite app_nil_r|]. cbn [fold_left].
  destruct ev as [i|x]; cbn [book_apply b_items b_shares b_keys].
  - rewrite IH, <- app_assoc. done.
  - change (found (Found x :: evs)) with (x :: found evs). change (delivered (Found x :: evs)) with (delivered evs).
    cbn [fold_left]. unfold enqueue at 2 4. destruct (decide (key x ∈ seen_ o)); [apply IH|].
    exact (IH G (mkOutbox (Outbox.q_ o ++ [x]) ({[ key x ]} ∪ seen_ o))).
Qed.

Lemma lawful_events evs b :
  Forall wf_item (delivered evs) -> Forall (verified (b_items b)) (found evs) -> lawful_trace b evs.
Proof.
  revert b. induction evs as [|ev evs IH]; intros b Hd Hf; cbn [lawful_trace]; [done|].
  assert (forall i, i ∈ b_items b -> i ∈ b_items (book_apply b ev)) as Hm.
  { intros i Hi. destruct (book_prefix b [ev]) as [[l E] _]. cbn [fold_left] in E. rewrite E. apply elem_of_app. by left. }
  destruct ev as [i|x].
  - change (delivered (Delivered i :: evs)) with (i :: delivered evs) in Hd. inversion_clear Hd.
    split; [done|]. apply IH; [done|]. eapply Forall_impl; [exact Hf|]. intros s. by apply verified_mono.
  - change (found (Found x :: evs)) with (x :: found evs) in Hf. inversion_clear Hf as [|? ? Hx Hf'].
    split; [done|]. apply IH; [done|]. eapply Forall_impl; [exact Hf'|]. intros s. by apply verified_mono.
Qed.

(** ** The refinement *)

Section Refines.
Context {K J R : Type} `{ISocket K, Json J}.
Context (hash : list Z -> Z) (hash_u64 : forall t, is_u64 (hash t)).
Context (rpc : R -> list Z -> J -> R * option J).
Context (cfg : AppConfig) (env : Env) (auto : option (list Z * list Z * list Z)).

(** What the specification sees of a state. *)
Definition known_keys (st : MainState K R) : gset Z :=
  match SubmitRouter.outbox (m_world st) with Some o => seen_ o | None => ∅ end.
Definition book_of (s : Sys K R) : Book :=
  mkBook (s_items s) (pending_shares (m_world (s_main s))) (known_keys (s_main s)).

(** The start-up attaches an outbox. *)
Lemma replay_attached path ocfg now n (w : World (Wiring K)) :
  is_Some (SubmitRouter.outbox w) -> is_Some (SubmitRouter.outbox (replay_loop (J := J) env path ocfg now n w)).
Proof.
  revert w. induction n as [|n IH]; intros w Hw; [done|]. cbn [replay_loop].
  destruct (SubmitRouter.outbox w) as [o|]; [|by destruct Hw]. destruct (tryDequeue o) as [o' [s|]]; [|by eexists].
  apply IH. unfold routeRaw, record_pending, submit_callback. by eexists.
Qed.

Lemma main_start_attached ps fs dev buf (rpc0 : R) now st :
  main_start (K := K) (J := J) cfg env ps fs dev buf rpc0 now = inr st -> is_Some (SubmitRouter.outbox (m_world st)).
Proof.
  unfold main_start. destruct (WorkSourceRegistry _) as [|reg]; [done|]. cbn [mbind throws_bind].
  destruct (seeded_tuning cfg _) as [threads npt]. intros [= <-]. cbn [m_world]. apply replay_attached.
  unfold outbox_startup. destruct (outbox_rotate_on_start _); [|by eexists].
  destruct (rotate_outbox_if_needed _ _ _ _ _ _ _). by eexists.
Qed.

(** A run is the book of its trace. *)
Lemma run_simulates L evs s s' :
  sys_inv L (s_items s) (s_main s) -> is_Some (SubmitRouter.outbox (m_world (s_main s))) ->
  sys_run (J := J) hash rpc cfg env auto evs s s' ->
  lawful_trace (book_of s) evs /\ book_of s' = fold_left book_apply evs (book_of s).
Proof.
  intros I Ho S. induction S as [s|evs evs' s s1 s' S1 _ IH]; [done|].
  destruct (sys_event_grown hash hash_u64 rpc cfg env auto L evs s s1 I S1) as (I1 & Ei & Hf & Eo).
  destruct Ho as [o E]. rewrite E in Eo. cbn in Eo.
  assert (book_of s1 = fold_left book_apply evs (book_of s)) as Eb.
  { unfold book_of, pending_shares, known_keys. rewrite E, Eo, Ei. by rewrite book_of_trace. }
  destruct IH as [Hl Eb']; [done|by rewrite Eo|]. rewrite lawful_app, fold_left_app, <- Eb. split; [|done]. split; [|done].
  apply lawful_events.
  - pose proof (si_items _ _ _ I1) as Hw. rewrite Ei in Hw. by apply Forall_app in Hw as [_ Hw].
  - eapply Forall_impl; [exact Hf|]. by intros x [_ Hx].
Qed.

(** C5: the miner is the book of its events.  Whatever the pools, the node, the rounds and the
    console do, the trace of the run, in which a hit the round drains (unless it is a block
    while the node can be sent blocks) or a header typed at the console is a share when it
    meets its item's share target, is lawful, and the items delivered, the entries of the
    outbox and the keys it knows are those of the book after exactly these events, from
    what the start-up left (the queue after the replay has taken up to 128 entries off,
    and the keys of all).  So every share found is in the outbox for good, in the order
    found, unless its key was known when it was found: it was found before, left by the
    last run, or agrees with another in the 32 bits of the key. *)
Theorem miner_refines_book ps fs dev buf rpc0 now st evs s :
  start_ok cfg fs buf -> main_start (J := J) cfg env ps fs dev buf rpc0 now = inr st ->
  sys_run (J := J) hash rpc cfg env auto evs (mkSys PPoll st [WorkItem_default]) s ->
  let book0 := mkBook [WorkItem_default] (leftover st) (known_keys st) in
  lawful_trace book0 evs /\
  book_of s = fold_left book_apply evs book0 /\
  leftover st `prefix_of` b_shares (book_of s) /\
  NoDup (map key (b_shares (book_of s))) /\
  forall evs1 x evs2, evs = evs1 ++ Found x :: evs2 ->
    x ∈ b_shares (book_of s) \/ key x ∈ b_keys (fold_left book_apply evs1 book0).
Proof.
  intros Hs E Hr book0. pose proof (main_start_inv cfg env ps fs dev buf rpc0 now st Hs E) as I.
  pose proof (main_start_attached ps fs dev buf rpc0 now st E) as Ho.
  destruct (run_simulates _ evs (mkSys PPoll st [WorkItem_default]) s I Ho Hr) as [Hl Eb].
  change (book_of (mkSys PPoll st [WorkItem_default])) with book0 in Hl, Eb.
  split; [exact Hl|]. split; [exact Eb|]. split; [rewrite Eb; apply (book_prefix book0 evs)|]. split.
  - pose proof (runs_inv hash rpc cfg env auto ps fs dev buf rpc0 now st s hash_u64 Hs E (steps_of_run _ _ _ _ _ _ _ _ Hr)) as I1.
    unfold book_of, pending_shares. cbn [b_shares]. destruct (SubmitRouter.outbox (m_world (s_main s))) as [o|] eqn:Eo; [|constructor].
    by apply (si_outbox _ _ _ I1 o Eo).
  - intros evs1 x evs2 ->. destruct (decide (key x ∈ b_keys (fold_left book_apply evs1 book0))) as [|Hk]; [by right|].
    left. rewrite Eb. by apply book_records.
Qed.

End Refines.

Import Concrete.

(** A template arrives, a round runs and a header is typed: it enters the book. *)
Lemma miner_refines_book_witness :
  exists s evs, sys_run (J := Jv) (fun _ => 7) no_rpc gbt_config all_allowed None evs
      (mkSys PPoll demo_start [WorkItem_default]) s /\
    b_shares (fold_left book_apply evs (mkBook [WorkItem_default] [] ∅)) = [mkPendingSubmit 7 1 demo_header].
Proof.
  destruct demo_run as (s & Hr & _ & o & Eo & Eq). destruct (run_of_steps _ _ _ _ _ _ _ Hr) as [evs S].
  exists s, evs. split; [exact S|].
  destruct (miner_refines_book (fun _ => 7) ltac:(intros t; in_range) no_rpc gbt_config all_allowed None sample_props ∅
    Device.Device_init (repeat (Device.mkHit 0 0) 4) tt 5000 demo_start evs s) as (_ & B & _).
  - exact demo_start_ok.
  - exact demo_started.
  - exact S.
  - change (leftover demo_start) with (@nil PendingSubmit) in B. change (known_keys demo_start) with (∅ : gset Z) in B.
    rewrite <- B. unfold book_of, pending_shares. cbn [b_shares]. rewrite Eo. exact Eq.
Defined.
