(* ===== verification/Pipeline.v ===== *)
(** * From a notification to a submission

    The parts composed: a notification that becomes a device job, the headers the device
    hashes for it against the one the host verifies, and a mining round that always
    completes and hands the oldest hits, in order, to the submission code. *)

From Stdlib Require Import SpecFloat.
From stdpp Require Import base numbers list option gmap strings.
From S2P Require Import Prelude FileSys Endian Targets Sha256 Outbox SubmitRouter Registry Normalizer Scheduler Json Ledger Adapters LaunchPlan Net StratumRunner Config GbtRunner Obs Wellformed Floats DeviceDiag DeviceQuery Runner Miner System Guarantees.
From S2P Require Device Midstate.

Open Scope Z_scope.

#[local] Abbreviation drop := list.drop.

(** ** A launch *)

Import Device (ring_inv, table_is, block_hits, same_tables).

(** The hit of the stub kernel for job [j], if any. *)
Definition stub_hits (jobs : list Device.DeviceJob) (base : Z) (j : nat) : list Device.HitRecord :=
  match jobs !! j with
  | None => []
  | Some J =>
      let n := u32 (base + Z.of_nat j) in
      if Device.device_leq J (Device.stub_digest J n) then [Device.mkHit (Device.work_id J) n] else []
  end.

Definition valid_plan (p : MultiJobLaunchPlan) : bool :=
  (0 <? num_jobs p) && (0 <? blocks_per_job p) && (0 <? threads_per_block p).

Definition plan_batch (e : RoundEnv) (p : MultiJobLaunchPlan) (base npt : Z) : Device.Launch :=
  Device.batch_launch (Z.to_nat (threads_per_block p)) (Z.to_nat (u32 npt)) base (merge_hits e).

(** What a launch adds to the ring, in order; one that CUDA refuses adds nothing. *)
Definition launch_hits (e : RoundEnv) (jobs : list Device.DeviceJob) (p : MultiJobLaunchPlan) (base npt : Z) :
    list Device.HitRecord :=
  if valid_plan p then
    if Device.launchable (Z.to_nat (blocks_per_job p)) (Z.to_nat (num_jobs p)) (Z.to_nat (threads_per_block p)) then
      if 1 <? npt then concat (map (block_hits (plan_batch e p base npt) jobs) (block_order e))
      else concat (map (stub_hits jobs base) (job_order e))
    else []
  else if Device.launchable 1 (length jobs) 64 then concat (map (stub_hits jobs base) (job_order e)) else [].

(** The schedule names jobs of the table, and no block overflows its local buffer. *)
Record schedule_ok (e : RoundEnv) (jobs : list Device.DeviceJob) (p : MultiJobLaunchPlan) (base npt : Z) : Prop := {
  so_jobs : Forall (fun j => (j < length jobs)%nat) (job_order e);
  so_blocks : Forall (fun b => (b.1 < length jobs)%nat) (block_order e);
  so_local : Forall (fun b => zlen (block_hits (plan_batch e p base npt) jobs b) <= 64) (block_order e) }.

Lemma stub_jobs_inv jobs base order : forall d log,
  table_is d jobs -> is_Some (Device.g_jobs d) -> Forall (fun j => (j < length jobs)%nat) order ->
  ring_inv d log -> zlen log + zlen (concat (map (stub_hits jobs base) order)) < 2 ^ 32 ->
  exists d', Device.foldM (Device.mine_stub_job base) d order = Some d' /\
    ring_inv d' (log ++ concat (map (stub_hits jobs base) order)) /\ same_tables d d'.
Proof.
  induction order as [|j order IH]; intros d log Ht Hg Hj Hr Hl; cbn [Device.foldM map concat].
  - exists d. by rewrite app_nil_r.
  - cbn [map concat] in Hl. rewrite length_app in Hl. inversion_clear Hj as [|? ? Hjj Hjs].
    assert (exists d1, Device.mine_stub_job base d j = Some d1 /\ ring_inv d1 (log ++ stub_hits jobs base j) /\
              same_tables d d1) as (d1 & E & Hr1 & Hs1).
    { unfold Device.mine_stub_job, stub_hits in *. destruct Hg as [gj ->].
      pose proof Hr as (buf & Hb & (_ & Hc & _) & _). rewrite Hb, (proj2 (Z.eqb_neq _ _)) by lia.
      rewrite (Ht j Hjj). destruct (jobs !! j) as [J|] eqn:EJ; [|by apply lookup_ge_None in EJ; lia].
      cbn [mbind option_bind]. destruct (Device.device_leq J _).
      - apply Device.push_hit_inv; [done|]. cbn [length] in Hl. lia.
      - exists d. by rewrite app_nil_r. }
    rewrite E. cbn [mbind option_bind]. destruct (IH d1 (log ++ stub_hits jobs base j)) as (d' & E' & Hr' & Hs'); try done.
    + intros i Hi. rewrite (Device.job_at_same d d1) by done. by apply Ht.
    + destruct Hs1 as (_ & -> & _). exact Hg.
    + rewrite length_app. lia.
    + exists d'. split; [done|]. rewrite app_assoc. split; [done|]. by eapply Device.same_tables_trans.
Qed.

Lemma launch_spec e d jobs p base npt log :
  table_is d jobs -> Device.g_num_jobs d = length jobs -> (0 < length jobs)%nat -> is_Some (Device.g_jobs d) ->
  ring_inv d log -> schedule_ok e jobs p base npt -> 0 <= npt < 2 ^ 31 ->
  zlen log + zlen (launch_hits e jobs p base npt) < 2 ^ 32 ->
  exists d' ok, launch e d (length jobs) p base npt = Some (d', ok) /\
    ring_inv d' (log ++ launch_hits e jobs p base npt) /\ same_tables d d'.
Proof.
  intros Ht Hn Hpos Hg Hr [Hj Hb H64] Hnpt Hl. unfold launch, launch_hits in *. fold (valid_plan p).
  assert (exists d', Some (d, true) = Some (d', true) /\ ring_inv d' (log ++ []) /\ same_tables d d') as Hnone
    by (exists d; by rewrite app_nil_r).
  destruct (valid_plan p) eqn:Ev.
  - unfold valid_plan in Ev. rewrite !andb_true_iff, !Z.ltb_lt in Ev. destruct Ev as [[H1 H2] H3].
    assert ((Z.to_nat (num_jobs p) =? 0)%nat = false /\ (Z.to_nat (blocks_per_job p) =? 0)%nat = false /\
            (Z.to_nat (threads_per_block p) =? 0)%nat = false /\ (Device.g_num_jobs d =? 0)%nat = false)
      as (E1 & E2 & E3 & E4) by (rewrite !Nat.eqb_neq; lia).
    unfold Device.launchMineWithPlanBatch, Device.launchMineWithPlan, Device.launch_kernel.
    rewrite E1, E2, E3, E4. cbn [orb]. cbv zeta.
    destruct (Device.launchable _ _ _); [|destruct (1 <? npt), Hnone as (d' & E & H); exists d', true; done].
    destruct (1 <? npt).
    + destruct (Device.batch_launch_covers (Z.to_nat (threads_per_block p)) (Z.to_nat (u32 npt)) base (merge_hits e))
        as [Ei _]; [rewrite u32_small by (unfold in_u; lia); lia|]. fold (plan_batch e p base npt) in Ei.
      change (if (Z.to_nat (u32 npt) =? 0)%nat then 1%nat else Z.to_nat (u32 npt)) with (Device.npt (plan_batch e p base npt)).
      rewrite Ei. cbn [mbind option_bind].
      change (Device.mkLaunch _ _ base _ (merge_hits e)) with (plan_batch e p base npt).
      destruct (Device.run_blocks_inv (plan_batch e p base npt) jobs (block_order e) d log) as (d' & -> & Hr' & Hs); try done.
      cbn [mbind option_bind]. by eexists _, _.
    + destruct (stub_jobs_inv jobs base (job_order e) d log) as (d' & -> & Hr' & Hs); try done.
      cbn [mbind option_bind]. by eexists _, _.
  - unfold Device.launchMineStub, Device.launch_kernel. rewrite Hn, (proj2 (Nat.eqb_neq (length jobs) 0)) by lia. cbn [orb].
    destruct (Device.launchable 1 (length jobs) 64); [|destruct Hnone as (d' & E & H); exists d', true; done].
    destruct (stub_jobs_inv jobs base (job_order e) d log) as (d' & -> & Hr' & Hs); try done.
    cbn [mbind option_bind]. by eexists _, _.
Qed.

(** ** A mining round *)

Lemma plan_total jobs desired : 0 <= desired -> is_Some (computeLaunchPlan jobs desired).
Proof.
  intros Hd. unfold computeLaunchPlan. destruct ((jobs =? 0) || (desired =? 0)) eqn:E; [by eexists|].
  apply orb_false_iff in E as [_ E]. apply Z.eqb_neq in E.
  destruct (halve_tpb_spec desired) as (t & -> & _); [lia|]. by eexists.
Qed.

Lemma plan_ranges jobs desired p :
  computeLaunchPlan jobs desired = Some p -> 0 <= blocks_per_job p < 2 ^ 32 /\ 0 <= threads_per_block p < 2 ^ 31.
Proof.
  unfold computeLaunchPlan. destruct (_ || _); [intros [= <-]; cbn; lia|].
  destruct (halve_tpb _ _ _) as [t|]; [|done]. cbn [mbind option_bind]. intros [= <-].
  cbn [blocks_per_job threads_per_block]. split; [apply u32_range|].
  unfold clampThreadsPerBlock. destruct (Z.ltb_spec t 64), (Z.ltb_spec 1024 t); lia.
Qed.

Lemma tune_nonces_range ms budget n : 0 <= n < 2 ^ 31 -> 0 <= tune_nonces ms budget n < 2 ^ 31.
Proof.
  intros Hn. unfold tune_nonces, autoTuneMicroBatch. cbn [currentMicroBatch observedMsPerBatch maxMsPerBatch].
  rewrite (u32_small n) by (unfold in_u; lia).
  assert (0 <= u64 (n * 2)) by apply u64_range.
  repeat case_match; cbn [nextMicroBatch]; rewrite ?(u32_small (u64 _)), ?(u32_small 1000000) by (unfold in_u; lia);
    rewrite i32_small; try lia; Z.to_euclidean_division_equations; lia.
Qed.

Section Round.
Context {K J R : Type} `{ISocket K, Json J}.
Context (rpc : R -> list Z -> J -> R * option J).
Context (cfg : AppConfig) (env : Env).
Implicit Types st : MainState K R.

(** The table of a round and its plan. *)
Definition round_jobs st : list Device.DeviceJob :=
  let '(ids, snaps) := active_jobs (m_reg st) in device_table ids snaps.
Definition round_plan st : MultiJobLaunchPlan :=
  default (mkPlan 0 0 0) (computeLaunchPlan (u32 (zlen (round_jobs st))) (u64 (m_threads st))).
Definition round_hits (e : RoundEnv) st : list Device.HitRecord :=
  launch_hits e (round_jobs st) (round_plan st) (m_nonce_base st) (m_npt st).

(** The rate of a round, from the nonces per thread chosen for the next one. *)
Definition round_khs (e : RoundEnv) st : spec_float :=
  khs (nonces_tested (used_batch (round_plan st) (m_npt st)) (round_plan st)
         (tune_nonces (kernel_ms e) (budget cfg) (m_npt st)) (zlen (round_jobs st))) (kernel_ms e).

(** The gauges of a round are within range: the device reports possible numbers, at most
    [2 ^ s] nonces are counted for the round and the average so far is within the bound
    that gives. *)
Record telemetry_ok (e : RoundEnv) st (s : Z) := {
  to_props : wf_props (props e) (threads_per_block (round_plan st));
  to_ms : 0 <= kernel_ms e < 2 ^ 31;
  to_npt : 0 <= m_npt st < 2 ^ 31;
  to_jobs : zlen (round_jobs st) < 2 ^ 32;
  to_work : batch_work (used_batch (round_plan st) (m_npt st)) (round_plan st)
              (tune_nonces (kernel_ms e) (budget cfg) (m_npt st)) (zlen (round_jobs st)) <= 2 ^ s;
  to_s : 0 <= s <= 52;
  to_avg : upto (s + 1) (m_hashrate st) }.

(** The first half of a round leaves the pools, the queue and the node's state alone. *)
Lemma launch_round_spec e st log o s :
  round_jobs st <> [] -> ring_inv (m_dev st) log -> Device.s_device_drain_offset (m_dev st) = o ->
  schedule_ok e (round_jobs st) (round_plan st) (m_nonce_base st) (m_npt st) -> telemetry_ok e st s ->
  zlen log + zlen (round_hits e st) < 2 ^ 32 ->
  let '(ids, snaps) := active_jobs (m_reg st) in
  exists st1, launch_round (J := J) cfg env e ids snaps st = Some st1 /\
    ring_inv (m_dev st1) (log ++ round_hits e st) /\ Device.s_device_drain_offset (m_dev st1) = o /\
    Device.g_hit_cap (m_dev st1) = Device.g_hit_cap (m_dev st) /\
    m_nonce_base st1 = u32 (m_nonce_base st + 1) /\
    SubmitRouter.outbox (m_world st1) = SubmitRouter.outbox (m_world st) /\ srcs st1 = srcs st /\
    workid_to_source (rest (m_world st1)) = workid_to_source (rest (m_world st)) /\ m_rpc st1 = m_rpc st /\
    m_hashrate st1 = ewma (m_hashrate st) (round_khs e st) /\ upto (s + 1) (m_hashrate st1).
Proof.
  intros Hne Hr Ho Hs [Tp Tms Tnpt Tj Tw Ts Ta] Hl. unfold round_hits, round_khs, round_plan in *.
  assert (round_jobs st = let '(ids, snaps) := active_jobs (m_reg st) in device_table ids snaps) as Ej by done.
  destruct (active_jobs (m_reg st)) as [ids snaps]. rewrite Ej in *. clear Ej. unfold launch_round.
  set (jobs := device_table ids snaps) in *.
  assert (0 < length jobs)%nat as Hpos by (destruct jobs; [done|cbn; lia]).
  destruct (Device.upload_table (m_dev st) jobs Hpos) as (d1 & Eu & Htab & Hnum). rewrite Eu. cbn [fst].
  assert (ring_inv d1 log /\ is_Some (Device.g_jobs d1) /\ Device.s_device_drain_offset d1 = o /\
          Device.g_hit_cap d1 = Device.g_hit_cap (m_dev st)) as (Hr1 & Hg1 & Ho1 & Hc1).
  { unfold Device.uploadDeviceJobs in Eu. destruct (length jobs =? 0)%nat; [done|].
    injection Eu as <-. split; [exact Hr|]. split; [by eexists|]. split; [exact Ho|done]. }
  clear Eu. destruct (backpressure_due cfg e st) as [press last_bp]. destruct (select (sched press) ids snaps 64) as [sc sel].
  destruct (plan_total (u32 (zlen jobs)) (u64 (m_threads st))) as [plan Ep]; [apply u64_range|].
  rewrite Ep in *. cbn [mbind option_bind default from_option id] in *.
  destruct (launch_spec e d1 jobs plan (m_nonce_base st) (m_npt st) log) as (d2 & ok & -> & Hr2 & Hs2); try done.
  cbn [mbind option_bind]. destruct (plan_ranges _ _ _ Ep) as [Hpb Hpt].
  rewrite (u32_small (threads_per_block plan)) by (unfold in_u; lia).
  destruct (occupancy_gauges_total (props e) _ (setGauge (setGauge (m_metrics st) "cuda.kernel_ms" (kernel_ms e)) "cuda.jobs" (zlen jobs)) Hpt Tp) as (oc & m1 & -> & E1).
  cbn [mbind option_bind]. rewrite E1. cbn [mbind option_bind].
  destruct (hashrate_total (used_batch plan (m_npt st)) plan _ (zlen jobs) (m_hashrate st) (kernel_ms e) m1 s Hpb
    ltac:(lia) (tune_nonces_range _ _ _ Tnpt) ltac:(lia) Tms Tw Ts Ta) as (avg & v & -> & Eavg & Havg & _).
  cbn [mbind option_bind]. destruct (save_tuning_due _ _ _ _ _ _) as [fs ls].
  eexists. split; [reflexivity|]. cbn.
  destruct Hs2 as (Ec & _ & _ & _ & _ & Ed). split_and!; try done; congruence.
Qed.

(** C14: a mining round always completes: with a ring that holds what is outstanding, a
    schedule of the table's jobs and at most 64 hits in a block, the uploads, the launch
    and the drain stay inside the device's arrays whatever the order of blocks and
    threads.  The hits of the launch are appended to the ring, the oldest 64 undrained
    ones are taken in order and handed to the submission code with the pools as they
    were, and the next round starts at the next nonce.  (A launch that CUDA refuses adds no
    hit.)  No conversion of the gauges is out of range; the average of the hash rate is
    updated with the round's rate and stays within the bound it had. *)
Theorem mine_round_runs e st log o s :
  let hits := round_hits e st in
  let out := take 64 (drop o (log ++ hits)) in
  let snaps := (active_jobs (m_reg st)).2 in
  round_jobs st <> [] -> ring_inv (m_dev st) log ->
  Device.s_device_drain_offset (m_dev st) = Z.of_nat o -> (o <= length log)%nat ->
  schedule_ok e (round_jobs st) (round_plan st) (m_nonce_base st) (m_npt st) -> telemetry_ok e st s ->
  zlen log + zlen hits < 2 ^ 32 -> zlen log + zlen hits - Z.of_nat o <= Device.g_hit_cap (m_dev st) ->
  exists st' w m, mine_round rpc cfg env e st = Some st' /\
    ring_inv (m_dev st') (log ++ hits) /\
    Device.s_device_drain_offset (m_dev st') = Z.of_nat (o + length out) /\
    m_nonce_base st' = u32 (m_nonce_base st + 1) /\
    m_hashrate st' = ewma (m_hashrate st) (round_khs e st) /\ upto (s + 1) (m_hashrate st') /\
    SubmitRouter.outbox w = SubmitRouter.outbox (m_world st) /\ sources (rest w) = srcs st /\
    workid_to_source (rest w) = workid_to_source (rest (m_world st)) /\
    let hs := handle_hits rpc (router_callback (J := J) cfg env (now_system e)) snaps
                (main_gbt_submitter cfg) (mkHitState w (m_rpc st) m) out in
    SubmitRouter.outbox (m_world st') = SubmitRouter.outbox (hs_world hs) /\ srcs st' = sources (rest (hs_world hs)).
Proof.
  intros hits out snaps Hne Hr Ho Hol Hs Ht Hl Hcap.
  pose proof (launch_round_spec e st log (Z.of_nat o) s Hne Hr Ho Hs Ht Hl) as H1.
  unfold mine_round. assert (round_jobs st = let '(ids, snaps) := active_jobs (m_reg st) in device_table ids snaps) as Ej by done.
  subst snaps. destruct (active_jobs (m_reg st)) as [ids snaps]. cbn [snd].
  destruct ids as [|id ids]; [by rewrite Ej in Hne|].
  destruct H1 as (st1 & -> & Hr1 & Ho1 & Hc1 & Hn1 & Hb1 & Hs1 & Hm1 & Hp1 & He1 & Hh1). cbn [mbind option_bind].
  fold hits in Hr1.
  destruct (Device.drain_spec (m_dev st1) (log ++ hits) o 64) as (d' & out' & -> & Eout & Hr' & Ho');
    try done; rewrite ?length_app, ?Hc1; try lia.
  change (Z.to_nat 64) with 64%nat in Eout. fold out in Eout. subst out'. cbn [mbind option_bind].
  set (st2 := submit_hits _ _ _ _ _ _ _).
  exists (snapshot_ledger (J := J) cfg env e snaps st2), (m_world st1), (m_metrics st1). split; [done|].
  assert (m_dev (snapshot_ledger (J := J) cfg env e snaps st2) = d' /\
          m_nonce_base (snapshot_ledger (J := J) cfg env e snaps st2) = m_nonce_base st1 /\
          m_hashrate (snapshot_ledger (J := J) cfg env e snaps st2) = m_hashrate st1 /\
          SubmitRouter.outbox (m_world (snapshot_ledger (J := J) cfg env e snaps st2)) = SubmitRouter.outbox (m_world st2) /\
          srcs (snapshot_ledger (J := J) cfg env e snaps st2) = srcs st2) as (-> & -> & -> & -> & ->).
  { unfold snapshot_ledger. destruct (elapsed _ _ _); [|done]. by destruct (rotate_ledger_if_needed _ _ _ _ _ _). }
  split; [done|]. split; [done|]. split; [done|]. split; [exact He1|]. split; [exact Hh1|]. split; [done|]. split; [exact Hs1|]. split; [exact Hm1|].
  unfold st2, submit_hits. cbn. rewrite Hp1. done.
Qed.

End Round.

(** ** A notification on its way to the device *)

Section Active.
Context (reg : registry).

(** One slot of the loop that collects the active set. *)
Definition active_step (st : list Z * gmap Z WorkSlotSnapshot) (i : nat) : list Z * gmap Z WorkSlotSnapshot :=
  match Registry.get reg i with
  | None => st
  | Some s =>
      if negb (active (item s)) then st
      else (st.1 ++ [work_id (item s)], emplace st.2 (work_id (item s)) s)
  end.

Lemma active_mono l st :
  (forall w, w ∈ st.1 -> w ∈ (fold_left active_step l st).1) /\
  (forall w s, st.2 !! w = Some s -> (fold_left active_step l st).2 !! w = Some s).
Proof.
  revert st. induction l as [|i l IH]; intros st; cbn [fold_left]; [done|]. destruct (IH (active_step st i)) as [H1 H2].
  unfold active_step in H1, H2 |- *. destruct (Registry.get reg i) as [s|]; [|done].
  destruct (negb (active (item s))); [done|]. split.
  - intros w Hw. apply H1. cbn. rewrite elem_of_app. by left.
  - intros w s' Hs. apply H2. cbn. unfold emplace. destruct (st.2 !! work_id (item s)) eqn:E; [done|].
    rewrite lookup_insert_ne by (intros <-; by rewrite Hs in E). done.
Qed.

Lemma active_absent w l st :
  (forall j s, j ∈ l -> Registry.get reg j = Some s -> active (item s) = true -> work_id (item s) <> w) ->
  st.2 !! w = None -> (fold_left active_step l st).2 !! w = None.
Proof.
  revert st. induction l as [|i l IH]; intros st Hl Hn; cbn [fold_left]; [done|].
  apply IH; [intros j s Hj; apply Hl; by right|]. unfold active_step.
  destruct (Registry.get reg i) as [s|] eqn:E; [|done]. destruct (active (item s)) eqn:Ea; [|done]. cbn.
  unfold emplace. destruct (st.2 !! work_id (item s)); [done|].
  rewrite lookup_insert_ne; [done|]. apply (Hl i); [by left|done..].
Qed.

(** An active slot is in the table, under the first snapshot with its identifier. *)
Lemma active_jobs_lookup k s :
  (k < Registry.size reg)%nat -> Registry.get reg k = Some s -> active (item s) = true ->
  (forall j s', (j < k)%nat -> Registry.get reg j = Some s' -> active (item s') = true ->
     work_id (item s') <> work_id (item s)) ->
  work_id (item s) ∈ (active_jobs reg).1 /\ (active_jobs reg).2 !! work_id (item s) = Some s.
Proof.
  intros Hk Hs Ha Hfirst. unfold active_jobs. fold active_step.
  replace (seq 0 (Registry.size reg)) with (seq 0 k ++ k :: seq (S k) (Registry.size reg - S k))
    by (replace (Registry.size reg) with (k + S (Registry.size reg - S k))%nat at 2 by lia; rewrite seq_app; done).
  rewrite fold_left_app. cbn [fold_left].
  assert ((fold_left active_step (seq 0 k) ([], ∅)).2 !! work_id (item s) = None) as Hn.
  { apply active_absent; [|apply lookup_empty]. intros j s' Hj%elem_of_seq. apply Hfirst. lia. }
  set (st := fold_left active_step (seq 0 k) ([], ∅)) in *. clearbody st.
  assert (active_step st k = (st.1 ++ [work_id (item s)], emplace st.2 (work_id (item s)) s)) as ->
    by (unfold active_step; by rewrite Hs, Ha).
  destruct (active_mono (seq (S k) (Registry.size reg - S k)) (st.1 ++ [work_id (item s)], emplace st.2 (work_id (item s)) s))
    as [H1 H2]. split.
  - apply H1. cbn. rewrite elem_of_app. right. by left.
  - apply H2. cbn. unfold emplace. rewrite Hn. apply lookup_insert_eq.
Qed.

End Active.

Section Notice.
Context {K J R : Type} `{ISocket K, JsonLaws J}.
Context (hash : list Z -> Z).
Implicit Types st : MainState K R.

Lemma normalizeJob_fields i res :
  normalizeJob i = Some (Some res) ->
  work_id (res_item res) = job_work_id (in_job i) /\ version (res_item res) = job_version (in_job i) /\
  ntime (res_item res) = job_ntime (in_job i) /\ nbits (res_item res) = job_nbits (in_job i) /\
  prevhash_le (res_item res) = be32BytesToLeU32Words (prevhash_be i) /\
  merkle_root_le (res_item res) = be32BytesToLeU32Words (merkle_root_be i) /\
  midstate_le (res_job_const res) = Midstate.Midstate.sha256_midstate_64 (header_first64 i).
Proof.
  intros E. unfold normalizeJob in E.
  destruct (compactToTargetU32LE (job_nbits _)) as [b|]; [|discriminate E].
  destruct (compactToTargetU32LE (share_nbits _)) as [t|]; [|discriminate E].
  cbn [mbind option_bind] in E. injection E as <-. by repeat split.
Qed.

(** C15: a notification in the layout the code reads (version, bits and time as
    hexadecimal words at positions 8 to 10 of the parameters, not the layout of Stratum V1,
    which [standard_notify_dropped] shows is dropped), with an exponent of at least 3 in its
    bits and in the policy's share bits if any, that arrives on a session with no job
    waiting is, after the next poll, the job of its source's slot, and of the device: the
    poll completes, and the job the round uploads has the notification's version, time,
    bits and previous hash and the Merkle root of its coinbase and branch.  (An earlier
    slot with the same work identifier would take its place in the table.) *)
Theorem notify_reaches_device st sid c c' r (n : notice J) now :
  srcs st !! sid = Some (SStratum (Some (c, r))) -> length (srcs st) = Registry.size (m_reg st) ->
  Adapters.q_ (adapter_ r) = [] ->
  wf_notice n -> 3 <= compact_exponent (n_nbits n) ->
  is_u32 (policy_share_nbits_ (adapter_ r)) ->
  policy_share_nbits_ (adapter_ r) = 0 \/ 3 <= compact_exponent (policy_share_nbits_ (adapter_ r)) ->
  encodable (method_message (str "mining.notify") (notify_params n)) = true ->
  exists r', handle_line hash now (dump (method_message (str "mining.notify") (notify_params n))) r = (inr tt, r') /\
  let st1 := set_wiring st (with_source (rest (m_world st)) sid (SStratum (Some (c', r')))) in
  exists st2 snap, poll_sources st1 = Some (inr st2) /\ Registry.get (m_reg st2) sid = Some snap /\
    let dj := device_job snap in
    Device.work_id dj = hash (n_id n) /\ Device.version dj = n_version n /\ Device.ntime dj = n_ntime n /\
    Device.nbits dj = n_nbits n /\ Device.prevhash_le dj = be32BytesToLeU32Words (n_prev n) /\
    Device.merkle_root_le dj =
      be32BytesToLeU32Words (notice_root n (r_extranonce1_ r) (r_extranonce2_size_ r)) /\
    ((forall j s', (j < sid)%nat -> Registry.get (m_reg st2) j = Some s' -> active (item s') = true ->
        work_id (item s') <> hash (n_id n)) -> dj ∈ round_jobs st2).
Proof.
  intros Hs Hl Hq Hn Hb Hsu Hsh Hen.
  destruct (notify_queues_job hash n now r Hn Hb Hsu Hsh Hen) as (r' & res & E & _ & Hq' & En & _).
  exists r'. split; [exact E|]. intros st1. rewrite Hq in Hq'. cbn [app] in Hq'.
  assert (sid < length (srcs st))%nat as Hsid by (by eapply lookup_lt_Some).
  assert (srcs st1 = <[sid := SStratum (Some (c', r'))]> (srcs st)) as Es by done.
  assert (srcs st1 !! sid = Some (SStratum (Some (c', r')))) as E1 by (rewrite Es; by apply list_lookup_insert_eq).
  destruct (poll_sources_spec st1) as (st2 & Ep & _ & _ & Hlast); [by rewrite Es, length_insert|].
  destruct (Hlast sid [] res) as [g Eg].
  { by rewrite Es, length_insert. } { unfold queue_of. by rewrite E1. } { intros E2. by rewrite E1 in E2. }
  exists st2. eexists. split; [exact Ep|]. split; [exact Eg|]. cbv zeta.
  destruct (normalizeJob_fields _ _ En) as (Fw & Fv & Ft & Fb & Fp & Fm & _). cbn in Fw, Fv, Ft, Fb.
  split; [exact Fw|]. split; [exact Fv|]. split; [exact Ft|]. split; [exact Fb|]. split; [exact Fp|]. split; [exact Fm|].
  intros Hfirst. unfold round_jobs.
  destruct (active_jobs_lookup (m_reg st2) sid _ ltac:(
      destruct (decide (sid < Registry.size (m_reg st2))%nat); [done|]; rewrite get_none in Eg by lia; done) Eg eq_refl)
    as [Hin Hlk].
  { intros j s' Hj Es' Ha. cbn. rewrite Fw. by apply (Hfirst j s'). }
  destruct (active_jobs (m_reg st2)) as [ids snaps]. unfold device_table.
  apply list_elem_of_fmap. eexists. split; [|exact Hin]. cbn [snd] in Hlk. by rewrite Hlk.
Qed.

End Notice.

(** *** The headers the device hashes

    A job normalised from a notification carries the midstate of its [header_first64], so
    the kernels hash that prefix and a tail of four words of their own: the batch kernels
    the words of the job with their bytes swapped, the stub kernel as they are. *)

Definition batch_header (v t b n : Z) (prev root : list Z) : list Z :=
  le_bytes 4 v ++ prev ++ root ++ le_bytes 4 t ++ le_bytes 4 b ++ le_bytes 4 n.
Definition stub_header (v t b n : Z) (prev root : list Z) : list Z :=
  le_bytes 4 v ++ prev ++ take 28 root ++ rev (drop 28 root) ++ be_bytes32 t ++ be_bytes32 b ++ be_bytes32 n.

Lemma le_bytes_bswap v : is_u32 v -> be_bytes32 (bswap32 v) = le_bytes 4 v.
Proof.
  intros Hv. rewrite bswap32_bytes by done. apply le_val_inj; [by rewrite length_rev, le_bytes_length| | |].
  - apply Forall_rev, be_bytes32_bytes.
  - apply le_bytes_bytes.
  - rewrite (le_val_le_bytes_u 4 32) by done. change (be_val (be_bytes32 v) = v). by apply be_bytes32_val.
Qed.

(** The last word of a hash stored as little-endian words. *)
Lemma last_root_word root : length root = 32%nat -> is_bytes root ->
  let w := rd (be32BytesToLeU32Words root) 7 in
  is_u32 w /\ be_bytes32 (bswap32 w) = drop 28 root.
Proof.
  intros Hl Hb w. assert (w = bswap32 (rd (words_of 8 root) 7)) as -> by done.
  assert (is_u32 (rd (words_of 8 root) 7)) as Hw by (apply rd_word; by apply words_of_words).
  split; [by apply bswap32_range|]. rewrite bswap32_invol by done.
  pose proof (take_drop_word 8 root 7) as E. rewrite <- E by (done || lia).
  change (4 * 7)%nat with 28%nat. apply take_ge. rewrite length_drop. lia.
Qed.

Lemma be_bytes32_iff a b : is_u32 a -> is_u32 b -> be_bytes32 a = be_bytes32 b <-> a = b.
Proof. intros Ha Hb. split; [by apply be_bytes32_inj|by intros ->]. Qed.

Lemma app_eq_iff {A} (a b c d : list A) : length a = length c -> a ++ b = c ++ d <-> a = c /\ b = d.
Proof. intros Hl. split; [intros E; by apply app_inj_1|by intros [-> ->]]. Qed.

(** The host's header of a normalised job. *)
Lemma host_header_inputs i r sid n :
  wf_inputs i -> normalizeJob i = Some (Some r) ->
  host_header (slot_item_of sid r) n =
    be_bytes32 (job_version (in_job i)) ++ prevhash_be i ++ merkle_root_be i ++
    be_bytes32 (job_ntime (in_job i)) ++ be_bytes32 (job_nbits (in_job i)) ++ be_bytes32 n.
Proof.
  intros Hi E. destruct (normalizeJob_fields _ _ E) as (_ & Fv & Ft & Fb & Fp & Fm & _).
  destruct (wfi_prevhash i Hi), (wfi_merkle i Hi). unfold host_header.
  change (version (slot_item_of sid r)) with (version (res_item r)).
  change (ntime (slot_item_of sid r)) with (ntime (res_item r)).
  change (nbits (slot_item_of sid r)) with (nbits (res_item r)).
  change (prevhash_le (slot_item_of sid r)) with (prevhash_le (res_item r)).
  change (merkle_root_le (slot_item_of sid r)) with (merkle_root_le (res_item r)).
  by rewrite Fv, Ft, Fb, Fp, Fm, !be_le_roundtrip.
Qed.

(** C38: the host verifies a device hit on another header than the device hashed.  For a
    job normalised from inputs whose first 64 bytes are laid out as a notification's, and
    whose midstate is not all zeros, the batch kernels hash the header with version,
    time, bits and nonce in little-endian order, the stub kernel (one nonce per thread)
    the header with the last word of the root reversed and the other three big-endian,
    and the tail loop of the unrolled kernel the header the device assembles; the host
    writes all four numbers big-endian.  Each equals the host's exactly when the fields
    in question are byte palindromes and the device's time, the job's clamped to its
    rolling bounds, fits. *)
Theorem host_header_against_hashed i r sid g n :
  wf_inputs i -> normalizeJob i = Some (Some r) -> is_u32 n ->
  header_first64 i = le_bytes 4 (job_version (in_job i)) ++ prevhash_be i ++ take 28 (merkle_root_be i) ->
  let ss := mkWorkSlotSnapshot g (slot_item_of sid r) (res_job_const r) in
  let J := device_job ss in
  Device.used_midstate J = true ->
  let v := job_version (in_job i) in let b := job_nbits (in_job i) in
  let t := Device.device_ntime J in
  let prev := prevhash_be i in let root := merkle_root_be i in
  Device.batch_digest J n = Device.double_sha (batch_header v t b n prev root) /\
  Device.stub_digest J n = Device.double_sha (stub_header v t b n prev root) /\
  Device.tail_digest J n = Device.double_sha (Device.device_header J n) /\
  (host_header (item ss) n = batch_header v t b n prev root <->
     bswap32 v = v /\ bswap32 t = job_ntime (in_job i) /\ bswap32 b = b /\ bswap32 n = n) /\
  (host_header (item ss) n = stub_header v t b n prev root <->
     bswap32 v = v /\ rev (drop 28 root) = drop 28 root /\ t = job_ntime (in_job i)) /\
  (host_header (item ss) n = Device.device_header J n <->
     Forall (fun w => bswap32 w = w) (prevhash_le (item ss) ++ merkle_root_le (item ss)) /\
     t = job_ntime (in_job i)).
Proof.
  intros Hi E Hn H64 ss J Hu v b t prev root.
  destruct (normalizeJob_fields _ _ E) as (_ & Fv & Ft & Fb & Fp & Fm & Fs).
  pose proof (normalizeJob_wf i r Hi E) as Hr. pose proof (slot_item_wf sid r Hr) as Hit.
  assert (wf_const (job_const ss)) as Hc by apply Hr.
  pose proof (device_job_wf ss Hit Hc) as HJ. fold J in HJ.
  pose proof (Device.device_ntime_range J HJ) as Ht. fold t in Ht.
  destruct (wfi_prevhash i Hi) as [Hpl Hpb], (wfi_merkle i Hi) as [Hml Hmb].
  pose proof (wfi_version i Hi) as Hv. pose proof (wfi_nbits i Hi) as Hb. fold v in Hv. fold b in Hb.
  assert (Device.midstate_le J = absorb 1 fips_H0 (header_first64 i)) as Em.
  { change (Device.midstate_le J) with (midstate_le (res_job_const r)). rewrite Fs.
    apply Midstate.Midstate.sha256_midstate_64_absorb, Hi. }
  assert (rd (Device.merkle_root_le J) 7 = rd (be32BytesToLeU32Words root) 7) as Ew.
  { change (Device.merkle_root_le J) with (merkle_root_le (res_item r)). by rewrite Fm. }
  assert (Device.nbits J = b) as Eb by exact Fb.
  destruct (last_root_word root Hml Hmb) as [Hw Hd].
  assert (length (header_first64 i) = 64%nat) as Hl by apply Hi.
  split; [|split; [|split; [apply Device.tail_digest_fips|]]].
  - unfold Device.batch_digest. rewrite Hu, Ew, Eb. fold t.
    rewrite (Device.midstate_digest_fips J (header_first64 i)); [|done|done|done|].
    2: { repeat apply Forall_cons_2; [by apply bswap32_range..|constructor]. }
    apply (f_equal Device.double_sha). unfold bytes_of. cbn [map concat]. rewrite Hd, !le_bytes_bswap, app_nil_r by done.
    rewrite H64. unfold batch_header. rewrite <- !app_assoc, (app_assoc (take 28 root)). fold root.
    by rewrite take_drop.
  - unfold Device.stub_digest. rewrite Hu, (Device.tail_words J n HJ Hn), Ew, Eb. fold t.
    rewrite (Device.midstate_digest_fips J (header_first64 i)); [|done|done|done|].
    2: { repeat apply Forall_cons_2; done || constructor. }
    apply (f_equal Device.double_sha). unfold bytes_of. cbn [map concat]. rewrite app_nil_r, H64. unfold stub_header.
    rewrite <- !app_assoc. fold root. rewrite <- Hd, <- bswap32_bytes, bswap32_invol by (done || by apply bswap32_range).
    done.
  - pose proof (host_header_inputs i r sid n Hi E) as Eh. fold v b prev root in Eh.
    change (item ss) with (slot_item_of sid r). pose proof (wfi_ntime i Hi) as Hnt. split; [|split].
    + rewrite Eh. unfold batch_header. rewrite <- !le_bytes_bswap by done.
      rewrite !app_eq_iff, !be_bytes32_iff by (done || by apply bswap32_range).
      clear. split; [intros (E1 & _ & _ & E2 & E3 & E4)|intros (E1 & E2 & E3 & E4)]; split_and!; done || by symmetry.
    + rewrite Eh. unfold stub_header. rewrite <- (take_drop 28 root) at 1.
      rewrite <- le_bytes_bswap, <- !app_assoc by done.
      rewrite !app_eq_iff, !be_bytes32_iff by (done || (by apply bswap32_range) || by rewrite length_rev).
      clear. split; [intros (E1 & _ & _ & E2 & E3 & _)|intros (E1 & E2 & E3)]; split_and!; done || by symmetry.
    + pose proof (host_header_is_device_header ss n Hit Hc Hn) as Hx. cbv zeta in Hx.
      assert (ntime (item ss) = job_ntime (in_job i)) as Et by exact Ft. rewrite Et in Hx. exact Hx.
Qed.

Import Concrete.

(** One active job with the easiest target, one nonce per round. *)
Definition round_state : MainState Script unit :=
  mkMain (mkWorld (Some Outbox_init) (mkWiring ∅ {[ 7 := 0 ]} [live_session] 0)) None
    [mkWorkSlot 1 (mkWorkItem 7 0 536870912 1700000000 486604799 0 (repeat 1 8) (repeat 2 8)
       (repeat 4294967295 8) (repeat 0 8) 0 0 0 4 true true false) GpuJobConst_default]
    Device.easy_device 0 (mkPressure ∅ ∅ ∅ SchedulerState_init) 0 64 1 0 tt MetricsRegistry_init ∅ 0 0 0 [] false (double_of_Z 0) 0 0.

Definition round_env : RoundEnv :=
  mkRoundEnv 0 5 sample_props [] (@concat _) [0%nat] [] 0 0 0 (fun _ => []).

Lemma mine_round_runs_witness :
  exists st', mine_round (J := Jv) no_rpc gbt_config all_allowed round_env round_state = Some st' /\
    ring_inv (m_dev st') [Device.mkHit 7 0] /\ Device.s_device_drain_offset (m_dev st') = 1.
Proof.
  assert (round_hits round_env round_state = [Device.mkHit 7 0]) as E by (vm_compute; reflexivity).
  destruct (mine_round_runs (J := Jv) no_rpc gbt_config all_allowed round_env round_state [] 0 7)
    as (st' & w & m & E1 & Hr & Ho & _).
  - vm_compute. discriminate.
  - exact Device.easy_device_ring.
  - reflexivity.
  - apply Nat.le_refl.
  - split; [constructor; [vm_compute; reflexivity|constructor]|constructor|constructor].
  - split; vm_compute; repeat split; discriminate.
  - rewrite E. reflexivity.
  - rewrite E. vm_compute. discriminate.
  - exists st'. split; [exact E1|]. rewrite E in Hr, Ho. split; [exact Hr|exact Ho].
Defined.

Definition notified_state : MainState Script unit :=
  mkMain (mkWorld None (mkWiring ∅ ∅ [SStratum (Some (None, sample_runner))] 0))
    None (repeat WorkSlot_default 1) Device.Device_init 0 (mkPressure ∅ ∅ ∅ SchedulerState_init)
    0 0 0 0 tt MetricsRegistry_init ∅ 0 0 0 [] false (double_of_Z 0) 0 0.

Lemma notify_reaches_device_witness :
  exists r', handle_line (fun _ => 7) 0 (dump (method_message (str "mining.notify") (notify_params sample_notice)))
    sample_runner = (inr tt, r') /\
  exists st2 snap, poll_sources (set_wiring notified_state
      (with_source (rest (m_world notified_state)) 0 (SStratum (Some (None, r'))))) = Some (inr st2) /\
    Registry.get (m_reg st2) 0 = Some snap /\ device_job snap ∈ round_jobs st2.
Proof.
  destruct (notify_reaches_device (fun _ => 7) notified_state 0 None None sample_runner sample_notice 0)
    as (r' & E & st2 & snap & Ep & Eg & _ & _ & _ & _ & _ & _ & Hin).
  - reflexivity.
  - reflexivity.
  - reflexivity.
  - split; cbn -[in_u]; try in_range; try (split; [reflexivity|in_range]).
    constructor; [|constructor]. split; [reflexivity|in_range].
  - vm_compute. discriminate.
  - in_range.
  - right. vm_compute. discriminate.
  - reflexivity.
  - exists r'. split; [exact E|]. exists st2, snap. split; [exact Ep|]. split; [exact Eg|]. apply Hin. intros j s' Hj. lia.
Defined.

(** The inputs and the job of the sample notification. *)
Definition sample_inputs : RawJobInputs := Eval vm_compute in notice_inputs (fun _ => 7) sample_notice [] 0.
Definition sample_job : NormalizerResult :=
  Eval vm_compute in
    match normalizeJob sample_inputs with
    | Some (Some r) => r
    | _ => mkNormalizerResult WorkItem_default GpuJobConst_default
    end.

Lemma sample_inputs_wf : wf_inputs sample_inputs.
Proof. split; cbn -[in_u]; try in_range; split; try reflexivity; in_range. Qed.

Lemma host_header_against_hashed_witness :
  let J := device_job (mkWorkSlotSnapshot 1 (slot_item_of 0 sample_job) (res_job_const sample_job)) in
  let m := batch_header 536870912 (Device.device_ntime J) (n_nbits sample_notice) 5
             (n_prev sample_notice) (merkle_root_be sample_inputs) in
  sample_inputs = notice_inputs (fun _ => 7) sample_notice [] 0 /\
  Device.batch_digest J 5 = Device.double_sha m /\ host_header (slot_item_of 0 sample_job) 5 <> m.
Proof.
  split; [vm_compute; reflexivity|].
  destruct (host_header_against_hashed sample_inputs sample_job 0 1 5) as (Hd & _ & _ & Hh & _).
  - exact sample_inputs_wf.
  - vm_compute. reflexivity.
  - in_range.
  - vm_compute. reflexivity.
  - vm_compute. reflexivity.
  - split; [exact Hd|]. intros Eh. apply Hh in Eh as [Ev _]. discriminate Ev.
Defined.
