(* ===== verification/Conformance.v ===== *)
(** * The repository's unit tests, run on the model ([tests/])

    Each definition is the body of one [TEST] with its inputs and its expectations as a
    boolean; the example after it evaluates the body on the definitions of the
    development.  An expectation on a failed call is [false]. *)

From stdpp Require Import base numbers list option gmap strings pretty.
From S2P Require Import Prelude FileSys Endian Targets CpuVerify Merkle SubmitRouter Registry Normalizer Scheduler Json Ledger Hex GbtSubmitter Adapters LaunchPlan Net Config Obs Tools.
From S2P Require Midstate Cache Outbox HitRing Device DeviceDiag.

Open Scope Z_scope.

#[local] Abbreviation eqb a b := (bool_decide (a = b)).
#[local] Abbreviation ok x := (default false x).

(** ** Numbers ([test_endianness.cpp], [test_targets.cpp], [test_midstate.cpp]) *)

Module Numbers.

Definition Bswap32 : bool := (bswap32 2864434397 =? 3721182122) && (bswap32 0 =? 0).
Example Bswap32_passes : Bswap32 = true. Proof. reflexivity. Qed.

Definition Bswap64 : bool := bswap64 1234605616436508552 =? 9833440827789222417.
Example Bswap64_passes : Bswap64 = true. Proof. reflexivity. Qed.

Definition ArrayRoundTrip : bool :=
  let be := map Z.of_nat (seq 0 32) in eqb (leU32WordsToBe32Bytes (be32BytesToLeU32Words be)) be.
Example ArrayRoundTrip_passes : ArrayRoundTrip = true. Proof. vm_compute. reflexivity. Qed.

(** The test's own conversion of 64 digits: the bytes of each word are swapped. *)
Definition nyb (c : Z) : Z :=
  if (48 <=? c) && (c <=? 57) then c - 48
  else if (97 <=? c) && (c <=? 102) then 10 + (c - 97)
  else if (65 <=? c) && (c <=? 70) then 10 + (c - 65) else 0.
Definition beHexToLeWords (hex : list Z) : list Z :=
  let be i := Z.lor (Z.shiftl (nyb (rd hex (2 * i))) 4) (nyb (rd hex (2 * i + 1))) in
  map (fun i => bswap32 (be_word32 (be (4 * i)) (be (4 * i + 1)) (be (4 * i + 2)) (be (4 * i + 3))))%nat (seq 0 8).

Definition GenesisVector : bool :=
  eqb (compactToTargetU32LE 486604799)
    (Some (beHexToLeWords (str "00000000ffff0000000000000000000000000000000000000000000000000000"))).
Example GenesisVector_passes : GenesisVector = true. Proof. vm_compute. reflexivity. Qed.

Definition ZeroMantissa : bool := eqb (compactToTargetU32LE 486539264) (Some (repeat 0 8)).
Example ZeroMantissa_passes : ZeroMantissa = true. Proof. vm_compute. reflexivity. Qed.

Definition MatchesFullHash_80bytes : bool :=
  let header := repeat 0 76 ++ [18; 52; 86; 120] in
  let mid := Midstate.Midstate.sha256_midstate_64 header in
  eqb (sha256 header) (Midstate.Midstate.sha256_finish_from_midstate mid (list.drop 64 header) 80).
Example MatchesFullHash_80bytes_passes : MatchesFullHash_80bytes = true. Proof. vm_compute. reflexivity. Qed.

End Numbers.

(** ** Hashes and targets ([test_metrics_and_cpuverify.cpp], [test_merkle_and_submit.cpp]) *)

Module Hashes.

Definition Sha256d_KnownVector : bool :=
  eqb (bytesToHex (sha256d [])) (str "5df6e0e2761359d30a8275058e299fcc0381534545f55cf43e41983f5d4c9456").
Example Sha256d_KnownVector_passes : Sha256d_KnownVector = true. Proof. vm_compute. reflexivity. Qed.

Definition CompareLEQTarget : bool :=
  match compactToTargetU32LE 50331649 with
  | Some target => negb (isHashLEQTarget (repeat 0 31 ++ [255]) target) && isHashLEQTarget (repeat 0 32) target
  | None => false
  end.
Example CompareLEQTarget_passes : CompareLEQTarget = true. Proof. vm_compute. reflexivity. Qed.

Definition EmptyIsZero : bool := eqb (compute_merkle_root_be []) (Some (repeat 0 32)).
Example EmptyIsZero_passes : EmptyIsZero = true. Proof. reflexivity. Qed.

(** The value is not checked, only that the function is one. *)
Definition TwoLeaves : bool :=
  let root := compute_merkle_root_be [repeat 0 31 ++ [1]; repeat 0 31 ++ [2]] in
  bool_decide (is_Some root) && eqb root (compute_merkle_root_be [repeat 0 31 ++ [1]; repeat 0 31 ++ [2]]).
Example TwoLeaves_passes : TwoLeaves = true. Proof. vm_compute. reflexivity. Qed.

Definition VerifyAndDispatch : bool :=
  let router : SubmitCallback bool := Some (fun _ w => mkWorld (SubmitRouter.outbox w) true) in
  let '(w, accepted) := verifyAndSubmit router (mkWorld None false) (repeat 0 80) (repeat 4294967295 8) 7 0 in
  accepted && rest w.
Example VerifyAndDispatch_passes : VerifyAndDispatch = true. Proof. vm_compute. reflexivity. Qed.

Definition Snapshot : bool :=
  let m := setGauge (increment (increment MetricsRegistry_init "a" 1) "a" 2) "g" (-5) in
  eqb (counters_ m !! "a"%string) (Some 3) && eqb (gauges_ m !! "g"%string) (Some (-5)).
Example Snapshot_passes : Snapshot = true. Proof. reflexivity. Qed.

Definition LoadsDefaultsAndParsesNewSections : bool :=
  let cfg := loadDefault in
  (1 <=? length (pools cfg))%nat && negb (eqb (outbox_path (Config.outbox cfg)) []) &&
  (outbox_rotate_interval_sec (Config.outbox cfg) =? 0) && negb (eqb (ledger_path (Config.ledger cfg)) []) &&
  (0 <? ledger_max_bytes (Config.ledger cfg)).
Example LoadsDefaultsAndParsesNewSections_passes : LoadsDefaultsAndParsesNewSections = true. Proof. reflexivity. Qed.

End Hashes.

(** ** Jobs ([test_normalizer.cpp], [test_normalizer_caps_and_extranonce.cpp],
    [test_adapters_compile.cpp], [test_adapters_policy.cpp], [test_gbt_adapter.cpp]) *)

Module Jobs.

Definition pattern : list Z := map Z.of_nat (seq 0 32).
Definition inputs (source work_id nbits ntime : Z) (prev root : list Z) (share vmask tmin tmax en2 : Z) (clean : bool) :
    RawJobInputs :=
  mkRawJobInputs source (mkRawJob "pool" work_id 536870912 nbits ntime) prev root (repeat 0 64) share vmask tmin tmax
    en2 clean.

Definition BasicFields : bool :=
  match normalizeJob (inputs 2 123 486604799 100000000 pattern (rev pattern) 545259519 0 0 0 0 true) with
  | Some (Some out) =>
      let w := res_item out in
      (work_id w =? 123) && (source_id w =? 2) && (version w =? 536870912) && (nbits w =? 486604799) && active w &&
      existsb (fun x => negb (x =? 0)) (block_target_le w)
  | _ => false
  end.
Example BasicFields_passes : BasicFields = true. Proof. vm_compute. reflexivity. Qed.

Definition ClampVersionAndNtime : bool :=
  let vmask := 536862720 in
  let clamped := clampRollingVersion (Z.lor 536870912 40960) vmask in
  (Z.land clamped (u32 (Z.lnot vmask)) =? Z.land 536870912 (u32 (Z.lnot vmask))) &&
  (clampNtime 1000 1000 1002 =? 1000) && (clampNtime 1010 1000 1002 =? 1002) && (clampNtime 999 1000 1002 =? 1000).
Example ClampVersionAndNtime_passes : ClampVersionAndNtime = true. Proof. reflexivity. Qed.

Definition CoinbaseAssembly : bool :=
  let parts := mkCoinbaseParts [1; 2] [170; 187] false (repeat 0 32) in
  eqb (assembleCoinbaseTx parts (str "abcd") [16; 17; 18; 19])
    [1; 2; 97; 98; 99; 100; 16; 17; 18; 19; 170; 187] &&
  eqb (computeWitnessCommitmentPlaceholder parts) (repeat 0 32) &&
  eqb (computeWitnessCommitmentPlaceholder (mkCoinbaseParts [1; 2] [170; 187] true (repeat 7 32))) (repeat 7 32).
Example CoinbaseAssembly_passes : CoinbaseAssembly = true. Proof. reflexivity. Qed.

(** One item polled from an adapter. *)
Definition polled (a : option StratumAdapter) : option WorkItem := a ← a; (pollNormalized a).2.

Definition StratumAdapterEnqueuePoll : bool :=
  ok ((fun w => work_id w =? 1) <$> polled (enqueueDummy StratumAdapter_init 1 486604799)).
Example StratumAdapterEnqueuePoll_passes : StratumAdapterEnqueuePoll = true. Proof. vm_compute. reflexivity. Qed.

Definition StratumAdapterIngestVarDiffAndCleanJobs : bool :=
  let t := 100000000 in
  let i := inputs 1 42 453248203 t pattern (rev pattern) 521142271 536862720 t (t + 2) 4 true in
  ok ((fun w => (work_id w =? 42) && (source_id w =? 1) && (version w =? 536870912) && (nbits w =? 453248203) &&
                (vmask w =? 536862720) && (extranonce2_size w =? 4) && clean_jobs w) <$>
      polled (ingestJob StratumAdapter_init i)).
Example StratumAdapterIngestVarDiffAndCleanJobs_passes : StratumAdapterIngestVarDiffAndCleanJobs = true.
Proof. vm_compute. reflexivity. Qed.

Definition state_code (s : State) : Z :=
  match s with kDisconnected => 0 | kConnecting => 1 | kSubscribed => 2 | kAuthorized => 3 end.

Definition StratumAdapterStateMachine : bool :=
  let a0 := StratumAdapter_init in
  let a1 := Adapters.connect a0 in
  let a2 := onSubscribed a1 (str "abcd") 8 in
  let a3 := onAuthorizeOk a2 in
  (state_code (state_ a0) =? 0) && (state_code (state_ a1) =? 1) && (state_code (state_ a2) =? 2) &&
  (extranonce2_size_ a2 =? 8) && (state_code (state_ a3) =? 3).
Example StratumAdapterStateMachine_passes : StratumAdapterStateMachine = true. Proof. reflexivity. Qed.

Definition AdapterToRegistryIntegration : bool :=
  let t := 100000000 in
  let i := inputs 0 1001 486604799 t pattern (rev pattern) 503382015 536862720 t (t + 1) 4 true in
  match WorkSourceRegistry 2, (a ← ingestJob StratumAdapter_init i; (pollNormalizedFull a).2) with
  | inr reg, Some full =>
      let before := default 0 (gen <$> Registry.get reg 0) in
      match Registry.set reg 0 (res_item full) (res_job_const full) with
      | inr reg =>
          ok ((fun after => (before <? gen after) && (work_id (item after) =? 1001) && (source_id (item after) =? 0) &&
                            (extranonce2_size (item after) =? 4) && clean_jobs (item after)) <$> Registry.get reg 0)
      | inl _ => false
      end
  | _, _ => false
  end.
Example AdapterToRegistryIntegration_passes : AdapterToRegistryIntegration = true. Proof. vm_compute. reflexivity. Qed.

Definition VarDiffAndCapsApplied : bool :=
  let a := setCleanJobs (setNtimeCaps (setVersionMask (updateVarDiff StratumAdapter_init 521142271) 536862720) 1000 1002) true in
  ok ((fun w => (work_id w =? 77) && (source_id w =? 1) && (vmask w =? 536862720) && (extranonce2_size w =? 0) &&
                clean_jobs w && (ntime_min w =? 1000) && (ntime_max w =? 1002)) <$>
      polled (ingestJobWithPolicy a (inputs 1 77 486604799 999 (repeat 0 32) (repeat 0 32) 0 0 0 0 0 true))).
Example VarDiffAndCapsApplied_passes : VarDiffAndCapsApplied = true. Proof. vm_compute. reflexivity. Qed.

Definition CleanJobsRespectedUnlessForced : bool :=
  let i := inputs 0 88 486604799 1234 (repeat 0 32) (repeat 0 32) 0 0 0 0 0 false in
  let a := setCleanJobs StratumAdapter_init true in
  ok (a1 ← ingestJobWithPolicy a i;
      let '(a1, w1) := pollNormalized a1 in
      w1 ← w1;
      let a2 := setCleanJobs (forceCleanJobs a1 true) true in
      w2 ← polled (ingestJobWithPolicy a2 i);
      Some (negb (clean_jobs w1) && clean_jobs w2)).
Example CleanJobsRespectedUnlessForced_passes : CleanJobsRespectedUnlessForced = true. Proof. vm_compute. reflexivity. Qed.

Definition VarDiffAffectsShareTarget : bool :=
  let a := updateVarDiff StratumAdapter_init 520159231 in
  ok (a ← ingestJobWithPolicy a (inputs 0 99 486604799 100000000 (repeat 0 32) (repeat 0 32) 0 0 0 0 0 true);
      full ← (pollNormalizedFull a).2;
      block ← compactToTargetU32LE 486604799;
      share ← compactToTargetU32LE 520159231;
      Some (eqb (block_target_le (res_item full)) block && eqb (share_target_le (res_item full)) share &&
            negb (eqb block share))).
Example VarDiffAffectsShareTarget_passes : VarDiffAffectsShareTarget = true. Proof. vm_compute. reflexivity. Qed.

Definition IngestAndPoll : bool :=
  let t := 100000000 in
  ok (a ← ingestTemplate (mkGbtAdapter [] None)
            (inputs 2 5001 486604799 t pattern (rev pattern) 503382015 536862720 t (t + 1) 4 true);
      w ← (pollNormalized a).2;
      Some ((work_id w =? 5001) && (source_id w =? 2))).
Example IngestAndPoll_passes : IngestAndPoll = true. Proof. vm_compute. reflexivity. Qed.

Definition SetGetAndGenBump : bool :=
  let jc := GpuJobConst_default in
  let i id := mkWorkItem id 0 0 0 0 0 (repeat 0 8) (repeat 0 8) (repeat 0 8) (repeat 0 8) 0 0 0 0 false false false in
  match reg ← WorkSourceRegistry 2; reg1 ← Registry.set reg 0 (i 42) jc; reg2 ← Registry.set reg1 0 (i 43) jc; inr (reg1, reg2) with
  | inr (reg1, reg2) =>
      ok (s1 ← Registry.get reg1 0; s2 ← Registry.get reg2 0;
          Some ((work_id (item s1) =? 42) && (work_id (item s2) =? 43) && (gen s1 <? gen s2)))
  | inl _ => false
  end.
Example SetGetAndGenBump_passes : SetGetAndGenBump = true. Proof. reflexivity. Qed.

End Jobs.

(** ** Pools and scheduling ([test_pool_profiles.cpp], [test_pool_router.cpp],
    [test_scheduler.cpp], [test_predict_worker.cpp], [test_cache_manager.cpp]) *)

Module Pools.

Definition GenericFormatsWalletWorker : bool :=
  eqb (formatStratumCredentials kGeneric (str "bc1qexampleaddr") (str "rig1") (str "x"))
    (str "bc1qexampleaddr.rig1", str "x").
Example GenericFormatsWalletWorker_passes : GenericFormatsWalletWorker = true. Proof. reflexivity. Qed.

Definition EmptyWorkerOmitsDot : bool :=
  eqb (formatStratumCredentials kGeneric (str "bc1qexampleaddr") [] []) (str "bc1qexampleaddr", str "x").
Example EmptyWorkerOmitsDot_passes : EmptyWorkerOmitsDot = true. Proof. reflexivity. Qed.

Definition FailoverPicksFirstWithWork : bool :=
  ok (a2 ← enqueueDummy StratumAdapter_init 200 486604799; a3 ← enqueueDummy StratumAdapter_init 300 486604799;
      let r := fold_left addAdapter [Some 0; Some 1; Some 2]%nat (mkPoolRouter kFailover [] 0) in
      w ← (pollNext r [StratumAdapter_init; a2; a3]).2;
      Some (work_id w =? 200)).
Example FailoverPicksFirstWithWork_passes : FailoverPicksFirstWithWork = true. Proof. vm_compute. reflexivity. Qed.

Definition RoundRobinAlternates : bool :=
  ok (a1 ← enqueueDummy StratumAdapter_init 101 486604799; a2 ← enqueueDummy StratumAdapter_init 102 486604799;
      let r := fold_left addAdapter [Some 0; Some 1]%nat (mkPoolRouter kRoundRobin [] 0) in
      let '(r, heap, w1) := pollNext r [a1; a2] in
      let '(_, _, w2) := pollNext r heap in
      w1 ← w1; w2 ← w2; Some (negb (work_id w1 =? work_id w2))).
Example RoundRobinAlternates_passes : RoundRobinAlternates = true. Proof. vm_compute. reflexivity. Qed.

Definition snapshot_of (wid sid : Z) : WorkSlotSnapshot :=
  mkWorkSlotSnapshot 0 (mkWorkItem wid sid 0 0 0 0 (repeat 0 8) (repeat 0 8) (repeat 0 8) (repeat 0 8) 0 0 0 0 false false false)
    GpuJobConst_default.

Definition WeightsReplicateIdsWithCap : bool :=
  let snaps := <[10 := snapshot_of 10 1]> (<[20 := snapshot_of 20 2]> (<[30 := snapshot_of 30 1]> ∅)) in
  let s := mkSchedulerState (<[1 := 3]> (<[2 := 1]> ∅)) 0 ∅ 4 in
  let sel := (select s [10; 20; 30] snaps 10).2 in
  (7 <=? length sel)%nat && eqb (take 5 sel) [10; 10; 10; 20; 30].
Example WeightsReplicateIdsWithCap_passes : WeightsReplicateIdsWithCap = true. Proof. vm_compute. reflexivity. Qed.

Import Cache.

Definition evaluates (used util : Z) (throttled may_allocate : bool) (may_release : option bool) : bool :=
  let d := evaluate (mkWatermarks 85 256) (mkGpuTelemetry 8192 used util) in
  eqb (throttle d) throttled && eqb (allowAllocate d) may_allocate &&
  match may_release with Some b => eqb (allowRelease d) b | None => true end.

Definition ThrottleOnHighUtilOrLowFree : bool := evaluates 7800 96 true false None.
Example ThrottleOnHighUtilOrLowFree_passes : ThrottleOnHighUtilOrLowFree = true. Proof. reflexivity. Qed.

Definition AllowAllocateWhenFreeAndUtilOk : bool := evaluates 7600 80 false true (Some true).
Example AllowAllocateWhenFreeAndUtilOk_passes : AllowAllocateWhenFreeAndUtilOk = true. Proof. reflexivity. Qed.

Definition DiscourageReleaseWhenAmpleFreeAndLowUtil : bool := evaluates 7000 60 false true (Some false).
Example DiscourageReleaseWhenAmpleFreeAndLowUtil_passes : DiscourageReleaseWhenAmpleFreeAndLowUtil = true.
Proof. reflexivity. Qed.

Definition VramPagesBasicLifecycle : bool :=
  let '(p, id1) := create VramPages_init 64 in
  let '(p, id2) := create p 128 in
  let '(p, b1) := markInUse p id1 true in
  let '(p, b2) := markInUse p id1 false in
  let '(p, b3) := markInUse p 999999 true in
  let n2 := totalPages p in
  let '(p, d1) := destroy p id1 in
  let n1 := totalPages p in
  let '(p, d2) := destroy p id2 in
  let n0 := totalPages p in
  let d3 := (destroy p id2).2 in
  negb (id1 =? 0) && negb (id2 =? 0) && negb (id1 =? id2) && b1 && b2 && negb b3 &&
  (n2 =? 2) && d1 && (n1 =? 1) && d2 && (n0 =? 0) && negb d3.
Example VramPagesBasicLifecycle_passes : VramPagesBasicLifecycle = true. Proof. vm_compute. reflexivity. Qed.

Definition CacheManagerAllocateReleaseAndWatermarks : bool :=
  let mgr := mkCacheManager (mkWatermarks 85 256) VramPages_init in
  let wm0 := watermarks mgr in
  let mgr := setWatermarks mgr (mkWatermarks 90 512) in
  let wm1 := watermarks mgr in
  let '(mgr, id) := allocate mgr 32 in
  let '(mgr, r1) := release mgr id in
  let r2 := (release mgr id).2 in
  (targetUtilPercent wm0 =? 85) && (minFreeMiB wm0 =? 256) && (targetUtilPercent wm1 =? 90) && (minFreeMiB wm1 =? 512) &&
  negb (id =? 0) && r1 && negb r2.
Example CacheManagerAllocateReleaseAndWatermarks_passes : CacheManagerAllocateReleaseAndWatermarks = true.
Proof. vm_compute. reflexivity. Qed.

Definition CacheManagerMultipleAllocationsUniqueIds : bool :=
  let mgr := mkCacheManager (mkWatermarks 85 256) VramPages_init in
  let '(mgr, ids) := fold_left (fun st (_ : nat) => let '(mgr, ids) := st in
    let '(mgr, id) := allocate mgr 16 in (mgr, ids ++ [id])) (seq 0 10) (mgr, []) in
  let rs := (fold_left (fun st id => let '(mgr, rs) := st in
    let '(mgr, r) := release mgr id in (mgr, rs ++ [r])) ids (mgr, [])).2 in
  forallb (fun id => negb (id =? 0)) ids && bool_decide (NoDup ids) && forallb (fun r => r) rs.
Example CacheManagerMultipleAllocationsUniqueIds_passes : CacheManagerMultipleAllocationsUniqueIds = true.
Proof. vm_compute. reflexivity. Qed.

End Pools.

(** ** Launches and hits ([test_hit_ring.cpp], [test_cuda_launch_plan.cpp],
    [test_cuda_auto_tune.cpp], [test_cuda_perf_sweep.cpp], [test_cuda_device_hash.cpp]) *)

Module Kernels.

Import HitRing Device DeviceDiag.

Definition PushPopBasic : bool :=
  ok (let r := HitRing_init 2 in
      '(r1, over) ← push r (mkHit 1 10);
      '(r2, a) ← tryPop r1;
      a ← a;
      Some (empty r && negb over && (size r1 =? 1)%nat && (hit_work_id a =? 1) && (hit_nonce a =? 10) && empty r2)).
Example PushPopBasic_passes : PushPopBasic = true. Proof. reflexivity. Qed.

Definition OverwriteOldestWhenFull : bool :=
  ok ('(r, _) ← push (HitRing_init 2) (mkHit 1 10);
      '(r, _) ← push r (mkHit 2 20);
      '(r, overwrote) ← push r (mkHit 3 30);
      '(r, a) ← tryPop r;
      '(r, b) ← tryPop r;
      a ← a; b ← b;
      Some (overwrote && (hit_work_id a =? 2) && (hit_nonce a =? 20) && (hit_work_id b =? 3) && (hit_nonce b =? 30) && empty r)).
Example OverwriteOldestWhenFull_passes : OverwriteOldestWhenFull = true. Proof. reflexivity. Qed.

Definition DeviceWriteHitsDemo : bool :=
  ok ('(out, launched) ← launchWriteHitsDemo_cuda [101; 102; 103] 3 1000 (repeat (mkHit 0 0) 3) [0; 1; 2]%nat;
      Some (launched && eqb (map hit_work_id out) [101; 102; 103] && eqb (map hit_nonce out) [1000; 1001; 1002])).
Example DeviceWriteHitsDemo_passes : DeviceWriteHitsDemo = true. Proof. vm_compute. reflexivity. Qed.

Definition ClampThreads : bool :=
  eqb (map clampThreadsPerBlock [1; 64; 1024; 5000]) [64; 64; 1024; 1024].
Example ClampThreads_passes : ClampThreads = true. Proof. reflexivity. Qed.

Definition ComputePlanBasic : bool :=
  ok (p ← computeLaunchPlan 3 1000;
      Some ((num_jobs p =? 3) && (threads_per_block p =? 256) && (0 <? blocks_per_job p))).
Example ComputePlanBasic_passes : ComputePlanBasic = true. Proof. reflexivity. Qed.

Definition ComputeLaunchPlanBasicRanges : bool :=
  forallb (fun desired => ok (p ← computeLaunchPlan 8 desired;
    Some ((1 <=? num_jobs p) && (1 <=? blocks_per_job p) && (1 <=? threads_per_block p) && (threads_per_block p <=? 1024))))
    [64; 128; 256; 512; 1024; 2048].
Example ComputeLaunchPlanBasicRanges_passes : ComputeLaunchPlanBasicRanges = true. Proof. reflexivity. Qed.

(** [garbage] is what the allocated buffer holds. *)
Definition DeviceHitRingLifecycle (garbage : list HitRecord) : bool :=
  ok ('(e, pushed) ← push_engine (initDeviceHitBuffer_engine (mkEngine Device_init false) 8 garbage) [1001; 1002] 5000 [0; 1]%nat;
      '(e, out, drained) ← drain_engine e 8;
      Some (pushed && drained && negb (live (freeDeviceHitBuffer e)) && eqb (map hit_nonce out) [5000; 5001])).
Example DeviceHitRingLifecycle_passes : DeviceHitRingLifecycle (repeat (mkHit 0 0) 8) = true.
Proof. vm_compute. reflexivity. Qed.

Definition auto_tune (observed current next : Z) (inc dec : bool) : bool :=
  let d := autoTuneMicroBatch (mkTuneIn observed 16 current) in
  eqb (increased d) inc && eqb (decreased d) dec && (nextMicroBatch d =? next).

Definition IncreaseWhenUnderBudget : bool := auto_tune 4 8 16 true false.
Example IncreaseWhenUnderBudget_passes : IncreaseWhenUnderBudget = true. Proof. reflexivity. Qed.
Definition DecreaseWhenOverBudget : bool := auto_tune 20 8 4 false true.
Example DecreaseWhenOverBudget_passes : DecreaseWhenOverBudget = true. Proof. reflexivity. Qed.
Definition NoChangeNearBudget : bool := auto_tune 15 8 8 false false.
Example NoChangeNearBudget_passes : NoChangeNearBudget = true. Proof. reflexivity. Qed.
Definition MultiJobStubLaunch : bool := ok (launchMultiJobStub 3 1024).
Example MultiJobStubLaunch_passes : MultiJobStubLaunch = true. Proof. reflexivity. Qed.

(** The jobs of the device tests; the members a test does not set are zero, the big-endian
    share target among them. *)
Definition test_job (version ntime nbits work_id : Z) (midstate : list Z) : DeviceJob :=
  mkDeviceJob version ntime nbits 0 0 0 0 work_id (repeat 0 8) (repeat 0 8) (repeat 4294967295 8) (repeat 4294967295 8)
    midstate (repeat 0 32).

(** The hits drained. *)
Definition mine_stub_hits (garbage : list HitRecord) : option (list HitRecord) :=
  let '(d, _) := uploadDeviceJobs Device_init [test_job 536870912 100000000 520159231 1234 (repeat 0 8)] in
  '(d, _) ← launchMineStub (initDeviceHitBuffer d 8 garbage) 1 0 [0%nat];
  '(_, out, _) ← drainDeviceHits d 8;
  Some out.

Definition MineStubLinksAndRuns : bool := ok ((fun out => (0 <=? zlen out)) <$> mine_stub_hits (repeat (mkHit 0 0) 8)).
Example MineStubLinksAndRuns_passes : MineStubLinksAndRuns = true. Proof. vm_compute. reflexivity. Qed.

(** The comment expects a hit; the test sets only the little-endian target, which no
    kernel compares with. *)
Example mine_stub_finds_nothing : mine_stub_hits (repeat (mkHit 0 0) 8) = Some [].
Proof. vm_compute. reflexivity. Qed.

Definition device_digest (job : DeviceJob) (nonce : Z) : option (list Z) :=
  digest ← computeDeviceHashForJob (uploadDeviceJobs Device_init [job]).1 0 nonce; digest.

Definition DeviceVsCPUConsistencyForZeroHeader : bool :=
  eqb (device_digest (test_job 0 0 0 1 (repeat 0 8)) 0) (Some (sha256 (sha256 (repeat 0 80)))).
Example DeviceVsCPUConsistencyForZeroHeader_passes : DeviceVsCPUConsistencyForZeroHeader = true.
Proof. vm_compute. reflexivity. Qed.

Definition DeviceVsCPUWithMidstate : bool :=
  let header := repeat 0 71 ++ [2; 29; 0; 255; 255; 0; 0; 0; 1] in
  eqb (device_digest (test_job 0 2 486604799 2 (Midstate.Midstate.sha256_midstate_64 header)) 1)
    (Some (sha256 (sha256 header))).
Example DeviceVsCPUWithMidstate_passes : DeviceVsCPUWithMidstate = true. Proof. vm_compute. reflexivity. Qed.

Definition RealHeaderGenesisLikeEquality : bool :=
  match Text.scan_bytes (str "4a5e1e4baab89f3a32518a88c31bc87f618f76673e2cc77ab2127b7afdeda33b") 32 with
  | inr root =>
      let header := [1; 0; 0; 0] ++ repeat 0 32 ++ root ++ [73; 127; 255; 0; 29; 0; 255; 255; 124; 43; 172; 29] in
      eqb (computeDeviceHashForHeader80 header) (sha256 (sha256 header))
  | inl _ => false
  end.
Example RealHeaderGenesisLikeEquality_passes : RealHeaderGenesisLikeEquality = true. Proof. vm_compute. reflexivity. Qed.

End Kernels.

(** ** Files, blocks and the log ([test_store_persistence.cpp], [test_gbt_adapter.cpp],
    [test_gbt_submitter.cpp], [test_log.cpp], [test_headers_build.cpp]) *)

Module Storage.

Import Concrete.

Definition writable : Env := mkEnv (fun _ => true) (fun _ _ => true) (fun _ _ => true).

Definition LedgerSaveLoad : bool :=
  let w := mkWorkItem 123 9 536870912 42 486604799 0 (1 :: repeat 0 7) (2 :: repeat 0 7) (3 :: repeat 0 7) (4 :: repeat 0 7)
             536862720 0 0 4 true true false in
  let '(fs, saved) := Ledger.saveToFile (J := Jv) writable map_to_list (put ∅ w) ∅ "ledger_test.jsonl" in
  let '(loaded, l2) := Ledger.loadFromFile (J := Jv) fs "ledger_test.jsonl" ∅ in
  saved && match loaded with inr b => b | inl _ => false end &&
  ok ((fun got => (source_id got =? 9) && clean_jobs got) <$> Ledger.get l2 123).
Example LedgerSaveLoad_passes : LedgerSaveLoad = true. Proof. vm_compute. reflexivity. Qed.

Import Outbox.

Definition OutboxAppendAndLoad : bool :=
  let s := mkPendingSubmit 55 3735928559 (map Z.of_nat (seq 0 80)) in
  let '(fs, appended) := appendToFile writable ∅ "outbox_test.bin" s in
  let '(ob2, loaded) := Outbox.loadFromFile Outbox_init fs "outbox_test.bin" in
  appended && loaded &&
  ok ((fun d => (Outbox.work_id d =? 55) && (Outbox.nonce d =? 3735928559) && eqb (header80 d !! 0%nat) (Some 0) &&
                eqb (header80 d !! 79%nat) (Some 79)) <$> (tryDequeue ob2).2).
Example OutboxAppendAndLoad_passes : OutboxAppendAndLoad = true. Proof. vm_compute. reflexivity. Qed.

(** Whatever the file system answers to the rename and the copy, as long as one works. *)
Definition OutboxRotateFile (env : Env) : bool :=
  let s := mkPendingSubmit 1 2 (repeat 170 80) in
  let '(fs, appended) := appendToFile env ∅ "src.bin" s in
  let '(fs, rotated) := rotateFile env fs "src.bin" "dst.bin" in
  appended && rotated && ok ((fun b => 92 <=? zlen b) <$> fs !! "dst.bin"%string) &&
  default true ((fun b => zlen b =? 0) <$> fs !! "src.bin"%string).
Example OutboxRotateFile_passes :
  OutboxRotateFile writable = true /\
  OutboxRotateFile (mkEnv (fun _ => true) (fun _ _ => false) (fun _ _ => true)) = true.
Proof. vm_compute. done. Qed.

(** When neither works the file is truncated all the same, and the test fails. *)
Example OutboxRotateFile_loses_record :
  OutboxRotateFile (mkEnv (fun _ => true) (fun _ _ => false) (fun _ _ => false)) = false.
Proof. vm_compute. reflexivity. Qed.

Definition BuildBlockHexScaffold : bool := 162 <=? zlen (buildBlockHex GbtSubmitter_init (repeat 0 80)).
Example BuildBlockHexScaffold_passes : BuildBlockHexScaffold = true. Proof. vm_compute. reflexivity. Qed.

Definition zero_commitment : list Z := repeat 48 64.

(** The text searched for is the wrong push: 38 bytes announced, 36 written. *)
Definition BuildMinimalWitnessCommitmentCoinbase : bool :=
  ok (tx ← buildMinimalWitnessCommitmentCoinbase 0 zero_commitment;
      Some ((100 <=? zlen tx) && bool_decide (is_Some (find_sub (str "6a26aa21a9ed") tx)))).
Example BuildMinimalWitnessCommitmentCoinbase_passes : BuildMinimalWitnessCommitmentCoinbase = true.
Proof. vm_compute. reflexivity. Qed.

Definition BuildCoinbaseTxWithPayoutAndCommitment : bool :=
  ok (tx ← buildCoinbaseTx 1 (str "76a914" ++ repeat 48 40 ++ str "88ac") 5000000000 zero_commitment [];
      Some (bool_decide (is_Some (find_sub (str "76a914") tx)) && bool_decide (is_Some (find_sub (str "6a24aa21a9ed") tx)))).
Example BuildCoinbaseTxWithPayoutAndCommitment_passes : BuildCoinbaseTxWithPayoutAndCommitment = true.
Proof. vm_compute. reflexivity. Qed.

Definition SubmitRequiresCoinbase : bool :=
  negb (submitHeader (J := Jv) (fun (r : unit) _ _ => (r, Some JNull)) GbtSubmitter_init tt (repeat 0 80)).2.
Example SubmitRequiresCoinbase_passes : SubmitRequiresCoinbase = true. Proof. reflexivity. Qed.

Definition SynthCoinbaseFlagControlsBuild : bool :=
  let gbt := JObj [("default_witness_commitment"%string, JStr zero_commitment); ("height"%string, JNum 100)] in
  let built allow := hasCoinbase (updateTemplate (J := Jv) gbt (setAllowSynthCoinbase GbtSubmitter_init allow)).2 in
  negb (built false) && built true.
Example SynthCoinbaseFlagControlsBuild_passes : SynthCoinbaseFlagControlsBuild = true. Proof. vm_compute. reflexivity. Qed.

Definition JsonShape : bool :=
  match Log.info (J := Jv) None 0 (Log.mkLogger (str "test")) (str "hello") [("k"%string, JNum 1)] ∅ with
  | inr (_, line) =>
      match parse (J := Jv) line with
      | Some (JObj members) => forallb (fun k => existsb (fun m => String.eqb m.1 k) members) ["level"; "component"; "msg"]%string
      | _ => false
      end
  | inl _ => false
  end.
Example JsonShape_passes : JsonShape = true. Proof. vm_compute. reflexivity. Qed.

(** The test that the headers can be used expands the target of no bits at all. *)
Definition Presence : bool :=
  ok ((fun _ => true) <$> compactToTargetU32LE 0) &&
  match WorkSourceRegistry 1 with inr _ => true | inl _ => false end && (1 <=? length (pools loadDefault))%nat.
Example Presence_passes : Presence = true. Proof. vm_compute. reflexivity. Qed.

End Storage.
