(* ===== verification/Regtest.v ===== *)
(** * The two tests against a running node ([tests/test_gbt_regtest_e2e.cpp],
    [test_gbt_regtest_pow_submit.cpp])

    Each test is a function of the environment variables that enable it, of the files it
    can read and of the sockets it connects.  Their outcome is proved for any node, and
    evaluated against a scripted one. *)

From stdpp Require Import base numbers list option gmap strings pretty.
From S2P Require Import Prelude FileSys Endian Targets Sha256 CpuVerify Json Hex Text GbtSubmitter Net Config GbtRunner Runner.

Open Scope Z_scope.
Open Scope cxx_scope.

(** ** The tests *)

(** A test that throws is [inl]. *)
Inductive Outcome := Skipped (why : list Z) | Passed | Failed.

Record TestEnv := mkTestEnv {
  BMAD_REGTEST_RPC_URL : option (list Z);
  BMAD_REGTEST_COOKIE : option (list Z);
  BMAD_REGTEST_MAX_ITERS : option (list Z) }.

Definition getenv_str (v : option (list Z)) : list Z := default [] v.

(** Two digits at a time; the vector has one byte per pair. *)
Definition test_hexToBytes (hex : list Z) : throws (list Z) := scan_bytes hex (length hex / 2).

Definition store_u32_be (v : Z) : list Z :=
  [u8 ((v .>> 24) .& 255); u8 ((v .>> 16) .& 255); u8 ((v .>> 8) .& 255); u8 (v .& 255)].

(** [atoi] of a number out of range is undefined; text that is no number counts as zero. *)
Definition max_iters (mi : option (list Z)) : throws Z :=
  match mi with
  | None => mret 2000000
  | Some s => match stoi_text s with
              | inr v => mret (Z.max 1000 v)
              | inl e => if decide (e = out_of_range) then inl undefined_behaviour else mret 1000
              end
  end.

(** The client of the test itself. *)
Definition test_rpc (url cookie : list Z) : RpcClient :=
  let rpc := RpcClient_new url in
  match cookie with [] => rpc | _ => setCookieAuthFile rpc (text_string cookie) end.

(** The configuration of the submitter: the URL and the word cookie, no path. *)
Definition test_submitter_config (url : list Z) : RpcConfig := mkRpcConfig url false (str "cookie") [] [] [].

(** The header without its nonce. *)
Record HeaderFields := mkHeaderFields {
  f_version : Z; f_prev : list Z; f_root : list Z; f_ntime : Z; f_nbits : Z }.

Definition test_header (f : HeaderFields) (nonce : Z) : list Z :=
  store_u32_be (f_version f) ++ f_prev f ++ f_root f ++ store_u32_be (f_ntime f) ++
  store_u32_be (f_nbits f) ++ store_u32_be nonce.

(** [for (int i = 0; i < max_iters; ++i)], with the nonce at which it breaks. *)
Fixpoint search_nonce (hits : Z -> bool) (iters : nat) (i : Z) : option Z :=
  match iters with
  | O => None
  | S iters => if hits (u32 i) then Some (u32 i) else search_nonce hits iters (i + 1)
  end.

Definition meets (f : HeaderFields) (target_le : list Z) (nonce : Z) : bool :=
  isHashLEQTarget (sha256 (sha256 (test_header f nonce))) target_le.

Section Tests.
Context {K J : Type} `{ISocket K, Json J}.
Context (fuel : nat) (fs : FS) (home : option string).

Definition e2e_params : J :=
  jarray [jobject [("rules"%string, jarray [jstring (str "segwit")]);
                   ("capabilities"%string, jarray [jstring (str "coinbasetxn")])]].

Definition pow_params : J := jarray [jobject [("rules"%string, jarray [jstring (str "segwit")])]].

(** [rpc_.call] on a socket of [mk]: the state is the client, [inl] after an exception and
    [None] while the response has not ended. *)
Definition call_on (mk : bool -> option K) (rpc : option (throws RpcClient)) (method : list Z) (params : J) :
    option (throws RpcClient) * option J :=
  match rpc with
  | Some (inr c) =>
      match call mk fuel fs home c method params with
      | None => (None, None)
      | Some (_, _, inl e) => (Some (inl e), None)
      | Some (c, _, inr r) => (Some (inr c), r)
      end
  | _ => (rpc, None)
  end.

Definition SmokeFetchTemplateAndBuildBlockHex (env : TestEnv) (mk : bool -> option K) : option (throws Outcome) :=
  match getenv_str (BMAD_REGTEST_RPC_URL env) with
  | [] => Some (inr (Skipped (str "BMAD_REGTEST_RPC_URL not set")))
  | url =>
      '(_, _, tmpl) ← call mk fuel fs home (test_rpc url (getenv_str (BMAD_REGTEST_COOKIE env)))
                        (str "getblocktemplate") e2e_params;
      match tmpl with
      | inl e => Some (inl e)
      | inr None => Some (inr Failed)
      | inr (Some tmpl) =>
          match updateTemplate tmpl (setAllowSynthCoinbase GbtSubmitter_init true) with
          | (inl e, _) => Some (inl e)
          | (inr _, sub) =>
              Some (inr (if 160 <=? zlen (buildBlockHex sub (repeat 0 80)) then Passed else Failed))
          end
      end
  end.

(** The header fields of the template; [None]: a hash is not 32 bytes. *)
Definition template_fields (T : J) : throws (option HeaderFields) :=
  version ← (v ← idx T "version"; v ← get_int 32 v; mret (u32 v));
  prevhash_hex ← (v ← idx T "previousblockhash"; get_string v);
  merkleroot_hex ← (v ← idx T "merkleroot"; get_string v);
  ntime ← (v ← idx T "curtime"; v ← get_int 64 v; mret (u32 v));
  nbits ← (v ← idx T "bits"; s ← get_string v; v ← stoul16 s; mret (u32 v));
  prev ← test_hexToBytes prevhash_hex;
  mr ← test_hexToBytes merkleroot_hex;
  mret (if (zlen prev =? 32) && (zlen mr =? 32) then Some (mkHeaderFields version prev mr ntime nbits) else None).

(** From the submitter that has the template: search and submit.  The result is the
    outcome and the submitter's client. *)
Definition pow_submit (iters : Z) (T : J) (sub : GbtSubmitter) (url : list Z) (mk : bool -> option K) :
    throws (Outcome * option (throws RpcClient)) :=
  let rpc := Some (inr (submitter_rpc (test_submitter_config url))) in
  f ← template_fields T;
  match f with
  | None => mret (Failed, rpc)
  | Some f =>
      match compactToTargetU32LE (f_nbits f) with
      | None => inl undefined_behaviour
      | Some target_le =>
          match search_nonce (meets f target_le) (Z.to_nat iters) 0 with
          | None => mret (Skipped (str "did not find POW within BMAD_REGTEST_MAX_ITERS"), rpc)
          | Some nonce =>
              let '(rpc, ok) := submitHeader (call_on mk) sub rpc (test_header f nonce) in
              mret (if ok : bool then Passed else Failed, rpc)
          end
      end
  end.

(** [mk1] and [mk2] make the sockets of the two calls. *)
Definition POWSubmitblockAcceptance_EnvGated (env : TestEnv) (mk1 mk2 : bool -> option K) : option (throws Outcome) :=
  match getenv_str (BMAD_REGTEST_RPC_URL env) with
  | [] => Some (inr (Skipped (str "BMAD_REGTEST_RPC_URL not set")))
  | url =>
      match max_iters (BMAD_REGTEST_MAX_ITERS env) with
      | inl e => Some (inl e)
      | inr iters =>
          '(_, _, tmpl) ← call mk1 fuel fs home (test_rpc url (getenv_str (BMAD_REGTEST_COOKIE env)))
                            (str "getblocktemplate") pow_params;
          match tmpl with
          | inl e => Some (inl e)
          | inr None => Some (inr Failed)
          | inr (Some T) =>
              if negb (contains T "coinbasetxn") then Some (inr (Skipped (str "coinbasetxn not provided by node")))
              else
                match updateTemplate T GbtSubmitter_init with
                | (inl e, _) => Some (inl e)
                | (inr _, sub) =>
                    if negb (hasCoinbase sub) then Some (inr Failed)
                    else
                      match pow_submit iters T sub url mk2 with
                      | inl e => Some (inl e)
                      | inr (_, Some (inl e)) => Some (inl e)
                      | inr (_, None) => None
                      | inr (out, _) => Some (inr out)
                      end
                end
          end
      end
  end.

End Tests.

(** ** The search *)

Lemma search_nonce_spec hits n i :
  0 <= i -> i + Z.of_nat n <= 2 ^ 32 ->
  match search_nonce hits n i with
  | Some k => i <= k < i + Z.of_nat n /\ hits k = true /\ forall j, i <= j < k -> hits j = false
  | None => forall j, i <= j < i + Z.of_nat n -> hits j = false
  end.
Proof.
  revert i. induction n as [|n IH]; intros i Hi Hn; cbn [search_nonce]; [lia|].
  rewrite u32_small by (unfold in_u; lia).
  destruct (hits i) eqn:E; [split; [lia|]; split; [done|lia]|].
  specialize (IH (i + 1) ltac:(lia) ltac:(lia)). destruct (search_nonce hits n (i + 1)) as [k|].
  - destruct IH as (Hk & Hh & Hl). split; [lia|]. split; [done|]. intros j Hj.
    destruct (decide (j = i)) as [->|]; [done|apply Hl; lia].
  - intros j Hj. destruct (decide (j = i)) as [->|]; [done|apply IH; lia].
Qed.

Lemma stoi_text_range s v : stoi_text s = inr v -> - 2 ^ 31 <= v < 2 ^ 31.
Proof.
  unfold stoi_text. destruct (match skip_space s with [] => _ | _ => _ end) as [neg s']. destruct (span dec_digit s') as [ds ?].
  destruct ds as [|d ds]; [done|]. generalize (fold_left (fun a d => a * 10 + (d - 48)) (d :: ds) 0). intros z.
  destruct (_ && _) eqn:E; [|done]. intros [= <-]. apply andb_prop in E as [?%Z.leb_le ?%Z.ltb_lt]. lia.
Qed.

Lemma max_iters_range mi v : max_iters mi = inr v -> 1000 <= v < 2 ^ 31.
Proof.
  unfold max_iters. destruct mi as [s|]; [|intros [= <-]; lia].
  destruct (stoi_text s) as [e|w] eqn:E; [case_decide; [done|]; intros [= <-]; lia|].
  intros [= <-]. apply stoi_text_range in E. lia.
Qed.

(** ** Outcomes *)

Section Outcomes.
Context {K J : Type} `{ISocket K, Json J}.
Context (fuel : nat) (fs : FS) (home : option string).

Lemma updateTemplate_throws (T : J) s e s' : updateTemplate T s = (inl e, s') -> e = undefined_behaviour.
Proof.
  unfold updateTemplate, mbind, M_bind, modify, mcatch.
  match goal with |- context [match ?m with _ => _ end = _] => destruct m as [[[]|] ?] end; cbn; intros E; simplify_eq; done.
Qed.

Lemma buildBlockHex_length s header : length header = 80%nat -> 160 <= zlen (buildBlockHex s header).
Proof.
  intros Hl. unfold buildBlockHex, leHexFromHeaderBE. rewrite length_app, take_ge by lia.
  fold (bytesToHex header). rewrite bytesToHex_length. lia.
Qed.

(** The smoke test depends on the node only for an answer: whatever the template is, it
    passes, unless a lookup in it is undefined. *)
Theorem smoke_passes_on_any_template (env : TestEnv) (mk : bool -> option K) url c k T :
  BMAD_REGTEST_RPC_URL env = Some url -> url <> [] ->
  call mk fuel fs home (test_rpc url (getenv_str (BMAD_REGTEST_COOKIE env))) (str "getblocktemplate") e2e_params
    = Some (c, k, inr (Some T)) ->
  SmokeFetchTemplateAndBuildBlockHex (J := J) fuel fs home env mk = Some (inr Passed) \/
  SmokeFetchTemplateAndBuildBlockHex (J := J) fuel fs home env mk = Some (inl undefined_behaviour).
Proof.
  intros Hu Hne Hc. unfold SmokeFetchTemplateAndBuildBlockHex. rewrite Hu. cbn [getenv_str default from_option id].
  destruct url as [|u url]; [done|]. rewrite Hc. cbn [mbind option_bind].
  destruct (updateTemplate T _) as [[e|[]] sub] eqn:E; [right; by apply updateTemplate_throws in E as ->|left].
  rewrite (proj2 (Z.leb_le 160 _)); [done|]. apply buildBlockHex_length. done.
Qed.

(** The search submits the header of the least nonce that meets the target and no other,
    sends nothing when there is none among the tries, and passes whenever the node gives
    any result: the reason of a rejected block is a result too. *)
Theorem pow_submits_least_nonce (mk : bool -> option K) iters T f target_le sub url :
  template_fields T = inr (Some f) -> compactToTargetU32LE (f_nbits f) = Some target_le ->
  0 <= iters < 2 ^ 31 -> hasCoinbase sub = true ->
  let rpc := Some (inr (submitter_rpc (test_submitter_config url))) in
  (exists n rpc' r, 0 <= n < iters /\ meets f target_le n = true /\
     (forall m, 0 <= m < n -> meets f target_le m = false) /\
     call_on fuel fs home mk rpc (str "submitblock") (jarray [jstring (buildBlockHex sub (test_header f n)) : J]) = (rpc', r) /\
     pow_submit fuel fs home iters T sub url mk = inr (if r is Some _ then Passed else Failed, rpc')) \/
  ((forall m, 0 <= m < iters -> meets f target_le m = false) /\
   exists why, pow_submit fuel fs home iters T sub url mk = inr (Skipped why, rpc)).
Proof.
  intros Hf Ht Hi Hcb rpc. unfold pow_submit. rewrite Hf. cbn [mbind throws_bind]. rewrite Ht.
  pose proof (search_nonce_spec (meets f target_le) (Z.to_nat iters) 0 ltac:(lia) ltac:(lia)) as Hs.
  rewrite Z2Nat.id in Hs by lia. destruct (search_nonce _ _ _) as [n|].
  - left. destruct Hs as (Hn & Hh & Hl).
    destruct (call_on fuel fs home mk rpc (str "submitblock") (jarray [jstring (buildBlockHex sub (test_header f n)) : J]))
      as [rpc' r] eqn:E.
    exists n, rpc', r. split; [lia|]. split; [done|]. split; [exact Hl|]. split; [done|].
    unfold submitHeader. rewrite Hcb. cbn [negb]. unfold rpc in E. rewrite E. by destruct r.
  - right. split; [exact Hs|]. by eexists.
Qed.

(** The submitter is not told the cookie file of the test: without the default file its
    call fails before it connects, whatever the test's own client could read. *)
Lemma submitter_ignores_cookie (mk : bool -> option K) url method (params : J) :
  fs !! detectDefaultCookiePath home = None ->
  (call_on fuel fs home mk (Some (inr (submitter_rpc (test_submitter_config url)))) method params).2 = None.
Proof.
  intros Hf. unfold call_on, call, ensureCookie.
  change (username_ (submitter_rpc (test_submitter_config url))) with (@nil Z).
  change (cookie_path_ (submitter_rpc (test_submitter_config url))) with ""%string.
  cbn [String.eqb]. by rewrite Hf.
Qed.

End Outcomes.

(** ** A scripted node *)

Module Node.
Import Concrete.

Definition url : list Z := str "http://127.0.0.1:18443".
Definition env : TestEnv := mkTestEnv (Some url) (Some (str "regtest.cookie")) (Some (str "1000")).
Definition answer (result : Jv) : list Z :=
  str "HTTP/1.1 200 OK" ++ crlf ++ crlf ++ dump (JObj [("result"%string, result); ("error"%string, JNull)]).
Definition peer (result : Jv) : bool -> option Script :=
  fun _ => Some (mkScript [] [EData (answer result)] 4096).

(** A template with the easiest target. *)
Definition template : Jv :=
  JObj [("coinbasetxn", JObj [("data", JStr (str "00"))]); ("version", JNum 536870912);
        ("previousblockhash", JStr (repeat 48 64)); ("merkleroot", JStr (repeat 49 64));
        ("curtime", JNum 1700000000); ("bits", JStr (str "207fffff"))]%string.

Definition cookies (paths : list string) : FS := list_to_map (map (fun p => (p, str "user:pw")) paths).
Definition both : FS := cookies ["regtest.cookie"; "/root/.bitcoin/.cookie"]%string.
Definition own : FS := cookies ["regtest.cookie"]%string.
Definition run (fs : FS) (verdict : Jv) : option (throws Outcome) :=
  POWSubmitblockAcceptance_EnvGated (K := Script) (J := Jv) 100 fs (Some "/root"%string) env (peer template) (peer verdict).

Example smoke_passes :
  SmokeFetchTemplateAndBuildBlockHex (K := Script) (J := Jv) 100 own None env (peer template) = Some (inr Passed).
Proof. vm_compute. reflexivity. Qed.

Example without_node :
  POWSubmitblockAcceptance_EnvGated (K := Script) (J := Jv) 0 ∅ None (mkTestEnv None None None) (peer JNull) (peer JNull)
  = Some (inr (Skipped (str "BMAD_REGTEST_RPC_URL not set"))).
Proof. reflexivity. Qed.

(** An accepted block passes, and so does a rejected one. *)
Example pow_passes : run both JNull = Some (inr Passed) /\ run both (JStr (str "high-hash")) = Some (inr Passed).
Proof. vm_compute. done. Qed.

(** With the cookie only where the environment says, the template is fetched and the
    submission fails. *)
Example pow_cookie_lost : run own JNull = Some (inr Failed).
Proof. vm_compute. reflexivity. Qed.

End Node.
